(* ===== verification/_CoqProject ===== *)
-Q . S2P
Prelude.v
GoBytes.v
BNode.v
KVSpec.v
BNodeFacts.v
BSplitFacts.v
BTree.v
BTreeRep.v
MemStore.v
BTreeInsert.v
BTreeMap.v
BTreeDelete.v
BTreeMapDelete.v
BTreeProps.v
BIter.v
BIterFacts.v
BIterProps.v
Encode.v
EncodeFacts.v
EncodeProps.v
Conflict.v
ConflictFacts.v
ConflictProps.v
Pager.v
PagerFacts.v
FreeListFacts.v
FreeListOps.v
PagerStore.v
CowStore.v
StmtScanner.v
Json.v
QLNode.v
Eval.v
EvalFacts.v
EvalProps.v
PagerProps.v
KV.v
KVFacts.v
KVCommit.v
KVProps.v
KVTX.v
KVTXFacts.v
KVTXProps.v
Flush.v
Reopen.v
Crash.v
Replay.v
CommitFacts.v
CommitProps.v
RangeFacts.v
RangeProps.v
KVView.v
Parser.v
ParserFacts.v
ParserExpr.v
ParserProps.v
Schema.v
JsonFacts.v
SchemaFacts.v
SchemaProps.v
RowFacts.v
TableSpec.v
Table.v
TableFacts.v
TableUpdate.v
TableProps.v
Display.v
Exec.v
ScanProps.v
TableScan.v
ExecGrows.v
Cmd.v
ExecProps.v
ParsedProps.v
TableQuery.v
Catalog.v
LoopScan.v
DeleteStmt.v
InsertStmt.v
UpdateStmt.v
