(* ===== verification/Prelude.v ===== *)
(** * A verification development for mini-database-v2

    The program (src/, Go) is a relational database in one file: a
    copy-on-write B+tree of 4096-byte pages, a free list, two-phase commits,
    snapshot transactions with conflict detection, tables with secondary
    indexes, and a small query language.  This library models it from the bytes
    of a page up to statements and the prompt, and proves what makes it
    correct.

    ** Reading guide: files, in order, and the code they model

    The foundations:
    - Prelude.v: the result type [res] (a value, a panic, or a fuel bound that
      was too small), machine integers, lists with [Z] lengths, automation.
    - GoBytes.v: Go byte slices, [bytes.Compare], [encoding/binary].

    The tree (btree.go, btree_iter.go):
    - BNode.v: the accessors and operations of a node, on bytes.
      KVSpec.v: sorted association lists, the specification of a node and of a
      tree.  BNodeFacts.v, BSplitFacts.v: what the node operations do to the
      list of a node's entries, and when splitting succeeds.
    - BTree.v: [Get], [Update], [Delete] over a page store, a type class of
      the three callbacks of [BTree].  BTreeRep.v: the representation of a map
      by a tree of pages, with disjoint pages for disjoint subtrees;
      [PageStoreOk], what a store promises.  BTreeInsert.v, BTreeMap.v,
      BTreeDelete.v, BTreeMapDelete.v: the refinement.  BTreeProps.v: C1-C3,
      the operations refine those of a finite map.
    - MemStore.v (transaction.go, [Begin]): the in-memory store of pending
      updates.
    - BIter.v: iterators, as paths of nodes with positions.  BIterFacts.v: a
      path stands for an index into the list of pairs, and [iterNext] and
      [iterPrev] move it.  BIterProps.v: [SeekLE] and [Seek], moves and walks
      over a range for trees of at most two levels ([iterator_moves],
      [Seek_exact], [walk_range]), and what happens with three
      ([deep_iteration_stuck]).

    Keys, conflicts and pages (table.go, transaction.go, kv.go, free_list.go):
    - Encode.v, EncodeFacts.v, EncodeProps.v: the order-preserving key
      encoding, C17-C19.
    - Conflict.v, ConflictFacts.v, ConflictProps.v: versions, history and
      conflict detection as a step relation, C20, C21.
    - Pager.v: pages of the file, pending updates, the free list.
      PagerFacts.v, FreeListFacts.v: one page, the list as a queue;
      FreeListOps.v: what each operation does to it, and what it keeps of the
      list at the start of a commit.  PagerStore.v: the pages of the file are a
      page store for the tree; PagerProps.v: C25, C26. CowStore.v: while a
      commit replays its updates, the pages of the tree before it are not
      written.
    - KV.v, KVFacts.v, KVCommit.v, KVProps.v: the file, its mappings, the meta
      page, opening and the two-phase commit under system calls that may fail,
      C27, C28.
    - KVTX.v, KVTXFacts.v, KVTXProps.v: transactions over a snapshot and a
      tree of pending updates, C29-C32.
    - Commit from end to end (transaction.go, kv.go).  Flush.v: what it means
      that a database holds a map ([db_holds]), and that writing the pending
      pages keeps it.  Reopen.v: opening a file whose meta page was saved gives
      back the database.  Crash.v: what a commit whose system calls fail leaves
      in the file: each byte is an old one or the one that was to be written
      there ([torn]), and the free list of before is still in it.  Replay.v:
      the loop over the pending updates applies them to the tree of the file.
      CommitFacts.v, CommitProps.v: C4, a commit is atomic; C5, it is durable;
      C6, a crash during a commit leaves the map before or after it; C7, after
      a failure the next commit goes through; C40, a commit that conflicts is
      refused and undone.
    - RangeFacts.v, RangeProps.v (transaction.go, [CombinedIter]): C16, a range
      query of a transaction is the merge of its updates and its snapshot.
      KVView.v: insertion reaches the store only through its callbacks;
      [KVPromise], what a transaction promises to the tables above it.

    The query language (ql_parse.go, ql_exec.go):
    - StmtScanner.v: classes of characters; cutting input into statements, C22.
    - QLNode.v: values, expressions and statements.  Eval.v, EvalFacts.v,
      EvalProps.v: the evaluator against a reference semantics, C23, C24.
    - Parser.v, ParserFacts.v, ParserExpr.v, ParserProps.v: the parser of
      statements, C33.

    Tables and statements (table.go, ql_exec.go, utils.go, cmd/ql.go):
    - Json.v, JsonFacts.v: the parts of [encoding/json] that schemas use.
      Schema.v, SchemaFacts.v, SchemaProps.v: checking and storing a schema,
      C34, C35.
    - RowFacts.v, TableSpec.v: rows, and a table as a map from primary keys to
      rows with the keys that the store holds for it.  Table.v: tables and
      secondary indexes over a transaction, scans, the cache of schemas.
      TableFacts.v, TableUpdate.v, TableProps.v: C9, C10, updating and
      deleting rows refines the map.
    - Display.v, Exec.v, Cmd.v: printing, statements and the executor, the
      prompt one line at a time.  ScanProps.v: C36, scans with filter, offset
      and limit over any source of rows.  ExecGrows.v: a program logic for
      statements that only add to their transaction; ExecProps.v: C37-C39,
      failed statements are undone, the protocol of transactions, the counts
      of a result.  ParsedProps.v: what the parser guarantees to the executor
      ([initScanner_range], [select_columns]).
    - TableScan.v, TableQuery.v: over the range queries of RangeProps.v, a scan
      of an index yields the rows of the table in the range, in order, and a
      parsed scan the query it says, C8; [dbGet] is lookup, C11.
    - LoopScan.v: a loop over a scan of the first index visits the rows of the
      table before the statement, although it changes them on the way.
      InsertStmt.v, UpdateStmt.v, DeleteStmt.v: the statements that write, as
      folds over the map of rows, C12, C13, C14.
    - Catalog.v: the internal tables of schemas and of the next prefix; C15,
      creating a table.

    ** How the parts interact

    [KV] owns the pages and the free list, which are the store of the tree of
    the file; a transaction reads that tree through a snapshot of the root and
    of the mappings, and writes to a tree in memory over the same code.
    [kv_Commit] replays the pending tree into the file's tree, then
    [updateOrRevert] writes pages, synchronizes, and replaces the meta page.
    A table is a set of ranges of keys in a transaction; a statement is parsed,
    then run over the tables of one transaction, which the executor commits or
    aborts.

    The interfaces are type classes.  [PageStoreOk]: the tree's theorems are
    proved against it, and MemStore.v and PagerStore.v discharge it; reading
    needs [PageReadOk] only, which snapshots satisfy.  [KVPromise]: the
    theorems on tables are proved against it, and [KVView.tx_promise]
    discharges it from the theorems on transactions.  [RowList]: scans are
    proved against a source that yields a list of rows, and
    [TableScan.table_rows] discharges it for the scanner of a table.  The
    contract [TableScan.range_view], that range queries show a map, stands
    between tables and transactions ([tx_range_view]).

    ** Choices

    - Go values: [uint16], [uint64] and [int64] are [Z] with the wrap-around
      written at each operation; a slice is the list of its bytes; a panic
      (failed [assert], index out of range) is the result [Panic].
    - Loops and recursion that are not structural take a bound; [NoFuel] is
      never a result of the program, and the theorems state that the results
      are [Ok].  The depth of a tree is its height plus one; loops over an
      input, and the nesting of expressions, are bounded by its length.
    - A panic of [nodeSplit3] is possible for large pairs
      ([BTreeProps.nodeSplit3_can_panic]), so insertion is stated for pairs
      of at most 278 bytes, of which any number can be stored (in a transaction
      one of them is the flag, which leaves 277: C9, C12-C15, C30, C31 are for
      keys, rows and index keys of that size, and longer ones may be refused,
      or panic).  Deletion can
      panic when a longer separator moves into a full parent
      ([BTreeProps.nodeDelete_can_panic]); its theorem bounds the key that
      follows.
    - [iterNext] loses its place past the end of a tree of three levels
      ([BIterProps.deep_iteration_stuck]),
      so the theorems on iterators are for at most two.
    - [dbDelete] names old values by the order of the schema, so its theorem
      (C10) is for tables whose primary key columns come first; so are those of
      UPDATE, which stores values by that order, and DELETE (C13, C14).
    - The order of Go's map iteration and [slices.SortFunc] are parameters with
      their documented laws as hypotheses; each property that has them has a
      witness with concrete functions.

    ** Not modelled

    - The mutexes, the lock of the schema cache and goroutines: each method is
      one step, and interleavings are sequences of whole methods.
    - System calls beyond success, failure and short writes (opening the file
      and its directory, src/db/file.go).
    - What [TableNew] does through a slice that is a part of a page of pending
      updates ([PutUint32_row] in Table.v): that takes a counter of prefixes of
      33686018 or more whose bytes need no escape.  The fault of the same write
      to a page of the snapshot is modelled ([Catalog.counter_fault]); C15
      assumes a smaller counter.  Elsewhere no slice of a page is written.
    - The terminal of the prompt and [main] (src/cmd/ql.go): raw mode and
      reading lines; the steps taken for a line are modelled.
    - [encoding/json] beyond what schemas written by the program need (field
      names that differ in case, numbers that are not integers).

    ** Limits of the theorems on commits

    - The tree of pending updates has at most two levels (its iterator does
      not reach the end of a larger one), and a deleted key is no shorter
      than the keys after it (see [nodeDelete_can_panic]).
    - No write to come is cut short without an error ([full_writes]).  The
      model has such writes ([IoShort]), but the code discards the count that
      [Pwrite] returns and reports success ([KVProps.short_write_unnoticed]).
    - A crash is a system call that fails with all those after it left out;
      what was written before is in the file.  Writes reach the file in the
      order of the calls, so the reordering of unsynchronized writes by the
      system is covered only as far as the order of the pages is a parameter.
      C6 assumes that the file is a number of whole pages afterwards: [Open]
      refuses any other file.  It is for files that have a tree; a first commit
      that fails can leave a file without a meta page, which [Open] refuses.
    - What a commit leaves that fails while the meta page is still to be
      repaired is in [KVProps.failed_repair_keeps_updates] only.

    ** The empty key

    The sentinel of each tree has it.  As soon as a transaction has pending
    updates, [Get], [Update] and [Del] of the empty key meet the sentinel,
    whose value has no flag byte, and panic; a range from it with [>=] starts
    at the sentinel and yields nothing.  C16 and C29-C31 state this; keys of
    tables start with a prefix and are never empty.

    ** Limits of the theorems on reading tables

    - [range_view] is discharged for transactions that have deleted no key: a
      deleted key is still shown by an iterator, with an empty value, and
      decoding it panics ([TableQuery.deleted_row_panics]).  (Updating a row
      deletes the old keys of its secondary indexes.)
    - The trees have at most two levels; the theorem on range queries itself,
      C16, also takes larger trees when the range ends before their last key.

    - UPDATE and DELETE: the range is one of the first index.  A scan of a
      secondary index looks up each row in the transaction that the loop is
      changing.  The schema is in the cache or is an internal table.

    ** Open

    UPDATE and DELETE over a secondary index. *)

From Stdlib Require Export ZArith Lia List.
From stdpp Require Export base tactics option list list_numbers gmap strings sorting.
#[global] Open Scope Z_scope.

(** ** Results of Go code

    A Go function either returns, or panics (a failed [assert], an
    out-of-range index, an explicit [panic]).  [NoFuel] is not a behaviour of
    the program: it is what a definition with a recursion bound answers when
    the bound was too small, kept apart from both so that no theorem can
    mistake it for either. *)
Inductive res (A : Type) : Type :=
| Ok (a : A)
| Panic
| NoFuel.
Arguments Ok {A} a.
Arguments Panic {A}.
Arguments NoFuel {A}.

#[global] Instance res_ret : MRet res := fun A a => Ok a.
#[global] Instance res_bind : MBind res := fun A B f m =>
  match m with Ok a => f a | Panic => Panic | NoFuel => NoFuel end.
#[global] Instance res_fmap : FMap res := fun A B f m =>
  match m with Ok a => Ok (f a) | Panic => Panic | NoFuel => NoFuel end.

(** The repository's [assert] (src/db/utils.go). *)
Definition assert (cond : bool) : res unit :=
  if cond then Ok tt else Panic.

Lemma res_bind_Ok {A B} (m : res A) (f : A -> res B) (b : B) :
  mbind f m = Ok b <-> exists a, m = Ok a /\ f a = Ok b.
Proof.
  split; [destruct m; [eauto | discriminate..] | by intros (a & -> & ?)].
Qed.

Lemma Ok_inj {A} (a b : A) : Ok a = Ok b -> a = b.
Proof. congruence. Qed.

Lemma bind_Ok {A B} (f : A -> res B) (a : A) : mbind f (Ok a) = f a.
Proof. done. Qed.

Lemma assert_true (cond : bool) {B} (f : unit -> res B) :
  cond = true -> mbind f (assert cond) = f tt.
Proof. by intros ->. Qed.

Create Rewrite HintDb res.
#[export] Hint Rewrite @bind_Ok : res.

(** Runs a computation past the steps whose result is known. *)
Ltac step_res :=
  repeat first
    [ rewrite bind_Ok
    | rewrite assert_true by (first [done | lia | bool_lia]) ]
with bool_lia :=
  repeat match goal with |- (_ && _) = true => apply andb_true_intro; split end;
  first [ by apply Z.ltb_lt; lia | by apply Z.leb_le; lia | by apply Z.eqb_eq; lia
        | by apply bool_decide_eq_true_2; lia ].

Lemma assert_Ok (cond : bool) (u : unit) : assert cond = Ok u <-> cond = true.
Proof. destruct cond, u; split; [done..|discriminate|discriminate]. Qed.

(** Any property of the value a terminating, non-panicking computation gives. *)
Definition returns {A} (m : res A) (P : A -> Prop) : Prop :=
  exists a, m = Ok a /\ P a.

Lemma returns_bind {A B} (m : res A) (f : A -> res B) (P : A -> Prop) (Q : B -> Prop) :
  returns m P -> (forall a, P a -> returns (f a) Q) -> returns (mbind f m) Q.
Proof. intros (a & -> & Ha) Hf. by apply Hf. Qed.

Lemma returns_ret {A} (a : A) (P : A -> Prop) : P a -> returns (Ok a) P.
Proof. intros; by exists a. Qed.

Lemma returns_mono {A} (m : res A) (P Q : A -> Prop) :
  returns m P -> (forall a, P a -> Q a) -> returns m Q.
Proof. intros (a & -> & Ha) HPQ. exists a; auto. Qed.

Lemma returns_assert (cond : bool) (P : unit -> Prop) :
  cond = true -> P tt -> returns (assert cond) P.
Proof. intros -> HP. by exists tt. Qed.

(** Splits [x ← m; k = Ok r] hypotheses into their steps. *)
Ltac inv_res :=
  repeat match goal with
  | H : mbind _ _ = Ok _ |- _ =>
      let x := fresh "x" in let Hx := fresh "Hx" in
      apply res_bind_Ok in H as (x & Hx & H)
  | H : assert _ = Ok _ |- _ => apply assert_Ok in H
  | H : Ok _ = Ok _ |- _ => injection H as H
  | H : mret _ = Ok _ |- _ => injection H as H
  | H : Panic = Ok _ |- _ => discriminate H
  | H : NoFuel = Ok _ |- _ => discriminate H
  end.

(** ** Machine integers

    [uint16] and [uint64] values are [Z]s; Go's arithmetic wraps, which is
    written out with these at each operation of the code. *)
Definition u16 (z : Z) : Z := z mod 2 ^ 16.
Definition u32 (z : Z) : Z := z mod 2 ^ 32.
Definition u64 (z : Z) : Z := z mod 2 ^ 64.
(** Two's complement reading of 64 bits: Go's [int64(u)] and the result of
    every [int64] operation. *)
Definition i64 (z : Z) : Z := (z + 2 ^ 63) mod 2 ^ 64 - 2 ^ 63.

Lemma u16_small z : 0 <= z < 2 ^ 16 -> u16 z = z.
Proof. apply Z.mod_small. Qed.
Lemma u32_small z : 0 <= z < 2 ^ 32 -> u32 z = z.
Proof. apply Z.mod_small. Qed.
Lemma u64_small z : 0 <= z < 2 ^ 64 -> u64 z = z.
Proof. apply Z.mod_small. Qed.
Lemma u16_range z : 0 <= u16 z < 2 ^ 16.
Proof. by apply Z.mod_pos_bound. Qed.
Lemma u64_range z : 0 <= u64 z < 2 ^ 64.
Proof. by apply Z.mod_pos_bound. Qed.
Lemma i64_small z : - 2 ^ 63 <= z < 2 ^ 63 -> i64 z = z.
Proof. intros. unfold i64. rewrite Z.mod_small; lia. Qed.
Lemma i64_range z : - 2 ^ 63 <= i64 z < 2 ^ 63.
Proof. unfold i64. pose proof (Z.mod_pos_bound (z + 2 ^ 63) (2 ^ 64)). lia. Qed.

Create Rewrite HintDb words.
#[export] Hint Rewrite u16_small u32_small u64_small i64_small using lia : words.

(** ** Lists with [Z] lengths *)

Definition len {A} (l : list A) : Z := Z.of_nat (length l).

Lemma len_nonneg {A} (l : list A) : 0 <= len l.
Proof. unfold len; lia. Qed.
Lemma len_nil {A} : len (@nil A) = 0.
Proof. done. Qed.
Lemma len_cons {A} (x : A) l : len (x :: l) = len l + 1.
Proof. unfold len; simpl; lia. Qed.
Lemma len_app {A} (l1 l2 : list A) : len (l1 ++ l2) = len l1 + len l2.
Proof. unfold len; rewrite length_app; lia. Qed.
Lemma len_fmap {A B} (f : A -> B) (l : list A) : len (f <$> l) = len l.
Proof. unfold len; by rewrite length_fmap. Qed.
Lemma len_0_inv {A} (l : list A) : len l = 0 -> l = [].
Proof. destruct l; [done|]. rewrite len_cons. pose proof (len_nonneg l). lia. Qed.
Lemma len_to_nat {A} (l : list A) : Z.to_nat (len l) = length l.
Proof. unfold len; lia. Qed.

Create Rewrite HintDb lens.
#[export] Hint Rewrite @len_nil @len_cons @len_app @len_fmap : lens.

(** Element [i] of a Go slice: out of range panics. *)
Definition index {A} (l : list A) (i : Z) : res A :=
  if 0 <=? i then
    match l !! Z.to_nat i with Some x => Ok x | None => Panic end
  else Panic.

(** ** Strictly sorted lists *)

Lemma StronglySorted_lookup_lt {A} (R : A -> A -> Prop) l i j x y :
  StronglySorted R l -> l !! i = Some x -> l !! j = Some y -> (i < j)%nat -> R x y.
Proof.
  intros Hs. revert i j. induction Hs as [|z l Hs IH Hall]; intros i j Hi Hj Hij; [done|].
  destruct j as [|j]; [lia|]. destruct i as [|i]; cbn in *; [|eapply IH; eauto; lia].
  injection Hi as ->. rewrite Forall_forall in Hall. apply Hall. by eapply list_elem_of_lookup_2.
Qed.
