(* ===== verification/GoBytes.v ===== *)
(** * Go byte slices

    Byte strings, the parts of Go's [bytes] and [encoding/binary] packages
    the program uses, and in-place writes into a buffer.  A slice is the list
    of its bytes: its length is the length of the list, and a slice expression
    past the end panics (the spare capacity Go would let a re-slice reach is
    not modelled). *)

From coqutil Require Export Byte Word.LittleEndianList.
From S2P Require Import Prelude.

Abbreviation byte := Init.Byte.byte.
Abbreviation bytes := (list Init.Byte.byte).

(** [[]byte(s)] of a string constant *)
Definition bytes_of (s : string) : bytes := String.list_byte_of_string s.

#[export] Instance byte_eq_dec : EqDecision byte.
Proof. intros x y. destruct (Byte.byte_eq_dec x y); [by left | by right]. Defined.

(** ** [bytes.Compare] *)

Fixpoint bytes_compare (a b : bytes) : Z :=
  match a, b with
  | [], [] => 0
  | [], _ :: _ => -1
  | _ :: _, [] => 1
  | x :: a', y :: b' =>
      match byte.unsigned x ?= byte.unsigned y with
      | Lt => -1
      | Gt => 1
      | Eq => bytes_compare a' b'
      end
  end.

(** [bytes.Equal] *)
Definition bytes_equal (a b : bytes) : bool := bool_decide (a = b).

Definition blt (a b : bytes) : Prop := bytes_compare a b < 0.
Definition ble (a b : bytes) : Prop := bytes_compare a b <= 0.

#[export] Instance blt_dec : RelDecision blt.
Proof. intros a b. unfold blt. apply _. Defined.
#[export] Instance ble_dec : RelDecision ble.
Proof. intros a b. unfold ble. apply _. Defined.

Lemma bytes_compare_refl a : bytes_compare a a = 0.
Proof. induction a as [|x a IH]; [done|]. cbn. by rewrite Z.compare_refl. Qed.

Lemma bytes_compare_eq a b : bytes_compare a b = 0 <-> a = b.
Proof.
  split; [|intros ->; apply bytes_compare_refl].
  revert b; induction a as [|x a IH]; intros [|y b]; cbn; try done.
  destruct (Z.compare_spec (byte.unsigned x) (byte.unsigned y)) as [He| |]; try done.
  intros H%IH. by rewrite H, (byte.unsigned_inj _ _ He).
Qed.

Lemma bytes_compare_antisym a b : bytes_compare b a = - bytes_compare a b.
Proof.
  revert b; induction a as [|x a IH]; intros [|y b]; cbn; try done.
  rewrite Z.compare_antisym.
  destruct (byte.unsigned x ?= byte.unsigned y); cbn; auto.
Qed.

Lemma bytes_compare_range a b :
  bytes_compare a b = -1 \/ bytes_compare a b = 0 \/ bytes_compare a b = 1.
Proof.
  revert b; induction a as [|x a IH]; intros [|y b]; cbn; auto.
  destruct (byte.unsigned x ?= byte.unsigned y); auto.
Qed.

Lemma bytes_compare_app p a b : bytes_compare (p ++ a) (p ++ b) = bytes_compare a b.
Proof. induction p as [|x p IH]; [done|]. cbn. by rewrite Z.compare_refl. Qed.

Lemma blt_trans_ a b c : blt a b -> blt b c -> blt a c.
Proof.
  unfold blt. revert b c; induction a as [|x a IH]; intros [|y b] [|z c]; cbn; try lia.
  destruct (Z.compare_spec (byte.unsigned x) (byte.unsigned y)) as [E1|E1|E1];
    destruct (Z.compare_spec (byte.unsigned y) (byte.unsigned z)) as [E2|E2|E2];
    destruct (Z.compare_spec (byte.unsigned x) (byte.unsigned z)) as [E3|E3|E3];
    try lia; eauto.
Qed.

#[export] Instance blt_strict : StrictOrder blt.
Proof.
  split.
  - intros a. unfold complement, blt. rewrite bytes_compare_refl. lia.
  - intros a b c. apply blt_trans_.
Qed.

Lemma ble_lteq a b : ble a b <-> blt a b \/ a = b.
Proof.
  unfold ble, blt. rewrite <- bytes_compare_eq. lia.
Qed.

Lemma not_blt a b : ~ blt a b <-> ble b a.
Proof. unfold ble, blt. rewrite (bytes_compare_antisym a b). lia. Qed.
Lemma not_ble a b : ~ ble a b <-> blt b a.
Proof. unfold ble, blt. rewrite (bytes_compare_antisym a b). lia. Qed.

#[export] Instance ble_preorder : PreOrder ble.
Proof.
  split.
  - intros a. apply ble_lteq. by right.
  - intros a b c [H1| ->]%ble_lteq [H2| ->]%ble_lteq; apply ble_lteq; auto.
    left. by transitivity b.
Qed.

Lemma ble_antisym a b : ble a b -> ble b a -> a = b.
Proof.
  unfold ble. rewrite (bytes_compare_antisym a b). intros. apply bytes_compare_eq. lia.
Qed.
Lemma ble_total a b : ble a b \/ ble b a.
Proof. unfold ble. rewrite (bytes_compare_antisym a b). lia. Qed.
Lemma ble_blt_trans a b c : ble a b -> blt b c -> blt a c.
Proof. intros [H| ->]%ble_lteq; [by transitivity b | done]. Qed.
Lemma blt_ble_trans a b c : blt a b -> ble b c -> blt a c.
Proof. intros ? [H| ->]%ble_lteq; [by transitivity b | done]. Qed.
Lemma blt_ble a b : blt a b -> ble a b.
Proof. rewrite ble_lteq; auto. Qed.
Lemma blt_ne a b : blt a b -> a <> b.
Proof. intros H ->. by apply (irreflexivity blt b). Qed.
Lemma ble_nil a : ble [] a.
Proof. destruct a; unfold ble; cbn; lia. Qed.

(** A proper prefix is smaller. *)
Lemma blt_app_r p x a : blt p (p ++ x :: a).
Proof.
  unfold blt. rewrite <- (app_nil_r p) at 1. rewrite bytes_compare_app. done.
Qed.

(** ** Buffers: reading and writing in place *)

Definition read_at (s : bytes) (pos n : nat) : bytes := take n (drop pos s).

(** Overwrites [length d] bytes from [pos]. *)
Definition write_at (s : bytes) (pos : nat) (d : bytes) : bytes :=
  take pos s ++ d ++ drop (pos + length d) s.

Lemma length_write_at s pos d :
  (pos + length d <= length s)%nat -> length (write_at s pos d) = length s.
Proof. intros. unfold write_at. rewrite !length_app, length_take, length_drop. lia. Qed.

Lemma read_at_write_at_eq s pos d :
  (pos + length d <= length s)%nat -> read_at (write_at s pos d) pos (length d) = d.
Proof.
  intros. unfold read_at, write_at. rewrite drop_app_length' by (rewrite length_take; lia).
  by rewrite take_app_length.
Qed.

Lemma read_at_write_at_ne s pos d pos' n :
  (pos + length d <= length s)%nat ->
  (pos' + n <= pos \/ pos + length d <= pos')%nat ->
  read_at (write_at s pos d) pos' n = read_at s pos' n.
Proof.
  intros Hlen Hd. unfold read_at, write_at. apply list_eq. intros i.
  destruct (decide (i < n)%nat) as [Hi|Hi]; [|rewrite !lookup_take_ge; auto; lia].
  rewrite !lookup_take_lt, !lookup_drop by lia.
  destruct Hd.
  - rewrite lookup_app_l by (rewrite length_take; lia). by rewrite lookup_take_lt by lia.
  - rewrite lookup_app_r by (rewrite length_take; lia).
    rewrite length_take, lookup_app_r by lia. rewrite lookup_drop. f_equal. lia.
Qed.

(** A read inside a larger, known read. *)
Lemma read_at_sub s pos n d off m :
  read_at s pos n = d -> (off + m <= n)%nat ->
  read_at s (pos + off) m = take m (drop off d).
Proof.
  intros <- ?. unfold read_at. rewrite skipn_firstn_comm, drop_drop, take_take.
  f_equal. lia.
Qed.

Lemma take_add_split {A} (l : list A) n m :
  take (n + m) l = take n l ++ take m (drop n l).
Proof. revert l; induction n as [|n IH]; intros [|x l]; cbn; try done; [by destruct m|by rewrite IH]. Qed.

Lemma read_at_app s pos n m :
  read_at s pos (n + m) = read_at s pos n ++ read_at s (pos + n) m.
Proof.
  unfold read_at. rewrite take_add_split, drop_drop. done.
Qed.

Lemma length_read_at s pos n : (pos + n <= length s)%nat -> length (read_at s pos n) = n.
Proof. intros. unfold read_at. rewrite length_take, length_drop. lia. Qed.

(** ** Go slice expressions and [encoding/binary] *)

(** [s[i:]] *)
Definition slice_from (s : bytes) (i : Z) : res bytes :=
  if bool_decide (0 <= i <= len s) then Ok (drop (Z.to_nat i) s) else Panic.

(** [s[i:j]] *)
Definition slice (s : bytes) (i j : Z) : res bytes :=
  if bool_decide (0 <= i <= j /\ j <= len s)
  then Ok (take (Z.to_nat (j - i)) (drop (Z.to_nat i) s)) else Panic.

(** [binary.LittleEndian.Uint16(b)], [Uint32], [Uint64]: they read the first
    [n] bytes of [b] and panic when there are fewer. *)
Definition le_get (n : nat) (b : bytes) : res Z :=
  if bool_decide (n <= length b)%nat then Ok (le_combine (take n b)) else Panic.

(** [binary.LittleEndian.PutUintXX(s[i:], v)] on the buffer [s]. *)
Definition le_put (n : nat) (s : bytes) (i v : Z) : res bytes :=
  b ← slice_from s i;
  if bool_decide (n <= length b)%nat
  then Ok (write_at s (Z.to_nat i) (le_split n v)) else Panic.

(** [copy(s[i:], d)]: as much of [d] as fits. *)
Definition copy_at (s : bytes) (i : Z) (d : bytes) : res bytes :=
  b ← slice_from s i;
  Ok (write_at s (Z.to_nat i) (take (length b) d)).

(** [make([]byte, n)] *)
Definition make (n : Z) : bytes := replicate (Z.to_nat n) Byte.x00.

Lemma len_make n : 0 <= n -> len (make n) = n.
Proof. intros. unfold make, len. rewrite length_replicate. lia. Qed.

Lemma slice_from_Ok s i : 0 <= i <= len s -> slice_from s i = Ok (drop (Z.to_nat i) s).
Proof. intros. unfold slice_from. by rewrite bool_decide_true. Qed.

Lemma slice_Ok s i j :
  0 <= i <= j -> j <= len s -> slice s i j = Ok (read_at s (Z.to_nat i) (Z.to_nat (j - i))).
Proof. intros. unfold slice. by rewrite bool_decide_true. Qed.

Lemma le_get_read s i n :
  0 <= i -> i + Z.of_nat n <= len s ->
  (b ← slice_from s i; le_get n b) = Ok (le_combine (read_at s (Z.to_nat i) n)).
Proof.
  intros Hi Hn. rewrite slice_from_Ok by lia. cbn. unfold le_get.
  rewrite bool_decide_true; [done|]. rewrite length_drop. unfold len in *; lia.
Qed.

Lemma le_get_slice s i n :
  0 <= i -> i + Z.of_nat n <= len s ->
  (b ← slice s i (i + Z.of_nat n); le_get n b) = Ok (le_combine (read_at s (Z.to_nat i) n)).
Proof.
  intros Hi Hn. rewrite slice_Ok by lia. unfold mbind, res_bind, le_get.
  replace (Z.to_nat (i + Z.of_nat n - i)) with n by lia.
  rewrite bool_decide_true by (rewrite length_read_at; unfold len in *; lia).
  rewrite take_ge; [done|]. unfold read_at. rewrite length_take. lia.
Qed.

Lemma le_put_Ok n s i v :
  0 <= i -> i + Z.of_nat n <= len s ->
  le_put n s i v = Ok (write_at s (Z.to_nat i) (le_split n v)).
Proof.
  intros Hi Hn. unfold le_put. rewrite slice_from_Ok by lia. cbn.
  rewrite bool_decide_true; [done|]. rewrite length_drop. unfold len in *; lia.
Qed.

Lemma copy_at_Ok s i d :
  0 <= i -> i + len d <= len s -> copy_at s i d = Ok (write_at s (Z.to_nat i) d).
Proof.
  intros Hi Hn. unfold copy_at. rewrite slice_from_Ok by (pose proof (len_nonneg d); lia). cbn.
  rewrite take_ge; [done|]. rewrite length_drop. unfold len in *; lia.
Qed.

Lemma le_combine_le_split n v :
  0 <= v < 2 ^ (Z.of_nat n * 8) -> le_combine (le_split n v) = v.
Proof. intros. rewrite le_combine_split. by apply Z.mod_small. Qed.
