(* ===== verification/BNode.v ===== *)
(** * B+tree nodes as bytes (src/db/btree.go)

    A node is the byte string that is written to disk:
<<
    | type | nkeys | pointers   | offsets    | KVs | unused |
    | 2B   | 2B    | nkeys x 8B | nkeys x 2B | ... |        |
>>
    The accessors and the append operations are those of the code, on bytes,
    with [uint16] arithmetic.  A setter returns the updated buffer. *)

From S2P Require Import Prelude.
From S2P Require Import GoBytes.

Abbreviation BNode := (list Init.Byte.byte).

Definition HEADER_SIZE : Z := 4.
Definition BTREE_PAGE_SIZE : Z := 4096.
Definition BTREE_MAX_KEY_SIZE : Z := 1000.
Definition BTREE_MAX_VAL_SIZE : Z := 3000.
Definition BNODE_NODE : Z := 1.
Definition BNODE_LEAF : Z := 2.

(** ** Header *)

Definition btype (node : BNode) : res Z :=
  b ← slice node 0 2; le_get 2 b.

Definition nkeys (node : BNode) : res Z :=
  b ← slice node 2 4; le_get 2 b.

Definition setHeader (node : BNode) (btype nkeys : Z) : res BNode :=
  _ ← slice node 0 2; node ← le_put 2 node 0 btype;
  _ ← slice node 2 4; le_put 2 node 2 nkeys.

(** ** Child pointers *)

Definition getPtr (node : BNode) (idx : Z) : res Z :=
  n ← nkeys node;
  _ ← assert (idx <? n);
  let pos := u16 (HEADER_SIZE + 8 * idx) in
  b ← slice_from node pos; le_get 8 b.

Definition setPtr (node : BNode) (idx val : Z) : res BNode :=
  n ← nkeys node;
  _ ← assert (idx <? n);
  let pos := u16 (HEADER_SIZE + 8 * idx) in
  le_put 8 node pos val.

(** ** Offsets *)

Definition offsetPos (node : BNode) (idx : Z) : res Z :=
  n ← nkeys node;
  _ ← assert ((1 <=? idx) && (idx <=? n));
  Ok (u16 (HEADER_SIZE + 8 * n + 2 * (idx - 1))).

Definition getOffset (node : BNode) (idx : Z) : res Z :=
  if idx =? 0 then Ok 0 else
  pos ← offsetPos node idx;
  b ← slice_from node pos; le_get 2 b.

Definition setOffset (node : BNode) (idx offset : Z) : res BNode :=
  pos ← offsetPos node idx;
  le_put 2 node pos offset.

(** ** Keys and values *)

Definition kvPos (node : BNode) (idx : Z) : res Z :=
  n ← nkeys node;
  _ ← assert (idx <=? n);
  off ← getOffset node idx;
  Ok (u16 (HEADER_SIZE + 8 * n + 2 * n + off)).

Definition getKey (node : BNode) (idx : Z) : res bytes :=
  n ← nkeys node;
  _ ← assert (idx <? n);
  pos ← kvPos node idx;
  b ← slice_from node pos; klen ← le_get 2 b;
  b ← slice_from node (u16 (pos + 4)); slice b 0 klen.

Definition getVal (node : BNode) (idx : Z) : res bytes :=
  n ← nkeys node;
  _ ← assert (idx <? n);
  pos ← kvPos node idx;
  b ← slice_from node pos; klen ← le_get 2 b;
  b ← slice_from node (u16 (pos + 2)); vlen ← le_get 2 b;
  b ← slice_from node (u16 (pos + 4 + klen)); slice b 0 vlen.

Definition nodeAppendKV (new : BNode) (idx ptr : Z) (key val : bytes) : res BNode :=
  new ← setPtr new idx ptr;
  pos ← kvPos new idx;
  new ← le_put 2 new pos (u16 (len key));
  new ← le_put 2 new (u16 (pos + 2)) (u16 (len val));
  new ← copy_at new (u16 (pos + 4)) key;
  new ← copy_at new (u16 (pos + 4 + u16 (len key))) val;
  off ← getOffset new idx;
  setOffset new (u16 (idx + 1)) (u16 (off + 4 + u16 (len key + len val))).

Definition nbytes (node : BNode) : res Z :=
  n ← nkeys node; kvPos node n.

(** [for i := uint16(0); i < n; i++ { ... }]: [k] iterations are left. *)
Fixpoint nodeAppendRange_loop
    (k : nat) (new old : BNode) (dstNew srcOld i : Z) : res BNode :=
  match k with
  | O => Ok new
  | S k =>
      let dst := u16 (dstNew + i) in
      let src := u16 (srcOld + i) in
      ptr ← getPtr old src;
      key ← getKey old src;
      val ← getVal old src;
      new ← nodeAppendKV new dst ptr key val;
      nodeAppendRange_loop k new old dstNew srcOld (i + 1)
  end.

Definition nodeAppendRange (new old : BNode) (dstNew srcOld n : Z) : res BNode :=
  nodeAppendRange_loop (Z.to_nat n) new old dstNew srcOld 0.

(** ** Leaf updates *)

Definition leafInsert (new old : BNode) (idx : Z) (key val : bytes) : res BNode :=
  n ← nkeys old;
  new ← setHeader new BNODE_LEAF (u16 (n + 1));
  new ← nodeAppendRange new old 0 0 idx;
  new ← nodeAppendKV new idx 0 key val;
  nodeAppendRange new old (u16 (idx + 1)) idx (u16 (n - idx)).

Definition leafUpdate (new old : BNode) (idx : Z) (key val : bytes) : res BNode :=
  n ← nkeys old;
  new ← setHeader new BNODE_LEAF n;
  new ← nodeAppendRange new old 0 0 idx;
  new ← nodeAppendKV new idx 0 key val;
  nodeAppendRange new old (u16 (idx + 1)) (u16 (idx + 1)) (u16 (n - (idx + 1))).

Definition leafDelete (new old : BNode) (idx : Z) : res BNode :=
  n ← nkeys old;
  new ← setHeader new BNODE_LEAF (u16 (n - 1));
  new ← nodeAppendRange new old 0 0 idx;
  nodeAppendRange new old idx (u16 (idx + 1)) (u16 (n - (idx + 1))).

(** ** Binary search *)

Fixpoint nodeLookupLE_loop
    (fuel : nat) (node : BNode) (key : bytes) (left right : Z) : res Z :=
  match fuel with
  | O => NoFuel
  | S fuel =>
      if negb (left <=? right) then Ok (u16 right) else
      let mid := Z.quot (left + right) 2 in
      k ← getKey node (u16 mid);
      let cmp := bytes_compare k key in
      if cmp =? 0 then Ok (u16 mid)
      else if 0 <? cmp then nodeLookupLE_loop fuel node key left (mid - 1)
      else nodeLookupLE_loop fuel node key (mid + 1) right
  end.

(** Each iteration shrinks the range, so [nkeys + 1] iterations suffice. *)
Definition nodeLookupLE (node : BNode) (key : bytes) : res Z :=
  n ← nkeys node;
  nodeLookupLE_loop (S (Z.to_nat n)) node key 0 (n - 1).

(** ** Splitting and merging *)

Definition left_bytes (old : BNode) (nleft : Z) : res Z :=
  off ← getOffset old nleft;
  Ok (u16 (HEADER_SIZE + 8 * nleft + 2 * nleft + off)).

Definition right_bytes (old : BNode) (nleft : Z) : res Z :=
  n ← nbytes old;
  l ← left_bytes old nleft;
  Ok (u16 (n - l + HEADER_SIZE)).

Fixpoint nodeSplit2_loop (fuel : nat) (old : BNode) (nleft : Z) : res Z :=
  match fuel with
  | O => NoFuel
  | S fuel =>
      r ← right_bytes old nleft;
      if BTREE_PAGE_SIZE <? r
      then nodeSplit2_loop fuel old (u16 (nleft + 1))
      else Ok nleft
  end.

Definition nodeSplit2 (left right old : BNode) : res (BNode * BNode) :=
  n ← nkeys old;
  _ ← assert (2 <=? n);
  nleft ← nodeSplit2_loop (S (Z.to_nat n)) old (Z.quot n 2);
  _ ← assert (nleft <? n);
  let nright := u16 (n - nleft) in
  ty ← btype old;
  left ← setHeader left ty nleft;
  right ← setHeader right ty nright;
  left ← nodeAppendRange left old 0 0 nleft;
  right ← nodeAppendRange right old 0 nleft nright;
  rb ← nbytes right;
  _ ← assert (rb <=? BTREE_PAGE_SIZE);
  Ok (left, right).

(** The count and the three-element array, whose unused entries are nil. *)
Definition nodeSplit3 (old : BNode) : res (Z * list BNode) :=
  n ← nbytes old;
  if n <=? BTREE_PAGE_SIZE then
    old ← slice old 0 BTREE_PAGE_SIZE;
    Ok (1, [old; []; []])
  else
    '(left0, right0) ← nodeSplit2 (make (2 * BTREE_PAGE_SIZE)) (make BTREE_PAGE_SIZE) old;
    lb ← nbytes left0;
    if lb <=? BTREE_PAGE_SIZE then
      left ← slice left0 0 BTREE_PAGE_SIZE;
      Ok (2, [left; right0; []])
    else
      '(leftleft, middle) ← nodeSplit2 (make BTREE_PAGE_SIZE) (make BTREE_PAGE_SIZE) left0;
      llb ← nbytes leftleft;
      _ ← assert (llb <=? BTREE_PAGE_SIZE);
      Ok (3, [leftleft; middle; right0]).

Definition nodeMerge (new left right : BNode) : res BNode :=
  ty ← btype left;
  nl ← nkeys left;
  nr ← nkeys right;
  new ← setHeader new ty (u16 (nl + nr));
  new ← nodeAppendRange new left 0 0 nl;
  new ← nodeAppendRange new right nl 0 nr;
  b ← nbytes new;
  _ ← assert (b <=? BTREE_PAGE_SIZE);
  Ok new.

Definition nodeReplace2Kids (new old : BNode) (idx ptr : Z) (key : bytes) : res BNode :=
  n ← nkeys old;
  new ← setHeader new BNODE_NODE (u16 (n - 1));
  new ← nodeAppendRange new old 0 0 idx;
  new ← nodeAppendKV new idx ptr key [];
  nodeAppendRange new old (u16 (idx + 1)) (u16 (idx + 2)) (u16 (n - (idx + 2))).
