(* ===== verification/KVSpec.v ===== *)
(** * The contract of an ordered key-value map

    What a B+tree is supposed to be: a list of key-value pairs in strictly
    increasing key order, with lookup, insertion and deletion, and the finite
    map it denotes.  BNodeFacts.v shows that the pages of src/db/btree.go
    implement these operations. *)

From S2P Require Import Prelude.
From S2P Require Import GoBytes.

#[export] Instance byte_countable : Countable byte :=
  inj_countable' byte.unsigned byte.of_Z byte.of_Z_unsigned.

Abbreviation kv := (list Init.Byte.byte * list Init.Byte.byte)%type.

Definition sorted_keys (ks : list bytes) : Prop := StronglySorted blt ks.
Abbreviation sorted_kvs kvs := (sorted_keys (fst <$> kvs)).

Fixpoint kv_insert (key val : bytes) (kvs : list kv) : list kv :=
  match kvs with
  | [] => [(key, val)]
  | (k, v) :: kvs' =>
      if decide (blt k key) then (k, v) :: kv_insert key val kvs'
      else if decide (k = key) then (key, val) :: kvs'
      else (key, val) :: kvs
  end.

Fixpoint kv_delete (key : bytes) (kvs : list kv) : list kv :=
  match kvs with
  | [] => []
  | (k, v) :: kvs' => if decide (k = key) then kvs' else (k, v) :: kv_delete key kvs'
  end.

Fixpoint kv_get (key : bytes) (kvs : list kv) : option bytes :=
  match kvs with
  | [] => None
  | (k, v) :: kvs' => if decide (k = key) then Some v else kv_get key kvs'
  end.

Definition kv_map (kvs : list kv) : gmap bytes bytes := list_to_map kvs.

(** Key of the first pair. *)
Definition first_key (kvs : list kv) : bytes := default [] (fst <$> head kvs).

Abbreviation all_lt kvs key := (Forall (fun p : kv => blt p.1 key) kvs).
Abbreviation all_gt kvs key := (Forall (fun p : kv => blt key p.1) kvs).

(** ** Operations act inside the part that can hold the key *)

Lemma kv_insert_lt key val A kvs :
  all_lt A key -> kv_insert key val (A ++ kvs) = A ++ kv_insert key val kvs.
Proof.
  induction 1 as [|[k v] A Hk HA IH]; [done|]. cbn in *. rewrite decide_True by done. by rewrite IH.
Qed.

Lemma kv_insert_gt key val B kvs :
  all_gt B key -> kv_insert key val (kvs ++ B) = kv_insert key val kvs ++ B.
Proof.
  intros HB. induction kvs as [|[k v] kvs IH]; cbn.
  - destruct HB as [|[k v] B Hk HB]; [done|]. cbn in *.
    rewrite decide_False by (intros H; apply (irreflexivity blt k); by transitivity key).
    rewrite decide_False; [done|]. intros ->. by apply (irreflexivity blt key).
  - case_decide; [by rewrite IH|]. by case_decide.
Qed.

Lemma kv_get_skip key A kvs B :
  all_lt A key -> all_gt B key -> kv_get key (A ++ kvs ++ B) = kv_get key kvs.
Proof.
  intros HA HB. induction HA as [|[k v] A Hk HA IH]; cbn in *.
  - induction kvs as [|[k v] kvs IH]; cbn.
    + induction HB as [|[k v] B Hk HB IH]; cbn in *; [done|].
      rewrite decide_False; [done|]. intros ->. by apply (irreflexivity blt key).
    + case_decide; [done|]. apply IH.
  - rewrite decide_False; [done|]. intros ->. by apply (irreflexivity blt key).
Qed.

Lemma kv_delete_none key B : all_gt B key -> kv_delete key B = B.
Proof.
  induction 1 as [|[k v] B Hk HB IH]; cbn in *; [done|].
  rewrite decide_False by (intros ->; by apply (irreflexivity blt key)). by rewrite IH.
Qed.

Lemma kv_delete_skip key A kvs B :
  all_lt A key -> all_gt B key ->
  kv_delete key (A ++ kvs ++ B) = A ++ kv_delete key kvs ++ B.
Proof.
  intros HA HB. induction HA as [|[k v] A Hk HA IH]; cbn in *.
  - induction kvs as [|[k v] kvs IH]; cbn; [by apply kv_delete_none|].
    case_decide; [done|]. by rewrite IH.
  - rewrite decide_False by (intros ->; by apply (irreflexivity blt key)). by rewrite IH.
Qed.

(** ** Order *)

Lemma sorted_keys_app ks1 ks2 :
  sorted_keys (ks1 ++ ks2) <->
  sorted_keys ks1 /\ sorted_keys ks2 /\ (forall x y, x ∈ ks1 -> y ∈ ks2 -> blt x y).
Proof. unfold sorted_keys. rewrite StronglySorted_app. naive_solver. Qed.

Lemma kv_insert_keys key val kvs k :
  k ∈ (kv_insert key val kvs).*1 <-> k = key \/ k ∈ kvs.*1.
Proof.
  induction kvs as [|[k' v'] kvs IH]; cbn; [set_solver|].
  repeat case_decide; subst; cbn; set_solver.
Qed.

Lemma kv_insert_sorted key val kvs : sorted_kvs kvs -> sorted_kvs (kv_insert key val kvs).
Proof.
  unfold sorted_keys. induction kvs as [|[k v] kvs IH]; cbn; intros Hs; [by repeat constructor|].
  apply StronglySorted_inv in Hs as [Hs Hk].
  destruct (decide (blt k key)) as [Hlt|Hge].
  - cbn. constructor; [auto|]. rewrite Forall_forall in *.
    intros x [->|Hx]%kv_insert_keys; auto.
  - destruct (decide (k = key)) as [->|Hne]; [by constructor|].
    apply not_blt in Hge as [Hlt|]%ble_lteq; [|congruence].
    constructor; [by constructor|]. constructor; [done|].
    eapply Forall_impl; [exact Hk|]. intros x Hx. cbn in *. by transitivity k.
Qed.

Lemma kv_delete_keys key kvs k : k ∈ (kv_delete key kvs).*1 -> k ∈ kvs.*1.
Proof.
  induction kvs as [|[k' v'] kvs IH]; cbn; [done|]. case_decide; cbn; set_solver.
Qed.

Lemma kv_delete_sorted key kvs : sorted_kvs kvs -> sorted_kvs (kv_delete key kvs).
Proof.
  unfold sorted_keys. induction kvs as [|[k v] kvs IH]; cbn; intros Hs; [done|].
  apply StronglySorted_inv in Hs as [Hs Hk]. case_decide; [done|]. cbn.
  constructor; [auto|]. rewrite Forall_forall in *. intros x Hx%kv_delete_keys. auto.
Qed.

(** ** The map *)

Lemma kv_get_map key kvs : kv_map kvs !! key = kv_get key kvs.
Proof.
  unfold kv_map. induction kvs as [|[k v] kvs IH]; cbn; [apply lookup_empty|].
  rewrite lookup_insert. case_decide; [done|]. done.
Qed.

Lemma kv_insert_map key val kvs : sorted_kvs kvs ->
  kv_map (kv_insert key val kvs) = <[key := val]> (kv_map kvs).
Proof.
  unfold kv_map, sorted_keys. induction kvs as [|[k v] kvs IH]; cbn; intros Hs; [done|].
  apply StronglySorted_inv in Hs as [Hs Hk].
  destruct (decide (blt k key)) as [Hlt|]; cbn.
  - rewrite IH by done. apply insert_insert_ne. by apply blt_ne.
  - case_decide; cbn; [|done]. subst. by rewrite insert_insert_eq.
Qed.

Lemma kv_get_notin key kvs : key ∉ kvs.*1 -> kv_get key kvs = None.
Proof.
  induction kvs as [|[k v] kvs IH]; cbn; [done|]. intros Hn.
  rewrite decide_False by set_solver. apply IH. set_solver.
Qed.

Lemma kv_delete_map key kvs : sorted_kvs kvs ->
  kv_map (kv_delete key kvs) = delete key (kv_map kvs).
Proof.
  unfold kv_map, sorted_keys. induction kvs as [|[k v] kvs IH]; cbn; intros Hs.
  { by rewrite delete_empty. }
  apply StronglySorted_inv in Hs as [Hs Hk]. case_decide as E; cbn.
  - subst. rewrite delete_insert_id; [done|].
    change (kv_map kvs !! key = None). rewrite kv_get_map. apply kv_get_notin.
    intros Hin. rewrite Forall_forall in Hk. apply (irreflexivity blt key). auto.
  - rewrite IH by done. by rewrite delete_insert_ne.
Qed.

Lemma first_key_app kvs1 kvs2 : kvs1 <> [] -> first_key (kvs1 ++ kvs2) = first_key kvs1.
Proof. by destruct kvs1. Qed.

Lemma first_key_in kvs : kvs <> [] -> first_key kvs ∈ kvs.*1.
Proof. destruct kvs; [done|]. intros _. left. Qed.

(** Inserting at or after the first key keeps the first key. *)
Lemma first_key_insert key val kvs :
  kvs <> [] -> ble (first_key kvs) key -> first_key (kv_insert key val kvs) = first_key kvs.
Proof.
  destruct kvs as [|[k v] kvs]; [done|]. cbn. intros _ [Hlt|<-]%ble_lteq.
  - by rewrite decide_True.
  - rewrite decide_False by apply (irreflexivity blt). by rewrite decide_True.
Qed.

Lemma kv_insert_ne key val kvs : kv_insert key val kvs <> [].
Proof. destruct kvs as [|[k v] kvs]; cbn; [done|]. by repeat case_decide. Qed.
