(* ===== verification/BNodeFacts.v ===== *)
(** * What the bytes of a node mean

    [filled node ty N es]: the buffer [node] carries the header of a node of
    type [ty] with [N] slots, of which the first [length es] hold the entries
    [es].  The accessors of BNode.v read those entries back, and the append
    operations extend them. *)

From S2P Require Import Prelude.
From S2P Require Import GoBytes.
From S2P Require Import BNode.
From S2P Require Import KVSpec.

(** A slot of a node: child pointer, key and value. *)
Record entry := Entry { e_ptr : Z; e_key : bytes; e_val : bytes }.

Definition kv_size (e : entry) : nat := 4 + length (e_key e) + length (e_val e).
Definition kvs_size (es : list entry) : nat := sum_list_with kv_size es.

(** The bytes of one KV slot. *)
Definition kv_bytes (e : entry) : bytes :=
  le_split 2 (len (e_key e)) ++ le_split 2 (len (e_val e)) ++ e_key e ++ e_val e.

Definition entry_ok (e : entry) : Prop :=
  0 <= e_ptr e < 2 ^ 64 /\ len (e_key e) < 2 ^ 16 /\ len (e_val e) < 2 ^ 16.

(** Offset of slot [i]. *)
Abbreviation off es i := (kvs_size (take i es)).

(** Size of the node with exactly the entries [es]: Go's [nbytes()]. *)
Definition node_size (es : list entry) : nat := 4 + 10 * length es + kvs_size es.

Record filled (node : BNode) (ty : Z) (N : nat) (es : list entry) : Prop := Filled {
  fl_len : (4 + 10 * N + kvs_size es <= length node)%nat;
  fl_u16 : Z.of_nat (4 + 10 * N + kvs_size es) < 2 ^ 16;
  fl_cap : (length es <= N)%nat;
  fl_tyr : 0 <= ty < 2 ^ 16;
  fl_ok : Forall entry_ok es;
  fl_ty : read_at node 0 2 = le_split 2 ty;
  fl_n : read_at node 2 2 = le_split 2 (Z.of_nat N);
  fl_ptr : forall i e, es !! i = Some e ->
    read_at node (4 + 8 * i) 8 = le_split 8 (e_ptr e);
  fl_off : forall i, (i < length es)%nat ->
    read_at node (4 + 8 * N + 2 * i) 2 = le_split 2 (Z.of_nat (off es (S i)));
  fl_kv : forall i e, es !! i = Some e ->
    read_at node (4 + 10 * N + off es i) (kv_size e) = kv_bytes e
}.

(** A complete node. *)
Definition node_repr (node : BNode) (ty : Z) (es : list entry) : Prop :=
  filled node ty (length es) es.

Lemma kvs_size_app es1 es2 : kvs_size (es1 ++ es2) = (kvs_size es1 + kvs_size es2)%nat.
Proof. apply sum_list_with_app. Qed.
Lemma kvs_size_cons e es : kvs_size (e :: es) = (kv_size e + kvs_size es)%nat.
Proof. done. Qed.
Lemma kvs_size_nil : kvs_size [] = 0%nat.
Proof. done. Qed.
#[export] Hint Rewrite kvs_size_app kvs_size_cons kvs_size_nil : lens.

Lemma off_S es i e : es !! i = Some e -> off es (S i) = (off es i + kv_size e)%nat.
Proof.
  intros He. rewrite (take_S_r _ _ _ He), kvs_size_app. cbn. lia.
Qed.
Lemma off_le es i : (off es i <= kvs_size es)%nat.
Proof. rewrite <- (take_drop i es) at 2. rewrite kvs_size_app. lia. Qed.
Lemma off_all es : off es (length es) = kvs_size es.
Proof. by rewrite take_ge. Qed.
Lemma off_bound es i e :
  es !! i = Some e -> (off es i + kv_size e <= kvs_size es)%nat.
Proof. intros He. rewrite <- (off_S _ _ _ He). apply off_le. Qed.
Lemma length_kv_bytes e : length (kv_bytes e) = kv_size e.
Proof. unfold kv_bytes, kv_size. rewrite !length_app, !length_le_split. lia. Qed.

Lemma node_size_app es1 es2 :
  (node_size (es1 ++ es2) + 4 = node_size es1 + node_size es2)%nat.
Proof. unfold node_size. rewrite length_app, kvs_size_app. lia. Qed.

(** ** The accessors on a filled buffer *)

Section accessors.
Context (node : BNode) (ty : Z) (N : nat) (es : list entry).
Hypothesis Hf : filled node ty N es.

(** A little-endian field that [read_at] knows. *)
Lemma get_field {B} (k : Z -> res B) pos n v :
  read_at node pos n = le_split n v ->
  (pos + n <= length node)%nat -> 0 <= v < 2 ^ (Z.of_nat n * 8) ->
  (b ← slice_from node (Z.of_nat pos); x ← le_get n b; k x) = k v.
Proof using.
  intros Hr Hl Hv.
  transitivity (mbind k (b ← slice_from node (Z.of_nat pos); le_get n b)).
  { by destruct (slice_from node (Z.of_nat pos)). }
  rewrite le_get_read by (unfold len; lia).
  rewrite Nat2Z.id, Hr. by rewrite le_combine_le_split.
Qed.

Lemma get_field' pos n v :
  read_at node pos n = le_split n v ->
  (pos + n <= length node)%nat -> 0 <= v < 2 ^ (Z.of_nat n * 8) ->
  (b ← slice_from node (Z.of_nat pos); le_get n b) = Ok v.
Proof using.
  intros Hr Hl Hv. rewrite le_get_read by (unfold len; lia).
  rewrite Nat2Z.id, Hr. by rewrite le_combine_le_split.
Qed.

(** A field read as bytes: [node[pos:][:n]]. *)
Lemma get_bytes pos n d :
  (pos + n <= length node)%nat -> read_at node pos n = d ->
  (b ← slice_from node (Z.of_nat pos); slice b 0 (Z.of_nat n)) = Ok d.
Proof using.
  intros Hl <-. rewrite slice_from_Ok by (unfold len; lia). step_res.
  rewrite slice_Ok; [|lia|unfold len; rewrite length_drop; lia].
  unfold read_at. by rewrite Nat2Z.id, Z.sub_0_r, Nat2Z.id.
Qed.

Lemma btype_filled : btype node = Ok ty.
Proof using Hf.
  destruct Hf. unfold btype. change 2 with (0 + Z.of_nat 2) at 1.
  rewrite le_get_slice by (unfold len; lia).
  change (Z.to_nat 0) with 0%nat. rewrite fl_ty0.
  by rewrite le_combine_le_split.
Qed.

Lemma nkeys_filled : nkeys node = Ok (Z.of_nat N).
Proof using Hf.
  destruct Hf. unfold nkeys. change 4 with (2 + Z.of_nat 2) at 1.
  rewrite le_get_slice by (unfold len; lia).
  change (Z.to_nat 2) with 2%nat. rewrite fl_n0.
  rewrite le_combine_le_split; [done|lia].
Qed.

Lemma entry_of i e : es !! i = Some e -> entry_ok e.
Proof using Hf. intros He. eapply Forall_lookup_1; [apply Hf | done]. Qed.

Lemma getPtr_filled i e :
  es !! i = Some e -> getPtr node (Z.of_nat i) = Ok (e_ptr e).
Proof using Hf.
  intros He. pose proof (lookup_lt_Some _ _ _ He). pose proof (entry_of _ _ He) as [? _].
  unfold getPtr. rewrite nkeys_filled. destruct Hf. step_res.
  unfold HEADER_SIZE. rewrite u16_small by lia.
  replace (4 + 8 * Z.of_nat i) with (Z.of_nat (4 + 8 * i)) by lia.
  apply get_field'; [by apply fl_ptr0 | lia | done].
Qed.

Lemma offsetPos_filled i :
  (1 <= i <= N)%nat -> offsetPos node (Z.of_nat i) = Ok (Z.of_nat (4 + 8 * N + 2 * (i - 1))).
Proof using Hf.
  intros Hi. unfold offsetPos. rewrite nkeys_filled. destruct Hf. step_res.
  unfold HEADER_SIZE. rewrite u16_small by lia. f_equal. lia.
Qed.

Lemma getOffset_filled i :
  (i <= length es)%nat -> getOffset node (Z.of_nat i) = Ok (Z.of_nat (off es i)).
Proof using Hf.
  intros Hi. unfold getOffset.
  destruct (Z.eqb_spec (Z.of_nat i) 0); [by replace i with 0%nat by lia|].
  rewrite offsetPos_filled by (destruct Hf; lia). pose proof (off_le es i). destruct Hf.
  step_res. destruct i as [|i]; [lia|].
  apply get_field'; [|lia|lia]. replace (S i - 1)%nat with i by lia. apply fl_off0. lia.
Qed.

Lemma kvPos_filled i :
  (i <= length es)%nat -> kvPos node (Z.of_nat i) = Ok (Z.of_nat (4 + 10 * N + off es i)).
Proof using Hf.
  intros Hi. unfold kvPos. rewrite nkeys_filled, getOffset_filled by done.
  pose proof (off_le es i). destruct Hf. step_res. unfold HEADER_SIZE.
  rewrite u16_small by lia. f_equal. lia.
Qed.

(** The four parts of a KV slot. *)
Lemma kv_parts i e (p := (4 + 10 * N + off es i)%nat) :
  es !! i = Some e ->
  read_at node p 2 = le_split 2 (len (e_key e)) /\
  read_at node (p + 2) 2 = le_split 2 (len (e_val e)) /\
  read_at node (p + 4) (length (e_key e)) = e_key e /\
  read_at node (p + 4 + length (e_key e)) (length (e_val e)) = e_val e /\
  (p + 4 + length (e_key e) + length (e_val e) <= length node)%nat /\
  Z.of_nat (p + 4 + length (e_key e) + length (e_val e)) < 2 ^ 16.
Proof using Hf.
  intros He. pose proof (off_bound _ _ _ He) as Hb.
  pose proof (fl_len _ _ _ _ Hf). pose proof (fl_u16 _ _ _ _ Hf).
  pose proof (fl_kv _ _ _ _ Hf _ _ He) as Hkv. fold p in Hkv.
  unfold kv_size in *.
  assert (forall o m, (o + m <= 4 + length (e_key e) + length (e_val e))%nat ->
    read_at node (p + o) m = take m (drop o (kv_bytes e))) as Hsub.
  { intros o m Hom. by eapply read_at_sub. }
  unfold kv_bytes in Hsub.
  rewrite <- (Nat.add_assoc p 4 (length (e_key e))), !(Hsub (_ + _)%nat), !Hsub by lia.
  pose proof (Hsub 0%nat 2%nat ltac:(lia)) as Hz. rewrite Nat.add_0_r in Hz. rewrite Hz.
  split_and!; try reflexivity; [..|lia|lia].
  - rewrite app_assoc, drop_app_length' by done. by rewrite take_app_length' by done.
  - rewrite !app_assoc, drop_app_length' by (rewrite !length_app, !length_le_split; lia).
    by rewrite take_ge.
Qed.

Lemma getKey_filled i e :
  es !! i = Some e -> getKey node (Z.of_nat i) = Ok (e_key e).
Proof using Hf.
  intros He. pose proof (lookup_lt_Some _ _ _ He).
  destruct (entry_of _ _ He) as (_ & Hk & _). destruct (kv_parts _ _ He) as (Pk & _ & K & _ & L & L').
  pose proof (fl_cap _ _ _ _ Hf).
  unfold getKey. rewrite nkeys_filled, kvPos_filled by lia. step_res.
  rewrite (get_field _ _ _ _ Pk) by (unfold len in *; lia).
  rewrite u16_small by lia. unfold len.
  rewrite <- (Nat2Z.inj_add _ 4). by apply get_bytes; [lia|].
Qed.

Lemma getVal_filled i e :
  es !! i = Some e -> getVal node (Z.of_nat i) = Ok (e_val e).
Proof using Hf.
  intros He. pose proof (lookup_lt_Some _ _ _ He).
  destruct (entry_of _ _ He) as (_ & Hk & Hv). destruct (kv_parts _ _ He) as (Pk & Pv & _ & V & L & L').
  pose proof (fl_cap _ _ _ _ Hf). unfold len in *.
  unfold getVal. rewrite nkeys_filled, kvPos_filled by lia. step_res.
  rewrite (get_field _ _ _ _ Pk) by lia.
  replace (u16 (Z.of_nat (4 + 10 * N + off es i) + 2))
    with (Z.of_nat (4 + 10 * N + off es i + 2)) by (rewrite u16_small; lia).
  rewrite (get_field _ _ _ _ Pv) by lia.
  rewrite u16_small by lia. rewrite <- (Nat2Z.inj_add _ 4), <- Nat2Z.inj_add.
  by apply get_bytes; [lia|].
Qed.

End accessors.

Lemma nbytes_repr node ty es :
  node_repr node ty es -> nbytes node = Ok (Z.of_nat (node_size es)).
Proof.
  intros Hf. unfold nbytes. rewrite (nkeys_filled _ _ _ _ Hf). step_res.
  rewrite (kvPos_filled _ _ _ _ Hf) by done. by rewrite off_all.
Qed.

(** ** Writing *)

(** [s'] is [s] with the bytes [d] written at [pos]. *)
Record wrote (s : bytes) (pos : nat) (d : bytes) (s' : bytes) : Prop := Wrote {
  wr_len : length s' = length s;
  wr_eq : read_at s' pos (length d) = d;
  wr_ne : forall pos' n, (pos' + n <= pos \/ pos + length d <= pos')%nat ->
    read_at s' pos' n = read_at s pos' n
}.

Lemma write_at_wrote s pos d :
  (pos + length d <= length s)%nat -> wrote s pos d (write_at s pos d).
Proof.
  intros. split; [by apply length_write_at | by apply read_at_write_at_eq |].
  intros. by apply read_at_write_at_ne.
Qed.

Lemma le_put_wrote n s (pos : nat) v :
  (pos + n <= length s)%nat ->
  exists s', le_put n s (Z.of_nat pos) v = Ok s' /\ wrote s pos (le_split n v) s'.
Proof.
  intros. rewrite le_put_Ok by (unfold len; lia). rewrite Nat2Z.id.
  eexists; split; [done|]. apply write_at_wrote. rewrite length_le_split. done.
Qed.

Lemma copy_at_wrote s (pos : nat) d :
  (pos + length d <= length s)%nat ->
  exists s', copy_at s (Z.of_nat pos) d = Ok s' /\ wrote s pos d s'.
Proof.
  intros. rewrite copy_at_Ok by (unfold len; lia). rewrite Nat2Z.id.
  eexists; split; [done|]. by apply write_at_wrote.
Qed.

Lemma setHeader_filled node ty N :
  0 <= ty < 2 ^ 16 -> (4 + 10 * N <= length node)%nat -> Z.of_nat (4 + 10 * N) < 2 ^ 16 ->
  exists node', setHeader node ty (Z.of_nat N) = Ok node' /\
    filled node' ty N [] /\ length node' = length node.
Proof.
  intros Hty HN HN'. unfold setHeader. rewrite !slice_Ok by (unfold len; lia). step_res.
  destruct (le_put_wrote 2 node 0 ty) as (n1 & E1 & W1); [lia|].
  change (Z.of_nat 0) with 0 in E1. rewrite E1. step_res.
  assert (length n1 = length node) as L1 by apply W1.
  rewrite slice_Ok by (unfold len; lia). step_res.
  destruct (le_put_wrote 2 n1 2 (Z.of_nat N)) as (n2 & E2 & W2); [lia|].
  change (Z.of_nat 2) with 2 in E2. rewrite E2. step_res.
  exists n2; split; [done|]. destruct W1 as [_ R1 F1], W2 as [L2 R2 F2].
  rewrite length_le_split in R1, F1, R2, F2.
  split; [|by rewrite L2]. split; cbn [length kvs_size sum_list_with] in *; auto; try lia.
  - rewrite F2 by lia. done.
  - by intros i e Hi.
  - by intros i e Hi.
Qed.

(** Writes outside the used fields change nothing. *)
Lemma filled_frame node ty N es pos d node' :
  filled node ty N es -> wrote node pos d node' ->
  ((4 + 8 * length es <= pos /\ pos + length d <= 4 + 8 * N) \/
   (4 + 8 * N + 2 * length es <= pos /\ pos + length d <= 4 + 10 * N) \/
   4 + 10 * N + kvs_size es <= pos)%nat ->
  filled node' ty N es.
Proof.
  intros [] [Wl _ W] Hpos. split; auto; try congruence.
  - rewrite W by lia. done.
  - rewrite W by lia. done.
  - intros i e He. pose proof (lookup_lt_Some _ _ _ He). rewrite W by lia. auto.
  - intros i Hi. rewrite W by lia. auto.
  - intros i e He. pose proof (off_bound _ _ _ He). rewrite W by lia. auto.
Qed.

(** Completing the next slot. *)
Lemma filled_snoc node ty N es e :
  filled node ty N es -> (length es < N)%nat -> entry_ok e ->
  (4 + 10 * N + kvs_size (es ++ [e]) <= length node)%nat ->
  Z.of_nat (4 + 10 * N + kvs_size (es ++ [e])) < 2 ^ 16 ->
  read_at node (4 + 8 * length es) 8 = le_split 8 (e_ptr e) ->
  read_at node (4 + 10 * N + kvs_size es) (kv_size e) = kv_bytes e ->
  read_at node (4 + 8 * N + 2 * length es) 2 =
    le_split 2 (Z.of_nat (kvs_size es + kv_size e)) ->
  filled node ty N (es ++ [e]).
Proof.
  intros [] HN He Hl Hu Hp Hkv Ho. split; auto.
  - rewrite length_app. cbn. lia.
  - by apply Forall_app_2; [|constructor].
  - intros i e' [Hi|[-> ->]]%lookup_snoc_Some; [|done]. apply fl_ptr0. tauto.
  - intros i Hi. rewrite length_app in Hi. cbn in Hi.
    destruct (decide (i = length es)) as [->|].
    + rewrite Ho. do 2 f_equal. rewrite take_ge by (rewrite length_app; cbn; lia).
      rewrite kvs_size_app, kvs_size_cons, kvs_size_nil. lia.
    + rewrite fl_off0 by lia. rewrite take_app_le by lia. done.
  - intros i e' [[Hi Hi']|[-> ->]]%lookup_snoc_Some.
    + rewrite take_app_le by lia. auto.
    + rewrite take_app_length. done.
Qed.

Lemma wrote_app s pos d1 d2 s1 s2 :
  wrote s pos d1 s1 -> wrote s1 (pos + length d1) d2 s2 -> wrote s pos (d1 ++ d2) s2.
Proof.
  intros [L1 R1 X1] [L2 R2 X2]. split; [congruence|..]; rewrite length_app.
  - rewrite read_at_app, X2, R1 by lia. by rewrite R2.
  - intros pos' n Hd. rewrite X2, X1 by lia. done.
Qed.

(** The four writes of a KV slot. *)
Lemma put_kv_wrote {B} (k : bytes -> res B) node (p : nat) e :
  entry_ok e -> (p + kv_size e <= length node)%nat -> Z.of_nat (p + kv_size e) < 2 ^ 16 ->
  exists node', wrote node p (kv_bytes e) node' /\
    (new ← le_put 2 node (Z.of_nat p) (u16 (len (e_key e)));
     new ← le_put 2 new (u16 (Z.of_nat p + 2)) (u16 (len (e_val e)));
     new ← copy_at new (u16 (Z.of_nat p + 4)) (e_key e);
     new ← copy_at new (u16 (Z.of_nat p + 4 + u16 (len (e_key e)))) (e_val e);
     k new) = k node'.
Proof.
  intros (_ & Hk & Hv) Hl Hu. unfold kv_size, len in *. rewrite !(u16_small (Z.of_nat _)) by lia.
  replace (u16 (Z.of_nat p + 2)) with (Z.of_nat (p + 2)) by (rewrite u16_small; lia).
  replace (u16 (Z.of_nat p + 4)) with (Z.of_nat (p + 4)) by (rewrite u16_small; lia).
  replace (u16 (Z.of_nat p + 4 + Z.of_nat (length (e_key e))))
    with (Z.of_nat (p + 4 + length (e_key e))) by (rewrite u16_small; lia).
  pose proof (le_put_wrote 2 node p (Z.of_nat (length (e_key e))) ltac:(lia)) as (n1 & E1 & W1).
  rewrite E1. step_res. pose proof (wr_len _ _ _ _ W1).
  pose proof (le_put_wrote 2 n1 (p + 2) (Z.of_nat (length (e_val e))) ltac:(lia)) as (n2 & E2 & W2).
  rewrite E2. step_res. pose proof (wr_len _ _ _ _ W2).
  pose proof (copy_at_wrote n2 (p + 4) (e_key e) ltac:(lia)) as (n3 & E3 & W3).
  rewrite E3. step_res. pose proof (wr_len _ _ _ _ W3).
  pose proof (copy_at_wrote n3 (p + 4 + length (e_key e)) (e_val e) ltac:(lia)) as (n4 & E4 & W4).
  rewrite E4. step_res. exists n4. split; [|done].
  unfold kv_bytes, len. rewrite !app_assoc.
  eapply wrote_app; [eapply wrote_app; [eapply wrote_app|]|]; [done|..];
    rewrite ?length_app, ?length_le_split; [done| |].
  - by replace (p + (2 + 2))%nat with (p + 4)%nat by lia.
  - by replace (p + (2 + 2 + length (e_key e)))%nat with (p + 4 + length (e_key e))%nat by lia.
Qed.

(** Appending an entry to the next free slot. *)
Lemma nodeAppendKV_filled node ty N es e :
  filled node ty N es -> (length es < N)%nat -> entry_ok e ->
  (4 + 10 * N + kvs_size (es ++ [e]) <= length node)%nat ->
  Z.of_nat (4 + 10 * N + kvs_size (es ++ [e])) < 2 ^ 16 ->
  exists node',
    nodeAppendKV node (Z.of_nat (length es)) (e_ptr e) (e_key e) (e_val e) = Ok node' /\
    filled node' ty N (es ++ [e]) /\ length node' = length node.
Proof.
  intros F HN He Hl Hu.
  assert (kvs_size (es ++ [e]) = kvs_size es + kv_size e)%nat as Hs
    by (rewrite kvs_size_app, kvs_size_cons, kvs_size_nil; lia).
  pose proof Hl as Hl'. pose proof Hu as Hu'. rewrite Hs in Hl', Hu'.
  pose proof (le_put_wrote 8 node (4 + 8 * length es) (e_ptr e) ltac:(lia)) as (n1 & E1 & W1).
  pose proof (filled_frame _ _ _ _ _ _ _ F W1 ltac:(rewrite length_le_split; lia)) as F1.
  pose proof (wr_len _ _ _ _ W1).
  unfold nodeAppendKV, setPtr. rewrite (nkeys_filled _ _ _ _ F). step_res.
  unfold HEADER_SIZE. rewrite (u16_small (4 + 8 * Z.of_nat (length es))) by lia.
  replace (4 + 8 * Z.of_nat (length es)) with (Z.of_nat (4 + 8 * length es)) by lia.
  rewrite E1. step_res. rewrite (kvPos_filled _ _ _ _ F1) by done. step_res. rewrite off_all.
  set (p := (4 + 10 * N + kvs_size es)%nat).
  edestruct (put_kv_wrote (B:=bytes)) as (n5 & W5 & ->); [exact He|lia|lia|].
  pose proof (filled_frame _ _ _ _ _ _ _ F1 W5 ltac:(lia)) as F5.
  pose proof (wr_len _ _ _ _ W5).
  rewrite (getOffset_filled _ _ _ _ F5) by done. step_res. rewrite off_all. unfold setOffset.
  replace (u16 (Z.of_nat (length es) + 1)) with (Z.of_nat (S (length es)))
    by (rewrite u16_small; lia).
  rewrite (offsetPos_filled _ _ _ _ F5) by lia. step_res.
  replace (4 + 8 * N + 2 * (S (length es) - 1))%nat with (4 + 8 * N + 2 * length es)%nat by lia.
  pose proof (le_put_wrote 2 n5 (4 + 8 * N + 2 * length es)
    (Z.of_nat (kvs_size es + kv_size e)) ltac:(lia)) as (n6 & E6 & W6).
  pose proof (filled_frame _ _ _ _ _ _ _ F5 W6 ltac:(rewrite length_le_split; lia)) as F6.
  pose proof (wr_len _ _ _ _ W6).
  replace (u16 (Z.of_nat (kvs_size es) + 4 + u16 (len (e_key e) + len (e_val e))))
    with (Z.of_nat (kvs_size es + kv_size e))
    by (unfold kv_size, len in *; rewrite !u16_small; rewrite ?u16_small; lia).
  exists n6. split; [exact E6|]. split; [|congruence].
  pose proof (length_kv_bytes e).
  destruct W1 as [_ R1 X1], W5 as [_ R5 X5], W6 as [_ R6 X6]. rewrite ?length_le_split in *.
  apply filled_snoc; auto; [congruence|..].
  - rewrite X6, X5 by lia. done.
  - fold p. rewrite X6 by lia. congruence.
Qed.

(** ** Building nodes *)

(** Room for the entries [es] in the buffer [node] under a header with [N] slots. *)
Definition fits (node : bytes) (N : nat) (es : list entry) : Prop :=
  (length es <= N)%nat /\ (4 + 10 * N + kvs_size es <= length node)%nat /\
  Z.of_nat (4 + 10 * N + kvs_size es) < 2 ^ 16.

Lemma fits_prefix node N es1 es2 : fits node N (es1 ++ es2) -> fits node N es1.
Proof. unfold fits. rewrite kvs_size_app, length_app. lia. Qed.

Lemma fits_len node node' N es : length node' = length node -> fits node N es -> fits node' N es.
Proof. unfold fits. intros ->. done. Qed.

Lemma nodeAppendRange_loop_filled k new old ty N ty' eso es src i :
  node_repr old ty' eso -> filled new ty N (es ++ take i (drop src eso)) ->
  (src + (i + k) <= length eso)%nat -> fits new N (es ++ take (i + k) (drop src eso)) ->
  exists new',
    nodeAppendRange_loop k new old (Z.of_nat (length es)) (Z.of_nat src) (Z.of_nat i) = Ok new' /\
    filled new' ty N (es ++ take (i + k) (drop src eso)) /\ length new' = length new.
Proof.
  intros Ho. revert new i. induction k as [|k IH]; intros new i Hf Hk Hfit.
  { exists new. by rewrite Nat.add_0_r in *. }
  assert (is_Some (eso !! (src + i)%nat)) as [e He] by (apply lookup_lt_is_Some; lia).
  pose proof He as He'. rewrite <- lookup_drop in He'.
  pose proof (take_S_r _ _ _ He') as Ht.
  assert (length (es ++ take i (drop src eso)) = length es + i)%nat as Hlen
    by (rewrite length_app, length_take, length_drop; lia).
  pose proof (fl_len _ _ _ _ Ho). pose proof (fl_u16 _ _ _ _ Ho).
  replace (i + S k)%nat with (S i + k)%nat in * by lia.
  assert (fits new N ((es ++ take i (drop src eso)) ++ [e])) as (Hf1 & Hf2 & Hf3).
  { rewrite <- app_assoc, <- Ht. eapply fits_prefix.
    rewrite <- app_assoc. replace (take (S i) (drop src eso) ++ take k (drop (S i) (drop src eso)))
      with (take (S i + k) (drop src eso)) by apply take_add_split. exact Hfit. }
  rewrite !length_app in Hf1. cbn in Hf1.
  edestruct nodeAppendKV_filled as (n1 & E1 & F1 & L1);
    [exact Hf|rewrite length_app; lia|eapply entry_of; [apply Ho|done]|exact Hf2|exact Hf3|].
  rewrite Hlen in E1. rewrite <- app_assoc, <- Ht in F1.
  cbn [nodeAppendRange_loop].
  replace (u16 (Z.of_nat src + Z.of_nat i)) with (Z.of_nat (src + i)) by (rewrite u16_small; lia).
  replace (u16 (Z.of_nat (length es) + Z.of_nat i)) with (Z.of_nat (length es + i))
    by (rewrite u16_small; lia).
  rewrite (getPtr_filled _ _ _ _ Ho _ _ He), (getKey_filled _ _ _ _ Ho _ _ He),
    (getVal_filled _ _ _ _ Ho _ _ He). step_res. rewrite E1. step_res.
  replace (Z.of_nat i + 1) with (Z.of_nat (S i)) by lia.
  destruct (IH n1 (S i)) as (n2 & E2 & F2 & L2);
    [done|lia|by eapply fits_len|]. exists n2. split_and!; [done..|congruence].
Qed.

Lemma nodeAppendRange_filled new old ty N ty' eso es (dst src n : nat) :
  node_repr old ty' eso -> filled new ty N es -> dst = length es ->
  (src + n <= length eso)%nat -> fits new N (es ++ take n (drop src eso)) ->
  exists new',
    nodeAppendRange new old (Z.of_nat dst) (Z.of_nat src) (Z.of_nat n) = Ok new' /\
    filled new' ty N (es ++ take n (drop src eso)) /\ length new' = length new.
Proof.
  intros Ho Hf -> Hn Hfit. unfold nodeAppendRange. rewrite Nat2Z.id.
  apply (nodeAppendRange_loop_filled n new old ty N ty' eso es src 0); auto.
  cbn [take]. by rewrite app_nil_r.
Qed.

(** A fresh buffer with its header set. *)
Lemma setHeader_fits new ty N es :
  0 <= ty < 2 ^ 16 -> fits new N es ->
  exists new', setHeader new ty (Z.of_nat N) = Ok new' /\
    filled new' ty N [] /\ length new' = length new.
Proof. intros Hty (? & ? & ?). apply setHeader_filled; lia. Qed.

Lemma filled_prefix node ty N es1 es2 : filled node ty N (es1 ++ es2) -> filled node ty N es1.
Proof.
  intros []. rewrite length_app, kvs_size_app in *. split; auto; try lia.
  - by apply Forall_app in fl_ok0 as [? _].
  - intros i e He. apply fl_ptr0. by apply lookup_app_l_Some.
  - intros i Hi. rewrite fl_off0 by lia. rewrite take_app_le by lia. done.
  - intros i e He. pose proof (lookup_lt_Some _ _ _ He).
    rewrite <- (fl_kv0 i e) by (by apply lookup_app_l_Some). rewrite take_app_le by lia. done.
Qed.

(** Copy a prefix, append one entry, copy a suffix. *)
Lemma build_middle new old ty tyo es e (i j : nat) :
  node_repr old tyo es -> 0 <= ty < 2 ^ 16 -> (i <= length es)%nat -> (j <= length es)%nat ->
  entry_ok e ->
  let es' := take i es ++ e :: drop j es in
  fits new (length es') es' ->
  exists new',
    (new ← setHeader new ty (Z.of_nat (length es'));
     new ← nodeAppendRange new old 0 0 (Z.of_nat i);
     new ← nodeAppendKV new (Z.of_nat i) (e_ptr e) (e_key e) (e_val e);
     nodeAppendRange new old (Z.of_nat (S i)) (Z.of_nat j) (Z.of_nat (length es - j)))
      = Ok new' /\ node_repr new' ty es' /\ length new' = length new.
Proof.
  intros Ho Hty Hi Hj He es' Hfit.
  assert (es' = (take i es ++ [e]) ++ drop j es) as Hes' by (unfold es'; by rewrite <- app_assoc).
  destruct (setHeader_fits new ty _ es' Hty Hfit) as (n1 & E1 & F1 & L1). rewrite E1. step_res.
  pose proof Hfit as Hfit2. rewrite Hes' in Hfit2 at 2. apply fits_prefix in Hfit2.
  edestruct (nodeAppendRange_filled n1 old ty (length es') tyo es [] 0 0 i) as (n2 & E2 & F2 & L2);
    [done|done|done|lia| |].
  { eapply fits_len; [exact L1|]. rewrite drop_0. by eapply fits_prefix. }
  change (Z.of_nat 0) with 0 in E2. rewrite E2. step_res. rewrite drop_0 in F2. cbn in F2.
  assert (length (take i es) = i) as Hli by (rewrite length_take; lia).
  destruct Hfit2 as (Hf1 & Hf2 & Hf3). rewrite length_app in Hf1. cbn in Hf1.
  destruct (nodeAppendKV_filled _ _ _ _ e F2) as (n3 & E3 & F3 & L3); [lia|done|lia|done|].
  rewrite Hli in E3. rewrite E3. step_res.
  edestruct (nodeAppendRange_filled n3 old ty (length es') tyo es (take i es ++ [e]) (S i) j
    (length es - j)) as (n4 & E4 & F4 & L4); [done|done| |lia| |].
  { rewrite length_app. cbn. lia. }
  { rewrite (take_ge (drop j es)) by (rewrite length_drop; lia). rewrite <- Hes'.
    eapply fits_len; [|exact Hfit]. congruence. }
  rewrite (take_ge (drop j es)), <- Hes' in F4 by (rewrite length_drop; lia).
  exists n4. split_and!; [exact E4|exact F4|congruence].
Qed.

(** Copy a prefix and a suffix. *)
Lemma build_gap new old ty tyo es (i j : nat) :
  node_repr old tyo es -> 0 <= ty < 2 ^ 16 -> (i <= length es)%nat -> (j <= length es)%nat ->
  let es' := take i es ++ drop j es in
  fits new (length es') es' ->
  exists new',
    (new ← setHeader new ty (Z.of_nat (length es'));
     new ← nodeAppendRange new old 0 0 (Z.of_nat i);
     nodeAppendRange new old (Z.of_nat i) (Z.of_nat j) (Z.of_nat (length es - j)))
      = Ok new' /\ node_repr new' ty es' /\ length new' = length new.
Proof.
  intros Ho Hty Hi Hj es' Hfit.
  destruct (setHeader_fits new ty _ es' Hty Hfit) as (n1 & E1 & F1 & L1). rewrite E1. step_res.
  edestruct (nodeAppendRange_filled n1 old ty (length es') tyo es [] 0 0 i) as (n2 & E2 & F2 & L2);
    [done|done|done|lia| |].
  { eapply fits_len; [exact L1|]. rewrite drop_0. by eapply fits_prefix. }
  change (Z.of_nat 0) with 0 in E2. rewrite E2. step_res. rewrite drop_0 in F2. cbn in F2.
  edestruct (nodeAppendRange_filled n2 old ty (length es') tyo es (take i es) i j
    (length es - j)) as (n3 & E3 & F3 & L3); [done|done|rewrite length_take; lia|lia| |].
  { rewrite (take_ge (drop j es)) by (rewrite length_drop; lia).
    eapply fits_len; [|exact Hfit]. congruence. }
  rewrite (take_ge (drop j es)) in F3 by (rewrite length_drop; lia).
  exists n3. split_and!; [exact E3|exact F3|congruence].
Qed.

(** What a node holds is bounded by its buffer. *)
Lemma repr_bounds node ty es :
  node_repr node ty es ->
  (node_size es <= length node)%nat /\ Z.of_nat (node_size es) < 2 ^ 16 /\ 0 <= ty < 2 ^ 16.
Proof. intros []. unfold node_size. auto. Qed.

Lemma length_lt_repr node ty es : node_repr node ty es -> 10 * Z.of_nat (length es) < 2 ^ 16.
Proof. intros H%repr_bounds. unfold node_size in H. lia. Qed.

Ltac u16_nat := repeat match goal with
  |- context [u16 ?x] =>
    first [ replace (u16 x) with x by (rewrite u16_small; lia) ] end.

Section leaf_ops.
Context (new old : BNode) (es : list entry) (Ho : node_repr old BNODE_LEAF es).

Lemma leafInsert_repr (i : nat) key val :
  (i <= length es)%nat -> entry_ok (Entry 0 key val) ->
  let es' := take i es ++ Entry 0 key val :: drop i es in
  fits new (length es') es' ->
  exists new', leafInsert new old (Z.of_nat i) key val = Ok new' /\
    node_repr new' BNODE_LEAF es' /\ length new' = length new.
Proof using Ho.
  intros Hi He es' Hfit. pose proof (length_lt_repr _ _ _ Ho).
  unfold leafInsert. rewrite (nkeys_filled _ _ _ _ Ho). step_res. u16_nat.
  destruct (build_middle new old BNODE_LEAF _ es (Entry 0 key val) i i Ho) as (n & E & R);
    [done|done|done|done|done|].
  exists n. split; [|exact R]. rewrite <- E. cbn [e_ptr e_key e_val].
  replace (Z.of_nat (S i)) with (Z.of_nat i + 1) by lia.
  replace (Z.of_nat (length es - i)) with (Z.of_nat (length es) - Z.of_nat i) by lia.
  unfold es'. rewrite length_app, length_cons, length_take, length_drop.
  do 2 f_equal. lia.
Qed.

Lemma leafUpdate_repr (i : nat) key val :
  (i < length es)%nat -> entry_ok (Entry 0 key val) ->
  let es' := take i es ++ Entry 0 key val :: drop (S i) es in
  fits new (length es') es' ->
  exists new', leafUpdate new old (Z.of_nat i) key val = Ok new' /\
    node_repr new' BNODE_LEAF es' /\ length new' = length new.
Proof using Ho.
  intros Hi He es' Hfit. pose proof (length_lt_repr _ _ _ Ho).
  unfold leafUpdate. rewrite (nkeys_filled _ _ _ _ Ho). step_res. u16_nat.
  destruct (build_middle new old BNODE_LEAF _ es (Entry 0 key val) i (S i) Ho) as (n & E & R);
    [done|lia|lia|done|done|].
  exists n. split; [|exact R]. rewrite <- E. cbn [e_ptr e_key e_val].
  replace (Z.of_nat (S i)) with (Z.of_nat i + 1) by lia.
  replace (Z.of_nat (length es - S i)) with (Z.of_nat (length es) - (Z.of_nat i + 1)) by lia.
  unfold es'. rewrite length_app, length_cons, length_take, length_drop.
  do 2 f_equal. lia.
Qed.

Lemma leafDelete_repr (i : nat) :
  (i < length es)%nat ->
  let es' := take i es ++ drop (S i) es in
  fits new (length es') es' ->
  exists new', leafDelete new old (Z.of_nat i) = Ok new' /\
    node_repr new' BNODE_LEAF es' /\ length new' = length new.
Proof using Ho.
  intros Hi es' Hfit. pose proof (length_lt_repr _ _ _ Ho).
  unfold leafDelete. rewrite (nkeys_filled _ _ _ _ Ho). step_res. u16_nat.
  destruct (build_gap new old BNODE_LEAF _ es i (S i) Ho) as (n & E & R); [done|lia|lia|done|].
  exists n. split; [|exact R]. rewrite <- E.
  replace (Z.of_nat (S i)) with (Z.of_nat i + 1) by lia.
  replace (Z.of_nat (length es - S i)) with (Z.of_nat (length es) - (Z.of_nat i + 1)) by lia.
  rewrite length_app, length_take, length_drop.
  do 2 f_equal. lia.
Qed.

End leaf_ops.

(** ** Binary search

    The reference: how many of the node's keys are at most [key]. *)

Definition rank (ks : list bytes) (key : bytes) : nat :=
  length (filter (fun k => ble k key) ks).

Lemma rank_le ks key : (rank ks key <= length ks)%nat.
Proof. apply length_filter. Qed.

Lemma rank_spec ks key i k :
  sorted_keys ks -> ks !! i = Some k -> (ble k key <-> (i < rank ks key)%nat).
Proof.
  unfold rank. intros Hs. revert i. induction Hs as [|k0 ks Hs IH Hall]; intros i Hi; [done|].
  rewrite filter_cons. destruct i as [|i]; cbn in Hi.
  - injection Hi as ->. destruct (decide (ble k key)) as [H|H]; cbn; [split; [intros; lia|done]|].
    split; [done|]. intros Hlt. exfalso. apply H.
    destruct (filter (λ k, ble k key) ks) as [|k1 l] eqn:E; [cbn in Hlt; lia|].
    assert (k1 ∈ filter (λ k, ble k key) ks) as [H1 H2]%list_elem_of_filter by (rewrite E; left).
    apply blt_ble. eapply blt_ble_trans; [|exact H1].
    rewrite Forall_forall in Hall. by apply Hall.
  - destruct (decide (ble k0 key)) as [H|H]; cbn.
    + rewrite IH by done. lia.
    + split.
      * intros Hk. exfalso. apply H. apply blt_ble. eapply blt_ble_trans; [|exact Hk].
        rewrite Forall_forall in Hall. apply Hall. by eapply list_elem_of_lookup_2.
      * intros Hlt. apply (proj2 (IH _ Hi)). lia.
Qed.

Lemma nodeLookupLE_loop_repr fuel node ty es key (l : nat) (r : Z) :
  node_repr node ty es -> sorted_keys (e_key <$> es) ->
  Z.of_nat l <= Z.of_nat (rank (e_key <$> es) key) <= r + 1 -> r < Z.of_nat (length es) ->
  (r - Z.of_nat l + 1 < Z.of_nat fuel) ->
  nodeLookupLE_loop fuel node key (Z.of_nat l) r =
    Ok (u16 (Z.of_nat (rank (e_key <$> es) key) - 1)).
Proof.
  intros Ho Hs. pose proof (length_lt_repr _ _ _ Ho) as Hn.
  revert l r. induction fuel as [|fuel IH]; intros l r Hlr Hr Hfuel; [lia|].
  cbn [nodeLookupLE_loop]. destruct (Z.leb_spec (Z.of_nat l) r) as [Hle|Hgt]; cbn [negb].
  2:{ do 2 f_equal. lia. }
  rewrite Z.quot_div_nonneg by lia.
  set (mid := (Z.of_nat l + r) / 2).
  assert (Z.of_nat l <= mid <= r) as Hmid by (unfold mid; split;
    [apply Z.div_le_lower_bound | apply Z.div_le_upper_bound]; lia).
  rewrite u16_small by lia.
  assert (is_Some (es !! Z.to_nat mid)) as [e He] by (apply lookup_lt_is_Some; lia).
  rewrite <- (Z2Nat.id mid) at 1 by lia. rewrite (getKey_filled _ _ _ _ Ho _ _ He). step_res.
  assert ((e_key <$> es) !! Z.to_nat mid = Some (e_key e)) as Hk by (by rewrite list_lookup_fmap, He).
  pose proof (rank_spec _ key _ _ Hs Hk) as Hrank. unfold ble in Hrank.
  destruct (Z.eqb_spec (bytes_compare (e_key e) key) 0) as [E0|E0].
  - assert (rank (e_key <$> es) key <= Z.to_nat mid + 1)%nat; [|rewrite u16_small by lia; f_equal; lia].
    destruct (decide (rank (e_key <$> es) key <= Z.to_nat mid + 1)%nat) as [|Hnot]; [done|exfalso].
    assert (is_Some ((e_key <$> es) !! (S (Z.to_nat mid)))) as [k' Hk'].
    { apply lookup_lt_is_Some. pose proof (rank_le (e_key <$> es) key). lia. }
    pose proof (rank_spec _ key _ _ Hs Hk') as [_ Hle']. specialize (Hle' ltac:(lia)).
    apply bytes_compare_eq in E0. subst key.
    assert (blt (e_key e) k') as Hlt.
    { eapply StronglySorted_lookup_lt; [exact Hs|exact Hk|exact Hk'|lia]. }
    apply (irreflexivity blt (e_key e)). by eapply blt_ble_trans.
  - destruct (Z.ltb_spec 0 (bytes_compare (e_key e) key)).
    + apply IH; lia.
    + replace (mid + 1) with (Z.of_nat (S (Z.to_nat mid))) by lia. apply IH; lia.
Qed.

(** The binary search returns the last position whose key is at most the
    search key ([-1], wrapped, when there is none), and always terminates. *)
Lemma nodeLookupLE_repr node ty es key :
  node_repr node ty es -> sorted_keys (e_key <$> es) ->
  nodeLookupLE node key = Ok (u16 (Z.of_nat (rank (e_key <$> es) key) - 1)).
Proof.
  intros Ho Hs. unfold nodeLookupLE. rewrite (nkeys_filled _ _ _ _ Ho). step_res.
  pose proof (rank_le (e_key <$> es) key). rewrite length_fmap in *.
  rewrite Nat2Z.id. change 0 with (Z.of_nat 0).
  eapply nodeLookupLE_loop_repr; [exact Ho|exact Hs|lia..].
Qed.
