(* ===== verification/BSplitFacts.v ===== *)
(** * Splitting and merging nodes

    What [nodeSplit2], [nodeSplit3], [nodeMerge] and [nodeReplace2Kids] do to
    the entries of a node.  [nodeSplit2] only moves the split point to the
    right until the second half fits a page, so the first half may stay too
    big; [nodeSplit3] splits that half once more and asserts that its first
    part fits.  [split_room] is the bound under which the assertion holds. *)

From S2P Require Import Prelude.
From S2P Require Import GoBytes.
From S2P Require Import BNode.
From S2P Require Import BNodeFacts.

(** Bytes an entry adds to a node: pointer, offset and KV slot. *)
Definition entry_cost (e : entry) : nat := 10 + kv_size e.

Lemma entry_cost_ge e : (14 <= entry_cost e)%nat.
Proof. unfold entry_cost, kv_size. lia. Qed.

Lemma node_size_costs es : node_size es = (4 + sum_list_with entry_cost es)%nat.
Proof.
  unfold node_size, kvs_size. induction es as [|e es IH]; [done|].
  rewrite length_cons. cbn [sum_list_with].
  assert (entry_cost e = 10 + kv_size e)%nat by done. lia.
Qed.

Lemma node_size_ge4 es : (4 <= node_size es)%nat.
Proof. unfold node_size. lia. Qed.

Lemma node_size_take_drop n es :
  (node_size (take n es) + node_size (drop n es) = node_size es + 4)%nat.
Proof. by rewrite <- node_size_app, take_drop. Qed.

Lemma node_size_bounds c es :
  Forall (fun e => (entry_cost e <= c)%nat) es ->
  (14 * length es + 4 <= node_size es <= c * length es + 4)%nat.
Proof.
  rewrite node_size_costs. induction 1 as [|e es He Hes IH]; [cbn; lia|].
  rewrite length_cons. cbn [sum_list_with].
  pose proof (entry_cost_ge e). lia.
Qed.

Section split.
Context (old : bytes) (ty : Z) (es : list entry) (Ho : node_repr old ty es).

Lemma right_bytes_repr (n : nat) :
  (n <= length es)%nat -> right_bytes old (Z.of_nat n) = Ok (Z.of_nat (node_size (drop n es))).
Proof using Ho.
  intros Hn. destruct (repr_bounds _ _ _ Ho) as (_ & Hb & _).
  unfold right_bytes, left_bytes. rewrite (nbytes_repr _ _ _ Ho), (getOffset_filled _ _ _ _ Ho) by done.
  step_res. pose proof (node_size_take_drop n es) as Ht.
  unfold node_size in Ht at 1. rewrite length_take, Nat.min_l in Ht by done.
  pose proof (node_size_ge4 (drop n es)). unfold HEADER_SIZE.
  rewrite (u16_small (4 + 8 * Z.of_nat n + 2 * Z.of_nat n + Z.of_nat (off es n))) by lia.
  rewrite u16_small by lia. f_equal. lia.
Qed.

Lemma nodeSplit2_loop_repr fuel (n : nat) :
  Forall (fun e => Z.of_nat (node_size [e]) <= BTREE_PAGE_SIZE) es ->
  (n < length es)%nat -> (length es - n < fuel)%nat ->
  exists m : nat, nodeSplit2_loop fuel old (Z.of_nat n) = Ok (Z.of_nat m) /\
    (n <= m < length es)%nat /\ Z.of_nat (node_size (drop m es)) <= BTREE_PAGE_SIZE /\
    (m = n \/ BTREE_PAGE_SIZE < Z.of_nat (node_size (drop (m - 1) es))).
Proof using Ho.
  intros Hall. pose proof (length_lt_repr _ _ _ Ho).
  revert n. induction fuel as [|fuel IH]; intros n Hn Hf; [lia|].
  cbn [nodeSplit2_loop]. rewrite right_bytes_repr by lia. step_res.
  destruct (Z.ltb_spec BTREE_PAGE_SIZE (Z.of_nat (node_size (drop n es)))) as [Hlt|Hge].
  2:{ exists n. split_and!; auto; lia. }
  assert (S n < length es)%nat as Hn'.
  { destruct (decide (S n = length es)) as [E|]; [exfalso|lia].
    assert (is_Some (es !! n)) as [e He] by (apply lookup_lt_is_Some; lia).
    rewrite (drop_S _ _ _ He), E, drop_all in Hlt.
    rewrite Forall_lookup in Hall. specialize (Hall _ _ He). lia. }
  rewrite u16_small by lia. replace (Z.of_nat n + 1) with (Z.of_nat (S n)) by lia.
  destruct (IH (S n)) as (m & E & Hm & Hd & Hor); [lia|lia|].
  exists m. split_and!; auto; [lia|lia|]. right. destruct Hor as [->|]; [|done].
  by replace (S n - 1)%nat with n by lia.
Qed.

Lemma nodeSplit2_repr (lbuf rbuf : bytes) :
  Forall (fun e => Z.of_nat (node_size [e]) <= BTREE_PAGE_SIZE) es ->
  (2 <= length es)%nat -> len rbuf = BTREE_PAGE_SIZE ->
  exists m : nat,
    (length es / 2 <= m < length es)%nat /\
    Z.of_nat (node_size (drop m es)) <= BTREE_PAGE_SIZE /\
    (m = (length es / 2)%nat \/ BTREE_PAGE_SIZE < Z.of_nat (node_size (drop (m - 1) es))) /\
    ((node_size (take m es) <= length lbuf)%nat ->
     exists l r, nodeSplit2 lbuf rbuf old = Ok (l, r) /\
       node_repr l ty (take m es) /\ node_repr r ty (drop m es) /\
       length l = length lbuf /\ length r = length rbuf).
Proof using Ho.
  intros Hall H2 Hr. pose proof (length_lt_repr _ _ _ Ho).
  destruct (repr_bounds _ _ _ Ho) as (_ & Hb & Hty).
  assert (length es / 2 < length es)%nat by (apply Nat.div_lt; lia).
  destruct (nodeSplit2_loop_repr (S (length es)) (length es / 2) Hall)
    as (m & E & Hm & Hd & Hor); [done|lia|].
  exists m. split_and!; [lia|lia|done|done|]. intros Hl.
  pose proof (node_size_take_drop m es) as Ht.
  unfold nodeSplit2. rewrite (nkeys_filled _ _ _ _ Ho), (btype_filled _ _ _ _ Ho). step_res.
  rewrite Nat2Z.id, Z.quot_div_nonneg by lia. rewrite <- (Nat2Z.inj_div _ 2), E. step_res.
  rewrite u16_small by lia. rewrite <- Nat2Z.inj_sub by lia.
  assert (fits lbuf m (take m es)) as Hfl.
  { unfold fits, node_size in *. rewrite length_take in *. lia. }
  assert (fits rbuf (length es - m) (drop m es)) as Hfr.
  { unfold fits, node_size, len, BTREE_PAGE_SIZE in *. rewrite length_drop in *. lia. }
  destruct (setHeader_fits lbuf ty _ _ Hty Hfl) as (l1 & E1 & F1 & L1). rewrite E1. step_res.
  destruct (setHeader_fits rbuf ty _ _ Hty Hfr) as (r1 & E2 & F2 & L2). rewrite E2. step_res.
  edestruct (nodeAppendRange_filled l1 old ty m ty es [] 0 0 m) as (l2 & E3 & F3 & L3);
    [done|done|done|lia|by eapply fits_len|].
  change (Z.of_nat 0) with 0 in E3. rewrite E3. step_res.
  edestruct (nodeAppendRange_filled r1 old ty (length es - m) ty es [] 0 m (length es - m))
    as (r2 & E4 & F4 & L4); [done|done|done|lia| |].
  { rewrite take_ge by (rewrite length_drop; lia). by eapply fits_len. }
  change (Z.of_nat 0) with 0 in E4. rewrite E4. step_res.
  rewrite take_ge in F4 by (rewrite length_drop; lia). cbn [app] in F3, F4.
  rewrite drop_0 in F3. rewrite <- (length_drop es m) in F4.
  rewrite <- (length_take_le es m ltac:(lia)) in F3 at 1.
  rewrite (nbytes_repr _ _ _ F4). step_res. exists l2, r2. split_and!; auto; congruence.
Qed.
End split.

(** A buffer may be cut behind the node's last byte. *)
Lemma read_at_take (s : bytes) k pos n :
  (pos + n <= k)%nat -> read_at (take k s) pos n = read_at s pos n.
Proof.
  intros. unfold read_at. rewrite skipn_firstn_comm, take_take. f_equal. lia.
Qed.

Lemma filled_take (node : bytes) ty N es k :
  filled node ty N es -> (4 + 10 * N + kvs_size es <= k <= length node)%nat ->
  filled (take k node) ty N es.
Proof.
  intros [] Hk. split; auto.
  - rewrite length_take. lia.
  - rewrite read_at_take by lia. done.
  - rewrite read_at_take by lia. done.
  - intros i e He. pose proof (lookup_lt_Some _ _ _ He). rewrite read_at_take by lia. auto.
  - intros i Hi. rewrite read_at_take by lia. auto.
  - intros i e He. pose proof (off_bound _ _ _ He). rewrite read_at_take by lia. auto.
Qed.

Lemma cut_page (node : bytes) ty es :
  node_repr node ty es -> Z.of_nat (node_size es) <= BTREE_PAGE_SIZE -> BTREE_PAGE_SIZE <= len node ->
  exists node', slice node 0 BTREE_PAGE_SIZE = Ok node' /\
    node_repr node' ty es /\ len node' = BTREE_PAGE_SIZE.
Proof.
  intros Hr Hs Hl. unfold BTREE_PAGE_SIZE in *. rewrite slice_Ok by lia. eexists; split; [done|].
  unfold read_at. change (Z.to_nat 0) with 0%nat. rewrite drop_0. unfold len in *. split.
  - apply filled_take; [exact Hr|]. unfold node_size in Hs. lia.
  - rewrite length_take. lia.
Qed.

(** ** Three-way splits

    Every entry costs at most 292 bytes (key and value together at most 278)
    and the node exceeds a page by at most twice that. *)
Definition SMALL_COST : nat := 292.

Definition split_room (es : list entry) : Prop :=
  Forall (fun e => (entry_cost e <= SMALL_COST)%nat) es /\
  Z.of_nat (node_size es) <= BTREE_PAGE_SIZE + 2 * Z.of_nat SMALL_COST.

Lemma split_room_single es :
  Forall (fun e => (entry_cost e <= SMALL_COST)%nat) es ->
  Forall (fun e => Z.of_nat (node_size [e]) <= BTREE_PAGE_SIZE) es.
Proof.
  intros H. eapply Forall_impl; [exact H|]. cbv beta. intros e He.
  rewrite node_size_costs. cbn [sum_list_with]. unfold BTREE_PAGE_SIZE, SMALL_COST in *. lia.
Qed.

(** A drop that is too big leaves little in front of it. *)
Lemma before_big_suffix es m :
  Forall (fun e => (entry_cost e <= SMALL_COST)%nat) es -> (1 <= m <= length es)%nat ->
  BTREE_PAGE_SIZE < Z.of_nat (node_size (drop (m - 1) es)) ->
  Z.of_nat (node_size (take m es)) + BTREE_PAGE_SIZE <
    Z.of_nat (node_size es) + 4 + Z.of_nat SMALL_COST.
Proof.
  intros Hall Hm Hbig. pose proof (node_size_take_drop (m - 1) es) as Ht.
  assert (is_Some (es !! (m - 1)%nat)) as [e He] by (apply lookup_lt_is_Some; lia).
  replace m with (S (m - 1)) at 1 by lia. rewrite (take_S_r _ _ _ He).
  rewrite Forall_lookup in Hall. specialize (Hall _ _ He). cbv beta in Hall.
  pose proof (node_size_app (take (m - 1) es) [e]) as Ha.
  rewrite (node_size_costs [e]) in Ha. cbn [sum_list_with] in Ha. lia.
Qed.

(** The first quarter of the entries fits when the rest fills three quarters
    of the slots: otherwise the entries behind it would be too many for the
    space that is left. *)
Lemma first_quarter_fits es (n2 : nat) :
  split_room es -> (4 * n2 <= length es)%nat ->
  Z.of_nat (node_size (take n2 es)) <= BTREE_PAGE_SIZE.
Proof.
  intros [Hall Hsz] Hn. unfold BTREE_PAGE_SIZE, SMALL_COST in *.
  pose proof (node_size_take_drop n2 es).
  pose proof (node_size_bounds 292 (take n2 es) (Forall_take _ _ _ Hall)) as H1.
  pose proof (node_size_bounds 292 (drop n2 es) (Forall_drop _ _ _ Hall)) as H2.
  rewrite length_take in H1. rewrite length_drop in H2. lia.
Qed.

(** The pages a split produces. *)
Definition pages_of (ty : Z) (ns : list bytes) (ess : list (list entry)) : Prop :=
  Forall2 (fun n es => node_repr n ty es /\ len n = BTREE_PAGE_SIZE /\ es <> []) ns ess.

Lemma pages_of_cons ty n es ns ess :
  node_repr n ty es -> len n = BTREE_PAGE_SIZE -> es <> [] -> pages_of ty ns ess ->
  pages_of ty (n :: ns) (es :: ess).
Proof. intros. by apply Forall2_cons. Qed.

Lemma pages_of_nil ty : pages_of ty [] [].
Proof. apply Forall2_nil_2. Qed.

Lemma nodeSplit3_fits old ty es :
  node_repr old ty es -> BTREE_PAGE_SIZE <= len old -> es <> [] ->
  Z.of_nat (node_size es) <= BTREE_PAGE_SIZE ->
  exists n, nodeSplit3 old = Ok (1, [n; []; []]) /\ pages_of ty [n] [es].
Proof.
  intros Ho Hl Hne Hs. unfold nodeSplit3. rewrite (nbytes_repr _ _ _ Ho). step_res.
  rewrite (proj2 (Z.leb_le _ _)) by done.
  destruct (cut_page old ty es Ho Hs Hl) as (n & -> & Hn & Hln). step_res.
  exists n. split; [done|]. by apply pages_of_cons, pages_of_nil.
Qed.

(** [nodeSplit2] on an oversized node with room: the first half is still
    oversized only if the initial guess was kept. *)
Lemma nodeSplit2_first old ty es :
  node_repr old ty es -> split_room es -> BTREE_PAGE_SIZE < Z.of_nat (node_size es) ->
  exists l r (m : nat),
    nodeSplit2 (make (2 * BTREE_PAGE_SIZE)) (make BTREE_PAGE_SIZE) old = Ok (l, r) /\
    (1 <= m < length es)%nat /\ node_repr l ty (take m es) /\ node_repr r ty (drop m es) /\
    len l = 2 * BTREE_PAGE_SIZE /\ len r = BTREE_PAGE_SIZE /\
    (m = (length es / 2)%nat \/ Z.of_nat (node_size (take m es)) <= BTREE_PAGE_SIZE).
Proof.
  intros Ho [Hall Hsz] Hbig. pose proof (split_room_single _ Hall) as Hsingle.
  pose proof (node_size_bounds _ _ Hall) as Hbnd. unfold SMALL_COST, BTREE_PAGE_SIZE in *.
  destruct (nodeSplit2_repr old ty es Ho (make (2 * 4096)) (make 4096))
    as (m & Hm & Hd & Hor & Hsplit); [done|lia|by apply len_make|].
  pose proof (node_size_take_drop m es) as Htd. pose proof (node_size_ge4 (drop m es)).
  destruct Hsplit as (l & r & E & Rl & Rr & Ll & Lr).
  { unfold make. rewrite length_replicate. lia. }
  unfold make in Ll, Lr. rewrite length_replicate in Ll, Lr.
  assert (1 <= length es / 2)%nat by (apply Nat.div_le_lower_bound; lia).
  exists l, r, m. unfold len. split_and!; auto; try lia.
  destruct Hor as [->|Hor]; [by left|right].
  apply before_big_suffix in Hor; [|done|lia]. unfold BTREE_PAGE_SIZE, SMALL_COST in *. lia.
Qed.

(** Splitting that first half again: all parts fit. *)
Lemma nodeSplit2_second left0 ty es (m := (length es / 2)%nat) :
  node_repr left0 ty (take m es) -> split_room es ->
  BTREE_PAGE_SIZE < Z.of_nat (node_size (take m es)) ->
  exists l r (m2 : nat),
    nodeSplit2 (make BTREE_PAGE_SIZE) (make BTREE_PAGE_SIZE) left0 = Ok (l, r) /\
    (1 <= m2 < m)%nat /\ node_repr l ty (take m2 es) /\ node_repr r ty (drop m2 (take m es)) /\
    len l = BTREE_PAGE_SIZE /\ len r = BTREE_PAGE_SIZE /\
    Z.of_nat (node_size (take m2 es)) <= BTREE_PAGE_SIZE.
Proof.
  intros Ho Hroom Hbig. pose proof Hroom as [Hall Hsz].
  pose proof (Forall_take _ m _ Hall) as Hall1.
  pose proof (node_size_bounds _ _ Hall1) as Hbnd1.
  pose proof (Nat.div_mod_eq (length es) 2). pose proof (Nat.mod_upper_bound (length es) 2).
  pose proof (length_take_le es m ltac:(unfold m; lia)) as Hlm. rewrite Hlm in Hbnd1.
  pose proof (node_size_take_drop m es). pose proof (node_size_ge4 (drop m es)).
  unfold SMALL_COST, BTREE_PAGE_SIZE in *.
  destruct (nodeSplit2_repr left0 ty (take m es) Ho (make 4096) (make 4096))
    as (m2 & Hm2 & Hd2 & Hor2 & Hsplit); [by apply split_room_single|lia|by apply len_make|].
  rewrite Hlm in Hm2, Hor2.
  assert (take m2 (take m es) = take m2 es) as Ett by (rewrite take_take; f_equal; lia).
  pose proof (Nat.div_mod_eq m 2).
  assert (1 <= m / 2)%nat by (apply Nat.div_le_lower_bound; lia).
  assert (Z.of_nat (node_size (take m2 es)) <= 4096) as Hfit2.
  { destruct Hor2 as [->|Hbig2]; [apply first_quarter_fits; [done|unfold m in *; lia]|].
    apply before_big_suffix in Hbig2; [|done|lia].
    rewrite Ett in Hbig2. unfold BTREE_PAGE_SIZE, SMALL_COST in *. lia. }
  rewrite Ett in Hsplit.
  destruct Hsplit as (l & r & E & Rl & Rr & Ll & Lr); [unfold make; rewrite length_replicate; lia|].
  unfold make in Ll, Lr. rewrite length_replicate in Ll, Lr.
  exists l, r, m2. unfold len. split_and!; auto; lia.
Qed.

Lemma nodeSplit3_repr old ty es :
  node_repr old ty es -> len old = 2 * BTREE_PAGE_SIZE -> es <> [] -> split_room es ->
  exists ns ess, nodeSplit3 old = Ok (len ns, ns ++ replicate (3 - length ns) []) /\
    (1 <= length ns <= 3)%nat /\ pages_of ty ns ess /\ concat ess = es.
Proof.
  intros Ho Hl Hne Hroom.
  destruct (decide (Z.of_nat (node_size es) <= BTREE_PAGE_SIZE)) as [Hs|Hs%Z.nle_gt].
  { destruct (nodeSplit3_fits old ty es) as (n & E & Hp); auto; [unfold BTREE_PAGE_SIZE in *; lia|].
    exists [n], [es]. cbn. split_and!; auto. by rewrite app_nil_r. }
  unfold nodeSplit3. rewrite (nbytes_repr _ _ _ Ho). step_res.
  rewrite (proj2 (Z.leb_gt _ _)) by done.
  destruct (nodeSplit2_first old ty es Ho Hroom Hs) as (l & r & m & -> & Hm & Rl & Rr & Ll & Lr & Hor).
  step_res. rewrite (nbytes_repr _ _ _ Rl). step_res.
  assert (drop m es <> []) as Hdne by (rewrite <- length_zero_iff_nil, length_drop; lia).
  assert (take m es <> []) as Htne by (rewrite <- length_zero_iff_nil, length_take; lia).
  destruct (Z.leb_spec (Z.of_nat (node_size (take m es))) BTREE_PAGE_SIZE) as [Hle|Hgt].
  { destruct (cut_page l ty (take m es)) as (l' & -> & Rl' & Ll');
      [done|done|unfold BTREE_PAGE_SIZE in *; lia|].
    step_res. exists [l'; r], [take m es; drop m es]. cbn. rewrite app_nil_r, take_drop.
    split_and!; auto; [lia..|]. by repeat apply pages_of_cons; try apply pages_of_nil. }
  destruct Hor as [->|]; [|lia].
  destruct (nodeSplit2_second l ty es Rl Hroom Hgt)
    as (ll & mid & m2 & -> & Hm2 & Rll & Rmid & Lll & Lmid & Hfit).
  step_res. rewrite (nbytes_repr _ _ _ Rll). step_res.
  set (m := (length es / 2)%nat) in *. clearbody m.
  exists [ll; mid; r], [take m2 es; drop m2 (take m es); drop m es].
  assert (take m2 es = take m2 (take m es)) as Et by (rewrite take_take; f_equal; lia).
  rewrite Et in *.
  cbn. rewrite app_nil_r, app_assoc, !take_drop. split_and!; auto; [lia..|].
  repeat apply pages_of_cons; try apply pages_of_nil; auto;
    rewrite <- length_zero_iff_nil, ?length_drop, !length_take; lia.
Qed.

(** ** Merging *)

Lemma nodeMerge_repr (new lft rgt : bytes) ty ty2 es1 es2 :
  node_repr lft ty es1 -> node_repr rgt ty2 es2 -> len new = BTREE_PAGE_SIZE ->
  Z.of_nat (node_size (es1 ++ es2)) <= BTREE_PAGE_SIZE ->
  exists new', nodeMerge new lft rgt = Ok new' /\
    node_repr new' ty (es1 ++ es2) /\ len new' = BTREE_PAGE_SIZE.
Proof.
  intros R1 R2 Hn Hs. destruct (repr_bounds _ _ _ R1) as (_ & _ & Hty).
  pose proof (length_lt_repr _ _ _ R1). pose proof (length_lt_repr _ _ _ R2).
  assert (fits new (length (es1 ++ es2)) (es1 ++ es2)) as Hfit.
  { unfold fits, len, node_size, BTREE_PAGE_SIZE in *. lia. }
  unfold nodeMerge. rewrite (btype_filled _ _ _ _ R1), (nkeys_filled _ _ _ _ R1),
    (nkeys_filled _ _ _ _ R2). step_res.
  replace (u16 (Z.of_nat (length es1) + Z.of_nat (length es2)))
    with (Z.of_nat (length (es1 ++ es2))).
  2:{ rewrite length_app, u16_small; [lia|]. unfold node_size, BTREE_PAGE_SIZE in *.
      rewrite length_app in Hs. lia. }
  destruct (setHeader_fits new ty _ _ Hty Hfit) as (n1 & -> & F1 & L1). step_res.
  edestruct (nodeAppendRange_filled n1 lft ty (length (es1 ++ es2)) ty es1 [] 0 0 (length es1))
    as (n2 & E2 & F2 & L2); [done|done|done|lia| |].
  { rewrite drop_0, take_ge by lia. eapply fits_len; [exact L1|]. by eapply fits_prefix. }
  change (Z.of_nat 0) with 0 in E2. rewrite E2. step_res.
  rewrite drop_0, take_ge in F2 by lia. cbn [app] in F2.
  edestruct (nodeAppendRange_filled n2 rgt ty (length (es1 ++ es2)) ty2 es2 es1
    (length es1) 0 (length es2)) as (n3 & E3 & F3 & L3); [done|done|done|lia| |].
  { rewrite drop_0, take_ge by lia. eapply fits_len; [|exact Hfit]. congruence. }
  change (Z.of_nat 0) with 0 in E3. rewrite E3. step_res.
  rewrite drop_0, take_ge in F3 by lia.
  rewrite (nbytes_repr _ _ _ F3). step_res. exists n3.
  split_and!; [done|exact F3|]. unfold len in *. congruence.
Qed.

Lemma nodeReplace2Kids_repr (new old : bytes) es (i : nat) ptr key :
  node_repr old BNODE_NODE es -> (i + 2 <= length es)%nat -> entry_ok (Entry ptr key []) ->
  let es' := take i es ++ Entry ptr key [] :: drop (i + 2) es in
  len new = BTREE_PAGE_SIZE -> Z.of_nat (node_size es') <= BTREE_PAGE_SIZE ->
  exists new', nodeReplace2Kids new old (Z.of_nat i) ptr key = Ok new' /\
    node_repr new' BNODE_NODE es' /\ len new' = BTREE_PAGE_SIZE.
Proof.
  intros Ho Hi He es' Hn Hs. pose proof (length_lt_repr _ _ _ Ho).
  unfold nodeReplace2Kids. rewrite (nkeys_filled _ _ _ _ Ho). step_res. u16_nat.
  destruct (build_middle new old BNODE_NODE _ es (Entry ptr key []) i (i + 2) Ho)
    as (n & E & R & L); [done|lia|lia|done| |].
  { fold es'. unfold fits, len, node_size, BTREE_PAGE_SIZE in *. lia. }
  exists n. split; [|split; [exact R|unfold len in *; congruence]].
  rewrite <- E. cbn [e_ptr e_key e_val].
  replace (Z.of_nat (S i)) with (Z.of_nat i + 1) by lia.
  replace (Z.of_nat (i + 2)) with (Z.of_nat i + 2) by lia.
  replace (Z.of_nat (length es - (i + 2))) with (Z.of_nat (length es) - (Z.of_nat i + 2)) by lia.
  rewrite length_app, length_cons, length_take, length_drop. do 2 f_equal. lia.
Qed.
