(* ===== verification/BTree.v ===== *)
(** * The copy-on-write B+tree (src/db/btree.go)

    The tree is a root page number over a page store that the code reaches
    through three callbacks.  The store is abstract here: [PageStore] has the
    callbacks, BTreeRep.v the laws an implementation promises. *)

From S2P Require Import Prelude.
From S2P Require Import GoBytes.
From S2P Require Import BNode.

(** Go's [error]: the message. *)
Abbreviation error := string.

(** The callbacks of [BTree]: read a page, allocate one, deallocate one. *)
Class PageStore (PS : Type) := {
  page_get : PS -> Z -> res bytes;
  page_new : PS -> bytes -> res (PS * Z);
  page_del : PS -> Z -> res PS
}.

Record BTree (PS : Type) := mkBTree { bt_root : Z; bt_store : PS }.
Arguments mkBTree {PS}.
Arguments bt_root {PS}.
Arguments bt_store {PS}.

Definition MODE_UPSERT : Z := 0.
Definition MODE_UPDATE_ONLY : Z := 1.
Definition MODE_INSERT_ONLY : Z := 2.

Record UpdateReq := mkUpdateReq {
  uq_Key : bytes; uq_Val : bytes; uq_Mode : Z;
  uq_Added : bool; uq_Updated : bool; uq_Old : bytes
}.

(** [&UpdateReq{Key: key, Val: val, Mode: mode}] *)
Definition updateReq (key val : bytes) (mode : Z) : UpdateReq :=
  mkUpdateReq key val mode false false [].

Record DeleteReq := mkDeleteReq { dq_Key : bytes; dq_Old : bytes }.

Section tree.
Context {PS : Type} `{PageStore PS}.

(** [for i, node := range kids { nodeAppendKV(new, idx+uint16(i), tree.new(node), node.getKey(0), nil) }] *)
Fixpoint appendKids (s : PS) (new : BNode) (idx i : Z) (kids : list BNode) : res (PS * BNode) :=
  match kids with
  | [] => Ok (s, new)
  | node :: kids =>
      '(s, ptr) ← page_new s node;
      key ← getKey node 0;
      new ← nodeAppendKV new (u16 (idx + u16 i)) ptr key [];
      appendKids s new idx (i + 1) kids
  end.

Definition nodeReplaceKidN (s : PS) (new old : BNode) (idx : Z) (kids : list BNode)
    : res (PS * BNode) :=
  n ← nkeys old;
  let nkeys_inc := u16 (u16 (len kids) - 1) in
  new ← setHeader new BNODE_NODE (u16 (n + nkeys_inc));
  new ← nodeAppendRange new old 0 0 idx;
  '(s, new) ← appendKids s new idx 0 kids;
  new ← nodeAppendRange new old (u16 (idx + u16 (len kids))) (u16 (idx + 1))
    (u16 (n - (idx + 1)));
  Ok (s, new).

(** *** Insertion *)

Definition nodeUpdate (treeUpdate : PS -> UpdateReq -> BNode -> res (PS * UpdateReq * BNode))
    (s : PS) (req : UpdateReq) (new node : BNode) (idx : Z) : res (PS * UpdateReq * BNode) :=
  kptr ← getPtr node idx;
  kid ← page_get s kptr;
  '(s, req, updated) ← treeUpdate s req kid;
  if len updated =? 0 then Ok (s, req, []) else
  '(nsplit, split) ← nodeSplit3 updated;
  s ← page_del s kptr;
  '(s, new) ← nodeReplaceKidN s new node idx (take (Z.to_nat nsplit) split);
  Ok (s, req, new).

(** [BNode{}] (nothing updated) is the empty byte string. *)
Fixpoint treeUpdate (depth : nat) (s : PS) (req : UpdateReq) (node : BNode)
    : res (PS * UpdateReq * BNode) :=
  match depth with
  | O => NoFuel
  | S depth =>
      let new := make (2 * BTREE_PAGE_SIZE) in
      idx ← nodeLookupLE node (uq_Key req);
      ty ← btype node;
      if ty =? BNODE_LEAF then
        k ← getKey node idx;
        if bytes_equal (uq_Key req) k then
          if uq_Mode req =? MODE_INSERT_ONLY then Ok (s, req, []) else
          v ← getVal node idx;
          if bytes_equal (uq_Val req) v then Ok (s, req, []) else
          new ← leafUpdate new node idx (uq_Key req) (uq_Val req);
          old ← getVal node idx;
          Ok (s, mkUpdateReq (uq_Key req) (uq_Val req) (uq_Mode req) (uq_Added req) true old, new)
        else
          if uq_Mode req =? MODE_UPDATE_ONLY then Ok (s, req, []) else
          new ← leafInsert new node (u16 (idx + 1)) (uq_Key req) (uq_Val req);
          Ok (s, mkUpdateReq (uq_Key req) (uq_Val req) (uq_Mode req) true true (uq_Old req), new)
      else if ty =? BNODE_NODE then
        nodeUpdate (treeUpdate depth) s req new node idx
      else Panic
  end.

(** *** Deletion *)

(** The merge direction and the sibling ([BNode{}] when there is none). *)
Definition shouldMerge (s : PS) (node : BNode) (idx : Z) (updated : BNode) : res (Z * BNode) :=
  ub ← nbytes updated;
  if BTREE_PAGE_SIZE / 4 <? ub then Ok (0, []) else
  l ← (if 0 <? idx then
         p ← getPtr node (u16 (idx - 1));
         sibling ← page_get s p;
         sb ← nbytes sibling;
         Ok (if u16 (sb + ub - HEADER_SIZE) <=? BTREE_PAGE_SIZE then Some sibling else None)
       else Ok None);
  match l with
  | Some sibling => Ok (-1, sibling)
  | None =>
      n ← nkeys node;
      r ← (if idx <? u16 (n - 1) then
             p ← getPtr node (u16 (idx + 1));
             sibling ← page_get s p;
             sb ← nbytes sibling;
             Ok (if u16 (sb + ub - HEADER_SIZE) <=? BTREE_PAGE_SIZE then Some sibling else None)
           else Ok None);
      match r with
      | Some sibling => Ok (1, sibling)
      | None => Ok (0, [])
      end
  end.

(** The end of [nodeDelete]: the updated kid is merged, dropped or linked. *)
Definition relinkKid (s : PS) (req : DeleteReq) (node : BNode) (idx : Z) (updated : BNode)
    : res (PS * DeleteReq * BNode) :=
  let new := make BTREE_PAGE_SIZE in
  '(mergeDirection, sibling) ← shouldMerge s node idx updated;
  if mergeDirection <? 0 then
    merged ← nodeMerge (make BTREE_PAGE_SIZE) sibling updated;
    p ← getPtr node (u16 (idx - 1));
    s ← page_del s p;
    '(s, ptr) ← page_new s merged;
    key ← getKey merged 0;
    new ← nodeReplace2Kids new node (u16 (idx - 1)) ptr key;
    Ok (s, req, new)
  else if 0 <? mergeDirection then
    merged ← nodeMerge (make BTREE_PAGE_SIZE) updated sibling;
    p ← getPtr node (u16 (idx + 1));
    s ← page_del s p;
    '(s, ptr) ← page_new s merged;
    key ← getKey merged 0;
    new ← nodeReplace2Kids new node idx ptr key;
    Ok (s, req, new)
  else
    un ← nkeys updated;
    if un =? 0 then
      n ← nkeys node;
      _ ← assert ((n =? 1) && (idx =? 0));
      new ← setHeader new BNODE_NODE 0;
      Ok (s, req, new)
    else
      '(s, new) ← nodeReplaceKidN s new node idx [updated];
      Ok (s, req, new).

Definition nodeDelete (treeDelete : PS -> DeleteReq -> BNode -> res (PS * DeleteReq * BNode))
    (s : PS) (req : DeleteReq) (node : BNode) (idx : Z) : res (PS * DeleteReq * BNode) :=
  kptr ← getPtr node idx;
  kid ← page_get s kptr;
  '(s, req, updated) ← treeDelete s req kid;
  if len updated =? 0 then Ok (s, req, []) else
  s ← page_del s kptr;
  relinkKid s req node idx updated.

Fixpoint treeDelete (depth : nat) (s : PS) (req : DeleteReq) (node : BNode)
    : res (PS * DeleteReq * BNode) :=
  match depth with
  | O => NoFuel
  | S depth =>
      idx ← nodeLookupLE node (dq_Key req);
      ty ← btype node;
      if ty =? BNODE_LEAF then
        k ← getKey node idx;
        if negb (bytes_equal (dq_Key req) k) then Ok (s, req, []) else
        old ← getVal node idx;
        new ← leafDelete (make BTREE_PAGE_SIZE) node idx;
        Ok (s, mkDeleteReq (dq_Key req) old, new)
      else if ty =? BNODE_NODE then
        nodeDelete (treeDelete depth) s req node idx
      else Panic
  end.

(** *** Lookup *)

Fixpoint nodeGetKey (depth : nat) (s : PS) (node : BNode) (key : bytes) : res (option bytes) :=
  match depth with
  | O => NoFuel
  | S depth =>
      idx ← nodeLookupLE node key;
      ty ← btype node;
      if ty =? BNODE_LEAF then
        k ← getKey node idx;
        if bytes_equal key k then v ← getVal node idx; Ok (Some v) else Ok None
      else if ty =? BNODE_NODE then
        p ← getPtr node idx;
        kid ← page_get s p;
        nodeGetKey depth s kid key
      else Panic
  end.

(** *** Interface *)

Definition checkLimit (key val : bytes) : option error :=
  if len key =? 0 then Some "empty key"%string
  else if BTREE_MAX_KEY_SIZE <? len key then Some "key too long"%string
  else if BTREE_MAX_VAL_SIZE <? len val then Some "val too long"%string
  else None.

Definition Update (depth : nat) (tree : BTree PS) (req : UpdateReq)
    : res (BTree PS * UpdateReq * (bool * option error)) :=
  match checkLimit (uq_Key req) (uq_Val req) with
  | Some err => Ok (tree, req, (false, Some err))
  | None =>
      if bt_root tree =? 0 then
        root ← setHeader (make BTREE_PAGE_SIZE) BNODE_LEAF 2;
        root ← nodeAppendKV root 0 0 [] [];
        root ← nodeAppendKV root 1 0 (uq_Key req) (uq_Val req);
        '(s, p) ← page_new (bt_store tree) root;
        Ok (mkBTree p s,
            mkUpdateReq (uq_Key req) (uq_Val req) (uq_Mode req) true true (uq_Old req),
            (true, None))
      else
        node ← page_get (bt_store tree) (bt_root tree);
        '(s, req, updated) ← treeUpdate depth (bt_store tree) req node;
        if len updated =? 0 then Ok (mkBTree (bt_root tree) s, req, (false, None)) else
        '(nsplit, split) ← nodeSplit3 updated;
        s ← page_del s (bt_root tree);
        if 1 <? nsplit then
          root ← setHeader (make BTREE_PAGE_SIZE) BNODE_NODE nsplit;
          '(s, root) ← appendKids s root 0 0 (take (Z.to_nat nsplit) split);
          '(s, p) ← page_new s root;
          Ok (mkBTree p s, req, (true, None))
        else
          n0 ← index split 0;
          '(s, p) ← page_new s n0;
          Ok (mkBTree p s, req, (true, None))
  end.

Definition Upsert (depth : nat) (tree : BTree PS) (key val : bytes) :=
  Update depth tree (updateReq key val MODE_UPSERT).

Definition Delete (depth : nat) (tree : BTree PS) (req : DeleteReq)
    : res (BTree PS * DeleteReq * (bool * option error)) :=
  match checkLimit (dq_Key req) [] with
  | Some err => Ok (tree, req, (false, Some err))
  | None =>
      if bt_root tree =? 0 then Ok (tree, req, (false, None)) else
      node ← page_get (bt_store tree) (bt_root tree);
      '(s, req, updated) ← treeDelete depth (bt_store tree) req node;
      if len updated =? 0 then Ok (mkBTree (bt_root tree) s, req, (false, None)) else
      s ← page_del s (bt_root tree);
      ty ← btype updated;
      n ← nkeys updated;
      if (ty =? BNODE_NODE) && (n =? 1) then
        p ← getPtr updated 0;
        Ok (mkBTree p s, req, (true, None))
      else
        '(s, p) ← page_new s updated;
        Ok (mkBTree p s, req, (true, None))
  end.

Definition Get (depth : nat) (tree : BTree PS) (key : bytes) : res (option bytes) :=
  if bt_root tree =? 0 then Ok None else
  node ← page_get (bt_store tree) (bt_root tree);
  nodeGetKey depth (bt_store tree) node key.

End tree.
