(* ===== verification/BTreeRep.v ===== *)
(** * Trees of pages

    [item_rep h m e kvs]: the slot [e] of a node at height [h] stands for the
    pairs [kvs], and [m] holds exactly the pages below it.  Pages below
    different slots are disjoint, so every page has one owner. *)

From S2P Require Import Prelude.
From S2P Require Import GoBytes.
From S2P Require Import BNode.
From S2P Require Import KVSpec.
From S2P Require Import BNodeFacts.
From S2P Require Import BTree.

Abbreviation heap := (gmap Z (list Init.Byte.byte)).

(** ** What a page store promises

    [store_ok s m r]: the live pages of [s] are those of [m], and at least
    [r] more calls of [new] or [del] will succeed. *)
Class PageStoreOk (PS : Type) `{PageStore PS} := {
  store_ok : PS -> heap -> nat -> Prop;
  store_get s m r p page : store_ok s m r -> m !! p = Some page -> page_get s p = Ok page;
  store_new s m r page : store_ok s m (S r) -> len page = BTREE_PAGE_SIZE ->
    exists s' p, page_new s page = Ok (s', p) /\ 0 < p < 2 ^ 64 /\ m !! p = None /\
      store_ok s' (<[p := page]> m) r;
  store_del s m r p : store_ok s m (S r) -> is_Some (m !! p) ->
    exists s', page_del s p = Ok s' /\ store_ok s' (delete p m) r;
  store_weaken s m r r' : store_ok s m r -> (r' <= r)%nat -> store_ok s m r'
}.

(** What reading needs: the pages of [m] are those of [s]. *)
Class PageReadOk (PS : Type) `{PageStore PS} := {
  read_ok : PS -> heap -> Prop;
  read_get s m p page : read_ok s m -> m !! p = Some page -> page_get s p = Ok page
}.

#[export] Program Instance store_read {PS : Type} `{PageStoreOk PS} : PageReadOk PS :=
  {| read_ok := fun s m => exists r, store_ok s m r |}.
Next Obligation. intros PS ? ? s m p page [r Hs] Hp. by eapply store_get. Qed.

(** ** Forests

    A list of slots, each with its own pages and pairs. *)
Section forest.
Context (P : heap -> entry -> list kv -> Prop).

Fixpoint forest (m : heap) (es : list entry) (kvs : list kv) : Prop :=
  match es with
  | [] => m = ∅ /\ kvs = []
  | e :: es => exists m1 m2 k1 k2,
      m = m1 ∪ m2 /\ m1 ##ₘ m2 /\ kvs = k1 ++ k2 /\ P m1 e k1 /\ forest m2 es k2
  end.

Lemma forest_app_1 m es1 es2 kvs :
  forest m (es1 ++ es2) kvs ->
  exists m1 m2 k1 k2, m = m1 ∪ m2 /\ m1 ##ₘ m2 /\ kvs = k1 ++ k2 /\
    forest m1 es1 k1 /\ forest m2 es2 k2.
Proof using.
  revert m kvs. induction es1 as [|e es1 IH]; intros m kvs; cbn.
  - intros Hf. exists ∅, m, [], kvs. rewrite (left_id_L ∅ (∪) m).
    split_and!; auto. apply map_disjoint_empty_l.
  - intros (m1 & m2 & k1 & k2 & -> & Hd & -> & He & Hf).
    destruct (IH _ _ Hf) as (m3 & m4 & k3 & k4 & -> & Hd' & -> & Hf3 & Hf4).
    apply map_disjoint_union_r in Hd as [Hd3 Hd4].
    exists (m1 ∪ m3), m4, (k1 ++ k3), k4.
    rewrite map_union_assoc, app_assoc. split_and!; auto.
    + apply map_disjoint_union_l_2; auto.
    + exists m1, m3, k1, k3. auto.
Qed.

Lemma forest_app_2 m1 m2 es1 es2 k1 k2 :
  m1 ##ₘ m2 -> forest m1 es1 k1 -> forest m2 es2 k2 ->
  forest (m1 ∪ m2) (es1 ++ es2) (k1 ++ k2).
Proof using.
  revert m1 k1. induction es1 as [|e es1 IH]; intros m1 k1 Hd; cbn.
  - intros [-> ->] Hf. by rewrite (left_id_L ∅ (∪)).
  - intros (m3 & m4 & k3 & k4 & -> & Hd' & -> & He & Hf) Hf2.
    apply map_disjoint_union_l in Hd as [Hd3 Hd4].
    exists m3, (m4 ∪ m2), k3, (k4 ++ k2). rewrite map_union_assoc, app_assoc.
    split_and!; auto. apply map_disjoint_union_r_2; auto.
Qed.

Lemma forest_single m e kvs : forest m [e] kvs <-> P m e kvs.
Proof using.
  cbn. split.
  - intros (m1 & m2 & k1 & k2 & -> & _ & -> & He & -> & ->). by rewrite (right_id_L ∅ (∪)), app_nil_r.
  - intros He. exists m, ∅, kvs, []. rewrite (right_id_L ∅ (∪)), app_nil_r.
    split_and!; auto. apply map_disjoint_empty_r.
Qed.

(** One slot taken out of the middle. *)
Lemma forest_middle m es1 e es2 kvs :
  forest m (es1 ++ e :: es2) kvs ->
  exists m1 me m2 k1 ke k2, m = m1 ∪ (me ∪ m2) /\ m1 ##ₘ me /\ m1 ##ₘ m2 /\ me ##ₘ m2 /\
    kvs = k1 ++ ke ++ k2 /\ forest m1 es1 k1 /\ P me e ke /\ forest m2 es2 k2.
Proof using.
  intros (m1 & m' & k1 & k' & -> & Hd & -> & H1 & (me & m2 & ke & k2 & -> & Hd' & -> & He & H2))%forest_app_1.
  apply map_disjoint_union_r in Hd as [? ?].
  exists m1, me, m2, k1, ke, k2. auto 10.
Qed.

(** ... and several put in its place. *)
Lemma forest_replace m1 me m2 es1 es es2 k1 ke k2 :
  m1 ##ₘ me -> m1 ##ₘ m2 -> me ##ₘ m2 ->
  forest m1 es1 k1 -> forest me es ke -> forest m2 es2 k2 ->
  forest (m1 ∪ (me ∪ m2)) (es1 ++ es ++ es2) (k1 ++ ke ++ k2).
Proof using.
  intros. apply forest_app_2; [by apply map_disjoint_union_r_2|done|]. by apply forest_app_2.
Qed.

Lemma forest_length_ne m es kvs :
  (forall m e k, P m e k -> k <> []) -> es <> [] -> forest m es kvs -> kvs <> [].
Proof using.
  intros HP Hne. destruct es as [|e es]; [done|]. cbn.
  intros (m1 & m2 & k1 & k2 & _ & _ & -> & He & _). apply HP in He. by destruct k1.
Qed.
End forest.

(** ** Items *)

Definition level_ty (h : nat) : Z := match h with O => BNODE_LEAF | S _ => BNODE_NODE end.

(** The page [page], outside the store, is a node at height [h]. *)
Definition node_rep (P : heap -> entry -> list kv -> Prop) (h : nat)
    (m : heap) (page : bytes) (es : list entry) (kvs : list kv) : Prop :=
  node_repr page (level_ty h) es /\ es <> [] /\ forest P m es kvs.

Fixpoint item_rep (h : nat) (m : heap) (e : entry) (kvs : list kv) : Prop :=
  match h with
  | O => m = ∅ /\ e_ptr e = 0 /\ kvs = [(e_key e, e_val e)]
  | S h => e_val e = [] /\ e_key e = first_key kvs /\ e_ptr e <> 0 /\
      exists page mk es, m = <[e_ptr e := page]> mk /\ mk !! e_ptr e = None /\
        len page = BTREE_PAGE_SIZE /\ node_rep (item_rep h) h mk page es kvs
  end.

Abbreviation items h := (forest (item_rep h)).

Lemma item_rep_ne h m e kvs : item_rep h m e kvs -> kvs <> [].
Proof.
  revert m e kvs. induction h as [|h IH]; cbn; intros m e kvs.
  - intros (_ & _ & ->). done.
  - intros (_ & _ & _ & page & mk & es & _ & _ & _ & (_ & Hne & Hf)).
    eapply forest_length_ne; [|exact Hne|exact Hf]. eauto.
Qed.

Lemma item_rep_key h m e kvs : item_rep h m e kvs -> e_key e = first_key kvs.
Proof. destruct h; cbn; [by intros (_ & _ & ->) | by intros (_ & ? & _)]. Qed.

Lemma items_ne h m es kvs : es <> [] -> items h m es kvs -> kvs <> [].
Proof. apply forest_length_ne. apply item_rep_ne. Qed.

Lemma items_first_key h m e es kvs : items h m (e :: es) kvs -> first_key kvs = e_key e.
Proof.
  cbn. intros (m1 & m2 & k1 & k2 & _ & _ & -> & He & _).
  rewrite (item_rep_key _ _ _ _ He). apply first_key_app. by eapply item_rep_ne.
Qed.

(** Slot keys are keys of the pairs, in the same order. *)
Lemma items_keys h m es kvs k : items h m es kvs -> k ∈ e_key <$> es -> k ∈ kvs.*1.
Proof.
  revert m kvs. induction es as [|e es IH]; intros m kvs; [by intros _ ?%not_elem_of_nil|].
  intros (m1 & m2 & k1 & k2 & _ & _ & -> & He & Hf). rewrite fmap_app, elem_of_app.
  intros [->|Hk]%elem_of_cons; [left|right; eauto].
  rewrite (item_rep_key _ _ _ _ He). apply first_key_in. by eapply item_rep_ne.
Qed.

Lemma items_sorted h m es kvs : items h m es kvs -> sorted_kvs kvs -> sorted_keys (e_key <$> es).
Proof.
  revert m kvs. induction es as [|e es IH]; intros m kvs; [intros; constructor|].
  intros (m1 & m2 & k1 & k2 & _ & _ & -> & He & Hf). rewrite fmap_app.
  intros (_ & Hs2 & Hlt)%sorted_keys_app. constructor; [by eapply IH|].
  rewrite Forall_forall. intros k Hk. apply Hlt; [|by eapply items_keys].
  rewrite (item_rep_key _ _ _ _ He). apply first_key_in. by eapply item_rep_ne.
Qed.

(** ** Where a key lives

    The slot that binary search selects is the only one that can hold the
    key. *)
Lemma sorted_first kvs k : sorted_kvs kvs -> k ∈ kvs.*1 -> ble (first_key kvs) k.
Proof.
  destruct kvs as [|[k0 v0] kvs]; cbn; [by intros _ ?%not_elem_of_nil|].
  intros [_ Hall]%StronglySorted_inv [->|Hk]%elem_of_cons; apply ble_lteq; [by right|left].
  rewrite Forall_forall in Hall. auto.
Qed.

Lemma locate h m es kvs key :
  items h m es kvs -> sorted_kvs kvs -> es <> [] -> ble (first_key kvs) key ->
  exists L e R m1 me m2 k1 ke k2,
    es = L ++ e :: R /\ Z.of_nat (rank (e_key <$> es) key) - 1 = Z.of_nat (length L) /\
    m = m1 ∪ (me ∪ m2) /\ m1 ##ₘ me /\ m1 ##ₘ m2 /\ me ##ₘ m2 /\ kvs = k1 ++ ke ++ k2 /\
    items h m1 L k1 /\ item_rep h me e ke /\ items h m2 R k2 /\
    all_lt k1 key /\ all_gt k2 key /\ ble (e_key e) key.
Proof.
  intros Hf Hs Hne Hle. pose proof (items_sorted _ _ _ _ Hf Hs) as Hsk.
  destruct es as [|e0 es0]; [done|]. rewrite (items_first_key _ _ _ _ _ Hf) in Hle.
  pose proof (proj1 (rank_spec _ key 0 _ Hsk eq_refl) Hle) as Hpos.
  pose proof (rank_le (e_key <$> e0 :: es0) key) as Hmax. rewrite length_fmap in Hmax.
  set (es := e0 :: es0) in *. set (i := (rank (e_key <$> es) key - 1)%nat).
  assert (is_Some (es !! i)) as [e He] by (apply lookup_lt_is_Some; lia).
  pose proof (take_drop_middle _ _ _ He) as Hes. rewrite <- Hes in Hf.
  apply forest_middle in Hf
    as (m1 & me & m2 & k1 & ke & k2 & -> & D1 & D2 & D3 & -> & F1 & Fe & F2).
  exists (take i es), e, (drop (S i) es), m1, me, m2, k1, ke, k2.
  pose proof (lookup_lt_Some _ _ _ He).
  assert ((e_key <$> es) !! i = Some (e_key e)) as Hk by (by rewrite list_lookup_fmap, He).
  assert (ble (e_key e) key) as Hek by (apply (rank_spec _ key _ _ Hsk Hk); lia).
  rewrite !fmap_app in Hs. apply sorted_keys_app in Hs as (_ & Hs & Hlt1).
  apply sorted_keys_app in Hs as (_ & Hs2 & _).
  split_and!; auto.
  - rewrite length_take. lia.
  - rewrite Forall_forall. intros p Hp. eapply blt_ble_trans; [|exact Hek]. apply Hlt1.
    + by apply list_elem_of_fmap_2.
    + rewrite (item_rep_key _ _ _ _ Fe), elem_of_app. left. apply first_key_in. by eapply item_rep_ne.
  - destruct (drop (S i) es) as [|e' R] eqn:ER; [by destruct F2 as [_ ->]|].
    assert (es !! S i = Some e') as He'.
    { rewrite <- (Nat.add_0_r (S i)), <- lookup_drop, ER. done. }
    assert ((e_key <$> es) !! S i = Some (e_key e')) as Hk' by (by rewrite list_lookup_fmap, He').
    assert (blt key (e_key e')) as Hlt'.
    { apply not_ble. intros Hc%(rank_spec _ key _ _ Hsk Hk'). lia. }
    rewrite Forall_forall. intros p Hp. eapply blt_ble_trans; [exact Hlt'|].
    rewrite <- (items_first_key _ _ _ _ _ F2). apply sorted_first; [done|].
    by apply list_elem_of_fmap_2.
Qed.
