(* ===== verification/MemStore.v ===== *)
(** * The in-memory page store of a transaction (src/db/transaction.go)

    [Begin] gives the tree of pending updates callbacks over a slice of
    pages: page [ptr] is the element [ptr - 1], allocation appends, and
    deallocation does nothing. *)

From S2P Require Import Prelude.
From S2P Require Import GoBytes.
From S2P Require Import BNode.
From S2P Require Import BTree.
From S2P Require Import BTreeRep.

Definition mem_pages : Type := list bytes.

(** [tx.pending.get] *)
Definition mem_get (pages : mem_pages) (ptr : Z) : res bytes := index pages (u64 (ptr - 1)).

(** [tx.pending.new] *)
Definition mem_new (pages : mem_pages) (node : bytes) : res (mem_pages * Z) :=
  Ok (pages ++ [node], u64 (len (pages ++ [node]))).

(** [tx.pending.del] *)
Definition mem_del (pages : mem_pages) (_ : Z) : res mem_pages := Ok pages.

#[export] Instance mem_store : PageStore mem_pages :=
  {| page_get := mem_get; page_new := mem_new; page_del := mem_del |}.

(** The live pages are where their numbers say; dead ones may stay. *)
Definition mem_ok (pages : mem_pages) (m : heap) (r : nat) : Prop :=
  (forall p page, m !! p = Some page -> 0 < p <= len pages /\ mem_get pages p = Ok page) /\
  len pages + Z.of_nat r < 2 ^ 63.

Lemma mem_get_app pages node p :
  0 < p <= len pages -> len pages < 2 ^ 63 -> mem_get (pages ++ [node]) p = mem_get pages p.
Proof.
  intros Hp Hl. unfold mem_get. rewrite u64_small by lia. unfold index, len in *.
  rewrite lookup_app_l by lia. done.
Qed.

Lemma mem_get_new pages node :
  len pages + 1 < 2 ^ 63 -> mem_get (pages ++ [node]) (len pages + 1) = Ok node.
Proof.
  intros Hl. unfold mem_get, len in *. rewrite u64_small by lia. unfold index.
  rewrite (proj2 (Z.leb_le _ _)) by lia.
  replace (Z.to_nat (Z.of_nat (length pages) + 1 - 1)) with (length pages) by lia.
  by rewrite list_lookup_middle.
Qed.

#[export] Program Instance mem_store_ok : PageStoreOk mem_pages := {| store_ok := mem_ok |}.
Next Obligation. intros s m r p page [Hm _] Hp. by apply Hm. Qed.
Next Obligation.
  intros s m r page [Hm Hr] _. exists (s ++ [page]), (len s + 1). cbn. unfold mem_new.
  assert (len (s ++ [page]) = len s + 1) as Hl by (unfold len; rewrite length_app; cbn; lia).
  rewrite Hl, u64_small by (unfold len in *; lia). split_and!; auto; [unfold len in *; lia..| |].
  - destruct (m !! (len s + 1)) eqn:E; [|done]. apply Hm in E as [? _]. lia.
  - split; [|lia]. intros p pg. rewrite lookup_insert. case_decide as E; subst.
    + intros [= <-]. split; [unfold len in *; lia|]. apply mem_get_new. lia.
    + intros Hp. apply Hm in Hp as [Hp Hg]. rewrite mem_get_app by lia. split; [lia|done].
Qed.
Next Obligation.
  intros s m r p [Hm Hr] _. exists s. split; [done|]. split; [|lia].
  intros q pg. rewrite lookup_delete_Some. intros [_ Hq]. by apply Hm.
Qed.
Next Obligation. intros s m r r' [Hm Hr] Hle. split; [done|lia]. Qed.

Lemma mem_ok_empty r : Z.of_nat r < 2 ^ 63 -> mem_ok [] ∅ r.
Proof. intros Hr. split; [by intros p page|]. unfold len. cbn. lia. Qed.
