(* ===== verification/BTreeInsert.v ===== *)
(** * Lookup and insertion in the B+tree

    [Get] and [Update] of src/db/btree.go implement lookup and insertion of
    the ordered map of KVSpec.v, on any page store that keeps the promises of
    [PageStoreOk]. *)

From S2P Require Import Prelude.
From S2P Require Import GoBytes.
From S2P Require Import BNode.
From S2P Require Import KVSpec.
From S2P Require Import BNodeFacts.
From S2P Require Import BSplitFacts.
From S2P Require Import BTree.
From S2P Require Import BTreeRep.

(** Equality of heaps, slot by slot: the lookups of the heaps involved are
    generalised one by one, and impossible overlaps pruned at once. *)
Ltac heap_prune :=
  match goal with
  | H : Some _ = None |- _ => discriminate H
  | H : Some _ = None \/ Some _ = None |- _ => exfalso; clear - H; destruct H; discriminate
  end.

Ltac heap_eq :=
  let i := fresh "i" in
  apply map_eq; intros i;
  repeat match goal with
  | H : _ ##ₘ _ |- _ =>
      rewrite map_disjoint_alt in H; specialize (H i);
      rewrite ?lookup_union, ?lookup_insert, ?lookup_delete in H
  end;
  rewrite ?lookup_union, ?lookup_insert, ?lookup_delete, ?lookup_union;
  repeat case_decide; subst;
  repeat match goal with
  | |- context [?m !! ?i] =>
      let o := fresh "o" in set (o := m !! i) in *; clearbody o; destruct o; try heap_prune
  end;
  first [reflexivity | simpl in *; intuition congruence].

(** ** Lookup *)

Section read.
Context {PS : Type} `{PageReadOk PS}.

Lemma repr_len_u16 node ty es : node_repr node ty es -> Z.of_nat (length es) < 2 ^ 16.
Proof using. intros Hr%length_lt_repr. lia. Qed.

(** The result of the binary search, when the slot exists. *)
Lemma lookup_slot node ty L e R key :
  node_repr node ty (L ++ e :: R) -> sorted_keys (e_key <$> (L ++ e :: R)) ->
  Z.of_nat (rank (e_key <$> (L ++ e :: R)) key) - 1 = Z.of_nat (length L) ->
  nodeLookupLE node key = Ok (Z.of_nat (length L)).
Proof using.
  intros Hr Hs Hrank. rewrite (nodeLookupLE_repr _ _ _ _ Hr Hs), Hrank, u16_small; [done|].
  apply repr_len_u16 in Hr. rewrite length_app, length_cons in Hr. lia.
Qed.

Lemma nodeGetKey_ok h depth (s : PS) m mf page es kvs key :
  read_ok s (m ∪ mf) -> node_rep (item_rep h) h m page es kvs -> sorted_kvs kvs ->
  ble (first_key kvs) key -> (h < depth)%nat ->
  nodeGetKey depth s page key = Ok (kv_get key kvs).
Proof using.
  revert h m mf page es kvs. induction depth as [|depth IH];
    intros h m mf page es kvs Hst (Hr & Hne & Hf) Hs Hle Hd; [lia|].
  pose proof (items_sorted _ _ _ _ Hf Hs) as Hsk.
  destruct (locate _ _ _ _ _ Hf Hs Hne Hle)
    as (L & e & R & m1 & me & m2 & k1 & ke & k2 & -> & Hrank & -> & D1 & D2 & D3 & -> &
        F1 & Fe & F2 & A1 & A2 & Hek).
  cbn [nodeGetKey]. rewrite (lookup_slot _ _ _ _ _ _ Hr Hsk Hrank), (btype_filled _ _ _ _ Hr).
  step_res. rewrite kv_get_skip by done.
  pose proof (list_lookup_middle L R e _ eq_refl) as Hlk.
  destruct h as [|h].
  - destruct Fe as (-> & _ & ->). cbn [level_ty]. change (BNODE_LEAF =? BNODE_LEAF) with true.
    rewrite (getKey_filled _ _ _ _ Hr _ _ Hlk). step_res. unfold bytes_equal. cbn [kv_get].
    case_bool_decide as Hk; [|by rewrite decide_False by congruence].
    rewrite (getVal_filled _ _ _ _ Hr _ _ Hlk), decide_True by congruence. done.
  - destruct Fe as (_ & Hfk & _ & kpage & mk & kes & -> & Hmk & Hlen & Hn).
    cbn [level_ty]. change (BNODE_NODE =? BNODE_LEAF) with false.
    change (BNODE_NODE =? BNODE_NODE) with true. cbv iota.
    rewrite (getPtr_filled _ _ _ _ Hr _ _ Hlk). step_res.
    rewrite (read_get _ _ _ kpage Hst).
    2:{ apply lookup_union_Some_l, lookup_union_Some_raw. right. split.
        - eapply map_disjoint_Some_r; [exact D1|]. apply lookup_insert_eq.
        - apply lookup_union_Some_l, lookup_insert_eq. }
    step_res. rewrite !fmap_app in Hs. apply sorted_keys_app in Hs as (_ & Hs & _).
    apply sorted_keys_app in Hs as (Hs & _ & _).
    rewrite map_disjoint_insert_l in D3. rewrite map_disjoint_insert_r in D1.
    destruct D1 as [? D1], D3 as [? D3].
    assert (m1 ∪ (<[e_ptr e:=kpage]> mk ∪ m2) ∪ mf = mk ∪ <[e_ptr e:=kpage]> (m1 ∪ (m2 ∪ mf)))
      as Eq by heap_eq.
    rewrite Eq in Hst. eapply IH; eauto; [by rewrite <- Hfk|lia].
Qed.

End read.

Section ops.
Context {PS : Type} `{PageStoreOk PS}.

(** ** Storing the parts of a node *)

Definition hd_key (es : list entry) : bytes := default [] (e_key <$> head es).

(** The slots of the parts, page numbers aside. *)
Definition proto (ess : list (list entry)) : list entry :=
  (fun es => Entry 0 (hd_key es) []) <$> ess.

(** Same keys and values, other page numbers. *)
Definition same_kv (es1 es2 : list entry) : Prop :=
  Forall2 (fun a b => e_key a = e_key b /\ e_val a = e_val b) es1 es2.

Lemma same_kv_size es1 es2 : same_kv es1 es2 ->
  kvs_size es1 = kvs_size es2 /\ length es1 = length es2.
Proof using.
  induction 1 as [|a b es1 es2 [Ek Ev] _ [IH IHl]]; [done|].
  rewrite !kvs_size_cons, !length_cons, IH, IHl. unfold kv_size. by rewrite Ek, Ev.
Qed.

Lemma same_kv_fits node N pre es1 es2 post :
  same_kv es1 es2 -> fits node N (pre ++ es2 ++ post) -> fits node N (pre ++ es1 ++ post).
Proof using.
  intros [Hs Hl]%same_kv_size. unfold fits. rewrite !length_app, !kvs_size_app, Hs, Hl. done.
Qed.

Lemma same_kv_node_size es1 es2 : same_kv es1 es2 -> node_size es1 = node_size es2.
Proof using. intros [Hs Hl]%same_kv_size. unfold node_size. by rewrite Hs, Hl. Qed.

Lemma hd_key_first h m es kvs : es <> [] -> items h m es kvs -> hd_key es = first_key kvs.
Proof using.
  intros Hne Hf. destruct es as [|e es]; [done|]. by rewrite (items_first_key _ _ _ _ _ Hf).
Qed.

Lemma getKey_first n ty es : node_repr n ty es -> es <> [] -> getKey n 0 = Ok (hd_key es).
Proof using.
  intros Hr Hne. destruct es as [|e es]; [done|]. change 0 with (Z.of_nat 0).
  by rewrite (getKey_filled _ _ _ _ Hr 0 e eq_refl).
Qed.

Lemma first_key_len (es : list entry) n ty : node_repr n ty es -> len (hd_key es) < 2 ^ 16.
Proof using.
  intros Hr. destruct es as [|e es]; [done|].
  exact (proj1 (proj2 (entry_of _ _ _ _ Hr 0 e eq_refl))).
Qed.

Lemma appendKids_ok h ns ess s m F r kvs new N pre (idx i : nat) :
  pages_of (level_ty h) ns ess -> items h m (concat ess) kvs ->
  store_ok s (m ∪ F) (length ns + r) -> m ##ₘ F ->
  filled new BNODE_NODE N pre -> length pre = (idx + i)%nat ->
  fits new N (pre ++ proto ess) -> Z.of_nat (idx + i + length ns) < 2 ^ 16 ->
  exists s' new' kes m',
    appendKids s new (Z.of_nat idx) (Z.of_nat i) ns = Ok (s', new') /\
    filled new' BNODE_NODE N (pre ++ kes) /\ length new' = length new /\
    same_kv kes (proto ess) /\ items (S h) m' kes kvs /\ m' ##ₘ F /\ store_ok s' (m' ∪ F) r.
Proof using All.
  revert ess s m F kvs new pre i.
  induction ns as [|n ns IH]; intros ess s m F kvs new pre i Hp Hf Hst HD Hfil Hpre Hfit Hb.
  { apply Forall2_nil_inv_l in Hp as ->. exists s, new, [], m. rewrite app_nil_r.
    destruct Hf as [-> ->]. split_and!; auto; [constructor|by split]. }
  apply Forall2_cons_inv_l in Hp as (es & ess' & (Hr & Hlen & Hne) & Hp & ->).
  cbn [concat] in Hf. apply forest_app_1 in Hf as (m1 & m2 & k1 & k2 & -> & D & -> & Hf1 & Hf2).
  apply map_disjoint_union_l in HD as [HD1 HD2].
  destruct (store_new _ _ _ n Hst Hlen) as (s1 & p & E1 & Hpr & Hfresh & Hst1).
  apply lookup_union_None in Hfresh as [Hfresh HfF].
  apply lookup_union_None in Hfresh as [Hf1p Hf2p].
  pose proof (hd_key_first _ _ _ _ Hne Hf1) as Hhd.
  change (proto (es :: ess')) with (Entry 0 (hd_key es) [] :: proto ess') in *.
  assert (entry_ok (Entry p (hd_key es) [])) as Hok
    by (split; [cbn; lia|]; cbn; split; [by eapply first_key_len|done]).
  pose proof Hfit as Hfit1. rewrite (cons_middle _ pre), app_assoc in Hfit1.
  apply fits_prefix in Hfit1 as (Hc1 & Hc2 & Hc3).
  rewrite length_app in Hc1. cbn [length] in Hc1.
  assert (kvs_size (pre ++ [Entry p (hd_key es) []]) = kvs_size (pre ++ [Entry 0 (hd_key es) []]))
    as Hsz by (by rewrite !kvs_size_app).
  destruct (nodeAppendKV_filled new _ N pre (Entry p (hd_key es) []) Hfil)
    as (n1 & E2 & F1 & L1); [lia|done|by rewrite Hsz|by rewrite Hsz|].
  cbn [e_ptr e_key e_val] in E2. cbn [length] in Hb.
  destruct (IH ess' s1 m2 (<[p:=n]> m1 ∪ F) k2 n1 (pre ++ [Entry p (hd_key es) []]) (S i))
    as (s' & new' & kes & m' & E3 & F3 & L3 & Hkv & Hi & HD' & Hst'); auto.
  { eapply eq_rect with (P := fun x => store_ok s1 x _); [exact Hst1|]. heap_eq. }
  { apply map_disjoint_union_r_2; [|done]. apply map_disjoint_insert_r. split; [done|].
    by apply map_disjoint_sym. }
  { rewrite length_app. cbn. lia. }
  { eapply fits_len; [exact L1|]. rewrite <- app_assoc.
    eapply (same_kv_fits _ _ _ _ [Entry 0 (hd_key es) []]); [|exact Hfit].
    by repeat constructor. }
  { lia. }
  exists s', new', (Entry p (hd_key es) [] :: kes), (<[p:=n]> m1 ∪ m').
  cbn [appendKids]. rewrite E1. step_res. rewrite (getKey_first _ _ _ Hr Hne). step_res.
  rewrite (u16_small (Z.of_nat i)), u16_small by lia. rewrite <- Nat2Z.inj_add, <- Hpre, E2. step_res.
  replace (Z.of_nat i + 1) with (Z.of_nat (S i)) by lia. rewrite E3.
  apply map_disjoint_union_r in HD' as [HD1' HD2'].
  split_and!; auto.
  - by rewrite cons_middle, app_assoc.
  - congruence.
  - by constructor.
  - exists (<[p:=n]> m1), m', k1, k2. split_and!; auto.
    cbn. rewrite <- Hhd. split_and!; auto; [lia|]. exists n, m1, es. unfold node_rep. auto 10.
  - apply map_disjoint_union_l_2; [|done]. apply map_disjoint_insert_l. auto.
  - eapply eq_rect with (P := fun x => store_ok s' x _); [exact Hst'|].
    clear - HD1' HD2'. heap_eq.
Qed.
(** Replacing one slot by the slots of new pages. *)
Lemma nodeReplaceKidN_ok h ns ess s m F r kvs new old L e R :
  node_repr old BNODE_NODE (L ++ e :: R) ->
  pages_of (level_ty h) ns ess -> (1 <= length ns <= 3)%nat -> items h m (concat ess) kvs ->
  store_ok s (m ∪ F) (length ns + r) -> m ##ₘ F ->
  fits new (length (L ++ proto ess ++ R)) (L ++ proto ess ++ R) ->
  exists s' new' kes m',
    nodeReplaceKidN s new old (Z.of_nat (length L)) ns = Ok (s', new') /\
    node_repr new' BNODE_NODE (L ++ kes ++ R) /\ length new' = length new /\
    same_kv kes (proto ess) /\ items (S h) m' kes kvs /\ m' ##ₘ F /\ store_ok s' (m' ∪ F) r.
Proof using All.
  intros Ho Hp Hns Hf Hst HD Hfit.
  set (N := length (L ++ proto ess ++ R)) in *.
  pose proof (length_lt_repr _ _ _ Ho) as Hlo. rewrite length_app, length_cons in Hlo.
  assert (length (proto ess) = length ns) as Hlp
    by (unfold proto; rewrite length_fmap; symmetry; by eapply Forall2_length).
  assert (N = length L + length ns + length R)%nat as HN
    by (unfold N; rewrite !length_app; lia).
  unfold nodeReplaceKidN. rewrite (nkeys_filled _ _ _ _ Ho). step_res.
  rewrite length_app, length_cons. unfold len.
  rewrite (u16_small (Z.of_nat (length ns))) by lia.
  rewrite (u16_small (Z.of_nat (length ns) - 1)) by lia.
  replace (u16 (Z.of_nat (length L + S (length R)) + (Z.of_nat (length ns) - 1)))
    with (Z.of_nat N) by (rewrite u16_small; lia).
  destruct (setHeader_fits new BNODE_NODE _ _ ltac:(done) Hfit) as (n1 & -> & F1 & L1). step_res.
  edestruct (nodeAppendRange_filled n1 old BNODE_NODE N BNODE_NODE (L ++ e :: R) [] 0 0 (length L))
    as (n2 & E2 & F2 & L2); [done|done|done|rewrite length_app; lia| |].
  { rewrite drop_0, take_app_length. eapply fits_len; [exact L1|]. by eapply fits_prefix. }
  change (Z.of_nat 0) with 0 in E2. rewrite E2. step_res. rewrite drop_0, take_app_length in F2.
  cbn [app] in F2.
  destruct (appendKids_ok h ns ess s m F r kvs n2 N L (length L) 0 Hp Hf Hst HD F2)
    as (s' & n3 & kes & m' & E3 & F3 & L3 & Hkv & Hi & HD' & Hst').
  { lia. }
  { apply (fits_len new); [congruence|].
    rewrite app_assoc in Hfit. by eapply fits_prefix. }
  { lia. }
  change (Z.of_nat 0) with 0 in E3. rewrite E3. step_res.
  pose proof (same_kv_size _ _ Hkv) as [_ Hlk].
  rewrite !u16_small by lia.
  edestruct (nodeAppendRange_filled n3 old BNODE_NODE N BNODE_NODE (L ++ e :: R) (L ++ kes)
    (length L + length ns) (S (length L)) (length R)) as (n4 & E4 & F4 & L4); [done|done| | | |].
  { rewrite length_app. lia. }
  { rewrite length_app, length_cons. lia. }
  { rewrite cons_middle, app_assoc, drop_app_length', take_ge, <- app_assoc
      by (rewrite ?length_app; cbn; lia).
    apply (fits_len new); [congruence|]. by eapply same_kv_fits. }
  replace (Z.of_nat (length L) + Z.of_nat (length ns)) with (Z.of_nat (length L + length ns)) by lia.
  replace (Z.of_nat (length L) + 1) with (Z.of_nat (S (length L))) by lia.
  replace (Z.of_nat (length L + S (length R)) - Z.of_nat (S (length L)))
    with (Z.of_nat (length R)) by lia.
  rewrite E4. step_res.
  rewrite cons_middle, app_assoc, drop_app_length', take_ge, <- app_assoc in F4
    by (rewrite ?length_app; cbn; lia).
  exists s', n4, kes, m'. split_and!; auto; [|congruence].
  replace N with (length (L ++ kes ++ R)) in F4 by (rewrite !length_app; lia). exact F4.
Qed.

(** ** Insertion *)

(** Key and value small enough for three-way splits to succeed. *)
Definition small_kv (p : kv) : Prop := (14 + length p.1 + length p.2 <= SMALL_COST)%nat.

Lemma item_small h m e kvs :
  item_rep h m e kvs -> Forall small_kv kvs -> (entry_cost e <= SMALL_COST)%nat.
Proof using.
  intros He Hs. unfold entry_cost, kv_size. destruct h as [|h].
  - destruct He as (_ & _ & ->). apply Forall_cons in Hs as [Hs _]. unfold small_kv in Hs. cbn in Hs. lia.
  - pose proof (item_rep_ne _ _ _ _ He). destruct He as (Hv & Hk & _).
    rewrite Hv, Hk. destruct kvs as [|[k v] kvs]; [done|].
    apply Forall_cons in Hs as [Hs _]. unfold small_kv in Hs. cbn in *. lia.
Qed.

Lemma items_small h m es kvs :
  items h m es kvs -> Forall small_kv kvs ->
  Forall (fun e => (entry_cost e <= SMALL_COST)%nat) es.
Proof using.
  revert m kvs. induction es as [|e es IH]; intros m kvs; [constructor|].
  intros (m1 & m2 & k1 & k2 & _ & _ & -> & He & Hf) [Hs1 Hs2]%Forall_app.
  constructor; [by eapply item_small|by eapply IH].
Qed.

Lemma kv_insert_small key val kvs :
  Forall small_kv kvs -> small_kv (key, val) -> Forall small_kv (kv_insert key val kvs).
Proof using.
  intros Hs Hkv. induction Hs as [|[k v] kvs Hk Hs IH]; cbn; [by apply Forall_singleton|].
  repeat case_decide; by repeat apply Forall_cons_2.
Qed.

(** Does the request change the map? *)
Definition upd_changes (mode : Z) (val : bytes) (old : option bytes) : bool :=
  match old with
  | Some v => negb (mode =? MODE_INSERT_ONLY) && negb (bytes_equal val v)
  | None => negb (mode =? MODE_UPDATE_ONLY)
  end.

(** The output fields of the request after a change. *)
Definition upd_req (req : UpdateReq) (old : option bytes) : UpdateReq :=
  match old with
  | Some v => mkUpdateReq (uq_Key req) (uq_Val req) (uq_Mode req) (uq_Added req) true v
  | None => mkUpdateReq (uq_Key req) (uq_Val req) (uq_Mode req) true true (uq_Old req)
  end.

(** A page just built, and not stored yet: up to two small entries too big. *)
Definition oversized (page : bytes) (es : list entry) : Prop :=
  len page = 2 * BTREE_PAGE_SIZE /\
  Z.of_nat (node_size es) <= BTREE_PAGE_SIZE + 2 * Z.of_nat SMALL_COST.

Lemma fits_double es :
  Z.of_nat (node_size es) <= BTREE_PAGE_SIZE + 2 * Z.of_nat SMALL_COST ->
  fits (make (2 * BTREE_PAGE_SIZE)) (length es) es.
Proof using.
  unfold fits, node_size, make, BTREE_PAGE_SIZE, SMALL_COST. rewrite length_replicate. lia.
Qed.

Lemma make_double_len (page : bytes) :
  length page = length (make (2 * BTREE_PAGE_SIZE)) -> len page = 2 * BTREE_PAGE_SIZE.
Proof using. unfold len. intros ->. unfold make. rewrite length_replicate. done. Qed.

Lemma page_size_le page ty es :
  node_repr page ty es -> len page = BTREE_PAGE_SIZE -> Z.of_nat (node_size es) <= BTREE_PAGE_SIZE.
Proof using. intros (? & _ & _)%repr_bounds Hl. unfold len in *. lia. Qed.

Lemma node_size_middle L es R :
  (node_size (L ++ es ++ R) = node_size (L ++ R) + sum_list_with entry_cost es)%nat.
Proof using. rewrite !node_size_costs, !sum_list_with_app. lia. Qed.

(** What [treeUpdate] does at a node: nothing when the request changes
    nothing, otherwise a new page for the updated pairs. *)
Definition update_spec (h depth : nat) (s : PS) (req : UpdateReq) (page : bytes)
    (m F : heap) (r : nat) (kvs : list kv) : Prop :=
  let old := kv_get (uq_Key req) kvs in
  if upd_changes (uq_Mode req) (uq_Val req) old then
    exists s' new es' m',
      treeUpdate depth s req page = Ok (s', upd_req req old, new) /\
      node_rep (item_rep h) h m' new es' (kv_insert (uq_Key req) (uq_Val req) kvs) /\
      oversized new es' /\ m' ##ₘ F /\ store_ok s' (m' ∪ F) r
  else treeUpdate depth s req page = Ok (s, req, []).

(** Cutting a list at a slot. *)
Lemma cut_before {A} (L R : list A) e : take (length L) (L ++ e :: R) = L.
Proof using. apply take_app_length. Qed.

Lemma cut_after {A} (L R : list A) e : drop (S (length L)) (L ++ e :: R) = R.
Proof using.
  rewrite cons_middle, app_assoc. apply drop_app_length'. rewrite length_app. cbn. lia.
Qed.

Lemma cut_upto {A} (L R : list A) e : take (S (length L)) (L ++ e :: R) = L ++ [e].
Proof using.
  rewrite cons_middle, app_assoc. apply take_app_length'. rewrite length_app. cbn. lia.
Qed.

Lemma treeUpdate_leaf_ok depth s req page m F r es kvs :
  store_ok s (m ∪ F) r -> m ##ₘ F -> node_rep (item_rep 0) 0 m page es kvs ->
  len page = BTREE_PAGE_SIZE -> sorted_kvs kvs -> small_kv (uq_Key req, uq_Val req) ->
  ble (first_key kvs) (uq_Key req) ->
  update_spec 0 (S depth) s req page m F r kvs.
Proof using All.
  destruct req as [key val mode added updated oldv]. cbn [uq_Key uq_Val].
  intros Hst HD (Hr & Hne & Hf) Hlen Hs Hsm Hle.
  pose proof (items_sorted _ _ _ _ Hf Hs) as Hsk.
  destruct (locate _ _ _ _ _ Hf Hs Hne Hle)
    as (L & e & R & m1 & me & m2 & k1 & ke & k2 & -> & Hrank & -> & D1 & D2 & D3 & -> &
        F1 & Fe & F2 & A1 & A2 & Hek).
  destruct Fe as (-> & Hp0 & ->). pose proof (page_size_le _ _ _ Hr Hlen) as Hsz.
  rewrite cons_middle, node_size_middle in Hsz. cbn [sum_list_with] in Hsz.
  pose proof (list_lookup_middle L R e _ eq_refl) as Hlk.
  assert (entry_ok (Entry 0 key val)) as Hok.
  { unfold small_kv, SMALL_COST in Hsm. cbn in Hsm. unfold entry_ok, len. cbn. lia. }
  assert (item_rep 0 ∅ (Entry 0 key val) [(key, val)]) as Fnew by (cbn; by auto).
  assert (entry_cost (Entry 0 key val) <= SMALL_COST)%nat as Hcost.
  { unfold small_kv in Hsm. cbn in Hsm. unfold entry_cost, kv_size. cbn. lia. }
  unfold update_spec. cbn [uq_Key uq_Val uq_Mode]. rewrite kv_get_skip by done.
  rewrite kv_insert_lt, kv_insert_gt by done. cbn [kv_get kv_insert].
  cbn [treeUpdate uq_Key uq_Val uq_Mode uq_Added uq_Old].
  rewrite (lookup_slot _ _ _ _ _ _ Hr Hsk Hrank), (btype_filled _ _ _ _ Hr). step_res.
  cbn [level_ty]. change (BNODE_LEAF =? BNODE_LEAF) with true. cbv iota.
  rewrite (getKey_filled _ _ _ _ Hr _ _ Hlk). step_res.
  destruct (decide (e_key e = key)) as [Hk|Hk].
  - replace (bytes_equal key (e_key e)) with true
      by (symmetry; by apply bool_decide_true).
    rewrite decide_False by (rewrite Hk; apply (irreflexivity blt)).
    cbn [upd_changes]. destruct (mode =? MODE_INSERT_ONLY) eqn:Em; cbn [negb andb]; [done|].
    rewrite (getVal_filled _ _ _ _ Hr _ _ Hlk). step_res.
    destruct (bytes_equal val (e_val e)); cbn [negb]; [done|].
    destruct (leafUpdate_repr (make (2 * BTREE_PAGE_SIZE)) page _ Hr (length L) key val)
      as (new & -> & Rn & Ln).
    { rewrite length_app. cbn. lia. }
    { done. }
    { apply fits_double. rewrite cut_before, cut_after.
      pose proof (node_size_middle L [Entry 0 key val] R) as Hn. cbn [app sum_list_with] in *. lia. }
    step_res. rewrite cut_before, cut_after in Rn.
    exists s, new, (L ++ [Entry 0 key val] ++ R), (m1 ∪ (∅ ∪ m2)).
    split_and!; [done| |split; [by apply make_double_len|]|done|done].
    + split_and!; [done|by destruct L|]. apply forest_replace; auto. by apply forest_single.
    + rewrite node_size_middle. cbn [sum_list_with]. lia.
  - replace (bytes_equal key (e_key e)) with false
      by (symmetry; by apply bool_decide_false).
    apply ble_lteq in Hek as [Hlt|]; [|done]. rewrite decide_True by done.
 cbn [upd_changes].
    destruct (mode =? MODE_UPDATE_ONLY) eqn:Em; cbn [negb]; [done|].
    pose proof (repr_len_u16 _ _ _ Hr) as Hl16. rewrite length_app, length_cons in Hl16.
    rewrite u16_small by lia. replace (Z.of_nat (length L) + 1) with (Z.of_nat (S (length L))) by lia.
    destruct (leafInsert_repr (make (2 * BTREE_PAGE_SIZE)) page _ Hr (S (length L)) key val)
      as (new & -> & Rn & Ln).
    { rewrite length_app. cbn. lia. }
    { done. }
    { apply fits_double. rewrite cut_upto, cut_after, <- app_assoc.
      pose proof (node_size_middle L [e; Entry 0 key val] R) as Hn. cbn [app sum_list_with] in *. lia. }
    step_res. rewrite cut_upto, cut_after, <- app_assoc in Rn.
    exists s, new, (L ++ [e; Entry 0 key val] ++ R), (m1 ∪ (∅ ∪ m2)).
    split_and!; [done| |split; [by apply make_double_len|]|done|done].
    + split_and!; [done|by destruct L|].
      apply (forest_replace _ m1 ∅ m2 L [e; Entry 0 key val] R k1 [(e_key e, e_val e); (key, val)] k2); auto.
      exists ∅, ∅, [(e_key e, e_val e)], [(key, val)]. split_and!; auto.
      * apply map_disjoint_empty_l.
      * cbn. auto.
      * by apply forest_single.
    + rewrite node_size_middle. cbn [sum_list_with]. lia.
Qed.

(** The separators of freshly split pages are small, and the first is the
    smallest key. *)
Lemma proto_small h ns ess m kvs :
  pages_of (level_ty h) ns ess -> items h m (concat ess) kvs -> Forall small_kv kvs ->
  Forall (fun e => (entry_cost e <= SMALL_COST)%nat) (proto ess).
Proof using.
  intros Hp. revert m kvs. induction Hp as [|n es ns ess (_ & _ & Hne) Hp IH]; intros m kvs Hf Hs;
    [constructor|].
  cbn [concat] in Hf. apply forest_app_1 in Hf as (m1 & m2 & k1 & k2 & -> & D & -> & Hf1 & Hf2).
  apply Forall_app in Hs as [Hs1 Hs2]. constructor; [|by eapply IH].
  destruct es as [|e es]; [done|]. apply items_small in Hf1; [|done].
  apply Forall_cons in Hf1 as [He _]. unfold entry_cost, kv_size in *. cbn in *. lia.
Qed.

Lemma proto_cost h ns ess m kvs :
  pages_of (level_ty h) ns ess -> items h m (concat ess) kvs -> Forall small_kv kvs ->
  (1 <= length ns <= 3)%nat ->
  (sum_list_with entry_cost (proto ess) <=
   entry_cost (Entry 0 (first_key kvs) []) + 2 * SMALL_COST)%nat.
Proof using.
  intros Hp Hf Hs Hns. pose proof (proto_small _ _ _ _ _ Hp Hf Hs) as Hsm.
  pose proof (Forall2_length _ _ _ Hp) as Hl.
  destruct Hp as [|n es ns ess (_ & _ & Hne) Hp]; [cbn in *; lia|].
  cbn [concat] in Hf. apply forest_app_1 in Hf as (m1 & m2 & k1 & k2 & -> & D & -> & Hf1 & _).
  rewrite first_key_app by (by eapply items_ne). rewrite <- (hd_key_first _ _ _ _ Hne Hf1).
  apply Forall_cons in Hsm as [_ Hsm]. cbn [proto fmap list_fmap sum_list_with] in *.
  cbn [length] in *. destruct ess as [|es1 [|es2 [|]]]; cbn [length] in *; try lia.
  all: repeat (apply Forall_cons in Hsm as [? Hsm]); cbn [fmap list_fmap sum_list_with]; lia.
Qed.

(** The internal node around an updated kid. *)
Lemma node_around_kid h s m1 m2 mk F r node L e R p new es' k1 k2 kvs kpage :
  node_repr node BNODE_NODE (L ++ e :: R) -> len node = BTREE_PAGE_SIZE ->
  e_key e = first_key kvs -> e_val e = [] ->
  items (S h) m1 L k1 -> items (S h) m2 R k2 -> Forall small_kv kvs ->
  node_rep (item_rep h) h mk new es' kvs -> oversized new es' ->
  m1 ##ₘ m2 -> m1 ##ₘ F -> m2 ##ₘ F -> mk ##ₘ <[p := kpage]> (m1 ∪ (m2 ∪ F)) ->
  (m1 ∪ (m2 ∪ F)) !! p = None ->
  store_ok s (mk ∪ <[p := kpage]> (m1 ∪ (m2 ∪ F))) (4 + r) ->
  exists nsplit split s1 s2 new2 kes m',
    nodeSplit3 new = Ok (nsplit, split) /\ page_del s p = Ok s1 /\
    nodeReplaceKidN s1 (make (2 * BTREE_PAGE_SIZE)) node (Z.of_nat (length L))
      (take (Z.to_nat nsplit) split) = Ok (s2, new2) /\
    node_rep (item_rep (S h)) (S h) m' new2 (L ++ kes ++ R) (k1 ++ kvs ++ k2) /\
    oversized new2 (L ++ kes ++ R) /\ m' ##ₘ F /\ store_ok s2 (m' ∪ F) r.
Proof using All.
  intros Hr Hlen Hek Hev F1 F2 Hs (Hrn & Hne & Hf) [Hln Hsz] D12 D1 D2 Dk Hp Hst.
  destruct (nodeSplit3_repr new _ _ Hrn Hln Hne) as (ns & ess & E1 & Hns & Hpg & <-).
  { split; [by eapply items_small|done]. }
  assert (is_Some ((mk ∪ <[p:=kpage]> (m1 ∪ (m2 ∪ F))) !! p)) as Hsome.
  { rewrite lookup_union, lookup_insert_eq. destruct (mk !! p); by eexists. }
  destruct (store_del _ _ _ _ Hst Hsome) as (s1 & E2 & Hst1).
  apply map_disjoint_insert_r in Dk as [Hkp Dk].
  assert (delete p (mk ∪ <[p:=kpage]> (m1 ∪ (m2 ∪ F))) = mk ∪ (m1 ∪ (m2 ∪ F))) as Eq.
  { rewrite delete_union, delete_insert_id by done. by rewrite delete_id. }
  rewrite Eq in Hst1. pose proof (proto_cost _ _ _ _ _ Hpg Hf Hs Hns) as Hpc.
  pose proof (page_size_le _ _ _ Hr Hlen) as Hsz0.
  assert (entry_cost (Entry 0 (first_key kvs) []) = entry_cost e) as Hce.
  { unfold entry_cost, kv_size. cbn. by rewrite Hek, Hev. }
  assert (Z.of_nat (node_size (L ++ proto ess ++ R)) <= BTREE_PAGE_SIZE + 2 * Z.of_nat SMALL_COST)
    as Hbig.
  { rewrite cons_middle, node_size_middle in Hsz0. rewrite node_size_middle.
    cbn [sum_list_with] in Hsz0. lia. }
  destruct (nodeReplaceKidN_ok h ns ess s1 mk (m1 ∪ (m2 ∪ F)) r kvs
    (make (2 * BTREE_PAGE_SIZE)) node L e R)
    as (s2 & new2 & kes & m' & E3 & R2 & L2 & Hkv & Hi & HD' & Hst2); auto.
  { eapply store_weaken; [exact Hst1|]. lia. }
  { by apply fits_double. }
  exists (len ns), (ns ++ replicate (3 - length ns) []), s1, s2, new2, kes, (m1 ∪ (m' ∪ m2)).
  apply map_disjoint_union_r in HD' as [HD1 HD2]. apply map_disjoint_union_r in HD2 as [HD2 HD3].
  assert (kes <> []) as Hkne by (intros ->; by apply (items_ne _ _ _ _ Hne Hf), (proj2 Hi)).
  split_and!; auto.
  - unfold len. by rewrite Nat2Z.id, take_app_length.
  - split_and!; [done|by destruct L, kes|]. by apply forest_replace.
  - split; [by apply make_double_len|]. rewrite !node_size_middle in *.
    assert (sum_list_with entry_cost kes = sum_list_with entry_cost (proto ess)) as ->; [|lia].
    apply same_kv_node_size in Hkv. rewrite !node_size_costs in Hkv. lia.
  - by repeat apply map_disjoint_union_l_2.
  - eapply eq_rect with (P := fun x => store_ok s2 x _); [exact Hst2|].
    clear - HD1 HD2 HD3 D12 D1 D2. heap_eq.
Qed.

Lemma sorted_middle (k1 ke k2 : list kv) : sorted_kvs (k1 ++ ke ++ k2) -> sorted_kvs ke.
Proof using.
  rewrite !fmap_app. intros (_ & (Hs & _)%sorted_keys_app & _)%sorted_keys_app. done.
Qed.

Lemma treeUpdate_ok h depth s req page m F r es kvs :
  store_ok s (m ∪ F) (4 * h + r) -> m ##ₘ F -> node_rep (item_rep h) h m page es kvs ->
  len page = BTREE_PAGE_SIZE -> sorted_kvs kvs -> Forall small_kv kvs ->
  small_kv (uq_Key req, uq_Val req) -> ble (first_key kvs) (uq_Key req) -> (h < depth)%nat ->
  update_spec h depth s req page m F r kvs.
Proof using All.
  revert depth s page m F r es kvs.
  induction h as [|h IH]; intros depth s page m F r es kvs Hst HD Hn Hlen Hs Hsm Hkv Hle Hd;
    (destruct depth as [|depth]; [lia|]).
  { by eapply treeUpdate_leaf_ok. }
  destruct Hn as (Hr & Hne & Hf). pose proof (items_sorted _ _ _ _ Hf Hs) as Hsk.
  destruct (locate _ _ _ _ _ Hf Hs Hne Hle)
    as (L & e & R & m1 & me & m2 & k1 & ke & k2 & -> & Hrank & -> & D1 & D2 & D3 & -> &
        F1 & Fe & F2 & A1 & A2 & Hek).
  pose proof (list_lookup_middle L R e _ eq_refl) as Hlk.
  apply sorted_middle in Hs. apply Forall_app in Hsm as [_ [Hsm _]%Forall_app].
  pose proof (item_rep_ne _ _ _ _ Fe) as Hkne.
  destruct Fe as (Hev & Hfk & _ & kpage & mk & kes & -> & Hmk & Hkl & Hkn).
  assert (m1 ∪ (<[e_ptr e := kpage]> mk ∪ m2) ∪ F = mk ∪ <[e_ptr e := kpage]> (m1 ∪ (m2 ∪ F)))
    as Eq by heap_eq.
  rewrite Eq in Hst. rewrite !map_disjoint_union_l in HD. destruct HD as (HD1 & HDe & HD2).
  apply map_disjoint_insert_l in HDe as [HFp HDe]. apply map_disjoint_insert_l in D3 as [Hp2 D3].
  apply map_disjoint_insert_r in D1 as [Hp1 D1].
  assert (mk ##ₘ <[e_ptr e := kpage]> (m1 ∪ (m2 ∪ F))) as Dk.
  { apply map_disjoint_insert_r. split; [done|]. by repeat apply map_disjoint_union_r_2. }
  assert ((m1 ∪ (m2 ∪ F)) !! e_ptr e = None) as Hpn by (rewrite !lookup_union, Hp1, Hp2, HFp; done).
  rewrite Hfk in Hek. unfold update_spec. rewrite kv_get_skip by done.
  assert (treeUpdate (S depth) s req page =
    nodeUpdate (treeUpdate depth) s req (make (2 * BTREE_PAGE_SIZE)) page (Z.of_nat (length L))) as ->.
  { cbn [treeUpdate]. rewrite (lookup_slot _ _ _ _ _ _ Hr Hsk Hrank), (btype_filled _ _ _ _ Hr).
    done. }
  unfold nodeUpdate. rewrite (getPtr_filled _ _ _ _ Hr _ _ Hlk). step_res.
  rewrite (store_get _ _ _ _ kpage Hst).
  2:{ rewrite lookup_union_r by done. apply lookup_insert_eq. }
  step_res. replace (4 * S h + r)%nat with (4 * h + (4 + r))%nat in Hst by lia.
  pose proof (IH depth _ _ _ _ _ _ _ Hst Dk Hkn Hkl Hs Hsm Hkv Hek ltac:(lia)) as Hu.
  unfold update_spec in Hu.
  destruct (upd_changes (uq_Mode req) (uq_Val req) (kv_get (uq_Key req) ke)); [|by rewrite Hu].
  destruct Hu as (s' & new & es' & m' & -> & Hn' & Hov & Dk' & Hst'). step_res.
  rewrite (proj2 (Z.eqb_neq _ 0)) by (rewrite (proj1 Hov); done).
  rewrite kv_insert_lt, kv_insert_gt by done.
  destruct (node_around_kid h s' m1 m2 m' F r page L e R (e_ptr e) new es' k1 k2
    (kv_insert (uq_Key req) (uq_Val req) ke) kpage)
    as (nsplit & split & s1 & s2 & new2 & kes' & m2' & -> & E2 & E3 & Hn2 & Hov2 & HD' & Hst2);
    auto using kv_insert_small; [by rewrite first_key_insert|].
  step_res. rewrite E2. step_res. rewrite E3. step_res.
  by exists s2, new2, (L ++ kes' ++ R), m2'.
Qed.

End ops.
