(* ===== verification/BTreeMap.v ===== *)
(** * The tree as an ordered map: lookup and update

    [tree_models h F t M r]: the tree [t], of height [h], stores exactly the
    pairs of the map [M] in pages that are disjoint from the pages [F] of
    others, and its store still grants [r] allocations and deallocations.
    The operations of src/db/btree.go are refinements of the map's. *)

From S2P Require Import Prelude.
From S2P Require Import GoBytes.
From S2P Require Import BNode.
From S2P Require Import KVSpec.
From S2P Require Import BNodeFacts.
From S2P Require Import BSplitFacts.
From S2P Require Import BTree.
From S2P Require Import BTreeRep.
From S2P Require Import BTreeInsert.

(** The pairs of a tree: the sentinel, which makes every lookup find a slot,
    then the user's pairs. *)
Definition with_sentinel (kvs : list kv) : list kv := ([], []) :: kvs.

(** The shape of a tree that stores [kvs] in the pages [m]. *)
Definition tree_shape (h : nat) (m : heap) (root : Z) (kvs : list kv) : Prop :=
  if decide (root = 0) then m = ∅ /\ kvs = []
  else item_rep (S h) m (Entry root [] []) (with_sentinel kvs).

(** ** Facts about keys and limits *)

Lemma sentinel_get key kvs : key <> [] -> kv_get key (with_sentinel kvs) = kv_get key kvs.
Proof. intros Hk. cbn. by rewrite decide_False by congruence. Qed.

Lemma nil_blt key : key <> [] -> blt [] key.
Proof. by destruct key. Qed.

Lemma nil_ble key : ble [] key.
Proof. apply ble_lteq. destruct key; [by right|by left]. Qed.

Lemma sentinel_insert key val kvs :
  key <> [] -> kv_insert key val (with_sentinel kvs) = with_sentinel (kv_insert key val kvs).
Proof. intros Hk. cbn. by rewrite decide_True by by apply nil_blt. Qed.

Lemma sentinel_small kvs : Forall small_kv kvs -> Forall small_kv (with_sentinel kvs).
Proof. intros. constructor; [|done]. unfold small_kv, SMALL_COST. cbn. lia. Qed.

Lemma checkLimit_small key val :
  key <> [] -> small_kv (key, val) -> checkLimit key val = None.
Proof.
  unfold small_kv, SMALL_COST, checkLimit, BTREE_MAX_KEY_SIZE, BTREE_MAX_VAL_SIZE, len. cbn.
  intros Hk Hs. destruct key as [|b key]; [done|]. cbn [length] in *.
  rewrite !(proj2 (Z.eqb_neq _ _)), !(proj2 (Z.ltb_ge _ _)) by lia. done.
Qed.

Lemma shape_root h m root kvs : root <> 0 -> tree_shape h m root kvs ->
  exists page mk es, m = <[root := page]> mk /\ mk !! root = None /\ len page = BTREE_PAGE_SIZE /\
    node_rep (item_rep h) h mk page es (with_sentinel kvs).
Proof.
  intros Hr. unfold tree_shape. rewrite decide_False by done. intros (_ & _ & _ & Hx). exact Hx.
Qed.

Lemma root_shape h mk p page es kvs :
  0 < p -> mk !! p = None -> len page = BTREE_PAGE_SIZE ->
  node_rep (item_rep h) h mk page es (with_sentinel kvs) -> tree_shape h (<[p := page]> mk) p kvs.
Proof.
  intros Hp Hm Hl Hn. unfold tree_shape. rewrite decide_False by lia. split_and!; try done.
  - cbn. lia.
  - by exists page, mk, es.
Qed.

(** ** Reading a tree *)

Section read.
Context {PS : Type} `{PageReadOk PS}.

(** The tree [t] of height [h] holds [kvs] in pages that can be read. *)
Definition tree_reads (h : nat) (t : BTree PS) (kvs : list kv) : Prop :=
  exists m F, tree_shape h m (bt_root t) kvs /\ m ##ₘ F /\ read_ok (bt_store t) (m ∪ F) /\
    sorted_kvs (with_sentinel kvs).

Lemma Get_sentinel h depth t key kvs : tree_reads h t kvs -> bt_root t <> 0 -> (h < depth)%nat ->
  Get depth t key = Ok (kv_get key (with_sentinel kvs)).
Proof using All.
  intros (m & F & Hsh & HD & Hst & Hs) Hroot Hd. unfold Get. rewrite (proj2 (Z.eqb_neq _ _)) by done.
  apply shape_root in Hsh as (page & mk & es & -> & Hmk & Hl & Hn); [|done].
  apply map_disjoint_insert_l in HD as [HFr HD]. rewrite <- insert_union_l in Hst.
  rewrite (read_get _ _ _ page Hst) by apply lookup_insert_eq. step_res.
  rewrite insert_union_r in Hst by done.
  by rewrite (nodeGetKey_ok _ _ _ _ _ _ _ _ _ Hst Hn Hs (nil_ble _) Hd).
Qed.

Lemma Get_reads h depth t key kvs :
  tree_reads h t kvs -> key <> [] -> (h < depth)%nat -> Get depth t key = Ok (kv_get key kvs).
Proof using All.
  intros Ht Hk Hd. destruct (decide (bt_root t = 0)) as [Hroot|Hroot].
  - unfold Get. rewrite Hroot. destruct Ht as (m & F & Hsh & _). unfold tree_shape in Hsh.
    rewrite decide_True in Hsh by done. by destruct Hsh as [_ ->].
  - rewrite (Get_sentinel h depth t key kvs Ht Hroot Hd). by rewrite sentinel_get.
Qed.

(** The empty key is that of the sentinel. *)
Lemma Get_empty h depth t kvs : tree_reads h t kvs -> (h < depth)%nat ->
  Get depth t [] = Ok (if decide (bt_root t = 0) then None else Some []).
Proof using All.
  intros Ht Hd. case_decide as Hroot; [unfold Get; by rewrite Hroot|].
  rewrite (Get_sentinel h depth t [] kvs Ht Hroot Hd). cbn [with_sentinel kv_get]. by rewrite decide_True.
Qed.

End read.

Section map.
Context {PS : Type} `{PageStoreOk PS}.

Definition tree_stores (h : nat) (F : heap) (t : BTree PS) (kvs : list kv) (r : nat) : Prop :=
  exists m, tree_shape h m (bt_root t) kvs /\ m ##ₘ F /\ store_ok (bt_store t) (m ∪ F) r /\
    sorted_kvs (with_sentinel kvs) /\ Forall small_kv kvs.

Definition tree_models (h : nat) (F : heap) (t : BTree PS) (M : gmap bytes bytes) (r : nat) : Prop :=
  exists kvs, tree_stores h F t kvs r /\ kv_map kvs = M.

(** ** The first node *)

Lemma first_root_ok key val : key <> [] -> small_kv (key, val) ->
  exists n1 n2 n3,
    setHeader (make BTREE_PAGE_SIZE) BNODE_LEAF 2 = Ok n1 /\ nodeAppendKV n1 0 0 [] [] = Ok n2 /\
    nodeAppendKV n2 1 0 key val = Ok n3 /\ len n3 = BTREE_PAGE_SIZE /\
    node_repr n3 BNODE_LEAF [Entry 0 [] []; Entry 0 key val].
Proof using.
  intros Hk Hs. unfold small_kv, SMALL_COST in Hs. cbn [fst snd] in Hs.
  assert (length (make BTREE_PAGE_SIZE) = 4096%nat) as Hm by apply length_replicate.
  assert (fits (make BTREE_PAGE_SIZE) 2 [Entry 0 [] []; Entry 0 key val]) as Hfit.
  { unfold fits. rewrite !kvs_size_cons, kvs_size_nil. unfold kv_size. cbn [e_key e_val length]. lia. }
  destruct (setHeader_fits (make BTREE_PAGE_SIZE) BNODE_LEAF _ _ ltac:(done) Hfit) as (n1 & E1 & F1 & L1).
  destruct (nodeAppendKV_filled n1 _ 2 [] (Entry 0 [] []) F1) as (n2 & E2 & F2 & L2).
  { cbn. lia. }
  { done. }
  { cbn. lia. }
  { done. }
  destruct (nodeAppendKV_filled n2 _ 2 _ (Entry 0 key val) F2) as (n3 & E3 & F3 & L3).
  { cbn. lia. }
  { unfold entry_ok, len. cbn. lia. }
  { cbn [app]. rewrite !kvs_size_cons, kvs_size_nil. unfold kv_size. cbn [e_key e_val length]. lia. }
  { cbn [app]. rewrite !kvs_size_cons, kvs_size_nil. unfold kv_size. cbn [e_key e_val length]. lia. }
  exists n1, n2, n3. split_and!; auto. unfold len. rewrite L3, L2, L1, Hm. done.
Qed.

(** ** Growing the tree at the root *)

(** The tail of [Update]: the parts of the old root become the new root, or
    the children of a new root. *)
Lemma new_root_ok h s m F r new es kvs :
  node_rep (item_rep h) h m new es (with_sentinel kvs) -> oversized new es ->
  Forall small_kv (with_sentinel kvs) -> m ##ₘ F -> store_ok s (m ∪ F) (4 + r) ->
  exists ns split, nodeSplit3 new = Ok (ns, split) /\
  exists s' p h' m',
    (if 1 <? ns then
       root ← setHeader (make BTREE_PAGE_SIZE) BNODE_NODE ns;
       '(s, root) ← appendKids s root 0 0 (take (Z.to_nat ns) split);
       page_new s root
     else n0 ← index split 0; page_new s n0) = Ok (s', p) /\
    tree_shape h' m' p kvs /\ (h' <= S h)%nat /\ m' ##ₘ F /\ store_ok s' (m' ∪ F) r.
Proof using All.
  intros (Hr & Hne & Hf) [Hln Hsz] Hs HD Hst.
  destruct (nodeSplit3_repr new _ _ Hr Hln Hne) as (ns & ess & E1 & Hns & Hpg & <-).
  { split; [by eapply items_small|done]. }
  exists (len ns), (ns ++ replicate (3 - length ns) []). split; [done|].
  pose proof (Forall2_length _ _ _ Hpg) as Hl. unfold len. destruct (Z.ltb_spec 1 (Z.of_nat (length ns))).
  - assert (length (proto ess) = length ns) as Hlp by (unfold proto; rewrite length_fmap; lia).
    pose proof (proto_cost _ _ _ _ _ Hpg Hf Hs Hns) as Hpc. cbn in Hpc.
    assert (fits (make BTREE_PAGE_SIZE) (length ns) (proto ess)) as Hfit.
    { pose proof (node_size_costs (proto ess)) as Hc. unfold node_size in Hc. rewrite Hlp in Hc.
      unfold SMALL_COST, fits in *. rewrite Hlp. unfold make. rewrite length_replicate.
      unfold BTREE_PAGE_SIZE in *. lia. }
    destruct (setHeader_fits (make BTREE_PAGE_SIZE) BNODE_NODE _ _ ltac:(done) Hfit) as (n1 & -> & F1 & L1).
    step_res. rewrite Nat2Z.id, take_app_length.
    destruct (appendKids_ok h ns ess s m F (S r) (with_sentinel kvs) n1 (length ns) [] 0 0 Hpg Hf)
      as (s' & root & kes & m' & E2 & F2 & L2 & Hkv & Hi & HD' & Hst'); auto.
    { eapply store_weaken; [exact Hst|]. lia. }
    { by apply (fits_len (make BTREE_PAGE_SIZE)). }
    { lia. }
    change (Z.of_nat 0) with 0 in E2. rewrite E2. step_res. cbn [app] in F2.
    assert (len root = BTREE_PAGE_SIZE) as Hlr
      by (unfold len; rewrite L2, L1; unfold make; by rewrite length_replicate).
    destruct (store_new _ _ _ _ Hst' Hlr) as (s2 & p & E3 & Hp & Hnone & Hst2).
    apply lookup_union_None in Hnone as [Hnm HnF].
    exists s2, p, (S h), (<[p := root]> m'). split_and!; auto.
    + apply (root_shape _ _ _ _ kes); [lia|done|done|]. split_and!; [|by intros ->; destruct Hi|exact Hi].
      unfold node_repr. apply same_kv_size in Hkv as [_ Hkl]. by rewrite Hkl, Hlp.
    + by apply map_disjoint_insert_l.
    + by rewrite <- insert_union_l.
  - destruct ns as [|n [|]]; cbn [length] in *; try lia.
    apply Forall2_cons_inv_l in Hpg as (es & ess' & (Rn & Ln & Hnn) & ->%Forall2_nil_inv_l & ->).
    cbn [concat] in *. rewrite app_nil_r in *.
    change (index ([n] ++ replicate (3 - 1) []) 0) with (Ok n). step_res.
    destruct (store_new _ _ (3 + r) n Hst Ln) as (s2 & p & E3 & Hp & Hnone & Hst2).
    apply lookup_union_None in Hnone as [Hnm HnF].
    exists s2, p, h, (<[p := n]> m). split_and!; auto.
    + apply (root_shape _ _ _ _ es); [lia|done|done|]. by split_and!.
    + by apply map_disjoint_insert_l.
    + rewrite <- insert_union_l. eapply store_weaken; [done|lia].
Qed.

(** ** Update *)

Lemma stores_weaken h F t kvs r r' :
  tree_stores h F t kvs r -> (r' <= r)%nat -> tree_stores h F t kvs r'.
Proof using.
  intros (m & Hsh & HD & Hst & Hs & Hsm) Hr. exists m. split_and!; auto. by eapply store_weaken.
Qed.

Lemma insert_stored key val kvs :
  key <> [] -> small_kv (key, val) -> sorted_kvs (with_sentinel kvs) -> Forall small_kv kvs ->
  sorted_kvs (with_sentinel (kv_insert key val kvs)) /\ Forall small_kv (kv_insert key val kvs).
Proof using.
  intros Hk Hkv Hs Hsm. split; [|by apply kv_insert_small].
  rewrite <- sentinel_insert by done. by apply kv_insert_sorted.
Qed.

Lemma Update_empty depth t req F r :
  bt_root t = 0 -> uq_Key req <> [] -> small_kv (uq_Key req, uq_Val req) ->
  store_ok (bt_store t) F (S r) ->
  exists t', Update depth t req = Ok (t', upd_req req None, (true, None)) /\
    tree_stores 0 F t' [(uq_Key req, uq_Val req)] r.
Proof using All.
  intros Hroot Hk Hkv Hst. unfold Update. rewrite checkLimit_small, Hroot by done.
  destruct (first_root_ok _ _ Hk Hkv) as (n1 & n2 & n3 & E1 & E2 & E3 & Hl & Hr).
  cbv iota. change (0 =? 0) with true. cbv iota.
  rewrite E1. step_res. rewrite E2. step_res. rewrite E3. step_res.
  destruct (store_new _ _ _ _ Hst Hl) as (s' & p & -> & Hp & Hnone & Hst'). step_res.
  eexists. split; [done|]. exists (<[p := n3]> ∅). cbn [bt_root bt_store]. split_and!.
  - eapply root_shape; [lia|done|done|]. split_and!; [exact Hr|done|].
    exists ∅, ∅, [([], [])], [(uq_Key req, uq_Val req)]. split_and!; try done.
    by apply forest_single.
  - apply map_disjoint_insert_l. split; [done|]. apply map_disjoint_empty_l.
  - by rewrite insert_empty, <- insert_union_singleton_l.
  - apply (insert_stored _ _ [] Hk Hkv); [by repeat constructor|constructor].
  - by constructor.
Qed.

Lemma Update_ok h depth t req F r kvs :
  tree_stores h F t kvs (4 * h + 5 + r) -> uq_Key req <> [] ->
  small_kv (uq_Key req, uq_Val req) -> (h < depth)%nat ->
  let old := kv_get (uq_Key req) kvs in
  let ch := (bt_root t =? 0) || upd_changes (uq_Mode req) (uq_Val req) old in
  exists t' h',
    Update depth t req = Ok (t', if ch then upd_req req old else req, (ch, None)) /\
    (h' <= S h)%nat /\
    tree_stores h' F t' (if ch then kv_insert (uq_Key req) (uq_Val req) kvs else kvs) r /\
    (ch = false -> t' = t).
Proof using All.
  intros Hts Hk Hkv Hd old ch. pose proof Hts as (m & Hsh & HD & Hst & Hs & Hsm).
  destruct (Z.eqb_spec (bt_root t) 0) as [Hroot|Hroot]; cbn [orb] in ch.
  { unfold tree_shape in Hsh. rewrite decide_True in Hsh by done. destruct Hsh as [-> ->].
    rewrite (left_id_L ∅ (∪)) in Hst.
    destruct (Update_empty depth t req F r) as (t' & E & Ht'); auto.
    { eapply store_weaken; [done|lia]. }
    exists t', 0%nat. split_and!; auto; [lia|done]. }
  apply shape_root in Hsh as (page & mk & es & -> & Hmk & Hl & Hn); [|done].
  apply map_disjoint_insert_l in HD as [HFr HD]. rewrite <- insert_union_l in Hst.
  unfold Update. rewrite checkLimit_small by done. cbv iota.
  rewrite (proj2 (Z.eqb_neq _ 0)) by done. cbv iota.
  rewrite (store_get _ _ _ _ page Hst) by apply lookup_insert_eq. step_res.
  rewrite insert_union_r in Hst by done.
  replace (4 * h + 5 + r)%nat with (4 * h + (5 + r))%nat in Hst by lia.
  pose proof (treeUpdate_ok h depth _ req page mk (<[bt_root t := page]> F) (5 + r) es
    (with_sentinel kvs) Hst ltac:(by apply map_disjoint_insert_r) Hn Hl Hs (sentinel_small _ Hsm)
    Hkv (nil_ble _) Hd) as Hu.
  unfold update_spec in Hu. rewrite sentinel_get, sentinel_insert in Hu by done.
  fold old in Hu. subst ch. destruct (upd_changes _ _ old).
  2:{ rewrite Hu. step_res. exists t, h. split_and!; [by destruct t|lia| |done].
      eapply stores_weaken; [exact Hts|lia]. }
  destruct Hu as (s1 & new & es' & m' & -> & Hn' & Hov & HD' & Hst1). step_res.
  rewrite (proj2 (Z.eqb_neq _ 0)) by (rewrite (proj1 Hov); done).
  apply map_disjoint_insert_r in HD' as [Hm' HD'].
  destruct (store_del _ _ _ (bt_root t) Hst1) as (s2 & E2 & Hst2).
  { rewrite lookup_union_r by done. rewrite lookup_insert_eq. by eexists. }
  assert (delete (bt_root t) (m' ∪ <[bt_root t := page]> F) = m' ∪ F) as Eq.
  { by rewrite delete_union, delete_insert_id, delete_id. }
  rewrite Eq in Hst2. destruct (insert_stored _ _ _ Hk Hkv Hs Hsm) as [Hs' Hsm'].
  destruct (new_root_ok h s2 m' F r new es' _ Hn' Hov (sentinel_small _ Hsm') HD' Hst2)
    as (ns & split & -> & s3 & p & h' & m3 & E3 & Hsh3 & Hh & HD3 & Hst3).
  step_res. rewrite E2. step_res. exists (mkBTree p s3), h'. split_and!; [|done| |done].
  - destruct (1 <? ns).
    + destruct (setHeader _ _ _) as [root| |]; try done. step_res. cbn in E3. revert E3.
      destruct (appendKids _ _ _ _ _) as [[s4 root']| |]; try done. cbn. by intros ->.
    + destruct (index split 0) as [n0| |]; try done. cbn in E3. step_res. by rewrite E3.
  - exists m3. by split_and!.
Qed.

(** ** Lookup *)

Lemma stores_reads h F t kvs r : tree_stores h F t kvs r -> tree_reads h t kvs.
Proof using.
  intros (m & Hsh & HD & Hst & Hs & _). exists m, F.
  exact (conj Hsh (conj HD (conj (ex_intro _ r Hst) Hs))).
Qed.

Lemma Get_ok h depth t key F r kvs :
  tree_stores h F t kvs r -> key <> [] -> (h < depth)%nat ->
  Get depth t key = Ok (kv_get key kvs).
Proof using All. intros Ht Hk Hd. apply (Get_reads h); [eapply stores_reads; exact Ht|done|done]. Qed.

(** The pairs are determined by the map. *)
Lemma stores_models h F t kvs r : tree_stores h F t kvs r -> tree_models h F t (kv_map kvs) r.
Proof using. intros Ht. by exists kvs. Qed.

Lemma sorted_user kvs : sorted_kvs (with_sentinel kvs) -> sorted_kvs kvs.
Proof using. apply StronglySorted_inv. Qed.

(** [Update_ok], on maps. *)
Lemma Update_models h depth t req F M r :
  tree_models h F t M (4 * h + 5 + r) -> uq_Key req <> [] ->
  small_kv (uq_Key req, uq_Val req) -> (h < depth)%nat ->
  let old := M !! uq_Key req in
  let ch := (bt_root t =? 0) || upd_changes (uq_Mode req) (uq_Val req) old in
  exists t' h',
    Update depth t req = Ok (t', if ch then upd_req req old else req, (ch, None)) /\
    (h' <= S h)%nat /\
    tree_models h' F t' (if ch then <[uq_Key req := uq_Val req]> M else M) r /\
    (ch = false -> t' = t).
Proof using All.
  intros (kvs & Ht & <-) Hk Hkv Hd old ch.
  destruct (Update_ok h depth t req F r kvs Ht Hk Hkv Hd) as (t' & h' & E & Hh & Ht' & Hsame).
  subst old ch. rewrite kv_get_map. exists t', h'. split_and!; auto.
  destruct Ht as (m & _ & _ & _ & Hs & _). apply stores_models in Ht'.
  destruct (_ || _); [|done]. by rewrite <- kv_insert_map by by apply sorted_user.
Qed.

Lemma Get_models h depth t key F M r :
  tree_models h F t M r -> key <> [] -> (h < depth)%nat -> Get depth t key = Ok (M !! key).
Proof using All. intros (kvs & Ht & <-) Hk Hd. rewrite kv_get_map. by eapply Get_ok. Qed.

End map.
