(* ===== verification/BTreeDelete.v ===== *)
(** * Deletion from the B+tree

    [treeDelete] of src/db/btree.go removes a pair from a subtree and merges
    small siblings on the way up.  A merge or a removal can change the first
    key of a node, and its parent, whose page is already allocated at the
    final size, then stores the new key: [succ_fits] is the condition under
    which it has the room. *)

From S2P Require Import Prelude.
From S2P Require Import GoBytes.
From S2P Require Import BNode.
From S2P Require Import KVSpec.
From S2P Require Import BNodeFacts.
From S2P Require Import BSplitFacts.
From S2P Require Import BTree.
From S2P Require Import BTreeRep.
From S2P Require Import BTreeInsert.

(** The key that follows [key] is no longer than [key]. *)
Definition succ_fits (key : bytes) (kvs : list kv) : Prop :=
  forall A v k v' B, kvs = A ++ (key, v) :: (k, v') :: B -> (length k <= length key)%nat.

Lemma succ_fits_middle key k1 ke k2 : succ_fits key (k1 ++ ke ++ k2) -> succ_fits key ke.
Proof.
  intros Hs A v k v' B ->. apply (Hs (k1 ++ A) v k v' (B ++ k2)). by rewrite <- !app_assoc.
Qed.

(** The first key after a deletion needs no more room than the one before. *)
Lemma first_key_delete key kvs :
  sorted_kvs kvs -> succ_fits key kvs -> kv_delete key kvs <> [] ->
  (length (first_key (kv_delete key kvs)) <= length (first_key kvs))%nat.
Proof.
  intros Hs Hf. destruct kvs as [|[k v] kvs]; [done|]. cbn. case_decide as Hk; [|cbn; lia].
  subst k. destruct kvs as [|[k v'] kvs]; [done|]. intros _. cbn. by apply (Hf [] v k v' kvs).
Qed.

Lemma fits_page (new : bytes) es :
  len new = BTREE_PAGE_SIZE -> Z.of_nat (node_size es) <= BTREE_PAGE_SIZE ->
  fits new (length es) es.
Proof. unfold fits, node_size, len, BTREE_PAGE_SIZE. lia. Qed.

Lemma page_len (page : bytes) :
  length page = length (make BTREE_PAGE_SIZE) -> len page = BTREE_PAGE_SIZE.
Proof. unfold len. intros ->. unfold make. rewrite length_replicate. done. Qed.

Section delete.
Context {PS : Type} `{PageStoreOk PS}.

(** ** The choice of a sibling *)

(** The page of a slot: what [BTree.get] answers for it. *)
Definition kid_page (h : nat) (s : PS) (e : entry) (sib : bytes) (es : list entry) : Prop :=
  page_get s (e_ptr e) = Ok sib /\ node_repr sib (level_ty h) es /\ len sib = BTREE_PAGE_SIZE.

(** Two nodes that a page can hold together. *)
Definition mergeable (es1 es2 : list entry) : Prop :=
  Z.of_nat (node_size (es1 ++ es2)) <= BTREE_PAGE_SIZE.

#[local] Instance mergeable_dec es1 es2 : Decision (mergeable es1 es2).
Proof using. unfold mergeable. apply _. Defined.

Lemma mergeable_test sib ty es upd ty' es' :
  node_repr sib ty es -> len sib = BTREE_PAGE_SIZE ->
  node_repr upd ty' es' -> len upd = BTREE_PAGE_SIZE ->
  (u16 (Z.of_nat (node_size es) + Z.of_nat (node_size es') - HEADER_SIZE) <=? BTREE_PAGE_SIZE) =
  bool_decide (mergeable es es').
Proof using.
  intros R1 L1 R2 L2. apply page_size_le in R1, R2; try done.
  pose proof (node_size_ge4 es). pose proof (node_size_ge4 es').
  assert (node_size (es ++ es') = node_size es + node_size es' - 4)%nat as Hs.
  { rewrite !node_size_costs, sum_list_with_app. lia. }
  case_bool_decide as Hm; unfold mergeable, HEADER_SIZE, BTREE_PAGE_SIZE in *;
    rewrite u16_small by lia; [apply Z.leb_le|apply Z.leb_gt]; lia.
Qed.

Lemma mergeable_comm es1 es2 : mergeable es1 es2 <-> mergeable es2 es1.
Proof using.
  unfold mergeable. rewrite !node_size_costs, !sum_list_with_app, (Nat.add_comm (sum_list_with _ es1)).
  done.
Qed.

(** What [shouldMerge] may answer for the updated node [upd] of the slot
    between [L] and [R]. *)
Inductive merge_choice (h : nat) (s : PS) (L R : list entry) (es' : list entry) : res (Z * BNode) -> Prop :=
  | merge_none : (es' = [] -> L = [] /\ R = []) -> merge_choice h s L R es' (Ok (0, []))
  | merge_left L0 el sib es : L = L0 ++ [el] -> kid_page h s el sib es -> mergeable es es' ->
      merge_choice h s L R es' (Ok (-1, sib))
  | merge_right er R0 sib es : R = er :: R0 -> kid_page h s er sib es -> mergeable es' es ->
      merge_choice h s L R es' (Ok (1, sib)).

Lemma mergeable_nil sib ty es : node_repr sib ty es -> len sib = BTREE_PAGE_SIZE -> mergeable es [].
Proof using. intros R1 L1. unfold mergeable. rewrite app_nil_r. by eapply page_size_le. Qed.

Lemma shouldMerge_right h s node L e R upd ty' es' (n := length L) :
  node_repr node BNODE_NODE (L ++ e :: R) -> node_repr upd ty' es' -> len upd = BTREE_PAGE_SIZE ->
  (forall e', e' ∈ R -> exists sib es, kid_page h s e' sib es) ->
  (es' = [] -> L = []) ->
  merge_choice h s L R es'
    (r ← (if Z.of_nat n <? u16 (Z.of_nat (length (L ++ e :: R)) - 1) then
           p ← getPtr node (u16 (Z.of_nat n + 1));
           sibling ← page_get s p;
           sb ← nbytes sibling;
           Ok (if u16 (sb + Z.of_nat (node_size es') - HEADER_SIZE) <=? BTREE_PAGE_SIZE
               then Some sibling else None)
         else Ok None);
     match r with Some sibling => Ok (1, sibling) | None => Ok (0, []) end).
Proof using.
  intros Hr Hu Hul Hk HL. pose proof (repr_len_u16 _ _ _ Hr) as Hl.
  rewrite length_app, length_cons in *. fold n in Hl |- *. rewrite !u16_small by lia.
  destruct R as [|er R0].
  - rewrite (proj2 (Z.ltb_ge _ _)) by (cbn; lia). step_res. constructor. auto.
  - rewrite (proj2 (Z.ltb_lt _ _)) by (cbn; lia).
    assert ((L ++ e :: er :: R0) !! S n = Some er) as Hlk.
    { rewrite lookup_app_r by lia. replace (S n - length L)%nat with 1%nat by lia. done. }
    replace (Z.of_nat n + 1) with (Z.of_nat (S n)) by lia.
    rewrite (getPtr_filled _ _ _ _ Hr _ _ Hlk). step_res.
    destruct (Hk er) as (sib & es & Hg & Rs & Ls); [left|]. rewrite Hg. step_res.
    rewrite (nbytes_repr _ _ _ Rs). step_res. rewrite (mergeable_test _ _ _ _ _ _ Rs Ls Hu Hul).
    case_bool_decide as Hm; step_res.
    + eapply merge_right; [done|done|by apply mergeable_comm].
    + constructor. intros ->. exfalso. apply Hm. by eapply mergeable_nil.
Qed.

Lemma shouldMerge_ok h s node L e R upd ty' es' :
  node_repr node BNODE_NODE (L ++ e :: R) -> node_repr upd ty' es' -> len upd = BTREE_PAGE_SIZE ->
  (forall e', e' ∈ L ++ R -> exists sib es, kid_page h s e' sib es) ->
  merge_choice h s L R es' (shouldMerge s node (Z.of_nat (length L)) upd).
Proof using.
  intros Hr Hu Hul Hk. pose proof (repr_len_u16 _ _ _ Hr) as Hl. rewrite length_app, length_cons in Hl.
  unfold shouldMerge. rewrite (nbytes_repr _ _ _ Hu). step_res.
  destruct (Z.ltb_spec (BTREE_PAGE_SIZE / 4) (Z.of_nat (node_size es'))) as [Hbig|_].
  { constructor. intros ->. exfalso. by vm_compute in Hbig. }
  assert (forall e', e' ∈ R -> exists sib es, kid_page h s e' sib es) as HkR
    by (intros; apply Hk, elem_of_app; auto).
  destruct (Z.ltb_spec 0 (Z.of_nat (length L))) as [HL|HL].
  2:{ destruct L as [|]; [|cbn in HL; lia]. step_res. rewrite (nkeys_filled _ _ _ _ Hr). step_res.
      by eapply (shouldMerge_right h s node [] e R). }
  destruct (exists_last (l := L)) as (L0 & el & HeqL); [by intros ->|].
  assert ((L ++ e :: R) !! length L0 = Some el) as Hlk.
  { rewrite HeqL, <- app_assoc. cbn [app]. by rewrite list_lookup_middle. }
  assert (length L = S (length L0)) as HlL by (rewrite HeqL, length_app; cbn; lia).
  replace (u16 (Z.of_nat (length L) - 1)) with (Z.of_nat (length L0)) by (rewrite u16_small; lia).
  rewrite (getPtr_filled _ _ _ _ Hr _ _ Hlk). step_res.
  destruct (Hk el) as (sib & es & Hg & Rs & Ls); [rewrite HeqL; set_solver|]. rewrite Hg. step_res.
  rewrite (nbytes_repr _ _ _ Rs). step_res. rewrite (mergeable_test _ _ _ _ _ _ Rs Ls Hu Hul).
  case_bool_decide as Hm; step_res; [by eapply merge_left|].
  rewrite (nkeys_filled _ _ _ _ Hr). step_res. eapply shouldMerge_right; eauto.
  intros ->. exfalso. apply Hm. by eapply mergeable_nil.
Qed.

(** ** Merging two siblings *)

Lemma merge_pages_ok h s p spage lp rp es1 es2 ma mb F r ka kb :
  node_repr lp (level_ty h) es1 -> node_repr rp (level_ty h) es2 -> mergeable es1 es2 ->
  es1 ++ es2 <> [] -> items h ma es1 ka -> items h mb es2 kb -> ma ##ₘ mb ->
  (ma ∪ mb) ##ₘ F -> (ma ∪ mb) !! p = None -> F !! p = None ->
  store_ok s (<[p := spage]> (ma ∪ mb ∪ F)) (2 + r) ->
  exists merged s1 s2 ptr (key := first_key (ka ++ kb)),
    nodeMerge (make BTREE_PAGE_SIZE) lp rp = Ok merged /\ page_del s p = Ok s1 /\
    page_new s1 merged = Ok (s2, ptr) /\ getKey merged 0 = Ok key /\
    entry_ok (Entry ptr key []) /\
    item_rep (S h) (<[ptr := merged]> (ma ∪ mb)) (Entry ptr key []) (ka ++ kb) /\
    <[ptr := merged]> (ma ∪ mb) ##ₘ F /\ store_ok s2 (<[ptr := merged]> (ma ∪ mb) ∪ F) r.
Proof using All.
  intros R1 R2 Hm Hne F1 F2 D HD Hp HpF Hst.
  destruct (nodeMerge_repr (make BTREE_PAGE_SIZE) lp rp _ _ _ _ R1 R2 (len_make BTREE_PAGE_SIZE ltac:(done)) Hm)
    as (merged & E1 & Rm & Lm).
  destruct (store_del _ _ _ p Hst) as (s1 & E2 & Hst1); [rewrite lookup_insert_eq; by eexists|].
  rewrite delete_insert_id in Hst1 by (by rewrite lookup_union, Hp, HpF).
  destruct (store_new _ _ _ _ Hst1 Lm) as (s2 & ptr & E3 & Hptr & Hnone & Hst2).
  apply lookup_union_None in Hnone as [Hn HnF].
  assert (items h (ma ∪ mb) (es1 ++ es2) (ka ++ kb)) as Hi by by apply forest_app_2.
  pose proof (hd_key_first _ _ _ _ Hne Hi) as Hhd.
  exists merged, s1, s2, ptr. cbv zeta. rewrite <- Hhd. split_and!; auto.
  - by eapply getKey_first.
  - split; [cbn; lia|]. split; [|done]. by eapply first_key_len.
  - cbn. rewrite Hhd. split_and!; auto; [lia|]. exists merged, (ma ∪ mb), (es1 ++ es2). by split_and!.
  - by apply map_disjoint_insert_l.
  - by rewrite <- insert_union_l.
Qed.

(** The size of a node with a slot replaced. *)
Lemma replaced_size (L : list entry) e R e' :
  Z.of_nat (node_size (L ++ e :: R)) <= BTREE_PAGE_SIZE -> (entry_cost e' <= entry_cost e)%nat ->
  Z.of_nat (node_size (L ++ e' :: R)) <= BTREE_PAGE_SIZE.
Proof using.
  rewrite (cons_middle e), (cons_middle e'), !node_size_middle. cbn [sum_list_with]. lia.
Qed.

Lemma dropped_size (L : list entry) e R :
  Z.of_nat (node_size (L ++ e :: R)) <= BTREE_PAGE_SIZE ->
  Z.of_nat (node_size (L ++ R)) <= BTREE_PAGE_SIZE.
Proof using. rewrite (cons_middle e), !node_size_middle. lia. Qed.

Lemma sep_cost h m e kvs ptr key : item_rep (S h) m e kvs -> (length key <= length (first_key kvs))%nat ->
  (entry_cost (Entry ptr key []) <= entry_cost e)%nat.
Proof using.
  intros (Hv & Hk & _) Hle. unfold entry_cost, kv_size. rewrite Hk, Hv. cbn [e_key e_val length]. lia.
Qed.

(** The slots at [i] and [i + 1] replaced by one. *)
Lemma take_pair {A} (L : list A) a b R x :
  take (length L) (L ++ a :: b :: R) ++ x :: drop (length L + 2) (L ++ a :: b :: R) = L ++ x :: R.
Proof using.
  rewrite take_app_length. do 2 f_equal.
  replace (L ++ a :: b :: R) with ((L ++ [a; b]) ++ R) by (rewrite <- app_assoc; done).
  apply drop_app_length'. rewrite length_app. cbn. lia.
Qed.

Lemma replace2_ok node L a b R e' :
  node_repr node BNODE_NODE (L ++ a :: b :: R) -> len node = BTREE_PAGE_SIZE ->
  entry_ok e' -> e_val e' = [] -> Z.of_nat (node_size (L ++ e' :: R)) <= BTREE_PAGE_SIZE ->
  exists new, nodeReplace2Kids (make BTREE_PAGE_SIZE) node (Z.of_nat (length L)) (e_ptr e') (e_key e')
      = Ok new /\ node_repr new BNODE_NODE (L ++ e' :: R) /\ len new = BTREE_PAGE_SIZE.
Proof using.
  intros Hr Hl Hok Hv Hs. destruct e' as [ptr key val]. cbn in Hv. subst val.
  rewrite <- (take_pair L a b R (Entry ptr key [])) in Hs |- *.
  apply nodeReplace2Kids_repr; auto. rewrite length_app. cbn. lia.
Qed.

(** ** One node *)

(** What is left of the node [new] after a deletion below it. *)
Definition shrunk (h : nat) (s' : PS) (new : bytes) (es' : list entry) (m' F : heap) (r : nat)
    (kvs' : list kv) : Prop :=
  node_repr new (level_ty h) es' /\ items h m' es' kvs' /\ len new = BTREE_PAGE_SIZE /\
  m' ##ₘ F /\ store_ok s' (m' ∪ F) r.

(** Two slots of the parent replaced by the slot of their merged page. *)
Lemma merged_parent_ok h s node L a b R e' mL mm mR F r kL km kR :
  node_repr node BNODE_NODE (L ++ a :: b :: R) -> len node = BTREE_PAGE_SIZE ->
  entry_ok e' -> e_val e' = [] -> Z.of_nat (node_size (L ++ e' :: R)) <= BTREE_PAGE_SIZE ->
  items (S h) mL L kL -> item_rep (S h) mm e' km -> items (S h) mR R kR ->
  mL ##ₘ mR -> mL ##ₘ F -> mR ##ₘ F -> mm ##ₘ mL ∪ (mR ∪ F) ->
  store_ok s (mm ∪ (mL ∪ (mR ∪ F))) r ->
  exists new, nodeReplace2Kids (make BTREE_PAGE_SIZE) node (Z.of_nat (length L)) (e_ptr e') (e_key e')
      = Ok new /\ shrunk (S h) s new (L ++ e' :: R) (mL ∪ (mm ∪ mR)) F r (kL ++ km ++ kR).
Proof using All.
  intros Hr Hl Hok Hv Hs FL Fm FR D1 D2 D3 HD Hst.
  destruct (replace2_ok node L a b R e' Hr Hl Hok Hv Hs) as (new & E & Rn & Ln).
  exists new. split; [done|]. rewrite !map_disjoint_union_r in HD. destruct HD as (HD1 & HD2 & HD3).
  split_and!; auto.
  - apply (forest_replace _ mL mm mR L [e'] R); auto. by apply forest_single.
  - by repeat apply map_disjoint_union_l_2.
  - eapply eq_rect with (P := fun x => store_ok s x _); [exact Hst|].
    clear - D1 D2 D3 HD1 HD2 HD3. heap_eq.
Qed.

(** The same bytes have the same size. *)
Lemma same_page_size page ty ty' es es' :
  node_repr page ty es -> node_repr page ty' es' -> node_size es = node_size es'.
Proof using.
  intros R1%nbytes_repr R2%nbytes_repr. apply Nat2Z.inj. congruence.
Qed.

Lemma mergeable_size es1 es1' es2 :
  node_size es1 = node_size es1' -> mergeable es1 es2 -> mergeable es1' es2.
Proof using.
  unfold mergeable. rewrite !node_size_costs, !sum_list_with_app. lia.
Qed.

(** Merging the pages of two neighbouring slots, one of which, at [p], is
    still stored. *)
Lemma merge_pair_ok h s p spage lp rp es1 es2 node L a b R ma mb mL mR F r ka kb kL kR :
  node_repr node BNODE_NODE (L ++ a :: b :: R) -> len node = BTREE_PAGE_SIZE ->
  node_repr lp (level_ty h) es1 -> node_repr rp (level_ty h) es2 -> mergeable es1 es2 ->
  es1 ++ es2 <> [] -> items h ma es1 ka -> items h mb es2 kb ->
  items (S h) mL L kL -> items (S h) mR R kR ->
  (forall ptr, Z.of_nat (node_size (L ++ Entry ptr (first_key (ka ++ kb)) [] :: R)) <= BTREE_PAGE_SIZE) ->
  ma ##ₘ mb -> (ma ∪ mb) ##ₘ mL ∪ (mR ∪ F) -> mL ##ₘ mR -> mL ##ₘ F -> mR ##ₘ F ->
  (ma ∪ mb) !! p = None -> (mL ∪ (mR ∪ F)) !! p = None ->
  store_ok s (<[p := spage]> (ma ∪ mb ∪ (mL ∪ (mR ∪ F)))) (2 + r) ->
  exists merged s1 s2 ptr key new es'' m'',
    nodeMerge (make BTREE_PAGE_SIZE) lp rp = Ok merged /\ page_del s p = Ok s1 /\
    page_new s1 merged = Ok (s2, ptr) /\ getKey merged 0 = Ok key /\
    nodeReplace2Kids (make BTREE_PAGE_SIZE) node (Z.of_nat (length L)) ptr key = Ok new /\
    shrunk (S h) s2 new es'' m'' F r (kL ++ (ka ++ kb) ++ kR).
Proof using All.
  intros Hr Hl R1 R2 Hm Hne F1 F2 FL FR Hs D HD D1 D2 D3 Hp HpF Hst.
  destruct (merge_pages_ok h s p spage lp rp es1 es2 ma mb _ r ka kb R1 R2 Hm Hne F1 F2 D HD Hp HpF Hst)
    as (merged & s1 & s2 & ptr & E1 & E2 & E3 & E4 & Hok & Hi & HD' & Hst').
  destruct (merged_parent_ok h s2 node L a b R _ mL _ mR F r kL _ kR Hr Hl Hok eq_refl (Hs ptr)
    FL Hi FR D1 D2 D3 HD' Hst') as (new & E5 & Hsh).
  eexists merged, s1, s2, ptr, _, new, _, _. split_and!; eauto.
Qed.

(** Page, pairs and pages below of a slot, as its own page reads. *)
Lemma kid_inv h s e sib es m kvs m0 r :
  kid_page h s e sib es -> item_rep (S h) m e kvs -> store_ok s m0 r ->
  (forall p page, m !! p = Some page -> m0 !! p = Some page) ->
  exists mk es', m = <[e_ptr e := sib]> mk /\ mk !! e_ptr e = None /\
    node_repr sib (level_ty h) es' /\ items h mk es' kvs /\ es' <> [] /\
    node_size es' = node_size es.
Proof using All.
  intros (Hg & Rs & Ls) (_ & _ & _ & page & mk & es' & -> & Hmk & Lp & Rp & Hne & Hi) Hst Hsub.
  rewrite (store_get _ _ _ _ page Hst) in Hg by (apply Hsub, lookup_insert_eq).
  injection Hg as ->. exists mk, es'. split_and!; auto. by eapply same_page_size.
Qed.

Section relink.
Context (h : nat) (s : PS) (node upd : bytes) (L : list entry) (e : entry) (R es' : list entry).
Context (m1 m2 m' F : heap) (r : nat) (k1 k2 ke' : list kv).
Context (Hr : node_repr node BNODE_NODE (L ++ e :: R)) (Hl : len node = BTREE_PAGE_SIZE).
Context (F1 : items (S h) m1 L k1) (F2 : items (S h) m2 R k2).
Context (Hu : node_repr upd (level_ty h) es') (Hul : len upd = BTREE_PAGE_SIZE).
Context (Hi : items h m' es' ke').
Context (He : ke' <> [] -> forall ptr, (entry_cost (Entry ptr (first_key ke') []) <= entry_cost e)%nat).
Context (D12 : m1 ##ₘ m2) (D1 : m1 ##ₘ F) (D2 : m2 ##ₘ F) (HD : m' ##ₘ m1 ∪ (m2 ∪ F)).
Context (Hst : store_ok s (m' ∪ (m1 ∪ (m2 ∪ F))) (2 + r)).

Lemma relink_left req L0 el sib es :
  L = L0 ++ [el] -> kid_page h s el sib es -> mergeable es es' ->
  shouldMerge s node (Z.of_nat (length L)) upd = Ok (-1, sib) ->
  exists s' new es'' m'', relinkKid s req node (Z.of_nat (length L)) upd = Ok (s', req, new) /\
    shrunk (S h) s' new es'' m'' F r (k1 ++ ke' ++ k2).
Proof using All.
  intros -> Hkid Hm Hsm. apply forest_app_1 in F1
    as (m10 & ml & k10 & kl & -> & Dl & -> & FL & Fl%forest_single).
  pose proof (repr_len_u16 _ _ _ Hr) as Hlr. rewrite !length_app in Hlr. cbn [length] in Hlr.
  rewrite <- app_assoc in Hr. cbn [app] in Hr.
  rewrite !map_disjoint_union_r in HD. destruct HD as (Hd1 & Hd2 & Hd3). destruct Hd1 as [Hd0 Hd1].
  rewrite map_disjoint_union_l in D12, D1. destruct D12 as [D02 Dl2], D1 as [D0 DlF].
  destruct (kid_inv _ _ _ _ _ _ _ _ _ Hkid Fl Hst) as (mk & es1 & -> & Hmk & Rs & His & Hne & Hsz).
  { intros p page Hp. rewrite !lookup_union_Some_raw. right. split; [exact (map_disjoint_Some_r _ _ _ _ Hd1 Hp)|].
    left. right. split; [exact (map_disjoint_Some_r _ _ _ _ Dl Hp)|done]. }
  apply map_disjoint_insert_l in Dl2 as [Hp2 Dl2], DlF as [HpF DlF].
  apply map_disjoint_insert_r in Dl as [Hp0 Dl], Hd1 as [Hp' Hd1].
  destruct (merge_pair_ok h s (e_ptr el) sib sib upd es1 es' node L0 el e R mk m' m10 m2 F r kl ke' k10 k2)
    as (merged & s1 & s2 & ptr & key & new & es'' & m'' & E1 & E2 & E3 & E4 & E5 & Hsh); auto.
  { by eapply mergeable_size. }
  { by destruct es1. }
  { intros ptr. apply page_size_le in Hr; [|done].
    rewrite first_key_app by by eapply items_ne.
    apply (replaced_size _ el); [|by eapply sep_cost].
    rewrite (cons_middle el), app_assoc in Hr |- *. by eapply dropped_size. }
  { apply map_disjoint_union_l; split; by repeat apply map_disjoint_union_r_2. }
  { by rewrite lookup_union, Hmk, Hp'. }
  { by rewrite !lookup_union, Hp0, Hp2, HpF. }
  { eapply eq_rect with (P := fun x => store_ok s x _); [exact Hst|].
    clear - Hd0 Hd1 Hd2 Hd3 D02 D0 Dl Dl2 DlF D2 Hmk Hp0 Hp2 HpF Hp'. heap_eq. }
  exists s2, new, es'', m''. rewrite <- !app_assoc in *. cbn [app] in *. split; [|done].
  unfold relinkKid. rewrite Hsm. step_res. change (-1 <? 0) with true. cbv iota.
  rewrite E1. step_res.
  replace (u16 (Z.of_nat (length (L0 ++ [el])) - 1)) with (Z.of_nat (length L0))
    by (rewrite length_app; cbn [length]; rewrite u16_small; lia).
  rewrite (getPtr_filled _ _ _ _ Hr _ _ (list_lookup_middle L0 _ el _ eq_refl)). step_res.
  rewrite E2. step_res. rewrite E3. step_res. rewrite E4. step_res. rewrite E5. step_res. done.
Qed.

Lemma relink_right req er R0 sib es :
  R = er :: R0 -> kid_page h s er sib es -> mergeable es' es ->
  shouldMerge s node (Z.of_nat (length L)) upd = Ok (1, sib) ->
  exists s' new es'' m'', relinkKid s req node (Z.of_nat (length L)) upd = Ok (s', req, new) /\
    shrunk (S h) s' new es'' m'' F r (k1 ++ ke' ++ k2).
Proof using All.
  intros -> Hkid Hm Hsm.
  destruct F2 as (mr & m20 & kr & k20 & -> & Dr & -> & Fr & FR).
  pose proof (repr_len_u16 _ _ _ Hr) as Hlr. rewrite !length_app in Hlr. cbn [length] in Hlr.
  rewrite !map_disjoint_union_r in HD. destruct HD as (Hd1 & Hd2 & Hd3). destruct Hd2 as [Hdr Hd2].
  rewrite map_disjoint_union_r in D12. rewrite map_disjoint_union_l in D2.
  destruct D12 as [D1r D12], D2 as [DrF D2F].
  destruct (kid_inv _ _ _ _ _ _ _ _ _ Hkid Fr Hst) as (mk & es2 & -> & Hmk & Rs & His & Hne & Hsz).
  { intros p page Hp. rewrite !lookup_union_Some_raw. right. split; [exact (map_disjoint_Some_r _ _ _ _ Hdr Hp)|].
    right. split; [exact (map_disjoint_Some_r _ _ _ _ D1r Hp)|]. left. by left. }
  apply map_disjoint_insert_l in Dr as [Hp2 Dr], DrF as [HpF DrF].
  apply map_disjoint_insert_r in D1r as [Hp1 D1r], Hdr as [Hp' Hdr].
  destruct (merge_pair_ok h s (e_ptr er) sib upd sib es' es2 node L e er R0 m' mk m1 m20 F r ke' kr k1 k20)
    as (merged & s1 & s2 & ptr & key & new & es'' & m'' & E1 & E2 & E3 & E4 & E5 & Hsh); auto.
  { apply mergeable_comm. apply mergeable_comm in Hm. by eapply mergeable_size. }
  { by destruct es', es2. }
  { intros ptr. apply page_size_le in Hr; [|done].
    destruct ke' as [|p0 ke0] eqn:Ek.
    - apply (replaced_size _ er); [by eapply dropped_size|by eapply sep_cost].
    - rewrite first_key_app by done.
      apply (replaced_size _ e); [|by apply He].
      rewrite (cons_middle e), app_assoc in Hr |- *. by eapply dropped_size. }
  { apply map_disjoint_union_l; split; repeat apply map_disjoint_union_r_2; auto; by apply map_disjoint_sym. }
  { by rewrite lookup_union, Hmk, Hp'. }
  { by rewrite !lookup_union, Hp1, Hp2, HpF. }
  { eapply eq_rect with (P := fun x => store_ok s x _); [exact Hst|].
    clear - Hd1 Hdr Hd2 Hd3 D1r D12 D1 Dr DrF D2F Hmk Hp1 Hp2 HpF Hp'. heap_eq. }
  exists s2, new, es'', m''. rewrite <- !app_assoc in *. split; [|done].
  unfold relinkKid. rewrite Hsm. step_res. change (1 <? 0) with false. change (0 <? 1) with true.
  cbv iota. rewrite E1. step_res.
  replace (u16 (Z.of_nat (length L) + 1)) with (Z.of_nat (S (length L))) by (rewrite u16_small; lia).
  assert ((L ++ e :: er :: R0) !! S (length L) = Some er) as Hlk.
  { rewrite lookup_app_r by lia. replace (S (length L) - length L)%nat with 1%nat by lia. done. }
  rewrite (getPtr_filled _ _ _ _ Hr _ _ Hlk). step_res.
  rewrite E2. step_res. rewrite E3. step_res. rewrite E4. step_res. rewrite E5. step_res. done.
Qed.

Lemma relink_none req :
  (es' = [] -> L = [] /\ R = []) ->
  shouldMerge s node (Z.of_nat (length L)) upd = Ok (0, []) ->
  exists s' new es'' m'', relinkKid s req node (Z.of_nat (length L)) upd = Ok (s', req, new) /\
    shrunk (S h) s' new es'' m'' F r (k1 ++ ke' ++ k2).
Proof using All.
  intros Hemp Hsm. unfold relinkKid. rewrite Hsm. step_res. change (0 <? 0) with false. cbv iota.
  rewrite (nkeys_filled _ _ _ _ Hu). step_res. destruct (Z.eqb_spec (Z.of_nat (length es')) 0) as [Hz|Hnz].
  - destruct es' as [|]; [|cbn in Hz; lia]. destruct (Hemp eq_refl) as [-> ->].
    rewrite (nkeys_filled _ _ _ _ Hr). step_res.
    destruct (setHeader_fits (make BTREE_PAGE_SIZE) BNODE_NODE 0 [] ltac:(done))
      as (new & E & Fn & Ln); [by apply fits_page|].
    change (Z.of_nat 0) with 0 in E. rewrite E. step_res.
    destruct F1 as [-> ->], F2 as [-> ->], Hi as [-> ->].
    exists s, new, [], ∅. split; [done|]. split; [exact Fn|]. split; [done|].
    split; [by apply page_len|]. split; [apply map_disjoint_empty_l|].
    assert (∅ ∪ (∅ ∪ (∅ ∪ F)) = ∅ ∪ F) as Eq by heap_eq. rewrite Eq in Hst.
    eapply store_weaken; [exact Hst|lia].
  - assert (es' <> []) as Hne by (by intros ->).
    assert (hd_key es' = first_key ke') as Hhd by by eapply hd_key_first.
    destruct (nodeReplaceKidN_ok h [upd] [es'] s m' (m1 ∪ (m2 ∪ F)) r ke' (make BTREE_PAGE_SIZE)
      node L e R Hr) as (s' & new & kes & m'' & E & Rn & Ln & Hkv & Hi' & HD' & Hst').
    { by apply pages_of_cons, pages_of_nil. }
    { cbn. lia. }
    { cbn [concat]. by rewrite app_nil_r. }
    { eapply store_weaken; [exact Hst|]. cbn. lia. }
    { done. }
    { cbn [proto fmap list_fmap app]. rewrite Hhd. apply fits_page; [by apply len_make|].
      apply page_size_le in Hr; [|done]. apply (replaced_size _ e); [done|].
      apply He. by eapply items_ne. }
    rewrite E. step_res. exists s', new, (L ++ kes ++ R), (m1 ∪ (m'' ∪ m2)). split; [done|].
    rewrite !map_disjoint_union_r in HD'. destruct HD' as (Hd1 & Hd2 & Hd3).
    split_and!; [done| |by apply page_len| |].
    + by apply forest_replace.
    + by repeat apply map_disjoint_union_l_2.
    + eapply eq_rect with (P := fun x => store_ok s' x _); [exact Hst'|].
      clear - D12 D1 D2 Hd1 Hd2 Hd3. heap_eq.
Qed.

Lemma relink_ok req :
  (forall e', e' ∈ L ++ R -> exists sib es, kid_page h s e' sib es) ->
  exists s' new es'' m'', relinkKid s req node (Z.of_nat (length L)) upd = Ok (s', req, new) /\
    shrunk (S h) s' new es'' m'' F r (k1 ++ ke' ++ k2).
Proof using All.
  intros Hk. pose proof (shouldMerge_ok h s node L e R upd _ es' Hr Hu Hul Hk) as Hc.
  inversion Hc as [Hemp E|L0 el sib es HL Hkid Hm E|er R0 sib es HR Hkid Hm E].
  - by apply relink_none.
  - by eapply relink_left.
  - by eapply relink_right.
Qed.

End relink.

Lemma kids_ok h s m0 r m es kvs e :
  store_ok s m0 r -> items (S h) m es kvs ->
  (forall p page, m !! p = Some page -> m0 !! p = Some page) -> e ∈ es ->
  exists sib es', kid_page h s e sib es'.
Proof using All.
  intros Hst Hf Hsub He. apply list_elem_of_split in He as (L & R & ->).
  apply forest_middle in Hf as (m1 & me & m2 & k1 & ke & k2 & -> & D1 & D2 & D3 & -> & F1 & Fe & F2).
  destruct Fe as (_ & _ & _ & page & mk & es' & -> & Hmk & Hl & Hr & _).
  exists page, es'. split_and!; auto. eapply store_get; [exact Hst|]. apply Hsub.
  rewrite !lookup_union_Some_raw. right. split.
  - eapply map_disjoint_Some_r; [exact D1|]. apply lookup_insert_eq.
  - left. apply lookup_insert_eq.
Qed.

(** ** The induction *)

Definition delete_spec (h depth : nat) (s : PS) (req : DeleteReq) (page : bytes)
    (m F : heap) (r : nat) (kvs : list kv) : Prop :=
  match kv_get (dq_Key req) kvs with
  | None => treeDelete depth s req page = Ok (s, req, [])
  | Some v =>
      exists s' new es' m',
        treeDelete depth s req page = Ok (s', mkDeleteReq (dq_Key req) v, new) /\
        shrunk h s' new es' m' F r (kv_delete (dq_Key req) kvs)
  end.

Lemma treeDelete_leaf_ok depth s req page m F r es kvs :
  store_ok s (m ∪ F) r -> m ##ₘ F -> node_rep (item_rep 0) 0 m page es kvs ->
  len page = BTREE_PAGE_SIZE -> sorted_kvs kvs -> ble (first_key kvs) (dq_Key req) ->
  delete_spec 0 (S depth) s req page m F r kvs.
Proof using All.
  destruct req as [key old]. cbn [dq_Key].
  intros Hst HD (Hr & Hne & Hf) Hlen Hs Hle. pose proof (items_sorted _ _ _ _ Hf Hs) as Hsk.
  destruct (locate _ _ _ _ _ Hf Hs Hne Hle)
    as (L & e & R & m1 & me & m2 & k1 & ke & k2 & -> & Hrank & -> & D1 & D2 & D3 & -> &
        F1 & Fe & F2 & A1 & A2 & Hek).
  destruct Fe as (-> & Hp0 & ->). pose proof (list_lookup_middle L R e _ eq_refl) as Hlk.
  unfold delete_spec. cbn [dq_Key]. rewrite kv_get_skip, kv_delete_skip by done.
  cbn [treeDelete dq_Key]. rewrite (lookup_slot _ _ _ _ _ _ Hr Hsk Hrank), (btype_filled _ _ _ _ Hr).
  step_res. cbn [level_ty]. change (BNODE_LEAF =? BNODE_LEAF) with true. cbv iota.
  rewrite (getKey_filled _ _ _ _ Hr _ _ Hlk). step_res. cbn [kv_get kv_delete].
  destruct (decide (e_key e = key)) as [Hk|Hk].
  2:{ replace (bytes_equal key (e_key e)) with false by (symmetry; by apply bool_decide_false). done. }
  replace (bytes_equal key (e_key e)) with true by (symmetry; by apply bool_decide_true).
  cbn [negb]. rewrite (getVal_filled _ _ _ _ Hr _ _ Hlk). step_res.
  pose proof (page_size_le _ _ _ Hr Hlen) as Hsz. apply dropped_size in Hsz.
  destruct (leafDelete_repr (make BTREE_PAGE_SIZE) page _ Hr (length L)) as (new & -> & Rn & Ln).
  { rewrite length_app. cbn. lia. }
  { rewrite cut_before, cut_after. apply fits_page; [by apply len_make|done]. }
  step_res. rewrite cut_before, cut_after in Rn.
  exists s, new, (L ++ R), (m1 ∪ (∅ ∪ m2)). split; [done|]. split; [done|].
  split; [|split; [by apply page_len|done]].
  rewrite (left_id_L ∅ (∪)). by apply forest_app_2.
Qed.

Lemma treeDelete_ok h depth s req page m F r es kvs :
  store_ok s (m ∪ F) (3 * h + r) -> m ##ₘ F -> node_rep (item_rep h) h m page es kvs ->
  len page = BTREE_PAGE_SIZE -> sorted_kvs kvs -> succ_fits (dq_Key req) kvs ->
  ble (first_key kvs) (dq_Key req) -> (h < depth)%nat ->
  delete_spec h depth s req page m F r kvs.
Proof using All.
  revert depth s page m F r es kvs.
  induction h as [|h IH]; intros depth s page m F r es kvs Hst HD Hn Hlen Hs Hsu Hle Hd;
    (destruct depth as [|depth]; [lia|]).
  { by eapply treeDelete_leaf_ok. }
  destruct Hn as (Hr & Hne & Hf). pose proof (items_sorted _ _ _ _ Hf Hs) as Hsk.
  destruct (locate _ _ _ _ _ Hf Hs Hne Hle)
    as (L & e & R & m1 & me & m2 & k1 & ke & k2 & -> & Hrank & -> & D1 & D2 & D3 & -> &
        F1 & Fe & F2 & A1 & A2 & Hek).
  pose proof (list_lookup_middle L R e _ eq_refl) as Hlk.
  apply sorted_middle in Hs. apply succ_fits_middle in Hsu. pose proof Fe as Fe0.
  destruct Fe as (Hev & Hfk & _ & kpage & mk & kes & -> & Hmk & Hkl & Hkn).
  assert (m1 ∪ (<[e_ptr e := kpage]> mk ∪ m2) ∪ F = mk ∪ <[e_ptr e := kpage]> (m1 ∪ (m2 ∪ F)))
    as Eq by heap_eq.
  rewrite Eq in Hst. rewrite !map_disjoint_union_l in HD. destruct HD as (HD1 & HDe & HD2).
  apply map_disjoint_insert_l in HDe as [HFp HDe], D3 as [Hp2 D3].
  apply map_disjoint_insert_r in D1 as [Hp1 D1].
  assert (mk ##ₘ <[e_ptr e := kpage]> (m1 ∪ (m2 ∪ F))) as Dk.
  { apply map_disjoint_insert_r. split; [done|]. by repeat apply map_disjoint_union_r_2. }
  rewrite Hfk in Hek. unfold delete_spec. rewrite kv_get_skip, kv_delete_skip by done.
  assert (treeDelete (S depth) s req page =
    nodeDelete (treeDelete depth) s req page (Z.of_nat (length L))) as ->.
  { cbn [treeDelete]. rewrite (lookup_slot _ _ _ _ _ _ Hr Hsk Hrank), (btype_filled _ _ _ _ Hr).
    done. }
  unfold nodeDelete. rewrite (getPtr_filled _ _ _ _ Hr _ _ Hlk). step_res.
  rewrite (store_get _ _ _ _ kpage Hst) by (rewrite lookup_union_r by done; apply lookup_insert_eq).
  step_res. replace (3 * S h + r)%nat with (3 * h + (3 + r))%nat in Hst by lia.
  pose proof (IH depth _ _ _ _ _ _ _ Hst Dk Hkn Hkl Hs Hsu Hek ltac:(lia)) as Hu.
  unfold delete_spec in Hu. destruct (kv_get (dq_Key req) ke) as [v|]; [|by rewrite Hu].
  destruct Hu as (s' & upd & es' & m' & -> & Ru & Hi & Lu & Dk' & Hst'). step_res.
  rewrite (proj2 (Z.eqb_neq _ 0)) by (rewrite Lu; done).
  apply map_disjoint_insert_r in Dk' as [Hp' Dk'].
  destruct (store_del _ _ _ (e_ptr e) Hst') as (s1 & E1 & Hst1).
  { rewrite lookup_union_r, lookup_insert_eq by done. by eexists. }
  rewrite delete_union, delete_insert_id, delete_id in Hst1
    by (rewrite ?lookup_union, ?Hp1, ?Hp2, ?HFp; done).
  rewrite E1. step_res.
  apply (relink_ok h s1 page upd L e R es' m1 m2 m' F r k1 k2 _ Hr Hlen F1 F2 Ru Lu Hi); auto.
  { intros Hne' ptr. eapply sep_cost; [exact Fe0|]. by apply first_key_delete. }
  assert (forall p pg, (m1 ∪ m2) !! p = Some pg -> (m' ∪ (m1 ∪ (m2 ∪ F))) !! p = Some pg) as Hsub.
  { intros p pg Hp. rewrite (map_union_assoc m1), lookup_union_r.
    - by apply lookup_union_Some_l.
    - rewrite !map_disjoint_union_r in Dk'. destruct Dk' as (Da & Db & _).
      apply lookup_union_Some_raw in Hp as [Hp|[_ Hp]]; [exact (map_disjoint_Some_r _ _ _ _ Da Hp)|].
      exact (map_disjoint_Some_r _ _ _ _ Db Hp). }
  intros e' He'. eapply (kids_ok h s1 _ _ (m1 ∪ m2) (L ++ R)); [exact Hst1| |exact Hsub|exact He'].
  by apply forest_app_2.
Qed.

End delete.
