(* ===== verification/BTreeMapDelete.v ===== *)
(** * The tree as an ordered map: deletion

    [Delete] of src/db/btree.go is a refinement of the map's deletion; a root
    that is left with one child is replaced by the child. *)

From S2P Require Import Prelude.
From S2P Require Import GoBytes.
From S2P Require Import BNode.
From S2P Require Import KVSpec.
From S2P Require Import BNodeFacts.
From S2P Require Import BSplitFacts.
From S2P Require Import BTree.
From S2P Require Import BTreeRep.
From S2P Require Import BTreeInsert.
From S2P Require Import BTreeMap.
From S2P Require Import BTreeDelete.

Section delete.
Context {PS : Type} `{PageStoreOk PS}.

Lemma sentinel_delete key kvs :
  key <> [] -> kv_delete key (with_sentinel kvs) = with_sentinel (kv_delete key kvs).
Proof using. intros Hk. cbn. by rewrite decide_False by congruence. Qed.

Lemma sentinel_succ key kvs : key <> [] -> succ_fits key kvs -> succ_fits key (with_sentinel kvs).
Proof using.
  intros Hk Hs A v k v' B E. destruct A as [|a A]; [by injection E as ? _|].
  injection E as _ E. by eapply Hs.
Qed.

Lemma kv_delete_small key kvs : Forall small_kv kvs -> Forall small_kv (kv_delete key kvs).
Proof using.
  induction 1 as [|[k v] kvs Hk Hs IH]; cbn; [constructor|]. case_decide; [done|]. by constructor.
Qed.

Lemma delete_stored key kvs :
  key <> [] -> sorted_kvs (with_sentinel kvs) -> Forall small_kv kvs ->
  sorted_kvs (with_sentinel (kv_delete key kvs)) /\ Forall small_kv (kv_delete key kvs).
Proof using.
  intros Hk Hs Hsm. split; [|by apply kv_delete_small].
  rewrite <- sentinel_delete by done. by apply kv_delete_sorted.
Qed.

Lemma checkLimit_key key : key <> [] -> len key <= BTREE_MAX_KEY_SIZE -> checkLimit key [] = None.
Proof using.
  unfold checkLimit. intros Hk Hl. destruct key as [|b key]; [done|].
  rewrite (proj2 (Z.eqb_neq _ _)) by (unfold len; cbn; lia).
  by rewrite (proj2 (Z.ltb_ge _ _)).
Qed.

(** The new root after a deletion. *)
Lemma shrunk_root h s new es m F r kvs :
  shrunk h s new es m F (S r) (with_sentinel kvs) ->
  exists s' p h' m',
    (ty ← btype new;
     n ← nkeys new;
     if (ty =? BNODE_NODE) && (n =? 1) then p ← getPtr new 0; Ok (s, p)
     else page_new s new) = Ok (s', p) /\
    (h' <= h)%nat /\ tree_shape h' m' p kvs /\ m' ##ₘ F /\ store_ok s' (m' ∪ F) r.
Proof using All.
  intros (Rn & Hi & Ln & HD & Hst). rewrite (btype_filled _ _ _ _ Rn), (nkeys_filled _ _ _ _ Rn).
  step_res. destruct ((level_ty h =? BNODE_NODE) && (Z.of_nat (length es) =? 1)) eqn:E.
  - apply andb_true_iff in E as [E1 E2%Z.eqb_eq]. destruct h as [|h]; [done|].
    destruct es as [|e [|]]; cbn [length] in E2; try lia. apply forest_single in Hi.
    change 0 with (Z.of_nat 0). rewrite (getPtr_filled _ _ _ _ Rn 0 e eq_refl). step_res.
    exists s, (e_ptr e), h, m. split_and!; auto; [|by eapply store_weaken; eauto].
    unfold tree_shape. destruct e as [p key val]. destruct Hi as (Hv & Hk & Hp & Hx).
    cbn [e_ptr e_key e_val] in *. rewrite decide_False by done. subst. by split_and!.
  - destruct (store_new _ _ _ _ Hst Ln) as (s' & p & -> & Hp & Hnone & Hst').
    apply lookup_union_None in Hnone as [Hm HF].
    exists s', p, h, (<[p := new]> m). split_and!; auto.
    + apply (root_shape _ _ _ _ es); [lia|done|done|]. split_and!; auto. intros ->. by destruct Hi.
    + by apply map_disjoint_insert_l.
    + by rewrite <- insert_union_l.
Qed.

Lemma Delete_ok h depth t req F r kvs :
  tree_stores h F t kvs (3 * h + 2 + r) -> dq_Key req <> [] ->
  len (dq_Key req) <= BTREE_MAX_KEY_SIZE -> succ_fits (dq_Key req) kvs -> (h < depth)%nat ->
  exists t' h' req',
    Delete depth t req = Ok (t', req', (bool_decide (is_Some (kv_get (dq_Key req) kvs)), None)) /\
    req' = match kv_get (dq_Key req) kvs with Some v => mkDeleteReq (dq_Key req) v | None => req end /\
    (h' <= h)%nat /\
    tree_stores h' F t'
      (if kv_get (dq_Key req) kvs then kv_delete (dq_Key req) kvs else kvs) r /\
    (kv_get (dq_Key req) kvs = None -> t' = t).
Proof using All.
  intros Hts Hk Hkl Hsu Hd. pose proof Hts as (m & Hsh & HD & Hst & Hs & Hsm).
  unfold Delete. rewrite checkLimit_key by done. cbv iota.
  destruct (Z.eqb_spec (bt_root t) 0) as [Hroot|Hroot].
  { unfold tree_shape in Hsh. rewrite decide_True in Hsh by done. destruct Hsh as [-> ->].
    exists t, h, req. split_and!; try done. eapply stores_weaken; [exact Hts|lia]. }
  apply shape_root in Hsh as (page & mk & es & -> & Hmk & Hl & Hn); [|done].
  apply map_disjoint_insert_l in HD as [HFr HD]. rewrite <- insert_union_l in Hst.
  rewrite (store_get _ _ _ _ page Hst) by apply lookup_insert_eq. step_res.
  rewrite insert_union_r in Hst by done.
  replace (3 * h + 2 + r)%nat with (3 * h + (2 + r))%nat in Hst by lia.
  pose proof (treeDelete_ok h depth _ req page mk (<[bt_root t := page]> F) (2 + r) es
    (with_sentinel kvs) Hst ltac:(by apply map_disjoint_insert_r) Hn Hl Hs (sentinel_succ _ _ Hk Hsu)
    (nil_ble _) Hd) as Hu.
  unfold delete_spec in Hu. rewrite sentinel_get, sentinel_delete in Hu by done.
  destruct (kv_get (dq_Key req) kvs) as [v|].
  2:{ rewrite Hu. step_res. exists t, h, req.
      split_and!; try done; [by destruct t|]. eapply stores_weaken; [exact Hts|lia]. }
  destruct Hu as (s1 & new & es' & m' & -> & Rn & Hi & Ln & HD' & Hst1). step_res.
  rewrite (proj2 (Z.eqb_neq _ 0)) by (rewrite Ln; done).
  apply map_disjoint_insert_r in HD' as [Hm' HD'].
  destruct (store_del _ _ _ (bt_root t) Hst1) as (s2 & E2 & Hst2).
  { rewrite lookup_union_r by done. rewrite lookup_insert_eq. by eexists. }
  rewrite delete_union, delete_insert_id, delete_id in Hst2 by done.
  rewrite E2. step_res. destruct (delete_stored _ _ Hk Hs Hsm) as [Hs' Hsm'].
  destruct (shrunk_root h s2 new es' m' F r (kv_delete (dq_Key req) kvs))
    as (s3 & p & h' & m3 & E3 & Hh & Hsh3 & HD3 & Hst3); [by split_and!|].
  rewrite (btype_filled _ _ _ _ Rn), (nkeys_filled _ _ _ _ Rn) in E3 |- *. revert E3. step_res.
  intros E3. exists (mkBTree p s3), h', (mkDeleteReq (dq_Key req) v).
  split_and!; [|done|done|exists m3; by split_and!|done].
  destruct (_ && _).
  - destruct (getPtr new 0) as [q| |]; try done. cbn in E3. injection E3 as -> ->. done.
  - rewrite E3. done.
Qed.

(** [k] follows [key] in the map. *)
Definition next_key (M : gmap bytes bytes) (key k : bytes) : Prop :=
  is_Some (M !! k) /\ blt key k /\ forall k', is_Some (M !! k') -> blt key k' -> ble k k'.

Lemma next_succ kvs key :
  sorted_kvs kvs -> (forall k, next_key (kv_map kvs) key k -> (length k <= length key)%nat) ->
  succ_fits key kvs.
Proof using.
  intros Hs Hn A v k v' B ->. apply Hn. rewrite fmap_app in Hs.
  apply sorted_keys_app in Hs as (_ & Hs & Hlt). apply StronglySorted_inv in Hs as [Hs Hk].
  assert (forall k', is_Some (kv_map (A ++ (key, v) :: (k, v') :: B) !! k') ->
    k' ∈ (A ++ (key, v) :: (k, v') :: B).*1) as Hin.
  { intros k' [x Hx]. rewrite kv_get_map in Hx. destruct (decide (k' ∈ (A ++ (key, v) :: (k, v') :: B).*1)); [done|].
    by rewrite kv_get_notin in Hx. }
  apply Forall_cons in Hk as [Hk _]. split_and!; [|exact Hk|].
  - rewrite kv_get_map, cons_middle. rewrite app_assoc.
    rewrite <- (app_nil_r ((k, v') :: B)). rewrite <- kv_get_map. unfold kv_map.
    rewrite list_to_map_app, lookup_union_r; [cbn; rewrite lookup_insert_eq; by eexists|].
    apply not_elem_of_list_to_map. rewrite fmap_app, elem_of_app. intros [HA|Hkey].
    + apply (irreflexivity blt k). apply Hlt; [done|]. cbn. set_solver.
    + cbn in Hkey. apply list_elem_of_singleton in Hkey as ->. by apply (irreflexivity blt key).
  - intros k' Hk' Hlt'. apply Hin in Hk'. rewrite fmap_app, elem_of_app in Hk'. cbn in Hk'.
    rewrite !elem_of_cons in Hk'. destruct Hk' as [HA|[->|[->|HB]]].
    + exfalso. apply (irreflexivity blt key). transitivity k'; [done|]. apply Hlt; [done|]. cbn. set_solver.
    + by apply (irreflexivity blt) in Hlt'.
    + apply ble_lteq. by right.
    + apply ble_lteq. left. apply StronglySorted_inv in Hs as [_ HB']. rewrite Forall_forall in HB'.
      by apply HB'.
Qed.

(** [Delete_ok], on maps. *)
Lemma Delete_models h depth (t : BTree PS) F M r req :
  tree_models h F t M (3 * h + 2 + r) -> dq_Key req <> [] ->
  len (dq_Key req) <= BTREE_MAX_KEY_SIZE ->
  (forall k, next_key M (dq_Key req) k -> (length k <= length (dq_Key req))%nat) ->
  (h < depth)%nat ->
  let old := M !! dq_Key req in
  exists t' h',
    Delete depth t req =
      Ok (t', match old with Some v => mkDeleteReq (dq_Key req) v | None => req end,
          (bool_decide (is_Some old), None)) /\
    (h' <= h)%nat /\ tree_models h' F t' (delete (dq_Key req) M) r /\ (old = None -> t' = t).
Proof using All.
  intros (kvs & Ht & <-) Hk Hkl Hn Hd old.
  pose proof Ht as (m & _ & _ & _ & Hs%sorted_user & _).
  destruct (Delete_ok h depth t req F r kvs Ht Hk Hkl (next_succ _ _ Hs Hn) Hd)
    as (t' & h' & req' & E & -> & Hh & Ht' & Hsame).
  subst old. rewrite kv_get_map. exists t', h'. split_and!; auto. apply stores_models in Ht'.
  rewrite <- kv_delete_map by done. destruct (kv_get (dq_Key req) kvs) eqn:Eg; [done|].
  replace (kv_map (kv_delete (dq_Key req) kvs)) with (kv_map kvs); [done|].
  rewrite kv_delete_map by done. symmetry. apply delete_id. by rewrite kv_get_map.
Qed.

End delete.
