(* ===== verification/BTreeProps.v ===== *)
(** * What the tree promises

    The properties of [Get] and [Update] of src/db/btree.go, against finite
    maps from keys to values, and their instances on the in-memory store. *)

From S2P Require Import Prelude.
From S2P Require Import GoBytes.
From S2P Require Import BNode.
From S2P Require Import KVSpec.
From S2P Require Import BNodeFacts.
From S2P Require Import BSplitFacts.
From S2P Require Import BTree.
From S2P Require Import BTreeRep.
From S2P Require Import MemStore.
From S2P Require Import BTreeInsert.
From S2P Require Import BTreeMap.
From S2P Require Import BTreeDelete.
From S2P Require Import BTreeMapDelete.

(** ** A concrete tree *)

Definition key_a : bytes := [Byte.x61].
Definition key_b : bytes := [Byte.x62].
Definition val_1 : bytes := [Byte.x31].
Definition empty_tree : BTree mem_pages := mkBTree 0 [].

Lemma empty_stores r : Z.of_nat r < 2 ^ 63 -> tree_stores 0 ∅ empty_tree [] r.
Proof.
  intros Hr. exists ∅. split; [done|]. split; [done|]. split; [by apply mem_ok_empty|].
  split; by repeat constructor.
Qed.

Lemma small_a1 : small_kv (key_a, val_1).
Proof. unfold small_kv, SMALL_COST. cbn. lia. Qed.

(** The tree after one insertion. *)
Lemma one_stores r : Z.of_nat r < 2 ^ 62 ->
  exists t, (exists q c, Upsert 1 empty_tree key_a val_1 = Ok (t, q, c)) /\ bt_root t = 1 /\
    tree_stores 0 ∅ t [(key_a, val_1)] r.
Proof.
  intros Hr.
  destruct (Update_empty 1 empty_tree (updateReq key_a val_1 MODE_UPSERT) ∅ r) as (t & E & Ht);
    [done|done|apply small_a1|apply mem_ok_empty; lia|].
  exists t. split_and!; [by eexists _, _| |done].
  by vm_compute in E; injection E as <-.
Qed.

Section props.
Context {PS : Type} `{PageStoreOk PS}.

(** C1.  On every page store that keeps its promises, a lookup of a key that is
    not empty, in a tree that models the map [M], returns what [M] holds for the
    key, at any height: the recursion never misses a key, never panics and never
    runs out of a depth above the height. (The empty key is the sentinel of the
    tree; no pair has it.) *)
Theorem Get_refines_map h depth (t : BTree PS) F M r key :
  tree_models h F t M r -> key <> [] -> (h < depth)%nat ->
  Get depth t key = Ok (M !! key).
Proof using All. apply Get_models. Qed.

(** C2.  [Update] of a key and a value of together at most 278 bytes
    returns (it neither panics nor loops), whatever splits it takes at each
    level; it reports a change exactly if the mode and the old value ask for
    one, and then the resulting tree, at most one level higher, models the
    map with the pair inserted, the pages of others untouched; otherwise the
    tree is exactly the one before.  It uses at most [4 * h + 5] page
    allocations and deallocations. *)
Theorem Update_refines_map h depth (t : BTree PS) F M r req :
  tree_models h F t M (4 * h + 5 + r) -> uq_Key req <> [] ->
  small_kv (uq_Key req, uq_Val req) -> (h < depth)%nat ->
  let old := M !! uq_Key req in
  let changed := (bt_root t =? 0) || upd_changes (uq_Mode req) (uq_Val req) old in
  exists t' h',
    Update depth t req = Ok (t', if changed then upd_req req old else req, (changed, None)) /\
    (h' <= S h)%nat /\
    tree_models h' F t' (if changed then <[uq_Key req := uq_Val req]> M else M) r /\
    (changed = false -> t' = t).
Proof using All. apply Update_models. Qed.

(** C3.  [Delete] returns (it neither panics nor loops), whatever merges it
    takes at each level, provided that the key that follows the deleted one
    is no longer; it reports whether the key was there, hands out the old
    value, and the resulting tree, no higher than before, models the map
    without the key, the pages of others untouched; without the key, the tree
    is exactly the one before. *)
Theorem Delete_refines_map h depth (t : BTree PS) F M r req :
  tree_models h F t M (3 * h + 2 + r) -> dq_Key req <> [] ->
  len (dq_Key req) <= BTREE_MAX_KEY_SIZE ->
  (forall k, next_key M (dq_Key req) k -> (length k <= length (dq_Key req))%nat) ->
  (h < depth)%nat ->
  let old := M !! dq_Key req in
  exists t' h',
    Delete depth t req =
      Ok (t', match old with Some v => mkDeleteReq (dq_Key req) v | None => req end,
          (bool_decide (is_Some old), None)) /\
    (h' <= h)%nat /\ tree_models h' F t' (delete (dq_Key req) M) r /\ (old = None -> t' = t).
Proof using All.
  apply Delete_models.
Qed.

End props.

Lemma Get_refines_map_witness :
  exists t : BTree mem_pages, (exists q c, Upsert 1 empty_tree key_a val_1 = Ok (t, q, c)) /\
    Get 1 t key_a = Ok (Some val_1) /\ Get 1 t key_b = Ok None.
Proof.
  destruct (one_stores 0 ltac:(done)) as (t & Ht & _ & Hm%stores_models).
  exists t. split; [exact Ht|]. split.
  - rewrite (Get_refines_map 0 1 t ∅ _ 0 key_a Hm ltac:(done) ltac:(lia)). reflexivity.
  - rewrite (Get_refines_map 0 1 t ∅ _ 0 key_b Hm ltac:(done) ltac:(lia)). reflexivity.
Defined.

Lemma Update_refines_map_witness :
  exists t t' h', (exists q c, Upsert 1 empty_tree key_a val_1 = Ok (t, q, c)) /\
    Update 1 t (updateReq key_b val_1 MODE_INSERT_ONLY) =
      Ok (t', mkUpdateReq key_b val_1 MODE_INSERT_ONLY true true [], (true, None)) /\
    tree_models h' ∅ t' {[ key_b := val_1; key_a := val_1 ]} 0.
Proof.
  destruct (one_stores 5 ltac:(done)) as (t & Ht & Hroot & Hm%stores_models).
  destruct (Update_refines_map 0 1 t ∅ _ 0 (updateReq key_b val_1 MODE_INSERT_ONLY) Hm
    ltac:(done) ltac:(unfold small_kv, SMALL_COST; cbn; lia) ltac:(lia)) as (t' & h' & E & _ & Hm' & _).
  rewrite Hroot in *. exists t, t', h'. split; [exact Ht|]. split; [exact E|exact Hm'].
Defined.

Lemma Delete_refines_map_witness :
  exists t t' h', (exists q c, Upsert 1 empty_tree key_a val_1 = Ok (t, q, c)) /\
    Delete 1 t (mkDeleteReq key_a []) = Ok (t', mkDeleteReq key_a val_1, (true, None)) /\
    tree_models h' ∅ t' ∅ 0.
Proof.
  destruct (one_stores 2 ltac:(done)) as (t & Ht & _ & Hm%stores_models).
  destruct (Delete_refines_map 0 1 t ∅ _ 0 (mkDeleteReq key_a []) Hm ltac:(done) ltac:(done))
    as (t' & h' & E & _ & Hm' & _).
  - intros k ([v Hv] & Hlt & _). exfalso. rewrite kv_get_map in Hv. cbn in Hv.
    case_decide as Hk; [|done]. subst k. by apply (irreflexivity blt) in Hlt.
  - lia.
  - exists t, t', h'. split; [exact Ht|]. split; [exact E|exact Hm'].
Defined.

(** ** Where the code stops keeping its promises *)

(** The state of a run of operations on the in-memory store. *)
Definition upserts (kvs : list kv) : res (BTree mem_pages) :=
  foldl (fun t p => t ← t; '(t, _, _) ← Upsert 5 t p.1 p.2; Ok t) (Ok empty_tree) kvs.

(** The key of [n] bytes that starts with [b]. *)
Definition long_key (b : byte) (n : nat) : bytes := b :: replicate (n - 1) Byte.x61.

(** Valid sizes, but one insertion needs a four-way split: the first half of
    the oversized leaf is never shrunk. *)
Definition split_panic_kvs : list kv :=
  (long_key Byte.x01 4, replicate 2900 Byte.x62) ::
  ((fun b => (long_key b 4, replicate 80 Byte.x62)) <$>
    [Byte.x03; Byte.x04; Byte.x05; Byte.x06; Byte.x07; Byte.x08]).

Lemma nodeSplit3_can_panic (big := (long_key Byte.x02 1000, replicate 3000 Byte.x62)) :
  checkLimit big.1 big.2 = None /\
  (t ← upserts split_panic_kvs; Get 5 t big.1) = Ok None /\
  upserts (split_panic_kvs ++ [big]) = Panic.
Proof. split; [|split]; vm_compute; reflexivity. Qed.

(** Deleting a short key in front of a long one: the separator in the parent
    grows and no longer fits the parent's page. *)
Definition sep_panic_kvs : list kv :=
  ((fun b => (long_key b 1000, replicate 1800 Byte.x62)) <$>
    [Byte.x01; Byte.x02; Byte.x03; Byte.x04; Byte.x05]) ++
  [([Byte.x05; Byte.x62], replicate 1000 Byte.x62);
   (long_key Byte.x06 1000, replicate 1800 Byte.x62)].

Lemma nodeDelete_can_panic :
  (t ← upserts sep_panic_kvs; Get 5 t [Byte.x05; Byte.x62]) =
    Ok (Some (replicate 1000 Byte.x62)) /\
  (t ← upserts sep_panic_kvs; Delete 5 t (mkDeleteReq [Byte.x05; Byte.x62] [])) = Panic.
Proof. split; vm_compute; reflexivity. Qed.

(** On an empty tree the mode is not looked at. *)
Lemma Update_only_inserts_first :
  ('(t, _, result) ← Update 1 empty_tree (updateReq key_a val_1 MODE_UPDATE_ONLY);
   v ← Get 1 t key_a; Ok (result, v)) = Ok ((true, None), Some val_1).
Proof. vm_compute. reflexivity. Qed.
