(* ===== verification/BIter.v ===== *)
(** * Iterators over the tree (src/db/btree_iter.go)

    An iterator keeps the nodes from the root to a leaf and a position in
    each. *)

From S2P Require Import Prelude.
From S2P Require Import GoBytes.
From S2P Require Import BNode.
From S2P Require Import BTree.

(** ** Comparison operators *)

Definition CMP_GE : Z := 3.
Definition CMP_GT : Z := 2.
Definition CMP_LT : Z := -2.
Definition CMP_LE : Z := -3.

(** [curr cmp key] *)
Definition cmpOK (curr : bytes) (cmp : Z) (key : bytes) : res bool :=
  let r := bytes_compare curr key in
  if cmp =? CMP_GE then Ok (0 <=? r)
  else if cmp =? CMP_GT then Ok (0 <? r)
  else if cmp =? CMP_LT then Ok (r <? 0)
  else if cmp =? CMP_LE then Ok (r <=? 0)
  else Panic.

(** [l[i] = x] *)
Definition set_index {A} (l : list A) (i : Z) (x : A) : res (list A) :=
  if bool_decide (0 <= i < len l) then Ok (<[Z.to_nat i := x]> l) else Panic.

(** ** Iterators *)

Record BIter (PS : Type) := mkBIter { it_tree : BTree PS; it_path : list BNode; it_pos : list Z }.
Arguments mkBIter {PS}.
Arguments it_tree {PS}.
Arguments it_path {PS}.
Arguments it_pos {PS}.

Section iter.
Context {PS : Type} `{PageStore PS}.

Fixpoint SeekLE_loop (fuel : nat) (s : PS) (key : bytes) (ptr : Z) (path : list BNode) (pos : list Z)
    : res (list BNode * list Z) :=
  if ptr =? 0 then Ok (path, pos) else
  match fuel with
  | O => NoFuel
  | S fuel =>
      node ← page_get s ptr;
      idx ← nodeLookupLE node key;
      ptr ← getPtr node idx;
      SeekLE_loop fuel s key ptr (path ++ [node]) (pos ++ [idx])
  end.

Definition SeekLE (fuel : nat) (tree : BTree PS) (key : bytes) : res (BIter PS) :=
  '(path, pos) ← SeekLE_loop fuel (bt_store tree) key (bt_root tree) [] [];
  Ok (mkBIter tree path pos).

Definition iterIsFirst (iter : BIter PS) : bool := forallb (Z.eqb 0) (it_pos iter).

Definition iterIsEnd (iter : BIter PS) : res bool :=
  let last := len (it_path iter) - 1 in
  if last <? 0 then Ok true else
  p ← index (it_pos iter) last;
  node ← index (it_path iter) last;
  n ← nkeys node;
  Ok (p =? n).

Definition BIter_Valid (iter : BIter PS) : res bool :=
  if iterIsFirst iter then Ok false else
  e ← iterIsEnd iter;
  Ok (negb e).

Definition BIter_Deref (iter : BIter PS) : res (bytes * bytes) :=
  v ← BIter_Valid iter;
  _ ← assert v;
  let last := len (it_path iter) - 1 in
  node ← index (it_path iter) last;
  pos ← index (it_pos iter) last;
  k ← getKey node pos;
  v ← getVal node pos;
  Ok (k, v).

(** The end of [iterNext] and [iterPrev]: the next node on the path becomes
    the child at the current position; [at_kid] is the position in it. *)
Definition iterDescend (at_kid : BNode -> res Z) (iter : BIter PS) (level : Z) : res (BIter PS) :=
  if level <? len (it_pos iter) - 1 then
    node ← index (it_path iter) level;
    p ← index (it_pos iter) level;
    ptr ← getPtr node p;
    kid ← page_get (bt_store (it_tree iter)) ptr;
    path ← set_index (it_path iter) (level + 1) kid;
    q ← at_kid kid;
    pos ← set_index (it_pos iter) (level + 1) q;
    Ok (mkBIter (it_tree iter) path pos)
  else Ok iter.

Fixpoint iterNext (iter : BIter PS) (level : nat) : res (BIter PS) :=
  p ← index (it_pos iter) (Z.of_nat level);
  node ← index (it_path iter) (Z.of_nat level);
  n ← nkeys node;
  if u16 (p + 1) <? n then
    pos ← set_index (it_pos iter) (Z.of_nat level) (u16 (p + 1));
    iterDescend (fun _ => Ok 0) (mkBIter (it_tree iter) (it_path iter) pos) (Z.of_nat level)
  else
    match level with
    | S level' =>
        iter ← iterNext iter level';
        iterDescend (fun _ => Ok 0) iter (Z.of_nat level)
    | O =>
        let leaf := len (it_pos iter) - 1 in
        q ← index (it_pos iter) leaf;
        pos ← set_index (it_pos iter) leaf (u16 (q + 1));
        lnode ← index (it_path iter) leaf;
        ln ← nkeys lnode;
        _ ← assert (u16 (q + 1) =? ln);
        Ok (mkBIter (it_tree iter) (it_path iter) pos)
    end.

Fixpoint iterPrev (iter : BIter PS) (level : nat) : res (BIter PS) :=
  let last_key kid := n ← nkeys kid; Ok (u16 (n - 1)) in
  p ← index (it_pos iter) (Z.of_nat level);
  if 0 <? p then
    pos ← set_index (it_pos iter) (Z.of_nat level) (u16 (p - 1));
    iterDescend last_key (mkBIter (it_tree iter) (it_path iter) pos) (Z.of_nat level)
  else
    match level with
    | S level' =>
        iter ← iterPrev iter level';
        iterDescend last_key iter (Z.of_nat level)
    | O => Panic
    end.

(** [iterNext(iter, len(iter.path)-1)], not at the end: the path is not empty. *)
Definition BIter_Next (iter : BIter PS) : res (BIter PS) :=
  e ← iterIsEnd iter;
  if (e : bool) then Ok iter else iterNext iter (length (it_path iter) - 1).

Definition BIter_Prev (iter : BIter PS) : res (BIter PS) :=
  if iterIsFirst iter then Ok iter else iterPrev iter (length (it_path iter) - 1).

Definition BTree_Seek (fuel : nat) (tree : BTree PS) (key : bytes) (cmp : Z) : res (BIter PS) :=
  iter ← SeekLE fuel tree key;
  e ← (if iterIsFirst iter then Ok false else iterIsEnd iter);
  _ ← assert (iterIsFirst iter || negb e);
  iter ← (if negb (cmp =? CMP_LE) then
            curr ← (if negb (iterIsFirst iter) then kv ← BIter_Deref iter; Ok (fst kv) else Ok []);
            ok ← cmpOK curr cmp key;
            if negb ok then (if 0 <? cmp then BIter_Next iter else BIter_Prev iter)
            else Ok iter
          else Ok iter);
  v ← BIter_Valid iter;
  if (v : bool) then
    kv ← BIter_Deref iter;
    ok ← cmpOK (fst kv) cmp key;
    _ ← assert ok;
    Ok iter
  else Ok iter.

End iter.
