(* ===== verification/BIterFacts.v ===== *)
(** * Positions of iterators

    [at_path h node kvs i path pos]: below the node [node] at height [h],
    which stands for the pairs [kvs], the nodes [path] with the positions
    [pos] lead to the pair number [i].  Moving an iterator moves [i]. *)

From S2P Require Import Prelude.
From S2P Require Import GoBytes.
From S2P Require Import BNode.
From S2P Require Import KVSpec.
From S2P Require Import BNodeFacts.
From S2P Require Import BTree.
From S2P Require Import BTreeRep.
From S2P Require Import BIter.

(** ** Lists that are updated in the middle *)

Lemma index_middle {A} (P : list A) x R : index (P ++ x :: R) (len P) = Ok x.
Proof. unfold index, len. rewrite (proj2 (Z.leb_le 0 _)) by lia. by rewrite Nat2Z.id, list_lookup_middle. Qed.

Lemma set_index_middle {A} (P : list A) x y R : set_index (P ++ x :: R) (len P) y = Ok (P ++ y :: R).
Proof.
  unfold set_index. rewrite bool_decide_true by (rewrite len_app, len_cons; pose proof (len_nonneg P); pose proof (len_nonneg R); lia).
  unfold len. rewrite Nat2Z.id, insert_app_r_alt by lia. by rewrite Nat.sub_diag.
Qed.

(** Where the groups of a concatenation begin. *)
Lemma concat_take_S {A} (kss : list (list A)) j ks :
  kss !! j = Some ks -> length (concat (take (S j) kss)) = (length (concat (take j kss)) + length ks)%nat.
Proof. intros Hj. rewrite (take_S_r _ _ _ Hj), concat_app, length_app. cbn. by rewrite app_nil_r. Qed.

Lemma concat_split {A} (kss : list (list A)) j ks :
  kss !! j = Some ks -> concat kss = concat (take j kss) ++ ks ++ concat (drop (S j) kss).
Proof. intros Hj. rewrite <- (take_drop_middle _ _ _ Hj) at 1. by rewrite concat_app. Qed.

Lemma concat_last {A} (kss : list (list A)) j ks :
  kss !! j = Some ks -> S j = length kss -> length (concat kss) = (length (concat (take j kss)) + length ks)%nat.
Proof. intros Hj Hl. by rewrite <- (concat_take_S _ _ _ Hj), Hl, firstn_all. Qed.

(** Comparing positions in groups that are not empty. *)
Lemma concat_not_last {A} (kss : list (list A)) j ks :
  kss !! j = Some ks -> Forall (fun ks => ks <> []) kss -> (S j < length kss)%nat ->
  (length (concat (take j kss)) + length ks < length (concat kss))%nat.
Proof.
  intros Hj Hne Hl. destruct (lookup_lt_is_Some_2 kss (S j) Hl) as [ks' Hj'].
  rewrite (concat_split _ _ _ Hj), !length_app. rewrite (drop_S _ _ _ Hj'). cbn. rewrite length_app.
  rewrite Forall_lookup in Hne. specialize (Hne _ _ Hj'). destruct ks'; [done|]. cbn. lia.
Qed.

Section rep.
Context {PS : Type} `{PageStore PS} (s : PS).

(** The pages of [s] below [node], without owners: reading does not need
    them. *)
Fixpoint sub (h : nat) (node : bytes) (kvs : list kv) : Prop :=
  exists es, node_repr node (level_ty h) es /\ es <> [] /\
    match h with
    | O => kvs = (fun e => (e_key e, e_val e)) <$> es /\ Forall (fun e => e_ptr e = 0) es
    | S h => exists kss, kvs = concat kss /\
        Forall2 (fun e ks => e_ptr e <> 0 /\ exists page, page_get s (e_ptr e) = Ok page /\ sub h page ks) es kss
    end.

Definition kid (h : nat) (e : entry) (ks : list kv) : Prop :=
  e_ptr e <> 0 /\ exists page, page_get s (e_ptr e) = Ok page /\ sub h page ks.

Inductive at_path : nat -> bytes -> list kv -> nat -> list bytes -> list Z -> Prop :=
| at_leaf node es i :
    node_repr node BNODE_LEAF es -> Forall (fun e => e_ptr e = 0) es -> (i < length es)%nat ->
    at_path 0 node ((fun e => (e_key e, e_val e)) <$> es) i [node] [Z.of_nat i]
| at_node h node es kss j e ks page i path pos :
    node_repr node BNODE_NODE es -> Forall2 (kid h) es kss -> es !! j = Some e -> kss !! j = Some ks ->
    page_get s (e_ptr e) = Ok page -> at_path h page ks i path pos ->
    at_path (S h) node (concat kss) (length (concat (take j kss)) + i) (node :: path) (Z.of_nat j :: pos).

Lemma sub_ne h node kvs : sub h node kvs -> kvs <> [].
Proof using.
  revert node kvs. induction h as [|h IH]; intros node kvs (es & _ & Hne & Hk).
  - destruct Hk as [-> _]. by destruct es.
  - destruct Hk as (kss & -> & Hf). destruct Hf as [|e ks es kss (_ & page & _ & Hs) _]; [done|].
    apply IH in Hs. by destruct ks.
Qed.

Lemma kids_ne h es kss : Forall2 (kid h) es kss -> Forall (fun ks => ks <> []) kss.
Proof using.
  induction 1 as [|e ks es kss (_ & page & _ & Hs) _ IH]; [constructor|]. constructor; [|done]. by eapply sub_ne.
Qed.

Lemma at_path_length h node kvs i path pos : at_path h node kvs i path pos ->
  length path = S h /\ length pos = S h /\ (i < length kvs)%nat.
Proof using.
  induction 1 as [node es i _ _ Hi|h node es kss j e ks page i path pos _ _ _ Hk _ _ (IH1 & IH2 & IH3)].
  - by rewrite length_fmap.
  - cbn. rewrite IH1, IH2. split; [done|]. split; [done|]. rewrite (concat_split _ _ _ Hk), !length_app. lia.
Qed.

(** ** Reading at a position *)

Lemma at_path_last h node kvs i path pos : at_path h node kvs i path pos ->
  exists P leaf Q p es j e, path = P ++ [leaf] /\ pos = Q ++ [p] /\ length P = h /\ length Q = h /\
    node_repr leaf BNODE_LEAF es /\ p = Z.of_nat j /\ es !! j = Some e /\ kvs !! i = Some (e_key e, e_val e).
Proof using.
  induction 1 as [node es i Hr _ Hi|h node es kss j e ks page i path pos _ _ _ Hk _ _ IH].
  - destruct (lookup_lt_is_Some_2 es i Hi) as [e He]. exists [], node, [], (Z.of_nat i), es, i, e.
    rewrite list_lookup_fmap, He. done.
  - destruct IH as (P & leaf & Q & p & es' & j' & e' & -> & -> & HP & HQ & Hr & Hp & He & Hkv).
    exists (node :: P), leaf, (Z.of_nat j :: Q), p, es', j', e'. cbn. rewrite HP, HQ.
    do 7 (split; [done|]). rewrite (concat_split _ _ _ Hk), lookup_app_r by lia.
    replace (_ + i - _)%nat with i by lia. by rewrite lookup_app_l_Some with (x := (e_key e', e_val e')).
Qed.

Lemma at_path_first h node kvs i path pos : at_path h node kvs i path pos -> forallb (Z.eqb 0) pos = (i =? 0)%nat.
Proof using.
  induction 1 as [node es i _ _ _|h node es kss j e ks page i path pos _ Hf _ Hk _ Hp IH].
  - cbn. by destruct i.
  - cbn [forallb]. rewrite IH. destruct j as [|j]; [by cbn|].
    assert (length (concat (take (S j) kss)) <> 0)%nat as Hne.
    { apply kids_ne in Hf. destruct kss as [|k0 kss]; [done|]. apply Forall_cons in Hf as [Hk0 _]. cbn.
      rewrite length_app. destruct k0; [done|]. cbn. lia. }
    change (0 =? Z.of_nat (S j)) with false. cbn [andb]. symmetry. apply Nat.eqb_neq. lia.
Qed.

(** ** Moving down

    After a step in a node, the nodes below are replaced one level at a
    time by the first or the last child. *)

(** The position in a fresh node, and the code that computes it. *)
Definition edge (fwd : bool) (n : nat) : nat := if fwd then 0%nat else (n - 1)%nat.
Definition at_kid (fwd : bool) (kid : BNode) : res Z := if fwd then Ok 0 else n ← nkeys kid; Ok (u16 (n - 1)).

Lemma at_kid_ok fwd node ty es : node_repr node ty es -> es <> [] -> at_kid fwd node = Ok (Z.of_nat (edge fwd (length es))).
Proof using.
  intros Hr Hne. unfold at_kid, edge. destruct fwd; [done|]. rewrite (nkeys_filled _ _ _ _ Hr). step_res.
  apply length_lt_repr in Hr. destruct es; [done|]. cbn [length] in *. rewrite u16_small by lia. f_equal. lia.
Qed.

Lemma edge_lt fwd n : (0 < n)%nat -> (edge fwd n < n)%nat.
Proof using. unfold edge. destruct fwd; lia. Qed.

(** [iterDescend] at [n] levels from [level] on. *)
Fixpoint descends (fwd : bool) (it : BIter PS) (level : Z) (n : nat) : res (BIter PS) :=
  match n with
  | O => Ok it
  | S n => it ← iterDescend (at_kid fwd) it level; descends fwd it (level + 1) n
  end.

Lemma snoc_middle {A} (P : list A) a b R : P ++ a :: b :: R = (P ++ [a]) ++ b :: R.
Proof using. by rewrite <- app_assoc. Qed.

Lemma iterDescend_step fwd t P Q node es j e page q x path y pos :
  bt_store t = s -> node_repr node BNODE_NODE es -> es !! j = Some e -> page_get s (e_ptr e) = Ok page ->
  at_kid fwd page = Ok q -> length P = length Q ->
  iterDescend (at_kid fwd) (mkBIter t (P ++ node :: x :: path) (Q ++ Z.of_nat j :: y :: pos)) (len P) =
    Ok (mkBIter t (P ++ node :: page :: path) (Q ++ Z.of_nat j :: q :: pos)).
Proof using.
  intros <- Hr He Hg Hq Hl. assert (len P = len Q) as HPQ by (unfold len; lia).
  unfold iterDescend. cbn [it_pos it_path it_tree]. rewrite !len_app, !len_cons.
  pose proof (len_nonneg pos). rewrite (proj2 (Z.ltb_lt _ _)) by lia. rewrite index_middle. step_res.
  rewrite HPQ at 1. rewrite index_middle. step_res. rewrite (getPtr_filled _ _ _ _ Hr _ _ He). step_res. rewrite Hg. step_res.
  replace (len P + 1) with (len (P ++ [node])) by (rewrite len_app; done).
  rewrite (snoc_middle P), set_index_middle. step_res. rewrite Hq. step_res.
  replace (len (P ++ [node])) with (len (Q ++ [Z.of_nat j])) by (rewrite !len_app, HPQ; done).
  rewrite (snoc_middle Q), set_index_middle. step_res. by rewrite <- !snoc_middle.
Qed.

Lemma iterDescend_bottom f t P Q node p :
  length P = length Q -> iterDescend f (mkBIter t (P ++ [node]) (Q ++ [p])) (len P) = Ok (mkBIter t (P ++ [node]) (Q ++ [p])).
Proof using.
  intros Hl. unfold iterDescend. cbn [it_pos it_path it_tree]. rewrite !len_app. change (len [p]) with 1.
  rewrite (proj2 (Z.ltb_ge _ _)) by (unfold len; lia). done.
Qed.

Lemma node_next P (node : bytes) : len (P ++ [node]) = len P + 1.
Proof using. by rewrite len_app. Qed.

(** The first or the last pair below a node. *)
Lemma descends_ok fwd t h node kvs P Q path q pos :
  bt_store t = s -> sub h node kvs -> at_kid fwd node = Ok q -> length P = length Q ->
  length path = h -> length pos = h ->
  exists path' pos', descends fwd (mkBIter t (P ++ node :: path) (Q ++ q :: pos)) (len P) (S h) =
      Ok (mkBIter t (P ++ path') (Q ++ pos')) /\ at_path h node kvs (edge fwd (length kvs)) path' pos'.
Proof using.
  intros Ht. revert node kvs P Q path q pos. induction h as [|h IH];
    intros node kvs P Q path q pos (es & Hr & Hne & Hk) Hq HPQ Hl1 Hl2;
    rewrite (at_kid_ok _ _ _ _ Hr Hne) in Hq; injection Hq as <-.
  - destruct path, pos; try done. cbn [descends]. rewrite iterDescend_bottom by done. step_res.
    exists [node], [Z.of_nat (edge fwd (length es))]. split; [done|]. destruct Hk as [-> Hp]. rewrite length_fmap.
    apply at_leaf; [done|done|]. apply edge_lt. destruct es; [done|]. cbn. lia.
  - destruct path as [|x path]; [done|]. destruct pos as [|y pos]; [done|]. destruct Hk as (kss & -> & Hf).
    set (j := edge fwd (length es)). assert (j < length es)%nat as Hj by (apply edge_lt; destruct es; [done|cbn; lia]).
    destruct (lookup_lt_is_Some_2 es j Hj) as [e He].
    destruct (Forall2_lookup_l _ _ _ _ _ Hf He) as (ks & Hks & _ & page & Hg & Hsub).
    pose proof Hsub as Hsub'. assert (exists es', node_repr page (level_ty h) es' /\ es' <> []) as (es' & Hr' & Hne').
    { destruct h; destruct Hsub' as (es' & ? & ? & _); by exists es'. }
    cbn [descends]. rewrite (iterDescend_step fwd t P Q node es j e page _ x path y pos Ht Hr He Hg (at_kid_ok _ _ _ _ Hr' Hne') HPQ).
    step_res. rewrite (snoc_middle P), (snoc_middle Q), <- (node_next P node).
    destruct (IH page ks (P ++ [node]) (Q ++ [Z.of_nat j]) path _ pos Hsub (at_kid_ok _ _ _ _ Hr' Hne')) as (path' & pos' & E & Hat);
      [by rewrite !length_app, HPQ|by injection Hl1|by injection Hl2|].
    cbn [descends] in E. rewrite E. exists (node :: path'), (Z.of_nat j :: pos'). rewrite <- !app_assoc. split; [done|].
    assert (edge fwd (length (concat kss)) = length (concat (take j kss)) + edge fwd (length ks))%nat as ->.
    { pose proof (sub_ne _ _ _ Hsub). pose proof (Forall2_length _ _ _ Hf). unfold edge in *. destruct fwd; [by unfold j|].
      rewrite (concat_last kss j ks) by (done || (unfold j; lia)). destruct ks; [done|]. cbn. lia. }
    by eapply at_node.
Qed.

(** ** The next pair *)

(** The last pair is in the last child. *)
Lemma last_kid h es kss j ks i (Hf : Forall2 (kid h) es kss) (Hks : kss !! j = Some ks) (Hlt : (i < length ks)%nat) :
  S (length (concat (take j kss)) + i) = length (concat kss) -> j = (length es - 1)%nat /\ S i = length ks /\ es <> [].
Proof using.
  intros Hi. pose proof (Forall2_length _ _ _ Hf) as Hlen. pose proof (lookup_lt_Some _ _ _ Hks) as Hj.
  destruct (decide (S j < length kss)%nat) as [Hlt'|Hge].
  { pose proof (concat_not_last kss j ks Hks (kids_ne _ _ _ Hf) Hlt'). lia. }
  pose proof (concat_last kss j ks Hks ltac:(lia)). split; [lia|]. split; [lia|]. intros ->. cbn in Hlen. lia.
Qed.

Lemma bind_assoc {A B C} (m : res A) (f : A -> res B) (g : B -> res C) :
  (b ← (a ← m; f a); g b) = (a ← m; b ← f a; g b).
Proof using. by destruct m. Qed.

Lemma bind_ret {A} (m : res A) : (a ← m; Ok a) = m.
Proof using. by destruct m. Qed.

(** One level of [iterNext], when there is a next child and when there is
    none. *)
Lemma next_within t P Q node ty es j path pos :
  node_repr node ty es -> (S j < length es)%nat -> length P = length Q ->
  iterNext (mkBIter t (P ++ node :: path) (Q ++ Z.of_nat j :: pos)) (length P) =
    iterDescend (at_kid true) (mkBIter t (P ++ node :: path) (Q ++ Z.of_nat (S j) :: pos)) (len P).
Proof using.
  intros Hr Hj Hl. assert (len P = len Q) as HPQ by (unfold len; lia). pose proof (length_lt_repr _ _ _ Hr).
  destruct (length P) as [|d] eqn:Ed; cbn [iterNext it_pos it_path it_tree];
    (replace (Z.of_nat _) with (len P) by (unfold len; lia)); rewrite HPQ at 1; rewrite index_middle; step_res;
    rewrite index_middle; step_res; rewrite (nkeys_filled _ _ _ _ Hr); step_res; rewrite u16_small by lia;
    rewrite (proj2 (Z.ltb_lt _ _)) by lia; rewrite HPQ at 1; rewrite set_index_middle; step_res;
    by replace (Z.of_nat j + 1) with (Z.of_nat (S j)) by lia.
Qed.

Lemma next_beyond t P Q node ty es j path pos d :
  node_repr node ty es -> S j = length es -> length P = S d -> length Q = S d ->
  iterNext (mkBIter t (P ++ node :: path) (Q ++ Z.of_nat j :: pos)) (S d) =
    (it ← iterNext (mkBIter t (P ++ node :: path) (Q ++ Z.of_nat j :: pos)) d; iterDescend (at_kid true) it (Z.of_nat (S d))).
Proof using.
  intros Hr Hj HP HQ. pose proof (length_lt_repr _ _ _ Hr). cbn [iterNext it_pos it_path it_tree].
  replace (Z.of_nat (S d)) with (len Q) at 1 by (unfold len; lia). rewrite index_middle. step_res.
  replace (Z.of_nat (S d)) with (len P) at 1 by (unfold len; lia). rewrite index_middle. step_res.
  rewrite (nkeys_filled _ _ _ _ Hr). step_res. rewrite u16_small by lia. by rewrite (proj2 (Z.ltb_ge _ _)) by lia.
Qed.

(** At the last pair below [node] the step is left to the parent. *)
Lemma next_carry t h node kvs i path pos P Q d :
  at_path h node kvs i path pos -> S i = length kvs -> length P = S d -> length Q = S d ->
  iterNext (mkBIter t (P ++ path) (Q ++ pos)) (S d + h) =
    (it ← iterNext (mkBIter t (P ++ path) (Q ++ pos)) d; descends true it (Z.of_nat (S d)) (S h)).
Proof using.
  intros Hat. revert P Q d. induction Hat as [node es i Hr Hp Hi|h node es kss j e ks page i path pos Hr Hf He Hks Hg Hat IH];
    intros P Q d Hlast HP HQ.
  - rewrite length_fmap in Hlast. rewrite Nat.add_0_r. rewrite (next_beyond t P Q node _ es i [] [] d) by done.
    cbn [descends]. destruct (iterNext _ d) as [it| |]; [|done..]. step_res. by rewrite bind_ret.
  - destruct (last_kid _ _ _ _ _ _ Hf Hks (proj2 (proj2 (at_path_length _ _ _ _ _ _ Hat))) Hlast) as (Hj & Hi & Hne).
    assert (0 < length es)%nat by (destruct es; [done|cbn; lia]).
    specialize (IH (P ++ [node]) (Q ++ [Z.of_nat j]) (S d) ltac:(lia) ltac:(rewrite length_app; cbn; lia) ltac:(rewrite length_app; cbn; lia)).
    rewrite <- !app_assoc in IH. cbn [app] in IH.
    replace (S d + S h)%nat with (S (S d) + h)%nat by lia. rewrite IH.
    rewrite (next_beyond t P Q node _ es j path pos d Hr ltac:(lia) HP HQ), bind_assoc.
    destruct (iterNext _ d) as [it| |]; [|done..]. step_res. cbn [descends].
    by replace (Z.of_nat (S d) + 1) with (Z.of_nat (S (S d))) by lia.
Qed.

Lemma next_ok t h node kvs i path pos P Q :
  bt_store t = s -> at_path h node kvs i path pos -> (S i < length kvs)%nat -> length P = length Q ->
  exists path' pos', iterNext (mkBIter t (P ++ path) (Q ++ pos)) (length P + h) = Ok (mkBIter t (P ++ path') (Q ++ pos')) /\
    at_path h node kvs (S i) path' pos'.
Proof using.
  intros Ht Hat. revert P Q. induction Hat as [node es i Hr Hp Hi|h node es kss j e ks page i path pos Hr Hf He Hks Hg Hat IH];
    intros P Q Hlast HPQ.
  - rewrite length_fmap in Hlast. rewrite Nat.add_0_r, (next_within t P Q node _ es i [] []) by done.
    rewrite iterDescend_bottom by done. eexists _, _. split; [reflexivity|]. by apply at_leaf.
  - destruct (at_path_length _ _ _ _ _ _ Hat) as (Hlp & Hlq & Hi). pose proof (Forall2_length _ _ _ Hf) as Hlen.
    destruct (decide (S i < length ks)%nat) as [Hin|Hout].
    + destruct (IH (P ++ [node]) (Q ++ [Z.of_nat j]) Hin ltac:(by rewrite !length_app, HPQ)) as (path' & pos' & E & Hat').
      rewrite <- !app_assoc, length_app in E. cbn [app length] in E.
      replace (length P + S h)%nat with (length P + 1 + h)%nat by lia. rewrite E. eexists _, _. split; [reflexivity|].
      rewrite <- Nat.add_succ_r. by eapply at_node.
    + assert (S i = length ks) as Hi' by lia.
      pose proof (next_carry t h page ks i path pos (P ++ [node]) (Q ++ [Z.of_nat j]) (length P) Hat Hi'
        ltac:(rewrite length_app; cbn; lia) ltac:(rewrite length_app; cbn; lia)) as E.
      rewrite <- !app_assoc in E. cbn [app] in E.
      replace (length P + S h)%nat with (S (length P) + h)%nat by lia. rewrite E.
      assert (S j < length kss)%nat as Hj'.
      { pose proof (lookup_lt_Some _ _ _ Hks). destruct (decide (S j < length kss)%nat); [done|].
        pose proof (concat_last kss j ks Hks ltac:(lia)). lia. }
      rewrite (next_within t P Q node _ es j path pos Hr ltac:(lia) HPQ).
      destruct (lookup_lt_is_Some_2 es (S j) ltac:(lia)) as [e' He'].
      destruct (Forall2_lookup_l _ _ _ _ _ Hf He') as (ks' & Hks' & _ & page' & Hg' & Hsub).
      assert (exists q, at_kid true page' = Ok q) as [q Hq] by by eexists.
      destruct path as [|x path]; [done|]. destruct pos as [|y pos]; [done|].
      rewrite (iterDescend_step true t P Q node es (S j) e' page' q x path y pos Ht Hr He' Hg' Hq HPQ). step_res.
      rewrite (snoc_middle P), (snoc_middle Q).
      destruct (descends_ok true t h page' ks' (P ++ [node]) (Q ++ [Z.of_nat (S j)]) path q pos Ht Hsub Hq) as
        (path' & pos' & E' & Hat'); [by rewrite !length_app, HPQ|by injection Hlp|by injection Hlq|].
      replace (Z.of_nat (S (length P))) with (len (P ++ [node])) by (unfold len; rewrite length_app; cbn; lia).
      rewrite E'. rewrite <- !app_assoc. eexists _, _. split; [reflexivity|].
      replace (S (length (concat (take j kss)) + i)) with (length (concat (take (S j) kss)) + edge true (length ks'))%nat.
      { by eapply at_node. }
      rewrite (concat_take_S _ _ _ Hks). cbn. lia.
Qed.

(** ** Past the last pair *)

(** The position in the leaf, one past the last pair. *)
Definition past_end (h : nat) (node : bytes) (kvs : list kv) (path : list bytes) (pos : list Z) : Prop :=
  exists P leaf Q es, path = P ++ [leaf] /\ pos = Q ++ [Z.of_nat (length es)] /\ length P = h /\ length Q = h /\
    node_repr leaf BNODE_LEAF es /\ es <> [] /\
    at_path h node kvs (length kvs - 1) path (Q ++ [Z.of_nat (length es - 1)]).

Lemma at_path_end h node kvs i path pos : at_path h node kvs i path pos -> S i = length kvs ->
  exists P leaf Q es, path = P ++ [leaf] /\ pos = Q ++ [Z.of_nat (length es - 1)] /\ length P = h /\ length Q = h /\
    node_repr leaf BNODE_LEAF es /\ es <> [] /\ past_end h node kvs path (Q ++ [Z.of_nat (length es)]).
Proof using.
  intros Hat Hi. destruct (at_path_last _ _ _ _ _ _ Hat) as (P & leaf & Q & p & es & j & e & Ep & Eq & HP & HQ & Hr & -> & He & _).
  assert (S j = length es) as Hj.
  { clear -Hat Hi Ep Eq Hr. revert P Q Ep Eq. induction Hat as [node es0 i Hr0 _ Hi0|h node es0 kss j0 e0 ks page i path pos _ Hf _ Hks _ Hat IH];
      intros P Q Ep Eq.
    - rewrite length_fmap in Hi. destruct P as [|? [|]], Q as [|? [|]]; try done. injection Ep as <-. injection Eq as Hj.
      pose proof (nkeys_filled _ _ _ _ Hr). pose proof (nkeys_filled _ _ _ _ Hr0).
      assert (Ok (Z.of_nat (length es)) = Ok (Z.of_nat (length es0))) as [= E] by congruence. lia.
    - destruct P as [|x P].
      { destruct (at_path_length _ _ _ _ _ _ Hat) as (Hl & _ & _). by destruct path. }
      destruct Q as [|y Q].
      { destruct (at_path_length _ _ _ _ _ _ Hat) as (_ & Hl & _). by destruct pos. }
      injection Ep as <- Ep. injection Eq as _ Eq. eapply IH; [|exact Ep|exact Eq].
      destruct (at_path_length _ _ _ _ _ _ Hat) as (_ & _ & Hi').
      rewrite (concat_split _ _ _ Hks), !length_app in Hi. lia. }
  subst path pos. replace j with (length es - 1)%nat in * by lia. exists P, leaf, Q, es.
  do 5 (split; [done|]). split; [by destruct es|]. exists P, leaf, Q, es. do 5 (split; [done|]). split; [by destruct es|].
  by replace (length kvs - 1)%nat with i by lia.
Qed.

(** In the root, [iterNext] moves the position of the leaf. *)
Lemma next_root t node es P leaf Q les path pos :
  node_repr node (level_ty (length path)) es -> node_repr leaf BNODE_LEAF les -> les <> [] ->
  node :: path = P ++ [leaf] -> Z.of_nat (length es - 1) :: pos = Q ++ [Z.of_nat (length les - 1)] -> length P = length Q ->
  es <> [] ->
  iterNext (mkBIter t (node :: path) (Z.of_nat (length es - 1) :: pos)) 0 = Ok (mkBIter t (P ++ [leaf]) (Q ++ [Z.of_nat (length les)])).
Proof using.
  intros Hr Hlr Hlne Ep Eq HPQ Hne. pose proof (length_lt_repr _ _ _ Hr). pose proof (length_lt_repr _ _ _ Hlr).
  assert (0 < length es)%nat by (destruct es; [done|cbn; lia]). assert (0 < length les)%nat by (destruct les; [done|cbn; lia]).
  cbn [iterNext it_pos it_path it_tree]. change (index (?x :: ?l) (Z.of_nat 0)) with (Ok x). step_res.
  change (index (node :: path) (Z.of_nat 0)) with (Ok node). step_res. rewrite (nkeys_filled _ _ _ _ Hr). step_res.
  rewrite u16_small by lia. rewrite (proj2 (Z.ltb_ge _ _)) by lia. rewrite Eq, Ep.
  assert (len P = len Q) as HL by (unfold len; lia). rewrite len_app. change (len [Z.of_nat (length les - 1)]) with 1.
  replace (len Q + 1 - 1) with (len Q) by lia. rewrite index_middle. step_res. rewrite u16_small by lia.
  rewrite set_index_middle. step_res. rewrite <- HL, index_middle. step_res. rewrite (nkeys_filled _ _ _ _ Hlr). step_res.
  by replace (Z.of_nat (length les - 1) + 1) with (Z.of_nat (length les)) by lia.
Qed.

(** With at most one level of internal nodes the iterator ends after the last
    pair. *)
Lemma next_end t h node kvs i path pos :
  at_path h node kvs i path pos -> S i = length kvs -> (h <= 1)%nat ->
  exists pos', iterNext (mkBIter t path pos) h = Ok (mkBIter t path pos') /\ past_end h node kvs path pos'.
Proof using.
  intros Hat Hi Hh. destruct (at_path_end _ _ _ _ _ _ Hat Hi) as (P & leaf & Q & les & Ep & Eq & HP & HQ & Hlr & Hlne & Hend).
  exists (Q ++ [Z.of_nat (length les)]). split; [|exact Hend]. clear Hend. rewrite Ep. revert Ep Eq.
  destruct Hat as [node es i Hr Hp Hlt|h node es kss j e ks page i path pos Hr Hf He Hks Hg Hat]; intros Ep Eq.
  - rewrite length_fmap in Hi. replace i with (length es - 1)%nat in * by lia. rewrite <- Ep at 1.
    apply next_root; try done; [by rewrite HP, HQ|]. by destruct es.
  - destruct h as [|h]; [|lia]. destruct (last_kid _ _ _ _ _ _ Hf Hks (proj2 (proj2 (at_path_length _ _ _ _ _ _ Hat))) Hi) as (Hj & Hi' & Hne).
    rewrite <- Ep at 1.
    pose proof (next_carry t 0 page ks i path pos [node] [Z.of_nat j] 0 Hat Hi' eq_refl eq_refl) as E. cbn [app Nat.add] in E. rewrite E.
    rewrite Hj in *. destruct (at_path_length _ _ _ _ _ _ Hat) as (Hl & _ & _).
    rewrite (next_root t node es P leaf Q les path pos); [|by rewrite Hl|done..|by rewrite HP, HQ|done]. step_res.
    cbn [descends]. replace (Z.of_nat 1) with (len P) by (unfold len; lia).
    rewrite iterDescend_bottom by by rewrite HP, HQ. done.
Qed.

(** With more levels, the nodes below the root are entered again on the way
    back: the iterator returns to an earlier pair. *)
Lemma next_rewinds t h node kvs i path pos :
  bt_store t = s -> at_path h node kvs i path pos -> S i = length kvs -> (2 <= h)%nat ->
  exists i' path' pos', iterNext (mkBIter t path pos) h = Ok (mkBIter t path' pos') /\ at_path h node kvs i' path' pos' /\
    (i' <= i)%nat.
Proof using.
  intros Ht Hat Hi Hh. destruct (at_path_end _ _ _ _ _ _ Hat Hi) as (P & leaf & Q & les & Ep & Eq & HP & HQ & Hlr & Hlne & _).
  revert Ep Eq. destruct Hat as [|h node es kss j e ks page i path pos Hr Hf He Hks Hg Hat]; [lia|]. intros Ep Eq.
  destruct (at_path_length _ _ _ _ _ _ Hat) as (Hl & _ & Hlt).
  destruct (last_kid _ _ _ _ _ _ Hf Hks Hlt Hi) as (Hj & Hi' & Hne).
  pose proof (next_carry t h page ks i path pos [node] [Z.of_nat j] 0 Hat Hi' eq_refl eq_refl) as E. cbn [app Nat.add] in E.
  change (S (0 + h)) with (S h) in E. rewrite E. clear E.
  rewrite Hj, (next_root t node es P leaf Q les path pos); [|by rewrite Hl|done|done|done|by rewrite <- Hj|by rewrite HP, HQ|done].
  step_res. revert Ep Eq.
  destruct Hat as [|h page es1 kss1 j1 e1 ks1 page1 i path pos Hr1 Hf1 He1 Hks1 Hg1 Hat1]; [lia|]. intros Ep Eq.
  destruct P as [|? [|? P]]; try done. destruct Q as [|? [|? Q]]; try done. injection Ep as <- <- Ep. injection Eq as <- <- Eq.
  destruct (at_path_length _ _ _ _ _ _ Hat1) as (Hl1 & Hq1 & _).
  destruct (Forall2_lookup_l _ _ _ _ _ Hf1 He1) as (ks1' & Hks1' & _ & page1' & Hg1' & Hsub).
  rewrite Hks1 in Hks1'. injection Hks1' as <-. rewrite Hg1 in Hg1'. injection Hg1' as <-.
  destruct (P ++ [leaf]) as [|x path0] eqn:EP; [by destruct P|].
  destruct (Q ++ [Z.of_nat (length les)]) as [|y pos0] eqn:EQ; [by destruct Q|].
  assert (length path0 = h /\ length pos0 = h) as [Hl0 Hq0].
  { apply (f_equal length) in EP, EQ. rewrite length_app in EP, EQ. cbn in *. lia. }
  cbn [app]. rewrite EP, EQ. change (Z.of_nat 1) with (len [node]).
  remember (S h) as h1 eqn:Eh1. cbn [descends]. subst h1.
  pose proof (iterDescend_step true t [node] [Z.of_nat j] page es1 j1 e1 page1 0 x path0 y pos0 Ht Hr1 He1 Hg1 eq_refl eq_refl) as E.
  cbn [app] in E. rewrite E. clear E. step_res.
  destruct (descends_ok true t h page1 ks1 [node; page] [Z.of_nat j; Z.of_nat j1] path0 0 pos0 Ht Hsub eq_refl eq_refl Hl0 Hq0) as
    (path' & pos' & E & Hat').
  change (len [node] + 1) with (len [node; page]). cbn [app] in E |- *. rewrite E.
  eexists _, _, _. split; [reflexivity|]. split; [eapply at_node; [exact Hr|exact Hf|exact He|exact Hks|exact Hg|]; by eapply at_node|].
  rewrite Hj. cbn. lia.
Qed.

(** ** The previous pair *)

Lemma prev_within t P Q (node : bytes) j path pos :
  Z.of_nat j < 2 ^ 16 -> (0 < j)%nat -> length P = length Q ->
  iterPrev (mkBIter t (P ++ node :: path) (Q ++ Z.of_nat j :: pos)) (length P) =
    iterDescend (at_kid false) (mkBIter t (P ++ node :: path) (Q ++ Z.of_nat (j - 1) :: pos)) (len P).
Proof using.
  intros Hr Hj Hl. assert (len P = len Q) as HPQ by (unfold len; lia).
  destruct (length P) as [|d] eqn:Ed; cbn [iterPrev it_pos it_path it_tree];
    (replace (Z.of_nat _) with (len P) by (unfold len; lia)); rewrite HPQ at 1; rewrite index_middle; step_res;
    rewrite (proj2 (Z.ltb_lt _ _)) by lia; rewrite u16_small by lia; rewrite HPQ at 1; rewrite set_index_middle; step_res;
    by replace (Z.of_nat j - 1) with (Z.of_nat (j - 1)) by lia.
Qed.

Lemma prev_beyond t P Q (node : bytes) path pos d :
  length P = S d -> length Q = S d ->
  iterPrev (mkBIter t (P ++ node :: path) (Q ++ 0 :: pos)) (S d) =
    (it ← iterPrev (mkBIter t (P ++ node :: path) (Q ++ 0 :: pos)) d; iterDescend (at_kid false) it (Z.of_nat (S d))).
Proof using.
  intros HP HQ. cbn [iterPrev it_pos it_path it_tree].
  replace (Z.of_nat (S d)) with (len Q) at 1 by (unfold len; lia). rewrite index_middle. by step_res.
Qed.

Lemma first_kid h es kss j ks i (Hf : Forall2 (kid h) es kss) (Hks : kss !! j = Some ks) :
  (length (concat (take j kss)) + i = 0)%nat -> j = 0%nat /\ i = 0%nat.
Proof using.
  intros Hi. split; [|lia]. destruct j as [|j]; [done|]. apply kids_ne in Hf. destruct kss as [|k0 kss]; [done|].
  apply Forall_cons in Hf as [Hk0 _]. cbn in Hi. rewrite length_app in Hi. destruct k0; [done|]. cbn in Hi. lia.
Qed.

Lemma prev_carry t h node kvs i path pos P Q d :
  at_path h node kvs i path pos -> i = 0%nat -> length P = S d -> length Q = S d ->
  iterPrev (mkBIter t (P ++ path) (Q ++ pos)) (S d + h) =
    (it ← iterPrev (mkBIter t (P ++ path) (Q ++ pos)) d; descends false it (Z.of_nat (S d)) (S h)).
Proof using.
  intros Hat. revert P Q d. induction Hat as [node es i Hr Hp Hi|h node es kss j e ks page i path pos Hr Hf He Hks Hg Hat IH];
    intros P Q d H0 HP HQ.
  - subst i. rewrite Nat.add_0_r. change (Z.of_nat 0) with 0. rewrite (prev_beyond t P Q node [] [] d) by done.
    cbn [descends]. destruct (iterPrev _ d) as [it| |]; [|done..]. step_res. by rewrite bind_ret.
  - destruct (first_kid _ _ _ _ _ _ Hf Hks H0) as [-> ->].
    specialize (IH (P ++ [node]) (Q ++ [0]) (S d) eq_refl ltac:(rewrite length_app; cbn; lia) ltac:(rewrite length_app; cbn; lia)).
    rewrite <- !app_assoc in IH. cbn [app] in IH. change (Z.of_nat 0) with 0.
    replace (S d + S h)%nat with (S (S d) + h)%nat by lia. rewrite IH.
    rewrite (prev_beyond t P Q node path pos d HP HQ), bind_assoc.
    destruct (iterPrev _ d) as [it| |]; [|done..]. step_res. cbn [descends].
    by replace (Z.of_nat (S d) + 1) with (Z.of_nat (S (S d))) by lia.
Qed.

Lemma prev_ok t h node kvs i path pos P Q :
  bt_store t = s -> at_path h node kvs i path pos -> (0 < i)%nat -> length P = length Q ->
  exists path' pos', iterPrev (mkBIter t (P ++ path) (Q ++ pos)) (length P + h) = Ok (mkBIter t (P ++ path') (Q ++ pos')) /\
    at_path h node kvs (i - 1) path' pos'.
Proof using.
  intros Ht Hat. revert P Q. induction Hat as [node es i Hr Hp Hi|h node es kss j e ks page i path pos Hr Hf He Hks Hg Hat IH];
    intros P Q H0 HPQ.
  - pose proof (length_lt_repr _ _ _ Hr). rewrite Nat.add_0_r, (prev_within t P Q node i [] []) by (done || lia).
    rewrite iterDescend_bottom by done. eexists _, _. split; [reflexivity|]. apply at_leaf; [done..|lia].
  - destruct (at_path_length _ _ _ _ _ _ Hat) as (Hlp & Hlq & Hi). pose proof (Forall2_length _ _ _ Hf) as Hlen.
    destruct (decide (0 < i)%nat) as [Hin|Hout].
    + destruct (IH (P ++ [node]) (Q ++ [Z.of_nat j]) Hin ltac:(by rewrite !length_app, HPQ)) as (path' & pos' & E & Hat').
      rewrite <- !app_assoc, length_app in E. cbn [app length] in E.
      replace (length P + S h)%nat with (length P + 1 + h)%nat by lia. rewrite E. eexists _, _. split; [reflexivity|].
      rewrite <- Nat.add_sub_assoc by lia. by eapply at_node.
    + assert (i = 0%nat) as Hi' by lia.
      pose proof (prev_carry t h page ks i path pos (P ++ [node]) (Q ++ [Z.of_nat j]) (length P) Hat Hi'
        ltac:(rewrite length_app; cbn; lia) ltac:(rewrite length_app; cbn; lia)) as E.
      rewrite <- !app_assoc in E. cbn [app] in E.
      replace (length P + S h)%nat with (S (length P) + h)%nat by lia. rewrite E. clear E.
      assert (0 < j)%nat as Hj. { destruct j; [rewrite take_0 in H0; cbn in H0; lia|lia]. }
      pose proof (length_lt_repr _ _ _ Hr). pose proof (lookup_lt_Some _ _ _ He).
      rewrite (prev_within t P Q node j path pos) by (done || lia).
      destruct (lookup_lt_is_Some_2 es (j - 1) ltac:(lia)) as [e' He'].
      destruct (Forall2_lookup_l _ _ _ _ _ Hf He') as (ks' & Hks' & _ & page' & Hg' & Hsub).
      assert (exists q, at_kid false page' = Ok q) as [q Hq].
      { destruct h; destruct Hsub as (es' & Hr' & Hne' & _); eexists; by eapply at_kid_ok. }
      destruct path as [|x path]; [done|]. destruct pos as [|y pos]; [done|].
      rewrite (iterDescend_step false t P Q node es (j - 1) e' page' q x path y pos Ht Hr He' Hg' Hq HPQ). step_res.
      rewrite (snoc_middle P), (snoc_middle Q).
      destruct (descends_ok false t h page' ks' (P ++ [node]) (Q ++ [Z.of_nat (j - 1)]) path q pos Ht Hsub Hq) as
        (path' & pos' & E' & Hat'); [by rewrite !length_app, HPQ|by injection Hlp|by injection Hlq|].
      replace (Z.of_nat (S (length P))) with (len (P ++ [node])) by (unfold len; rewrite length_app; cbn; lia).
      rewrite E'. rewrite <- !app_assoc. eexists _, _. split; [reflexivity|].
      replace (length (concat (take j kss)) + i - 1)%nat with (length (concat (take (j - 1) kss)) + edge false (length ks'))%nat.
      { by eapply at_node. }
      replace j with (S (j - 1)) at 2 by lia. rewrite (concat_take_S _ _ _ Hks'). apply sub_ne in Hsub.
      destruct ks'; [done|]. cbn. lia.
Qed.

End rep.
