(* ===== verification/BIterProps.v ===== *)
(** * Iterators walk through the pairs in order

    [iter_at h t kvs it n]: the iterator [it] of the tree [t] is at the pair
    number [n] of the tree, counted from 1; 0 is the sentinel, before the
    first pair, and [length kvs + 1] is the place after the last one. *)

From S2P Require Import Prelude.
From S2P Require Import GoBytes.
From S2P Require Import BNode.
From S2P Require Import KVSpec.
From S2P Require Import BNodeFacts.
From S2P Require Import BSplitFacts.
From S2P Require Import BTree.
From S2P Require Import BTreeRep.
From S2P Require Import MemStore.
From S2P Require Import BTreeInsert.
From S2P Require Import BTreeMap.
From S2P Require Import BTreeProps.
From S2P Require Import BIter.
From S2P Require Import BIterFacts.

(** ** Seeking: from pages to positions *)

Section seek.
Context {PS : Type} `{PageStore PS} (s : PS).

(** The pages of [m] can be read. *)
Definition reads (m : heap) : Prop := forall p page, m !! p = Some page -> page_get s p = Ok page.

Lemma reads_union_l m1 m2 : reads (m1 ∪ m2) -> reads m1.
Proof using. intros Hr p page Hp. apply Hr. by apply lookup_union_Some_l. Qed.

Lemma reads_union_r m1 m2 : m1 ##ₘ m2 -> reads (m1 ∪ m2) -> reads m2.
Proof using. intros Hd Hr p page Hp. apply Hr. by apply lookup_union_Some_r. Qed.

Lemma reads_insert p page m : m !! p = None -> reads (<[p := page]> m) -> page_get s p = Ok page /\ reads m.
Proof using.
  intros Hn Hr. split; [by apply Hr, lookup_insert_eq|]. intros q pg Hq. apply Hr. rewrite lookup_insert_ne; [done|]. congruence.
Qed.

Lemma item_kid h m e ks :
  (forall m page es kvs, reads m -> node_rep (item_rep h) h m page es kvs -> sub s h page kvs) ->
  reads m -> item_rep (S h) m e ks -> kid s h e ks.
Proof using.
  intros Hsub Hr (_ & _ & Hp & page & mk & es & -> & Hmk & _ & Hn). apply reads_insert in Hr as [Hg Hr]; [|done].
  split; [done|]. exists page. split; [done|]. by eapply Hsub.
Qed.

Lemma items_kids h m es kvs :
  (forall m e ks, reads m -> item_rep (S h) m e ks -> kid s h e ks) ->
  reads m -> items (S h) m es kvs -> exists kss, kvs = concat kss /\ Forall2 (kid s h) es kss.
Proof using.
  intros Hkid. revert m kvs. induction es as [|e es IH]; intros m kvs Hr.
  - intros [_ ->]. by exists [].
  - intros (m1 & m2 & k1 & k2 & -> & Hd & -> & He & Hf).
    destruct (IH m2 k2 (reads_union_r _ _ Hd Hr) Hf) as (kss & -> & HF). exists (k1 :: kss). split; [done|].
    constructor; [|done]. eapply Hkid; [by eapply reads_union_l|done].
Qed.

Lemma leaf_items m es kvs : items 0 m es kvs ->
  kvs = (fun e => (e_key e, e_val e)) <$> es /\ Forall (fun e => e_ptr e = 0) es.
Proof using.
  revert m kvs. induction es as [|e es IH]; intros m kvs; [by intros [_ ->]|].
  intros (m1 & m2 & k1 & k2 & _ & _ & -> & (_ & Hp & ->) & Hf). destruct (IH _ _ Hf) as [-> HF].
  split; [done|]. by constructor.
Qed.

Lemma node_sub h m page es kvs : reads m -> node_rep (item_rep h) h m page es kvs -> sub s h page kvs.
Proof using.
  revert m page es kvs. induction h as [|h IH]; intros m page es kvs Hr (Hrep & Hne & Hf).
  - exists es. split; [done|]. split; [done|]. by eapply leaf_items.
  - exists es. split; [done|]. split; [done|]. eapply items_kids; [|exact Hr|exact Hf].
    intros m' e ks. by apply item_kid.
Qed.

Lemma kids_of h m es kvs : reads m -> items (S h) m es kvs -> exists kss, kvs = concat kss /\ Forall2 (kid s h) es kss.
Proof using. apply items_kids. intros m' e ks. apply item_kid, node_sub. Qed.

(** The pair number [i] is the last one whose key is at most [key]. *)
Definition last_le (kvs : list kv) (key : bytes) (i : nat) : Prop :=
  exists A p B, kvs = A ++ p :: B /\ length A = i /\ all_lt A key /\ ble p.1 key /\ all_gt B key.

Lemma SeekLE_loop_ok h fuel m page es kvs key ptr path pos :
  reads m -> page_get s ptr = Ok page -> ptr <> 0 -> node_rep (item_rep h) h m page es kvs -> sorted_kvs kvs ->
  ble (first_key kvs) key -> (h < fuel)%nat ->
  exists i path' pos', SeekLE_loop fuel s key ptr path pos = Ok (path ++ path', pos ++ pos') /\
    at_path s h page kvs i path' pos' /\ last_le kvs key i.
Proof using.
  revert h m page es kvs ptr path pos. induction fuel as [|fuel IH];
    intros h m page es kvs ptr path pos Hrd Hg Hp (Hr & Hne & Hf) Hs Hle Hd; [lia|].
  pose proof (items_sorted _ _ _ _ Hf Hs) as Hsk.
  destruct (locate _ _ _ _ _ Hf Hs Hne Hle)
    as (L & e & R & m1 & me & m2 & k1 & ke & k2 & -> & Hrank & -> & D1 & D2 & D3 & -> &
        F1 & Fe & F2 & A1 & A2 & Hek).
  cbn [SeekLE_loop]. rewrite (proj2 (Z.eqb_neq _ _)), Hg by done. step_res.
  rewrite (lookup_slot _ _ _ _ _ _ Hr Hsk Hrank). step_res.
  pose proof (list_lookup_middle L R e _ eq_refl) as Hlk. rewrite (getPtr_filled _ _ _ _ Hr _ _ Hlk). step_res.
  destruct h as [|h].
  - pose proof (leaf_items _ _ _ Hf) as [Ek HF]. destruct Fe as (-> & Hpe & ->).
    exists (length L), [page], [Z.of_nat (length L)]. rewrite Hpe. split; [by destruct fuel|]. split.
    + rewrite Ek. apply at_leaf; [done|done|]. rewrite length_app. cbn. lia.
    + exists k1, (e_key e, e_val e), k2. split; [done|]. split; [|done].
      apply leaf_items in F1 as [-> _]. by rewrite length_fmap.
  - assert (reads (me ∪ m2)) as Hrd2 by (eapply reads_union_r; [|exact Hrd]; by apply map_disjoint_union_r_2).
    destruct (kids_of h _ _ _ (reads_union_l _ _ Hrd) F1) as (kss1 & -> & HF1).
    destruct (kids_of h _ _ _ (reads_union_r _ _ D3 Hrd2) F2) as (kss2 & -> & HF2).
    pose proof (reads_union_l _ _ Hrd2) as Hrde.
    pose proof (item_kid h me e ke (fun m page es kvs => node_sub h m page es kvs) Hrde Fe) as Hkid.
    destruct Fe as (_ & Hfk & Hpe & kpage & mk & kes & -> & Hmk & _ & Hn).
    apply reads_insert in Hrde as [Hgk Hrdk]; [|done].
    assert (sorted_kvs ke) as Hske.
    { rewrite !fmap_app in Hs. apply sorted_keys_app in Hs as (_ & Hs & _). by apply sorted_keys_app in Hs as (Hs & _ & _). }
    destruct (IH h mk kpage kes ke (e_ptr e) (path ++ [page]) (pos ++ [Z.of_nat (length L)]) Hrdk Hgk Hpe Hn Hske
      ltac:(by rewrite <- Hfk) ltac:(lia)) as (i & path' & pos' & E & Hat & Hlast).
    exists (length (concat kss1) + i)%nat, (page :: path'), (Z.of_nat (length L) :: pos').
    rewrite E, <- !app_assoc. split; [done|].
    pose proof (Forall2_length _ _ _ HF1) as Hl1. split.
    + replace (concat kss1 ++ ke ++ concat kss2) with (concat (kss1 ++ ke :: kss2)) by by rewrite concat_app.
      replace (length (concat kss1)) with (length (concat (take (length L) (kss1 ++ ke :: kss2)))).
      * eapply at_node; [exact Hr| |exact Hlk| |exact Hgk|exact Hat].
        -- apply Forall2_app; [done|]. by constructor.
        -- rewrite Hl1. by apply list_lookup_middle.
      * by rewrite Hl1, take_app_length.
    + destruct Hlast as (A & p & B & -> & HA & HlA & Hple & HgB). exists (concat kss1 ++ A), p, (B ++ concat kss2). rewrite <- !app_assoc. split; [done|]. rewrite length_app, HA.
      split; [done|]. split; [by apply Forall_app|]. split; [done|]. by apply Forall_app.
Qed.

End seek.

(** ** Sorted lists around a position *)

Definition count_le (kvs : list kv) (key : bytes) : nat := length (filter (fun p : kv => ble p.1 key) kvs).
Definition count_lt (kvs : list kv) (key : bytes) : nat := length (filter (fun p : kv => blt p.1 key) kvs).

(** The position of the closest pair for which the comparison holds. *)
Definition seek_index (kvs : list kv) (key : bytes) (cmp : Z) : nat :=
  if cmp =? CMP_LE then count_le kvs key else if cmp =? CMP_LT then count_lt kvs key
  else if cmp =? CMP_GE then S (count_lt kvs key) else S (count_le kvs key).

Lemma filter_all_length {A} (P : A -> Prop) `{forall x, Decision (P x)} l : Forall P l -> length (filter P l) = length l.
Proof. induction 1 as [|x l Hx _ IH]; [done|]. by rewrite filter_cons_True, length_cons, IH. Qed.

Lemma filter_none_length {A} (P : A -> Prop) `{forall x, Decision (P x)} l : Forall (fun x => ~ P x) l -> length (filter P l) = 0%nat.
Proof. induction 1 as [|x l Hx _ IH]; [done|]. by rewrite filter_cons_False. Qed.

Lemma sorted_nodup (kvs : list kv) : sorted_kvs kvs -> NoDup kvs.*1.
Proof.
  unfold sorted_keys. intros Hs. induction Hs as [|k l _ IH Hk]; constructor; [|exact IH]. intros Hin.
  rewrite Forall_forall in Hk. by apply (irreflexivity blt k), Hk.
Qed.

(** The first position after the empty key. *)
Lemma seek_index_first kvs : sorted_kvs (with_sentinel kvs) -> seek_index kvs [] CMP_GT = 1%nat.
Proof.
  intros [_ Hs]%StronglySorted_inv. unfold seek_index. cbn. f_equal. apply filter_none_length.
  change (Forall (blt []) (fst <$> kvs)) in Hs. rewrite Forall_fmap in Hs. eapply Forall_impl; [exact Hs|].
  intros p Hp. cbn. by apply not_ble.
Qed.

(** The counts, from the split of the list of pairs with the sentinel. *)
Lemma counts_at kvs key i : last_le (with_sentinel kvs) key i ->
  count_le kvs key = i /\ (i <= length kvs)%nat /\
  exists p, with_sentinel kvs !! i = Some p /\ ble p.1 key /\
    count_lt kvs key = (if bool_decide (p.1 = key) then i - 1 else i)%nat.
Proof.
  intros (A & p & B & E & <- & HA & Hp & HB).
  assert (count_le (with_sentinel kvs) key = S (length A)) as Hle.
  { unfold count_le. rewrite E, filter_app, filter_cons_True, length_app, length_cons by done.
    rewrite filter_all_length, filter_none_length; [lia| |].
    - eapply Forall_impl; [exact HB|]. intros q Hq. cbn. by apply not_ble.
    - eapply Forall_impl; [exact HA|]. intros q Hq. by apply blt_ble. }
  assert (count_lt (with_sentinel kvs) key = if bool_decide (p.1 = key) then length A else S (length A)) as Hlt.
  { unfold count_lt. rewrite E, filter_app, length_app.
    rewrite (filter_all_length _ A) by done. rewrite filter_cons.
    assert (length (filter (fun q : kv => blt q.1 key) B) = 0%nat) as HB0.
    { apply filter_none_length. eapply Forall_impl; [exact HB|]. intros q Hq. cbn. apply not_blt. by apply blt_ble. }
    apply ble_lteq in Hp as [Hp|Hp].
    - rewrite decide_True by done. rewrite bool_decide_false by by apply blt_ne. rewrite length_cons, HB0. lia.
    - rewrite decide_False by (rewrite Hp; apply not_blt, ble_lteq; by right). rewrite bool_decide_true by done. rewrite HB0. lia. }
  pose proof (f_equal length E) as Hl. rewrite length_app in Hl. cbn in Hl.
  unfold count_le in Hle. unfold with_sentinel in Hle. rewrite filter_cons_True in Hle by apply nil_ble. cbn in Hle.
  split; [unfold count_le; lia|]. split; [lia|]. exists p. split; [by rewrite E, list_lookup_middle|]. split; [done|].
  unfold count_lt, with_sentinel in Hlt. rewrite filter_cons in Hlt. unfold count_lt. destruct (decide (blt [] key)) as [Hk|Hk].
  - rewrite decide_True in Hlt by done. cbn in Hlt. case_bool_decide; lia.
  - rewrite decide_False in Hlt by done. rewrite Hlt. case_bool_decide as Hpk; [|].
    + destruct A as [|a A]; [done|]. exfalso. apply Hk. apply Forall_cons in HA as [Ha _]. injection E as <- _. exact Ha.
    + exfalso. apply not_blt in Hk. assert (key = []) as -> by (apply ble_antisym; [done|apply nil_ble]).
      apply Hpk. apply ble_antisym; [done|apply nil_ble].
Qed.

(** ** Moving *)

Section iter.
Context {PS : Type} `{PageReadOk PS}.

Definition iter_at (h : nat) (t : BTree PS) (kvs : list kv) (it : BIter PS) (n : nat) : Prop :=
  it_tree it = t /\
  ((it_path it = [] /\ it_pos it = [] /\ kvs = [] /\ (n <= 1)%nat) \/
   exists page, at_path (bt_store t) h page (with_sentinel kvs) n (it_path it) (it_pos it) \/
     (n = S (length kvs) /\ past_end (bt_store t) h page (with_sentinel kvs) (it_path it) (it_pos it))).

Lemma iter_at_eta h t kvs it n : iter_at h t kvs it n -> it = mkBIter t (it_path it) (it_pos it).
Proof using. destruct it. by intros [<- _]. Qed.

(** The last node and position. *)
Lemma iterIsEnd_last (t : BTree PS) P leaf Q p es : node_repr leaf BNODE_LEAF es -> length P = length Q ->
  iterIsEnd (mkBIter t (P ++ [leaf]) (Q ++ [p])) = Ok (p =? Z.of_nat (length es)).
Proof using.
  intros Hr Hl. unfold iterIsEnd. cbn [it_path it_pos]. rewrite len_app. change (len [leaf]) with 1.
  pose proof (len_nonneg P). rewrite (proj2 (Z.ltb_ge _ _)) by lia. replace (len P + 1 - 1) with (len P) by lia.
  replace (len P) with (len Q) at 1 by (unfold len; lia). rewrite index_middle. step_res. rewrite index_middle. step_res.
  rewrite (nkeys_filled _ _ _ _ Hr). by step_res.
Qed.

Lemma at_path_not_end (s : PS) (t : BTree PS) h node kvs i path pos :
  at_path s h node kvs i path pos -> iterIsEnd (mkBIter t path pos) = Ok false.
Proof using.
  intros (P & leaf & Q & p & es & j & e & -> & -> & HP & HQ & Hr & -> & He & _)%at_path_last.
  rewrite (iterIsEnd_last t P leaf Q _ es Hr) by by rewrite HP. apply lookup_lt_Some in He.
  by rewrite (proj2 (Z.eqb_neq _ _)) by lia.
Qed.

Lemma past_end_end (s : PS) (t : BTree PS) h node kvs path pos : past_end s h node kvs path pos ->
  iterIsEnd (mkBIter t path pos) = Ok true /\ iterIsFirst (mkBIter t path pos) = false.
Proof using.
  intros (P & leaf & Q & es & -> & -> & HP & HQ & Hr & Hne & _). split.
  - rewrite (iterIsEnd_last t P leaf Q _ es Hr) by by rewrite HP. by rewrite Z.eqb_refl.
  - unfold iterIsFirst. cbn [it_pos]. rewrite forallb_app. cbn [forallb]. destruct es; [done|]. by rewrite andb_false_r.
Qed.

Lemma Valid_ok h t kvs it n : iter_at h t kvs it n -> BIter_Valid it = Ok (bool_decide (1 <= n <= length kvs)%nat).
Proof using.
  intros Hit. rewrite (iter_at_eta _ _ _ _ _ Hit). destruct Hit as (_ & [(-> & -> & -> & Hn)|(page & [Hat|[-> Hend]])]).
  - cbn. rewrite bool_decide_false by (cbn; lia). done.
  - unfold BIter_Valid. unfold iterIsFirst at 1. cbn [it_pos]. rewrite (at_path_first _ _ _ _ _ _ _ Hat).
    rewrite (at_path_not_end _ _ _ _ _ _ _ _ Hat). destruct (at_path_length _ _ _ _ _ _ _ Hat) as (_ & _ & Hlt). cbn in Hlt.
    destruct (Nat.eqb_spec n 0) as [->|]; [by rewrite bool_decide_false by lia|]. step_res.
    by rewrite bool_decide_true by lia.
  - destruct (past_end_end _ t _ _ _ _ _ Hend) as [E1 E2]. unfold BIter_Valid. rewrite E2, E1. step_res.
    by rewrite bool_decide_false by lia.
Qed.

Lemma Deref_ok h t kvs it n p : iter_at h t kvs it n -> (1 <= n)%nat -> kvs !! (n - 1)%nat = Some p -> BIter_Deref it = Ok p.
Proof using.
  intros Hit Hn Hp. pose proof (lookup_lt_Some _ _ _ Hp) as Hlt. pose proof (Valid_ok _ _ _ _ _ Hit) as HV.
  rewrite bool_decide_true in HV by lia. unfold BIter_Deref. rewrite HV. step_res.
  rewrite (iter_at_eta _ _ _ _ _ Hit). destruct Hit as (_ & [(-> & -> & -> & _)|(page & [Hat|[-> _]])]); [done| |lia].
  destruct (at_path_last _ _ _ _ _ _ _ Hat) as (P & leaf & Q & q & es & j & e & -> & -> & HP & HQ & Hr & -> & He & Hkv).
  cbn [it_path it_pos]. rewrite len_app. change (len [leaf]) with 1. replace (len P + 1 - 1) with (len P) by lia.
  rewrite index_middle. step_res. replace (len P) with (len Q) by (unfold len; lia). rewrite index_middle. step_res.
  rewrite (getKey_filled _ _ _ _ Hr _ _ He). step_res. rewrite (getVal_filled _ _ _ _ Hr _ _ He). step_res.
  destruct n as [|n]; [lia|]. replace (S n - 1)%nat with n in Hp by lia.
  change (kvs !! n = Some (e_key e, e_val e)) in Hkv. congruence.
Qed.

Lemma Next_ok h t kvs it n : iter_at h t kvs it n -> ((h <= 1)%nat \/ (n < length kvs)%nat) ->
  exists it', BIter_Next it = Ok it' /\ iter_at h t kvs it' (Nat.min (S n) (S (length kvs))).
Proof using.
  intros Hit Hh. rewrite (iter_at_eta _ _ _ _ _ Hit). destruct Hit as (_ & [(-> & -> & -> & Hn)|(page & [Hat|[-> Hend]])]).
  - eexists. split; [reflexivity|]. split; [done|]. left. by repeat split; cbn; lia.
  - unfold BIter_Next. rewrite (at_path_not_end _ _ _ _ _ _ _ _ Hat). step_res. cbn [it_path].
    destruct (at_path_length _ _ _ _ _ _ _ Hat) as (Hl & _ & Hlt). cbn in Hlt. rewrite Hl, Nat.sub_1_r. cbn [Nat.pred].
    destruct (decide (n < length kvs)%nat) as [Hin|Hout].
    + destruct (next_ok (bt_store t) t h page _ n _ _ [] [] eq_refl Hat ltac:(cbn; lia) eq_refl) as (path' & pos' & E & Hat').
      cbn [app length Nat.add] in E. rewrite E. eexists. split; [reflexivity|]. rewrite Nat.min_l by lia.
      split; [done|]. right. exists page. by left.
    + destruct (next_end (bt_store t) t h page _ n _ _ Hat ltac:(cbn; lia) ltac:(lia)) as (pos' & E & Hend).
      rewrite E. eexists. split; [reflexivity|]. rewrite Nat.min_r by lia. split; [done|]. right. exists page. right. by split.
  - unfold BIter_Next. destruct (past_end_end _ t _ _ _ _ _ Hend) as [-> _]. step_res. eexists. split; [reflexivity|].
    rewrite Nat.min_r by lia. split; [done|]. right. exists page. by right.
Qed.

Lemma Prev_ok h t kvs it n : iter_at h t kvs it n -> exists it', BIter_Prev it = Ok it' /\ iter_at h t kvs it' (n - 1).
Proof using.
  intros Hit. rewrite (iter_at_eta _ _ _ _ _ Hit). destruct Hit as (_ & [(-> & -> & -> & Hn)|(page & [Hat|[-> Hend]])]).
  - eexists. split; [reflexivity|]. split; [done|]. left. by repeat split; lia.
  - unfold BIter_Prev. unfold iterIsFirst. cbn [it_pos it_path]. rewrite (at_path_first _ _ _ _ _ _ _ Hat).
    destruct (at_path_length _ _ _ _ _ _ _ Hat) as (Hl & _ & Hlt). rewrite Hl, Nat.sub_1_r. cbn [Nat.pred].
    destruct (Nat.eqb_spec n 0) as [->|Hn0].
    + eexists. split; [reflexivity|]. split; [done|]. right. exists page. by left.
    + destruct (prev_ok (bt_store t) t h page _ n _ _ [] [] eq_refl Hat ltac:(lia) eq_refl) as (path' & pos' & E & Hat').
      cbn [app length Nat.add] in E. rewrite E. eexists. split; [reflexivity|]. split; [done|]. right. exists page. by left.
  - destruct (past_end_end _ t _ _ _ _ _ Hend) as [_ E]. unfold BIter_Prev. rewrite E.
    destruct Hend as (P & leaf & Q & es & Ep & Eq & HP & HQ & Hr & Hne & Hat). rewrite Ep in *. rewrite Eq. cbn [it_path].
    rewrite length_app. cbn [length]. replace (length P + 1 - 1)%nat with (length P) by lia.
    pose proof (length_lt_repr _ _ _ Hr). assert (0 < length es)%nat by (destruct es; [done|cbn; lia]).
    rewrite (prev_within t P Q leaf (length es) [] []), iterDescend_bottom by (lia || congruence).
    eexists. split; [reflexivity|]. split; [done|]. right. exists page. left. cbn [it_path it_pos].
    replace (S (length kvs) - 1)%nat with (length (with_sentinel kvs) - 1)%nat by (cbn; lia). exact Hat.
Qed.

(** ** Seeking *)

Definition is_cmp (cmp : Z) : Prop := cmp = CMP_GE \/ cmp = CMP_GT \/ cmp = CMP_LT \/ cmp = CMP_LE.

(** What [cmpOK] decides. *)
Definition cmp_holds (curr : bytes) (cmp : Z) (key : bytes) : Prop :=
  if cmp =? CMP_GE then ble key curr else if cmp =? CMP_GT then blt key curr
  else if cmp =? CMP_LT then blt curr key else ble curr key.

#[export] Instance cmp_holds_dec curr cmp key : Decision (cmp_holds curr cmp key).
Proof. unfold cmp_holds. repeat case_match; apply _. Defined.

Lemma cmpOK_ok curr cmp key : is_cmp cmp -> cmpOK curr cmp key = Ok (bool_decide (cmp_holds curr cmp key)).
Proof using.
  unfold cmpOK. pose proof (bytes_compare_antisym curr key) as Ha.
  assert (forall (b : bool) (P : Prop) (HP : Decision P), (b = true <-> P) -> Ok b = Ok (bool_decide P)) as Hb.
  { intros b P HP Hiff. f_equal. destruct b; symmetry; [apply bool_decide_true; by apply Hiff|].
    apply bool_decide_false. intros HPt. by apply Hiff in HPt. }
  intros [-> |[-> |[-> | ->]]]; cbn; apply Hb; unfold cmp_holds, ble, blt; cbn; rewrite ?Z.leb_le, ?Z.ltb_lt; lia.
Qed.

(** The pair at the position of [seek_index], if there is one, satisfies the
    comparison. *)
Lemma seek_index_holds kvs key cmp i p : sorted_kvs (with_sentinel kvs) -> is_cmp cmp ->
  last_le (with_sentinel kvs) key i -> (1 <= seek_index kvs key cmp)%nat ->
  kvs !! (seek_index kvs key cmp - 1)%nat = Some p -> cmp_holds p.1 cmp key.
Proof using.
  intros Hs Hc Hlast Hn Hp. pose proof (counts_at _ _ _ Hlast) as (Hle & _ & q & Hq & Hqk & Hlt).
  destruct Hlast as (A & q' & B & E & HA & HlA & _ & HgB). rewrite E, list_lookup_middle in Hq by done. injection Hq as ->.
  assert (forall n, kvs !! (n - 1)%nat = Some p -> (1 <= n)%nat -> (A ++ q :: B) !! n = Some p) as Hw.
  { intros n Hl H1. rewrite <- E. destruct n as [|n]; [lia|]. by rewrite Nat.sub_1_r in Hl. }
  apply (Hw _ Hp) in Hn as Hn'. clear Hw Hp. revert Hn Hn'. unfold seek_index, cmp_holds. rewrite Hle, Hlt.
  rewrite Forall_forall in HlA, HgB.
  assert (forall n, (A ++ q :: B) !! n = Some p ->
    ((n < i)%nat /\ blt p.1 key) \/ (n = i /\ p = q) \/ ((i < n)%nat /\ blt key p.1)) as Hpos.
  { intros n Hn. apply lookup_app_Some in Hn as [Hn|[Hge Hn]].
    - left. split; [apply lookup_lt_Some in Hn; lia|]. apply HlA. by eapply list_elem_of_lookup_2.
    - destruct (n - length A)%nat as [|k] eqn:Ek; [right; left; split; [lia|]; by injection Hn|].
      right; right. split; [lia|]. apply HgB. by eapply list_elem_of_lookup_2. }
  destruct Hc as [-> |[-> |[-> | ->]]]; cbn -[Nat.sub]; intros H1 Hn; apply Hpos in Hn.
  - case_bool_decide as Ek; destruct Hn as [[Hn Hb]|[[Hn ->]|[Hn Hb]]]; try lia.
    + apply ble_lteq. by right.
    + by apply blt_ble.
    + by apply blt_ble.
  - destruct Hn as [[Hn Hb]|[[Hn ->]|[Hn Hb]]]; [lia..|done].
  - case_bool_decide as Ek; destruct Hn as [[Hn Hb]|[[Hn ->]|[Hn Hb]]]; try lia; try done.
    apply ble_lteq in Hqk as [?|?]; done.
  - destruct Hn as [[Hn Hb]|[[Hn ->]|[Hn Hb]]]; [lia|done|lia].
Qed.

(** The move after [SeekLE], and the final check. *)
Lemma Seek_end h t kvs key cmp it n (Hit : iter_at h t kvs it n) (Hc : is_cmp cmp)
    (Hn : forall p, (1 <= n)%nat -> kvs !! (n - 1)%nat = Some p -> cmp_holds p.1 cmp key) :
  (v ← BIter_Valid it;
   if (v : bool) then kv ← BIter_Deref it; ok ← cmpOK (fst kv) cmp key; _ ← assert ok; Ok it else Ok it) = Ok it.
Proof using.
  rewrite (Valid_ok _ _ _ _ _ Hit). step_res. case_bool_decide as Hv; [|done].
  destruct (lookup_lt_is_Some_2 kvs (n - 1) ltac:(lia)) as [p Hp].
  rewrite (Deref_ok _ _ _ _ _ _ Hit (proj1 Hv) Hp). step_res. rewrite cmpOK_ok by done. step_res.
  rewrite bool_decide_true by (apply Hn; [lia|done]). by step_res.
Qed.

(** [SeekLE] stops at the last pair, counting the sentinel, that is not past
    the key. *)
Lemma SeekLE_at h depth t kvs key : tree_reads h t kvs -> (h < depth)%nat -> bt_root t <> 0 ->
  exists it i, SeekLE depth t key = Ok it /\ iter_at h t kvs it i /\ last_le (with_sentinel kvs) key i /\
    iterIsFirst it = (i =? 0)%nat /\ iterIsEnd it = Ok false.
Proof using.
  intros (m & F & Hsh & HD & Hst & Hs) Hd Hroot. unfold SeekLE.
  apply shape_root in Hsh as (page & mk & es & -> & Hmk & Hl & Hn); [|done].
  assert (reads (bt_store t) (<[bt_root t := page]> mk)) as Hrd.
  { intros p pg Hp. eapply read_get; [exact Hst|]. by apply lookup_union_Some_l. }
  apply reads_insert in Hrd as [Hg Hrd]; [|done].
  destruct (SeekLE_loop_ok (bt_store t) h depth mk page es (with_sentinel kvs) key (bt_root t) [] [] Hrd Hg Hroot Hn Hs
    (nil_ble _) Hd) as (i & path & pos & E & Hat & Hlast).
  rewrite E. step_res. cbn [app]. eexists _, i. split; [reflexivity|].
  split; [split; [done|]; right; exists page; by left|]. split; [exact Hlast|].
  split; [exact (at_path_first _ _ _ _ _ _ _ Hat)|exact (at_path_not_end _ _ _ _ _ _ _ _ Hat)].
Qed.

Lemma SeekLE_empty (t : BTree PS) depth key : bt_root t = 0 -> (0 < depth)%nat -> SeekLE depth t key = Ok (mkBIter t [] []).
Proof using. intros Hroot Hd. unfold SeekLE. rewrite Hroot. destruct depth as [|depth]; [lia|]. done. Qed.

(** Looking for the empty key ends at the sentinel, which is not a pair. *)
Lemma Seek_sentinel h depth t kvs : tree_reads h t kvs -> (h < depth)%nat ->
  exists it, BTree_Seek depth t [] CMP_GE = Ok it /\ BIter_Valid it = Ok false.
Proof using.
  intros Ht Hd. unfold BTree_Seek. destruct (decide (bt_root t = 0)) as [Hroot|Hroot].
  { rewrite SeekLE_empty by (done || lia). by eexists. }
  destruct (SeekLE_at h depth t kvs [] Ht Hd Hroot) as (it & i & -> & _ & Hlast & Hfirst & Hend).
  destruct (counts_at _ _ _ Hlast) as (_ & _ & p & Hp & Hpk & _).
  assert (i = 0%nat) as ->.
  { destruct i as [|i]; [done|]. exfalso. destruct Ht as (_ & _ & _ & _ & _ & Hs).
    assert (blt [] p.1) as Hb.
    { apply (StronglySorted_lookup_lt _ _ 0 (S i) [] p.1 Hs); [done| |lia]. by rewrite list_lookup_fmap, Hp. }
    apply (blt_ne [] [] (blt_ble_trans _ _ _ Hb Hpk) eq_refl). }
  change ((0 =? 0)%nat) with true in Hfirst. step_res. rewrite !Hfirst. step_res. cbn [orb negb].
  change (CMP_GE =? CMP_LE) with false. cbn [negb]. step_res. rewrite cmpOK_ok by by left. step_res.
  rewrite bool_decide_true by (change (ble [] []); apply nil_ble). cbn [negb]. step_res.
  unfold BIter_Valid. rewrite Hfirst. step_res. exists it. split; [done|]. by rewrite Hfirst.
Qed.

Lemma Seek_ok h depth t kvs key cmp :
  tree_reads h t kvs -> (h < depth)%nat -> is_cmp cmp -> key <> [] \/ cmp <> CMP_GE ->
  (h <= 1)%nat \/ (seek_index kvs key cmp <= length kvs)%nat ->
  exists it, BTree_Seek depth t key cmp = Ok it /\ iter_at h t kvs it (seek_index kvs key cmp).
Proof using.
  intros Ht Hd Hc Hkey Hend. unfold BTree_Seek.
  destruct (decide (bt_root t = 0)) as [Hroot|Hroot].
  { destruct Ht as (m & F & Hsh & _). unfold tree_shape in Hsh. rewrite decide_True in Hsh by done. destruct Hsh as [_ ->].
    rewrite SeekLE_empty by (done || lia).
    step_res. exists (mkBIter t [] []). split.
    - change (iterIsFirst _) with true. cbn [orb]. step_res. change (BIter_Next _) with (Ok (mkBIter t [] [])).
      change (BIter_Prev _) with (Ok (mkBIter t [] [])). cbn [negb]. step_res. rewrite cmpOK_ok by done. step_res.
      destruct (negb (cmp =? CMP_LE)); [|done]. case_bool_decide; cbn [negb]; [done|]. destruct (0 <? cmp); done.
    - split; [done|]. left. split; [done|]. split; [done|]. split; [done|]. unfold seek_index. cbn. repeat case_match; lia. }
  destruct (SeekLE_at h depth t kvs key Ht Hd Hroot) as (it & i & -> & Hit & Hlast & Hfirst & Hne). step_res.
  pose proof Ht as (_ & _ & _ & _ & _ & Hs).
  pose proof (seek_index_holds kvs key cmp i) as Hholds.
  destruct (counts_at _ _ _ Hlast) as (Hle & Hi & p & Hp & Hpk & Hlt).
  rewrite Hfirst, Hne.
  assert ((if (i =? 0)%nat then Ok false else Ok false) = Ok false) as -> by by destruct (i =? 0)%nat.
  step_res. cbn [negb]. rewrite ?orb_true_r. step_res.
  assert ((if negb (i =? 0)%nat then kv ← BIter_Deref it; Ok (fst kv) else Ok []) = Ok p.1) as ->.
  { destruct (Nat.eqb_spec i 0) as [->|Hi0]; cbn [negb].
    - change (Some (([] : bytes, [] : bytes)) = Some p) in Hp. by injection Hp as <-.
    - destruct i as [|i]; [lia|]. rewrite (Deref_ok _ _ _ _ (S i) p Hit); [done|lia|]. by rewrite Nat.sub_1_r. }
  step_res. rewrite cmpOK_ok by done. step_res.
  assert (exists it', (if negb (cmp =? CMP_LE) then
       if negb (bool_decide (cmp_holds p.1 cmp key)) then (if 0 <? cmp then BIter_Next it else BIter_Prev it) else Ok it
     else Ok it) = Ok it' /\ iter_at h t kvs it' (seek_index kvs key cmp)) as (it' & -> & Hit').
  { assert (seek_index kvs key cmp = S i -> exists it', BIter_Next it = Ok it' /\ iter_at h t kvs it' (S i)) as Hnext.
    { intros E. destruct (Next_ok h t kvs it i Hit) as (nx & Enx & Hnx); [destruct Hend; [by left|right; lia]|].
      exists nx. rewrite Nat.min_l in Hnx by lia. done. }
    pose proof (proj1 (ble_lteq _ _) Hpk) as Hpk'.
    destruct Hc as [-> |[-> |[-> | ->]]]; unfold seek_index, cmp_holds in *; cbn -[Nat.sub] in *; rewrite ?Hle, ?Hlt in *.
    - case_bool_decide as Eb; cbn [negb].
      + rewrite bool_decide_true by (apply ble_lteq; by right). cbn [negb].
        exists it. split; [done|]. destruct i as [|i]; [|by rewrite Nat.sub_1_r].
        change (Some (([] : bytes, [] : bytes)) = Some p) in Hp. injection Hp as <-. destruct Hkey as [Hk|Hk]; [by destruct Hk|done].
      + rewrite bool_decide_false by (intros Hb; apply Eb; by apply ble_antisym). by apply Hnext.
    - rewrite bool_decide_false by by apply not_blt. by apply Hnext.
    - case_bool_decide as Eb; cbn [negb].
      + rewrite bool_decide_false by by (intros ?%blt_ne). destruct (Prev_ok h t kvs it i Hit) as (pv & -> & Hpv). by exists pv.
      + rewrite bool_decide_true by (destruct Hpk'; done). by exists it.
    - by exists it. }
  exists it'. split; [|done]. step_res. apply (Seek_end h t kvs key cmp it' _ Hit' Hc). intros q Hq1 Hq.
  by eapply seek_index_holds.
Qed.

End iter.

(** ** Properties *)

Section props.
Context {PS : Type} `{PageReadOk PS}.

(** An iterator is a position in the sorted list of pairs.  [Valid] says
    whether it stands at a pair, and [Deref] gives that pair; [Prev] moves to
    the pair before, and stays in front of the first one; [Next] moves to the
    pair after, across leaves and their parents, and stays after the last one.
    No access is out of range and the assertion on the last leaf holds.  Past
    the last pair this needs a tree of at most two levels. *)
Lemma iterator_moves h t kvs it n : iter_at h t kvs it n ->
  BIter_Valid it = Ok (bool_decide (1 <= n <= length kvs)%nat) /\
  (forall p, (1 <= n)%nat -> kvs !! (n - 1)%nat = Some p -> BIter_Deref it = Ok p) /\
  (exists it', BIter_Prev it = Ok it' /\ iter_at h t kvs it' (n - 1)) /\
  ((h <= 1)%nat \/ (n < length kvs)%nat ->
   exists it', BIter_Next it = Ok it' /\ iter_at h t kvs it' (Nat.min (S n) (S (length kvs)))).
Proof using.
  intros Hit. split; [by eapply Valid_ok|]. split; [intros p H1 Hp; by eapply Deref_ok|].
  split; [by apply Prev_ok|by apply Next_ok].
Qed.

(** [Seek] finds the closest pair for which the comparison with the key
    holds: the first one at or after it, the first after it, the last before
    it, or the last at or before it; without one it ends outside of the pairs
    on that side.  Its assertions never fail, except that the end of a tree
    of more than two levels must not be reached, and [>=] wants a key that is
    not empty. *)
Lemma Seek_exact h depth t kvs key cmp :
  tree_reads h t kvs -> (h < depth)%nat -> is_cmp cmp -> key <> [] \/ cmp <> CMP_GE ->
  (h <= 1)%nat \/ (seek_index kvs key cmp <= length kvs)%nat ->
  exists it, BTree_Seek depth t key cmp = Ok it /\ iter_at h t kvs it (seek_index kvs key cmp).
Proof using. by apply Seek_ok. Qed.

(** The pairs from an iterator on, in the direction of a comparison. *)
Fixpoint walk (n : nat) (cmp : Z) (it : BIter PS) : res (list (bytes * bytes)) :=
  valid ← BIter_Valid it;
  if negb valid then Ok [] else
  match n with
  | O => NoFuel
  | S n =>
      kv ← BIter_Deref it;
      it ← (if 0 <? cmp then BIter_Next it else BIter_Prev it);
      rest ← walk n cmp it;
      Ok (kv :: rest)
  end.

Lemma walk_forward m h t kvs it n cmp : iter_at h t kvs it n -> (h <= 1)%nat -> 0 < cmp -> (1 <= n)%nat ->
  (S (length kvs) - n <= m)%nat -> walk m cmp it = Ok (drop (n - 1) kvs).
Proof using.
  intros Hit Hh Hc. revert it n Hit. induction m as [|m IH]; intros it n Hit Hn Hm; cbn [walk]; rewrite (Valid_ok _ _ _ _ _ Hit); step_res;
    (case_bool_decide as Hv; cbn [negb]; [|by rewrite drop_ge by lia]); [lia|].
  destruct (lookup_lt_is_Some_2 kvs (n - 1) ltac:(lia)) as [p Hp]. rewrite (Deref_ok _ _ _ _ _ _ Hit Hn Hp). step_res.
  rewrite (proj2 (Z.ltb_lt _ _)) by done. destruct (Next_ok _ _ _ _ _ Hit ltac:(by left)) as (it' & -> & Hit'). step_res.
  rewrite Nat.min_l in Hit' by lia. rewrite (IH it' (S n) Hit') by lia. step_res.
  rewrite (drop_S _ _ _ Hp). by replace (S n - 1)%nat with (S (n - 1)) by lia.
Qed.

Lemma walk_backward m h t kvs it n cmp : iter_at h t kvs it n -> cmp < 0 -> (n <= length kvs)%nat -> (n <= m)%nat ->
  walk m cmp it = Ok (rev (take n kvs)).
Proof using.
  intros Hit Hc. revert it n Hit. induction m as [|m IH]; intros it n Hit Hn Hm; cbn [walk]; rewrite (Valid_ok _ _ _ _ _ Hit); step_res;
    (case_bool_decide as Hv; cbn [negb]; [|by replace n with 0%nat by lia]); [lia|].
  destruct (lookup_lt_is_Some_2 kvs (n - 1) ltac:(lia)) as [p Hp]. rewrite (Deref_ok _ _ _ _ _ _ Hit ltac:(lia) Hp). step_res.
  rewrite (proj2 (Z.ltb_ge _ _)) by lia. destruct (Prev_ok _ _ _ _ _ Hit) as (it' & -> & Hit'). step_res.
  rewrite (IH it' (n - 1)%nat Hit') by lia. step_res. replace n with (S (n - 1)) at 2 by lia.
  rewrite (take_S_r _ _ _ Hp), rev_app_distr. done.
Qed.

Lemma count_le_length kvs key : (count_le kvs key <= length kvs)%nat.
Proof using. apply length_filter. Qed.

Lemma count_lt_length kvs key : (count_lt kvs key <= length kvs)%nat.
Proof using. apply length_filter. Qed.

(** Walking from [Seek] yields the pairs of the range in key order, or in
    reverse order for the comparisons that go down, each pair once, and ends:
    what range queries and [Commit] rely on, for trees of at most two levels.
    In particular, from the empty key with [>] it yields all pairs. *)
Lemma walk_range h depth t kvs key cmp m :
  tree_reads h t kvs -> (h < depth)%nat -> (h <= 1)%nat -> is_cmp cmp -> key <> [] \/ cmp <> CMP_GE -> (length kvs <= m)%nat ->
  (it ← BTree_Seek depth t key cmp; walk m cmp it) =
    Ok (if 0 <? cmp then drop (seek_index kvs key cmp - 1) kvs else rev (take (seek_index kvs key cmp) kvs)) /\
  ((it ← BTree_Seek depth t [] CMP_GT; walk m CMP_GT it) = Ok kvs).
Proof using.
  intros Ht Hd Hh Hc Hk Hm. split.
  - destruct (Seek_ok h depth t kvs key cmp Ht Hd Hc Hk (or_introl Hh)) as (it & -> & Hit). step_res.
    pose proof (count_le_length kvs key). pose proof (count_lt_length kvs key).
    destruct Hc as [-> |[-> |[-> | ->]]]; cbn [Z.ltb Z.compare]; unfold seek_index in *; cbn -[Nat.sub] in *.
    + eapply walk_forward; [exact Hit|done|done|lia|lia].
    + eapply walk_forward; [exact Hit|done|done|lia|lia].
    + eapply walk_backward; [exact Hit|done|lia|lia].
    + eapply walk_backward; [exact Hit|done|lia|lia].
  - destruct (Seek_ok h depth t kvs [] CMP_GT Ht Hd ltac:(right; by left) ltac:(by right) (or_introl Hh)) as (it & -> & Hit).
    step_res. destruct Ht as (_ & _ & _ & _ & _ & Hs).
    rewrite (seek_index_first _ Hs) in Hit. rewrite (walk_forward m h t kvs it 1 CMP_GT Hit Hh) by (done || lia). done.
Qed.

End props.

(** ** Trees of three levels *)

(** Six keys of 1000 bytes, one to a leaf. *)
Definition deep_kvs : list kv :=
  (fun b => (long_key b 1000, replicate 1800 Byte.x62)) <$> [Byte.x01; Byte.x02; Byte.x03; Byte.x04; Byte.x05; Byte.x06].

Definition deep_tree : res (BTree mem_pages) := upserts deep_kvs.

(** What happens at the last key of a tree: where [Seek] stands and where
    [Next] leads, and where [Seek] with a greater key stands, if it returns. *)
Definition last_run (tree : res (BTree mem_pages)) (last beyond : bytes) : res (list Z * list Z * option (list Z)) :=
  t ← tree; it ← BTree_Seek 6 t last CMP_LE;
  v ← BIter_Valid it; _ ← assert v; kv ← BIter_Deref it; it' ← BIter_Next it;
  _ ← assert (bool_decide (it_path it' = it_path it));
  Ok (it_pos it, it_pos it', match BTree_Seek 6 t beyond CMP_GE with Ok it => Some (it_pos it) | _ => None end).

Lemma deep_run_stays : last_run deep_tree (long_key Byte.x06 1000) [Byte.xff] = Ok ([1; 2; 0], [1; 2; 0], None).
Proof. vm_compute. reflexivity. Qed.

Lemma walk_stuck {PS} `{PageStore PS} (it : BIter PS) kv m : BIter_Valid it = Ok true -> BIter_Deref it = Ok kv -> BIter_Next it = Ok it ->
  walk m CMP_GT it = NoFuel.
Proof.
  intros Hv Hd Hn. induction m as [|m IH]; cbn [walk]; rewrite Hv; step_res; [done|]. cbn [negb]. rewrite Hd. step_res.
  change (0 <? CMP_GT) with true. cbn iota. rewrite Hn. step_res. by rewrite IH.
Qed.

Lemma BIter_Next_tree {PS} `{PageStore PS} (it it' : BIter PS) : BIter_Next it = Ok it' -> it_tree it' = it_tree it.
Proof.
  assert (forall f (it it' : BIter PS) level, iterDescend f it level = Ok it' -> it_tree it' = it_tree it) as Hdesc.
  { intros f a b level. unfold iterDescend. destruct (_ <? _); [|by intros [= <-]]. intros E. inv_res. by subst. }
  assert (forall level (it it' : BIter PS), iterNext it level = Ok it' -> it_tree it' = it_tree it) as Hnext.
  { intros level. induction level as [|level IH]; intros a b; cbn [iterNext]; intros E.
    - apply res_bind_Ok in E as (p & _ & E). apply res_bind_Ok in E as (node & _ & E). apply res_bind_Ok in E as (n & _ & E).
      destruct (_ <? _); [apply res_bind_Ok in E as (pos & _ & E); by apply Hdesc in E|].
      inv_res. by subst.
    - apply res_bind_Ok in E as (p & _ & E). apply res_bind_Ok in E as (node & _ & E). apply res_bind_Ok in E as (n & _ & E).
      destruct (_ <? _); [apply res_bind_Ok in E as (pos & _ & E); by apply Hdesc in E|].
      apply res_bind_Ok in E as (c & Ec & E). apply IH in Ec. apply Hdesc in E. congruence. }
  unfold BIter_Next. intros E. apply res_bind_Ok in E as ([] & _ & E); [by injection E as <-|by apply Hnext in E].
Qed.

Lemma last_run_stuck tree last beyond p : last_run tree last beyond = Ok (p, p, None) -> exists t it,
  tree = Ok t /\ BTree_Seek 6 t last CMP_LE = Ok it /\
  (forall m, walk m CMP_GT it = NoFuel) /\ (forall it', BTree_Seek 6 t beyond CMP_GE <> Ok it').
Proof.
  unfold last_run. intros E.
  apply res_bind_Ok in E as (t & Et & E). apply res_bind_Ok in E as (it & Eit & E). apply res_bind_Ok in E as (v & Ev & E).
  apply res_bind_Ok in E as ([] & ->%assert_Ok & E). apply res_bind_Ok in E as (kv & Ekv & E).
  apply res_bind_Ok in E as (it' & En & E). apply res_bind_Ok in E as ([] & Ep%assert_Ok%bool_decide_eq_true & E).
  apply Ok_inj in E. injection E as E1 E2 E3. exists t, it. split; [done|]. split; [done|]. split.
  - intros m. apply (walk_stuck it kv m Ev Ekv). rewrite En. f_equal. pose proof (BIter_Next_tree _ _ En).
    destruct it, it'. cbn in *. congruence.
  - intros it1 E4. by rewrite E4 in E3.
Qed.

(** In a tree of three levels [Next] does not get past the last pair: on
    the way back from the root the nodes below it are entered again, here with
    the same pair, so a loop over the iterator never ends; and [Seek] with
    [>=] a key that is greater than all others does not return. *)
Lemma deep_iteration_stuck : exists t it,
  deep_tree = Ok t /\ BTree_Seek 6 t (long_key Byte.x06 1000) CMP_LE = Ok it /\
  (forall m, walk m CMP_GT it = NoFuel) /\ (forall it', BTree_Seek 6 t [Byte.xff] CMP_GE <> Ok it').
Proof. exact (last_run_stuck _ _ _ _ deep_run_stays). Qed.

(** ** A concrete walk *)

(** The tree with one pair. *)
Lemma one_reads : exists t, (exists q c, Upsert 1 empty_tree key_a val_1 = Ok (t, q, c)) /\ tree_reads 0 t [(key_a, val_1)].
Proof. destruct (one_stores 0 ltac:(done)) as (t & Ht & _ & Hs%stores_reads). by exists t. Qed.

Example Seek_exact_witness : exists t it,
  (exists q c, Upsert 1 empty_tree key_a val_1 = Ok (t, q, c)) /\ BTree_Seek 1 t key_a CMP_GE = Ok it /\
  iter_at 0 t [(key_a, val_1)] it 1.
Proof.
  destruct one_reads as (t & Ht & Hr).
  destruct (Seek_exact 0 1 t _ key_a CMP_GE Hr ltac:(lia) (or_introl eq_refl) ltac:(by left) ltac:(left; lia)) as (it & E & Hit).
  exists t, it. split; [exact Ht|]. split; [exact E|exact Hit].
Defined.

Example iterator_moves_witness : exists t it it',
  BTree_Seek 1 t key_a CMP_GE = Ok it /\ BIter_Deref it = Ok (key_a, val_1) /\ BIter_Next it = Ok it' /\
  iter_at 0 t [(key_a, val_1)] it' 2.
Proof.
  destruct one_reads as (t & Ht & Hr).
  destruct (Seek_ok 0 1 t _ key_a CMP_GE Hr ltac:(lia) (or_introl eq_refl) ltac:(by left) ltac:(left; lia)) as (it & E & Hit).
  destruct (iterator_moves 0 t _ it 1 Hit) as (_ & Hd & _ & Hn). destruct (Hn ltac:(left; lia)) as (it' & En & Hit').
  exists t, it, it'. split; [exact E|]. split; [by apply Hd; [lia|]|]. split; [exact En|exact Hit'].
Defined.

Example walk_range_witness : exists t,
  (exists q c, Upsert 1 empty_tree key_a val_1 = Ok (t, q, c)) /\
  (it ← BTree_Seek 1 t key_b CMP_LT; walk 1 CMP_LT it) = Ok [(key_a, val_1)].
Proof.
  destruct one_reads as (t & Ht & Hr).
  destruct (walk_range 0 1 t _ key_b CMP_LT 1 Hr ltac:(lia) ltac:(lia) ltac:(right; right; by left) ltac:(by left) ltac:(cbn; lia)) as [E _].
  exists t. split; [exact Ht|exact E].
Defined.
