(* ===== verification/Encode.v ===== *)
(** * Order-preserving encoding of rows (src/db/table.go)

    Column values become bytes whose lexicographic order is the order of the
    values; keys of a table or index start with its prefix. *)

From S2P Require Import Prelude.
From S2P Require Import GoBytes.
From S2P Require Import BIter.

Definition TYPE_BYTES : Z := 1.
Definition TYPE_INT64 : Z := 2.

(** A table cell. *)
Record Value := mkValue { v_Type : Z; v_I64 : Z; v_Str : bytes }.

#[export] Instance Value_eq_dec : EqDecision Value.
Proof. solve_decision. Defined.

(** [binary.BigEndian.PutUintXX] into a fresh buffer of [n] bytes. *)
Definition be_split (n : nat) (v : Z) : bytes := rev (le_split n v).

(** [binary.BigEndian.UintXX(b)] *)
Definition be_get (n : nat) (b : bytes) : res Z :=
  if bool_decide (n <= length b)%nat then Ok (le_combine (rev (take n b))) else Panic.

(** ** Strings *)

(** [bytes.Count(s, []byte{b})] *)
Definition count_byte (b : byte) (s : bytes) : Z := len (filter (.= b) s).

(** [bytes.IndexByte] *)
Fixpoint index_byte (s : bytes) (b : byte) : Z :=
  match s with
  | [] => -1
  | c :: s => if decide (c = b) then 0
              else let i := index_byte s b in if i <? 0 then -1 else i + 1
  end.

(** The loop of [escapeString]: [in] is what is left of the input, [pos] the
    next position of the output buffer. *)
Fixpoint escape_loop (in_ out : bytes) (pos : Z) : res bytes :=
  match in_ with
  | [] => Ok out
  | ch :: in_ =>
      if byte.unsigned ch <=? 1 then
        out ← set_index out pos Byte.x01;
        out ← set_index out (pos + 1) (byte.of_Z (byte.unsigned ch + 1));
        escape_loop in_ out (pos + 2)
      else
        out ← set_index out pos ch;
        escape_loop in_ out (pos + 1)
  end.

Definition escapeString (in_ : bytes) : res bytes :=
  let toEscape := count_byte Byte.x00 in_ + count_byte Byte.x01 in_ in
  if toEscape =? 0 then Ok in_
  else escape_loop in_ (make (len in_ + toEscape)) 0.

(** The loop of [unescapeString]; [i++] skips the escape byte, and an input
    that ends after it is an index out of range. *)
Fixpoint unescape_loop (in_ out : bytes) : res bytes :=
  match in_ with
  | [] => Ok out
  | c :: in_ =>
      if decide (c = Byte.x01) then
        match in_ with
        | [] => Panic
        | d :: in_ =>
            _ ← assert ((byte.unsigned d =? 1) || (byte.unsigned d =? 2));
            unescape_loop in_ (out ++ [byte.of_Z (byte.unsigned d - 1)])
        end
      else unescape_loop in_ (out ++ [c])
  end.

Definition unescapeString (in_ : bytes) : res bytes :=
  if count_byte Byte.x01 in_ =? 0 then Ok in_ else unescape_loop in_ [].

(** ** Values *)

Fixpoint encodeValues (out : bytes) (vals : list Value) : res bytes :=
  match vals with
  | [] => Ok out
  | v :: vals =>
      let out := out ++ [byte.of_Z (v_Type v)] in
      out ← (if v_Type v =? TYPE_INT64 then
               let u := Z.lxor (u64 (v_I64 v)) (Z.shiftl 1 63) in
               Ok (out ++ be_split 8 u)
             else if v_Type v =? TYPE_BYTES then
               e ← escapeString (v_Str v);
               Ok ((out ++ e) ++ [Byte.x00])
             else Panic);
      encodeValues out vals
  end.

Definition encodeKey (out : bytes) (prefix : Z) (vals : list Value) : res bytes :=
  encodeValues (out ++ be_split 4 prefix) vals.

Definition encodeKeyPartial (out : bytes) (prefix : Z) (vals : list Value) (cmp : Z) : res bytes :=
  out ← encodeKey out prefix vals;
  if (cmp =? CMP_GT) || (cmp =? CMP_LE) then Ok (out ++ [Byte.xff]) else Ok out.

(** [out] gives the types of the values to decode; their other fields are
    overwritten. *)
Fixpoint decodeValues (in_ : bytes) (out : list Value) : res (list Value) :=
  match out with
  | [] => _ ← assert (len in_ =? 0); Ok []
  | o :: out =>
      t ← index in_ 0;
      _ ← assert (v_Type o =? byte.unsigned t);
      in_ ← slice_from in_ 1;
      if v_Type o =? TYPE_INT64 then
        b ← slice in_ 0 8;
        u ← be_get 8 b;
        in_ ← slice_from in_ 8;
        out ← decodeValues in_ out;
        Ok (mkValue (v_Type o) (i64 (Z.lxor u (Z.shiftl 1 63))) (v_Str o) :: out)
      else if v_Type o =? TYPE_BYTES then
        let idx := index_byte in_ Byte.x00 in
        _ ← assert (0 <=? idx);
        b ← slice in_ 0 idx;
        str ← unescapeString b;
        in_ ← slice_from in_ (idx + 1);
        out ← decodeValues in_ out;
        Ok (mkValue (v_Type o) (v_I64 o) str :: out)
      else Panic
  end.

Definition decodeKey (in_ : bytes) (out : list Value) : res (list Value) :=
  in_ ← slice_from in_ 4;
  decodeValues in_ out.
