(* ===== verification/EncodeFacts.v ===== *)
(** * The encoding preserves order and loses nothing *)

From S2P Require Import Prelude.
From S2P Require Import GoBytes.
From S2P Require Import BIter.
From S2P Require Import Encode.

(** The sign that [bytes.Compare] gives to a comparison. *)
Definition sgn_of (c : comparison) : Z := match c with Lt => -1 | Eq => 0 | Gt => 1 end.

(** ** Big-endian numbers *)

Lemma unsigned_range b : 0 <= byte.unsigned b < 256.
Proof. apply (byte.unsigned_range b). Qed.

Lemma lor_shift a b n : 0 <= n -> 0 <= a < 2 ^ n -> Z.lor a (b * 2 ^ n) = a + b * 2 ^ n.
Proof.
  intros Hn Ha. enough (Z.land a (b * 2 ^ n) = 0) by (pose proof (Z.add_lor_land a (b * 2 ^ n)); lia).
  apply Z.bits_inj'. intros i Hi. rewrite Z.land_spec, Z.bits_0.
  destruct (Z.lt_ge_cases i n) as [Hlt|Hge].
  - by rewrite Z.mul_pow2_bits_low, andb_false_r.
  - rewrite (proj2 (Z.testbit_false a i Hi)); [done|]. rewrite Z.div_small; [done|].
    pose proof (Z.pow_le_mono_r 2 n i). lia.
Qed.

Lemma be_combine_bound a : 0 <= le_combine (rev a) < 2 ^ (8 * len a).
Proof. pose proof (le_combine_bound (rev a)) as H. rewrite length_rev in H. exact H. Qed.

Lemma be_combine_cons (x : byte) a :
  le_combine (rev (x :: a)) = le_combine (rev a) + byte.unsigned x * 2 ^ (8 * len a).
Proof.
  cbn [rev]. rewrite le_combine_app, length_rev, le_combine_1, Z.shiftl_mul_pow2 by lia.
  rewrite (Z.mul_comm (Z.of_nat (length a)) 8). apply (lor_shift _ _ (8 * len a)); [pose proof (len_nonneg a); lia|]. apply be_combine_bound.
Qed.

(** Big-endian bytes compare like the numbers, whatever follows them. *)
Lemma be_compare a b x y : length a = length b ->
  bytes_compare (a ++ x) (b ++ y) =
    match le_combine (rev a) ?= le_combine (rev b) with
    | Eq => bytes_compare x y | c => sgn_of c
    end.
Proof.
  revert b. induction a as [|c a IH]; intros [|d b]; cbn [length]; try done.
  injection 1 as Hl. cbn [app bytes_compare]. rewrite !be_combine_cons.
  assert (len a = len b) as Hlen by (unfold len; lia). rewrite <- Hlen.
  pose proof (be_combine_bound a) as Ha. pose proof (be_combine_bound b) as Hb. rewrite <- Hlen in Hb.
  destruct (Z.compare_spec (byte.unsigned c) (byte.unsigned d)) as [E|E|E].
  - rewrite IH, E by done. rewrite !(Z.add_comm (le_combine _)), Z.add_compare_mono_l. done.
  - rewrite (proj2 (Z.compare_lt_iff _ _)); [done|]. nia.
  - rewrite (proj2 (Z.compare_gt_iff _ _)); [done|]. nia.
Qed.

Lemma length_be_split n v : length (be_split n v) = n.
Proof. unfold be_split. rewrite length_rev. apply length_le_split. Qed.

Lemma be_split_value n v : 0 <= v < 2 ^ (Z.of_nat n * 8) -> le_combine (rev (be_split n v)) = v.
Proof. intros. unfold be_split. rewrite rev_involutive. by apply le_combine_le_split. Qed.

Lemma be_get_split n v rest :
  0 <= v < 2 ^ (Z.of_nat n * 8) -> be_get n (be_split n v ++ rest) = Ok v.
Proof.
  intros Hv. unfold be_get. rewrite bool_decide_true by (rewrite length_app, length_be_split; lia).
  rewrite take_app_length' by (symmetry; apply length_be_split). by rewrite be_split_value.
Qed.

Lemma be_split_compare n v w x y :
  0 <= v < 2 ^ (Z.of_nat n * 8) -> 0 <= w < 2 ^ (Z.of_nat n * 8) ->
  bytes_compare (be_split n v ++ x) (be_split n w ++ y) =
    match v ?= w with Eq => bytes_compare x y | c => sgn_of c end.
Proof. intros. by rewrite be_compare, !be_split_value by (rewrite ?length_be_split; done). Qed.

(** ** Flipping the sign bit *)

Lemma lxor_low x : 0 <= x < 2 ^ 63 -> Z.lxor x (2 ^ 63) = x + 2 ^ 63.
Proof.
  intros Hx. symmetry. apply Z.add_nocarry_lxor. apply Z.bits_inj'. intros n Hn.
  rewrite Z.land_spec, Z.bits_0, Z.pow2_bits_eqb by lia.
  destruct (Z.eqb_spec 63 n) as [<-|]; [|by rewrite andb_false_r].
  rewrite andb_true_r. apply Z.testbit_false; [lia|]. by rewrite Z.div_small.
Qed.

Lemma lxor_high x : 2 ^ 63 <= x < 2 ^ 64 -> Z.lxor x (2 ^ 63) = x - 2 ^ 63.
Proof.
  intros Hx. replace x with (Z.lxor (x - 2 ^ 63) (2 ^ 63)) at 1 by (rewrite lxor_low; lia).
  by rewrite Z.lxor_assoc, Z.lxor_nilpotent, Z.lxor_0_r.
Qed.

Lemma flip_sign v : - 2 ^ 63 <= v < 2 ^ 63 -> Z.lxor (u64 v) (Z.shiftl 1 63) = v + 2 ^ 63.
Proof.
  intros Hv. change (Z.shiftl 1 63) with (2 ^ 63). destruct (Z.le_gt_cases 0 v).
  - rewrite u64_small by lia. apply lxor_low. lia.
  - replace (u64 v) with (v + 2 ^ 64); [rewrite lxor_high; lia|].
    unfold u64. apply (Z.mod_unique _ _ (-1)); lia.
Qed.

Lemma unflip_sign v : - 2 ^ 63 <= v < 2 ^ 63 -> i64 (Z.lxor (v + 2 ^ 63) (Z.shiftl 1 63)) = v.
Proof.
  intros Hv. rewrite <- flip_sign, Z.lxor_assoc, Z.lxor_nilpotent, Z.lxor_0_r by done.
  unfold i64, u64. rewrite Zplus_mod_idemp_l. rewrite Z.mod_small; lia.
Qed.

(** ** Escaping *)

(** The escape sequence of one byte. *)
Definition esc1 (c : byte) : bytes :=
  if byte.unsigned c <=? 1 then [Byte.x01; byte.of_Z (byte.unsigned c + 1)] else [c].

Definition esc (s : bytes) : bytes := s ≫= esc1.

Lemma esc_cons c s : esc (c :: s) = esc1 c ++ esc s.
Proof. done. Qed.

Lemma set_index_app {A} (pre : list A) x y rest i :
  i = len pre -> set_index (pre ++ x :: rest) i y = Ok (pre ++ y :: rest).
Proof.
  intros ->. unfold set_index.
  rewrite bool_decide_true by (unfold len; rewrite length_app; cbn [length]; lia).
  by rewrite len_to_nat, insert_app_r_alt, Nat.sub_diag.
Qed.

Lemma escape_loop_ok in_ pre rest :
  length rest = length (esc in_) -> escape_loop in_ (pre ++ rest) (len pre) = Ok (pre ++ esc in_).
Proof.
  revert pre rest. induction in_ as [|c in_ IH]; intros pre rest Hl.
  { apply length_zero_iff_nil in Hl as ->. done. }
  rewrite esc_cons in *. cbn [escape_loop]. unfold esc1 in *. destruct (byte.unsigned c <=? 1).
  - destruct rest as [|x [|y rest]]; cbn [app length] in Hl; try lia.
    rewrite set_index_app by done. step_res.
    rewrite (cons_middle Byte.x01), app_assoc, set_index_app by (rewrite len_app; done). step_res.
    rewrite (cons_middle (byte.of_Z _)), app_assoc.
    replace (len pre + 2) with (len ((pre ++ [Byte.x01]) ++ [byte.of_Z (byte.unsigned c + 1)]))
      by (autorewrite with lens; lia).
    rewrite IH by lia. by rewrite <- !app_assoc.
  - destruct rest as [|x rest]; cbn [app length] in Hl; try lia.
    rewrite set_index_app by done. step_res. rewrite cons_middle, app_assoc.
    replace (len pre + 1) with (len (pre ++ [c])) by (rewrite len_app; done).
    rewrite IH by lia. by rewrite <- !app_assoc.
Qed.

Lemma count_byte_cons b c s :
  count_byte b (c :: s) = count_byte b s + if decide (c = b) then 1 else 0.
Proof.
  unfold count_byte. rewrite filter_cons. unfold len. repeat case_decide; cbn [length]; try lia; congruence.
Qed.

Lemma count_byte_nonneg b s : 0 <= count_byte b s.
Proof. apply len_nonneg. Qed.

Lemma low_byte c : byte.unsigned c <= 1 <-> c = Byte.x00 \/ c = Byte.x01.
Proof.
  split; [|by intros [->| ->]]. intros Hc. pose proof (unsigned_range c).
  destruct (decide (byte.unsigned c = 0)); [left|right]; apply byte.unsigned_inj; cbn; lia.
Qed.

Lemma esc_length s : len (esc s) = len s + (count_byte Byte.x00 s + count_byte Byte.x01 s).
Proof.
  induction s as [|c s IH]; [done|]. rewrite esc_cons, len_app, IH, len_cons, !count_byte_cons.
  unfold esc1. destruct (Z.leb_spec (byte.unsigned c) 1) as [Hc|Hc].
  - apply low_byte in Hc as [->| ->]; autorewrite with lens; repeat case_decide; try done; lia.
  - rewrite !decide_False by (intros ->; cbn in Hc; lia). autorewrite with lens. lia.
Qed.

Lemma esc_plain s : count_byte Byte.x00 s + count_byte Byte.x01 s = 0 -> esc s = s.
Proof.
  induction s as [|c s IH]; [done|]. rewrite !count_byte_cons, esc_cons.
  pose proof (count_byte_nonneg Byte.x00 s). pose proof (count_byte_nonneg Byte.x01 s).
  repeat case_decide; intros; try lia. rewrite IH by lia. unfold esc1.
  destruct (Z.leb_spec (byte.unsigned c) 1) as [Hc|Hc]; [|done].
  by apply low_byte in Hc as [->| ->].
Qed.

Lemma escapeString_ok s : escapeString s = Ok (esc s).
Proof.
  unfold escapeString. destruct (Z.eqb_spec (count_byte Byte.x00 s + count_byte Byte.x01 s) 0).
  - by rewrite esc_plain.
  - pose proof (esc_length s) as Hl. apply (escape_loop_ok s []). unfold make.
    rewrite length_replicate. unfold len in *. lia.
Qed.

Lemma esc_nonzero s : Forall (fun c => c <> Byte.x00) (esc s).
Proof.
  induction s as [|c s IH]; [constructor|]. rewrite esc_cons. apply Forall_app. split; [|done].
  unfold esc1. destruct (Z.leb_spec (byte.unsigned c) 1) as [Hc|Hc].
  - apply low_byte in Hc as [->| ->]; by repeat constructor.
  - constructor; [|constructor]. intros ->. cbn in Hc. lia.
Qed.

Lemma index_byte_app s rest b :
  Forall (fun c => c <> b) s -> index_byte (s ++ b :: rest) b = len s.
Proof.
  induction 1 as [|c s Hc Hs IH]; cbn [app index_byte].
  - by rewrite decide_True.
  - rewrite decide_False, IH by done. pose proof (len_nonneg s).
    rewrite (proj2 (Z.ltb_ge _ _)), len_cons by lia. done.
Qed.

Lemma unescape_loop_ok s out : unescape_loop (esc s) out = Ok (out ++ s).
Proof.
  revert out. induction s as [|c s IH]; intros out; [by rewrite app_nil_r|].
  rewrite esc_cons. unfold esc1. destruct (Z.leb_spec (byte.unsigned c) 1) as [Hc|Hc].
  - apply low_byte in Hc as [->| ->]; cbn [app unescape_loop]; rewrite decide_True by done;
      cbn; rewrite IH, <- app_assoc; done.
  - cbn [app unescape_loop]. rewrite decide_False by (intros ->; cbn in Hc; lia).
    by rewrite IH, <- app_assoc.
Qed.

Lemma unescapeString_ok s : unescapeString (esc s) = Ok s.
Proof.
  unfold unescapeString. destruct (Z.eqb_spec (count_byte Byte.x01 (esc s)) 0) as [E|];
    [|apply unescape_loop_ok].
  rewrite esc_plain; [done|]. revert E. induction s as [|c s IH]; [done|].
  rewrite esc_cons. unfold esc1. destruct (Z.leb_spec (byte.unsigned c) 1) as [Hc|Hc]; cbn [app];
    rewrite !count_byte_cons; pose proof (count_byte_nonneg Byte.x01 (esc s)).
  - repeat case_decide; try done; lia.
  - rewrite !decide_False by (intros ->; cbn in Hc; lia). intros. rewrite !Z.add_0_r in *. by apply IH.
Qed.

(** ** Values *)

(** Values as [AddStr] and [AddInt64] build them. *)
Definition value_ok (v : Value) : Prop :=
  (v_Type v = TYPE_INT64 /\ - 2 ^ 63 <= v_I64 v < 2 ^ 63 /\ v_Str v = []) \/
  (v_Type v = TYPE_BYTES /\ v_I64 v = 0).

(** What one value becomes. *)
Definition enc1 (v : Value) : bytes :=
  byte.of_Z (v_Type v) ::
  if v_Type v =? TYPE_INT64 then be_split 8 (v_I64 v + 2 ^ 63) else esc (v_Str v) ++ [Byte.x00].

Definition enc (vs : list Value) : bytes := vs ≫= enc1.

Lemma encodeValues_ok out vs : Forall value_ok vs -> encodeValues out vs = Ok (out ++ enc vs).
Proof.
  intros Hvs. revert out. induction Hvs as [|v vs Hv Hvs IH]; intros out; [by rewrite app_nil_r|].
  cbn [encodeValues]. change (enc (v :: vs)) with (enc1 v ++ enc vs). unfold enc1.
  destruct Hv as [(-> & Hr & _)|[-> _]].
  - change (TYPE_INT64 =? TYPE_INT64) with true. cbv iota. step_res.
    rewrite flip_sign, IH by done. by rewrite <- !app_assoc.
  - change (TYPE_BYTES =? TYPE_INT64) with false. change (TYPE_BYTES =? TYPE_BYTES) with true.
    cbv iota. rewrite escapeString_ok. step_res. rewrite IH, <- !app_assoc. cbn [app].
    by rewrite <- !app_assoc.
Qed.

Lemma encodeKey_ok out prefix vs :
  Forall value_ok vs -> encodeKey out prefix vs = Ok (out ++ be_split 4 prefix ++ enc vs).
Proof. intros. unfold encodeKey. by rewrite encodeValues_ok, <- app_assoc. Qed.

(** The output values before decoding: the types only. *)
Definition blank (v : Value) : Value := mkValue (v_Type v) 0 [].

Lemma slice_take (s : bytes) i : 0 <= i <= len s -> slice s 0 i = Ok (take (Z.to_nat i) s).
Proof. intros. unfold slice. rewrite bool_decide_true by lia. by rewrite Z.sub_0_r. Qed.

Lemma slice_from_app (a b : bytes) i : i = len a -> slice_from (a ++ b) i = Ok b.
Proof.
  intros ->. pose proof (len_nonneg a). pose proof (len_nonneg b).
  rewrite slice_from_Ok by (rewrite len_app; lia). by rewrite len_to_nat, drop_app_length.
Qed.

Lemma slice_from_cons c (s : bytes) : slice_from (c :: s) 1 = Ok s.
Proof. by apply (slice_from_app [c]). Qed.

Lemma slice_app (a b : bytes) i : i = len a -> slice (a ++ b) 0 i = Ok a.
Proof.
  intros ->. pose proof (len_nonneg a). pose proof (len_nonneg b).
  rewrite slice_take by (rewrite len_app; lia). by rewrite len_to_nat, take_app_length.
Qed.

Lemma decodeValues_ok vs : Forall value_ok vs -> decodeValues (enc vs) (blank <$> vs) = Ok vs.
Proof.
  induction 1 as [|v vs Hv Hvs IH]; [done|]. change (enc (v :: vs)) with (enc1 v ++ enc vs).
  unfold enc1. cbn [fmap list_fmap decodeValues blank v_Type v_I64 v_Str app].
  destruct v as [ty n str]. unfold value_ok in Hv. cbn [v_Type v_I64 v_Str] in *.
  change (index (byte.of_Z ty :: ?l) 0) with (Ok (byte.of_Z ty)). step_res.
  rewrite slice_from_cons.
  destruct Hv as [(-> & Hr & ->)|[-> ->]]; cbn [v_Type v_I64 v_Str] in *;
    rewrite assert_true by done; step_res.
  - change (TYPE_INT64 =? TYPE_INT64) with true. cbv iota.
    assert (8 = len (be_split 8 (n + 2 ^ 63))) as H8 by (unfold len; by rewrite length_be_split).
    rewrite slice_app by done. step_res.
    rewrite <- (app_nil_r (be_split 8 _)) at 1. rewrite be_get_split by lia. step_res.
    rewrite slice_from_app by done. step_res. rewrite IH. step_res. by rewrite unflip_sign.
  - change (TYPE_BYTES =? TYPE_INT64) with false. change (TYPE_BYTES =? TYPE_BYTES) with true.
    cbv iota. rewrite <- app_assoc. cbn [app].
    rewrite index_byte_app by apply esc_nonzero. pose proof (len_nonneg (esc str)). step_res.
    rewrite slice_app by done. step_res. rewrite unescapeString_ok. step_res.
    rewrite (cons_middle Byte.x00), app_assoc, slice_from_app by (by rewrite len_app).
    step_res. by rewrite IH.
Qed.

(** ** Order *)

Definition val_compare (v w : Value) : Z :=
  if v_Type v =? TYPE_INT64 then sgn_of (v_I64 v ?= v_I64 w) else bytes_compare (v_Str v) (v_Str w).

(** Column by column; a missing column is smaller. *)
Fixpoint vals_compare (vs ws : list Value) : Z :=
  match vs, ws with
  | [], [] => 0
  | [], _ :: _ => -1
  | _ :: _, [] => 1
  | v :: vs, w :: ws =>
      let c := val_compare v w in if c =? 0 then vals_compare vs ws else c
  end.

(** Same column types, as far as both go. *)
Fixpoint same_types (vs ws : list Value) : Prop :=
  match vs, ws with
  | v :: vs, w :: ws => v_Type v = v_Type w /\ same_types vs ws
  | _, _ => True
  end.

Lemma esc_first c s : exists d r, esc1 c ++ s = d :: r /\ 1 <= byte.unsigned d.
Proof.
  unfold esc1. destruct (Z.leb_spec (byte.unsigned c) 1) as [Hc|Hc].
  - by exists Byte.x01, (byte.of_Z (byte.unsigned c + 1) :: s).
  - exists c, s. split; [done|lia].
Qed.

(** Escape sequences keep the order of the bytes they stand for. *)
Lemma esc1_compare c d x y :
  bytes_compare (esc1 c ++ x) (esc1 d ++ y) =
    match byte.unsigned c ?= byte.unsigned d with Eq => bytes_compare x y | o => sgn_of o end.
Proof.
  destruct (Z.compare_spec (byte.unsigned c) (byte.unsigned d)) as [E%byte.unsigned_inj|E|E].
  { subst. apply bytes_compare_app. }
  all: unfold esc1; destruct (Z.leb_spec (byte.unsigned c) 1) as [Hc|Hc];
    destruct (Z.leb_spec (byte.unsigned d) 1) as [Hd|Hd]; cbn [app bytes_compare].
  all: try (apply low_byte in Hc as [->| ->]); try (apply low_byte in Hd as [->| ->]);
    try (cbn in E; lia); try reflexivity.
  all: change (byte.unsigned Byte.x01) with 1;
    first [rewrite (proj2 (Z.compare_lt_iff _ _)) by lia; reflexivity
          |rewrite (proj2 (Z.compare_gt_iff _ _)) by lia; reflexivity].
Qed.

Lemma esc_compare s t x y :
  bytes_compare (esc s ++ Byte.x00 :: x) (esc t ++ Byte.x00 :: y) =
    if bytes_compare s t =? 0 then bytes_compare x y else bytes_compare s t.
Proof.
  revert t. induction s as [|c s IH]; intros [|d t]; [done|..].
  - rewrite esc_cons, <- app_assoc. destruct (esc_first d (esc t ++ Byte.x00 :: y)) as (e & r & -> & He).
    cbn [esc mbind list_bind app bytes_compare]. change (byte.unsigned Byte.x00) with 0.
    by rewrite (proj2 (Z.compare_lt_iff _ _)) by lia.
  - rewrite esc_cons, <- app_assoc. destruct (esc_first c (esc s ++ Byte.x00 :: x)) as (e & r & -> & He).
    cbn [esc mbind list_bind app bytes_compare]. change (byte.unsigned Byte.x00) with 0.
    by rewrite (proj2 (Z.compare_gt_iff _ _)) by lia.
  - rewrite !esc_cons, <- !app_assoc, esc1_compare, IH. cbn [bytes_compare].
    by destruct (byte.unsigned c ?= byte.unsigned d).
Qed.

Lemma enc1_compare v w x y :
  value_ok v -> value_ok w -> v_Type v = v_Type w ->
  bytes_compare (enc1 v ++ x) (enc1 w ++ y) =
    if val_compare v w =? 0 then bytes_compare x y else val_compare v w.
Proof.
  intros Hv Hw Ht. unfold enc1, val_compare. rewrite Ht. cbn [app bytes_compare].
  rewrite Z.compare_refl. destruct (Z.eqb_spec (v_Type w) TYPE_INT64) as [Ei|Ei].
  - destruct Hv as [(_ & Hv & _)|[? _]]; [|unfold TYPE_BYTES, TYPE_INT64 in *; lia].
    destruct Hw as [(_ & Hw & _)|[? _]]; [|unfold TYPE_BYTES, TYPE_INT64 in *; lia].
    rewrite be_split_compare by lia. rewrite !(Z.add_comm _ (2 ^ 63)), Z.add_compare_mono_l.
    by destruct (v_I64 v ?= v_I64 w).
  - rewrite <- !app_assoc. apply esc_compare.
Qed.

(** The first byte after the encoded columns is a type tag or nothing. *)
Lemma enc_compare vs ws x y :
  Forall value_ok vs -> Forall value_ok ws -> same_types vs ws -> length vs = length ws ->
  bytes_compare (enc vs ++ x) (enc ws ++ y) =
    if vals_compare vs ws =? 0 then bytes_compare x y else vals_compare vs ws.
Proof.
  intros Hv. revert ws. induction Hv as [|v vs Hv Hvs IH]; intros [|w ws] Hws; cbn [length]; try done.
  apply Forall_cons in Hws as [Hw Hws]. intros [Ht Hts] [= Hl].
  change (enc (?a :: ?l)) with (enc1 a ++ enc l). rewrite <- !app_assoc, enc1_compare by done.
  cbn [vals_compare]. destruct (val_compare v w =? 0) eqn:E; [by apply IH|by rewrite E].
Qed.

Lemma be_prefix_compare p q x y :
  0 <= p < 2 ^ 32 -> 0 <= q < 2 ^ 32 ->
  bytes_compare (be_split 4 p ++ x) (be_split 4 q ++ y) =
    match p ?= q with Eq => bytes_compare x y | o => sgn_of o end.
Proof. intros. by apply be_split_compare. Qed.
