(* ===== verification/EncodeProps.v ===== *)
(** * What the encoding promises

    Keys can be decoded, sort like the rows they stand for, and the bounds
    that [encodeKeyPartial] builds for a range query select exactly the rows
    of that table or index whose leading columns are in the range. *)

From S2P Require Import Prelude.
From S2P Require Import GoBytes.
From S2P Require Import BIter.
From S2P Require Import Encode.
From S2P Require Import EncodeFacts.

(** [cmp] applied to a comparison result. *)
Definition cmp_holds (cmp r : Z) : bool :=
  if cmp =? CMP_GE then 0 <=? r else if cmp =? CMP_GT then 0 <? r
  else if cmp =? CMP_LT then r <? 0 else r <=? 0.

Definition is_cmp (cmp : Z) : Prop := cmp ∈ [CMP_GE; CMP_GT; CMP_LT; CMP_LE].

Lemma cmpOK_holds curr cmp key :
  is_cmp cmp -> cmpOK curr cmp key = Ok (cmp_holds cmp (bytes_compare curr key)).
Proof.
  unfold is_cmp. rewrite !elem_of_cons. intros [->|[->|[->|[->|[]%not_elem_of_nil]]]]; done.
Qed.

(** What [encodeKeyPartial] appends. *)
Definition infinity (cmp : Z) : bytes :=
  if (cmp =? CMP_GT) || (cmp =? CMP_LE) then [Byte.xff] else [].

Lemma encodeKeyPartial_ok prefix ks cmp :
  Forall value_ok ks ->
  encodeKeyPartial [] prefix ks cmp = Ok (be_split 4 prefix ++ enc ks ++ infinity cmp).
Proof.
  intros Hks. unfold encodeKeyPartial, infinity. rewrite encodeKey_ok by done. step_res.
  cbn [app]. destruct (_ || _); [|by rewrite app_nil_r]. by rewrite <- app_assoc.
Qed.

(** The tag of a following column lies below the infinity. *)
Lemma enc_infinity vs cmp : Forall value_ok vs -> is_cmp cmp ->
  cmp_holds cmp (bytes_compare (enc vs) (infinity cmp)) = cmp_holds cmp 0.
Proof.
  intros Hvs Hc.
  assert (enc vs = [] \/ exists t r, enc vs = t :: r /\ (t = Byte.x01 \/ t = Byte.x02)) as [->|(t & r & -> & Ht)].
  { destruct Hvs as [|v vs Hv Hvs]; [by left|right]. eexists _, _. split; [reflexivity|].
    destruct Hv as [(-> & _)|[-> _]]; [right|left]; reflexivity. }
  all: revert Hc; unfold is_cmp; rewrite !elem_of_cons;
    intros [->|[->|[->|[->|[]%not_elem_of_nil]]]]; try reflexivity.
  all: by destruct Ht as [->| ->].
Qed.

(** [injection] would evaluate the keys. *)
Lemma enc_app vs ws : enc (vs ++ ws) = enc vs ++ enc ws.
Proof. apply bind_app. Qed.

Lemma same_types_app vs rest ks :
  length vs = length ks -> same_types (vs ++ rest) ks -> same_types vs ks.
Proof.
  revert ks. induction vs as [|v vs IH]; intros [|k ks]; cbn [length]; try done.
  intros [= Hl] [Ht Hs]. split; [done|]. by apply IH.
Qed.

(** The columns [vs] of a row against the bound for [ks]. *)
Lemma partial_compare prefix vs ks cmp (n := length ks) :
  0 <= prefix < 2 ^ 32 -> Forall value_ok vs -> Forall value_ok ks -> same_types vs ks ->
  (n <= length vs)%nat -> is_cmp cmp ->
  cmp_holds cmp (bytes_compare (be_split 4 prefix ++ enc vs) (be_split 4 prefix ++ enc ks ++ infinity cmp)) =
  cmp_holds cmp (vals_compare (take n vs) ks).
Proof.
  intros Hp Hvs Hks Ht Hn Hc. rewrite be_prefix_compare, Z.compare_refl by done.
  rewrite <- (take_drop n vs) in Ht, Hvs |- * at 1.
  assert (length (take n vs) = length ks) as Hl by (rewrite length_take; lia).
  apply Forall_app in Hvs as [Hv1 Hv2]. apply same_types_app in Ht; [|done].
  rewrite enc_app, enc_compare by done.
  destruct (Z.eqb_spec (vals_compare (take n vs) ks) 0) as [->|]; [|done].
  by apply enc_infinity.
Qed.

(** ** The properties *)

(** C17.  Decoding a key with the right column types gives back the values:
    escaping, null termination and the sign flip lose nothing. *)
Theorem decodeKey_encodeKey prefix vs :
  Forall value_ok vs ->
  (k ← encodeKey [] prefix vs; decodeKey k (blank <$> vs)) = Ok vs.
Proof.
  intros Hvs. rewrite encodeKey_ok by done. step_res. unfold decodeKey. cbn [app].
  rewrite slice_from_app by (unfold len; by rewrite length_be_split). step_res.
  by apply decodeValues_ok.
Qed.

(** C18.  The bytes of two keys of one index sort like the rows: first by the
    first column, numbers as signed integers and strings bytewise, then by
    the next. *)
Theorem encodeKey_order prefix vs ws kv kw :
  0 <= prefix < 2 ^ 32 -> Forall value_ok vs -> Forall value_ok ws ->
  same_types vs ws -> length vs = length ws ->
  encodeKey [] prefix vs = Ok kv -> encodeKey [] prefix ws = Ok kw ->
  bytes_compare kv kw = vals_compare vs ws.
Proof.
  intros Hp Hvs Hws Ht Hl. rewrite !encodeKey_ok by done. intros <-%Ok_inj <-%Ok_inj. cbn [app].
  rewrite be_prefix_compare, Z.compare_refl by done.
  rewrite <- (app_nil_r (enc vs)), <- (app_nil_r (enc ws)), enc_compare by done.
  destruct (Z.eqb_spec (vals_compare vs ws) 0) as [->|]; done.
Qed.

(** C19.  A bound on leading columns, [a > 1] or [a = 1 AND b <= 2], encoded
    with the missing columns as an infinity, holds of the key of a row
    exactly if the comparison holds of the row's leading columns. *)
Theorem encodeKeyPartial_bound prefix vs ks cmp k bound :
  0 <= prefix < 2 ^ 32 -> Forall value_ok vs -> Forall value_ok ks -> same_types vs ks ->
  (length ks <= length vs)%nat -> is_cmp cmp ->
  encodeKey [] prefix vs = Ok k -> encodeKeyPartial [] prefix ks cmp = Ok bound ->
  cmpOK k cmp bound = Ok (cmp_holds cmp (vals_compare (take (length ks) vs) ks)).
Proof.
  intros Hp Hvs Hks Ht Hl Hc. rewrite encodeKey_ok, encodeKeyPartial_ok by done.
  intros <-%Ok_inj <-%Ok_inj. cbn [app]. rewrite cmpOK_holds by done. f_equal. by apply partial_compare.
Qed.

(** Ranges of one index never contain a key of another: a key with
    another prefix fails the start or the end of every range. *)
Lemma other_prefix_out_of_range prefix prefix' vs ks1 cmp1 ks2 cmp2 k start stop :
  0 <= prefix < 2 ^ 32 -> 0 <= prefix' < 2 ^ 32 -> prefix <> prefix' ->
  Forall value_ok vs -> Forall value_ok ks1 -> Forall value_ok ks2 ->
  is_cmp cmp1 -> is_cmp cmp2 -> 0 < cmp1 -> cmp2 < 0 ->
  encodeKey [] prefix' vs = Ok k ->
  encodeKeyPartial [] prefix ks1 cmp1 = Ok start -> encodeKeyPartial [] prefix ks2 cmp2 = Ok stop ->
  ~ (cmpOK k cmp1 start = Ok true /\ cmpOK k cmp2 stop = Ok true).
Proof.
  intros Hp Hp' Hne Hvs Hk1 Hk2 Hc1 Hc2 Hs1 Hs2.
  rewrite encodeKey_ok, !encodeKeyPartial_ok by done. intros <-%Ok_inj <-%Ok_inj <-%Ok_inj.
  rewrite !cmpOK_holds by done. cbn [app]. rewrite !be_prefix_compare by done.
  revert Hc1 Hc2. unfold is_cmp. rewrite !elem_of_cons.
  destruct (Z.compare_spec prefix' prefix) as [| |]; [congruence|..];
    intros [->|[->|[->|[->|[]%not_elem_of_nil]]]] [->|[->|[->|[->|[]%not_elem_of_nil]]]];
    try done; intros [? ?]; done.
Qed.

(** ** Witnesses *)

Definition row_a : list Value :=
  [mkValue TYPE_BYTES 0 [Byte.x00; Byte.x01; Byte.x61]; mkValue TYPE_INT64 (-5) []].
Definition row_b : list Value :=
  [mkValue TYPE_BYTES 0 [Byte.x00; Byte.x01; Byte.x61]; mkValue TYPE_INT64 7 []].

Lemma row_a_ok : Forall value_ok row_a.
Proof. constructor; [by right|]. constructor; [left; cbn; split_and!; try done; lia|constructor]. Qed.
Lemma row_b_ok : Forall value_ok row_b.
Proof. constructor; [by right|]. constructor; [left; cbn; split_and!; try done; lia|constructor]. Qed.
Lemma is_cmp_all : is_cmp CMP_GE /\ is_cmp CMP_GT /\ is_cmp CMP_LT /\ is_cmp CMP_LE.
Proof. unfold is_cmp. rewrite !elem_of_cons. auto 10. Qed.

Lemma encodeKey_total prefix vs : Forall value_ok vs -> exists k, encodeKey [] prefix vs = Ok k.
Proof. intros. eexists. by apply encodeKey_ok. Qed.
Lemma encodeKeyPartial_total prefix vs cmp :
  Forall value_ok vs -> exists k, encodeKeyPartial [] prefix vs cmp = Ok k.
Proof. intros. eexists. by apply encodeKeyPartial_ok. Qed.

Lemma decodeKey_encodeKey_witness :
  (k ← encodeKey [] 100 row_a; decodeKey k (blank <$> row_a)) = Ok row_a.
Proof. exact (decodeKey_encodeKey 100 row_a row_a_ok). Defined.

Lemma encodeKey_order_witness :
  exists ka kb, encodeKey [] 100 row_a = Ok ka /\ encodeKey [] 100 row_b = Ok kb /\
    bytes_compare ka kb = -1.
Proof.
  destruct (encodeKey_total 100 _ row_a_ok) as [ka Ea], (encodeKey_total 100 _ row_b_ok) as [kb Eb].
  exists ka, kb. split; [done|]. split; [done|].
  rewrite (encodeKey_order 100 row_a row_b ka kb ltac:(lia) row_a_ok row_b_ok ltac:(by repeat split)
    eq_refl Ea Eb). reflexivity.
Defined.

(** [a > "\x00\x01a"] does not select the row, [a <= ...] does. *)
Lemma encodeKeyPartial_bound_witness :
  exists k b1 b2, encodeKey [] 100 row_a = Ok k /\
    encodeKeyPartial [] 100 (take 1 row_a) CMP_GT = Ok b1 /\
    encodeKeyPartial [] 100 (take 1 row_a) CMP_LE = Ok b2 /\
    cmpOK k CMP_GT b1 = Ok false /\ cmpOK k CMP_LE b2 = Ok true.
Proof.
  pose proof (Forall_take _ 1 _ row_a_ok) as H1. destruct is_cmp_all as (_ & Hgt & _ & Hle).
  destruct (encodeKey_total 100 _ row_a_ok) as [k Ek].
  destruct (encodeKeyPartial_total 100 _ CMP_GT H1) as [b1 E1].
  destruct (encodeKeyPartial_total 100 _ CMP_LE H1) as [b2 E2].
  exists k, b1, b2. split; [done|]. split; [done|]. split; [done|]. split.
  - rewrite (encodeKeyPartial_bound 100 row_a (take 1 row_a) CMP_GT k b1 ltac:(lia) row_a_ok H1
      ltac:(by repeat split) ltac:(cbn; lia) Hgt Ek E1). reflexivity.
  - rewrite (encodeKeyPartial_bound 100 row_a (take 1 row_a) CMP_LE k b2 ltac:(lia) row_a_ok H1
      ltac:(by repeat split) ltac:(cbn; lia) Hle Ek E2). reflexivity.
Defined.

Lemma other_prefix_out_of_range_witness :
  exists k start stop, encodeKey [] 101 row_b = Ok k /\
    encodeKeyPartial [] 100 (take 1 row_a) CMP_GE = Ok start /\
    encodeKeyPartial [] 100 (take 1 row_a) CMP_LE = Ok stop /\
    ~ (cmpOK k CMP_GE start = Ok true /\ cmpOK k CMP_LE stop = Ok true).
Proof.
  pose proof (Forall_take _ 1 _ row_a_ok) as H1. destruct is_cmp_all as (Hge & _ & _ & Hle).
  destruct (encodeKey_total 101 _ row_b_ok) as [k Ek].
  destruct (encodeKeyPartial_total 100 _ CMP_GE H1) as [b1 E1].
  destruct (encodeKeyPartial_total 100 _ CMP_LE H1) as [b2 E2].
  exists k, b1, b2. split; [done|]. split; [done|]. split; [done|].
  exact (other_prefix_out_of_range 100 101 row_b (take 1 row_a) CMP_GE (take 1 row_a) CMP_LE k b1 b2
    ltac:(lia) ltac:(lia) ltac:(lia) row_b_ok H1 H1 Hge Hle ltac:(done) ltac:(done) Ek E1 E2).
Defined.
