(* ===== verification/Conflict.v ===== *)
(** * Conflicts between transactions (src/db/transaction.go)

    A transaction records the key ranges it read; it cannot commit when a
    range was written by a transaction that committed after it began.  The
    versions in use and the history of commits are the state that
    [detectConflicts] and [txFinalize] work on. *)

From S2P Require Import Prelude.
From S2P Require Import GoBytes.

(** [start <= key <= stop] *)
Record KeyRange := mkKeyRange { kr_start : bytes; kr_stop : bytes }.

Record CommittedTX := mkCommittedTX { ct_version : Z; ct_writes : list KeyRange }.

Definition versionBefore (a b : Z) : bool := a <? b.

Definition keyRangeCmp (r1 r2 : KeyRange) : Z := bytes_compare (kr_start r1) (kr_start r2).

(** The two-pointer loop: every step drops the first range of one list, so
    the lengths bound it. *)
Fixpoint ranges_overlap_loop (fuel : nat) (r1 r2 : list KeyRange) : res bool :=
  match r1, r2 with
  | a :: r1', b :: r2' =>
      match fuel with
      | O => NoFuel
      | S fuel =>
          if bytes_compare (kr_stop a) (kr_start b) <? 0 then ranges_overlap_loop fuel r1' r2
          else if bytes_compare (kr_stop b) (kr_start a) <? 0 then ranges_overlap_loop fuel r1 r2'
          else Ok true
      end
  | _, _ => Ok false
  end.

Definition sortedRangesOverlap (r1 r2 : list KeyRange) : res bool :=
  ranges_overlap_loop (length r1 + length r2) r1 r2.

(** The concurrency state of [KV]: the current version, the versions that
    running transactions read, and the commits they may conflict with. *)
Record Versions := mkVersions {
  vs_version : Z; vs_ongoing : list Z; vs_history : list CommittedTX
}.

Section sort.
(** [slices.SortFunc(_, keyRangeCmp)], which may order equal starts at will. *)
Context (sort : list KeyRange -> list KeyRange).

(** The loop over the history, newest first. *)
Fixpoint conflict_loop (version : Z) (reads : list KeyRange) (newest_first : list CommittedTX)
    : res bool :=
  match newest_first with
  | [] => Ok false
  | c :: rest =>
      if negb (versionBefore version (ct_version c)) then Ok false else
      o ← sortedRangesOverlap reads (ct_writes c);
      if (o : bool) then Ok true else conflict_loop version reads rest
  end.

(** The answer, and [tx.reads], which is sorted in place. *)
Definition detectConflicts (kv : Versions) (tx_version : Z) (tx_reads : list KeyRange)
    : res (bool * list KeyRange) :=
  let reads := sort tx_reads in
  c ← conflict_loop tx_version reads (rev (vs_history kv));
  Ok (c, reads).

(** What [Commit] appends to the history for the written ranges. *)
Definition saveHistory (kv : Versions) (writes : list KeyRange) : Versions :=
  if 0 <? len writes then
    mkVersions (vs_version kv) (vs_ongoing kv)
      (vs_history kv ++ [mkCommittedTX (vs_version kv) (sort writes)])
  else kv.

End sort.

(** [slices.Index] *)
Fixpoint index_of (x : Z) (l : list Z) : Z :=
  match l with
  | [] => -1
  | y :: l => if y =? x then 0 else let i := index_of x l in if i <? 0 then -1 else i + 1
  end.

(** The oldest version in use. *)
Definition min_version (current : Z) (ongoing : list Z) : Z :=
  foldl (fun m other => if versionBefore other m then other else m) current ongoing.

(** Drops the commits up to the oldest version in use. *)
Fixpoint trim_history (minVersion : Z) (history : list CommittedTX) : list CommittedTX :=
  match history with
  | [] => []
  | c :: rest => if versionBefore minVersion (ct_version c) then history
                 else trim_history minVersion rest
  end.

(** [txFinalize], without [SetMaxVer], whose argument is the second result. *)
Definition txFinalize (kv : Versions) (tx_version : Z) : res (Versions * Z) :=
  let idx := index_of tx_version (vs_ongoing kv) in
  _ ← assert (negb (idx =? -1));
  let ongoing := take (Z.to_nat idx) (vs_ongoing kv) ++ drop (Z.to_nat idx + 1) (vs_ongoing kv) in
  let minVersion := min_version (vs_version kv) ongoing in
  Ok (mkVersions (vs_version kv) ongoing (trim_history minVersion (vs_history kv)), minVersion).

(** [Begin], as far as versions go. *)
Definition begin_version (kv : Versions) : Versions :=
  mkVersions (vs_version kv) (vs_ongoing kv ++ [vs_version kv]) (vs_history kv).
