(* ===== verification/ConflictFacts.v ===== *)
(** * Conflict detection is exact *)

From S2P Require Import Prelude.
From S2P Require Import GoBytes.
From S2P Require Import Conflict.

(** ** Overlapping ranges *)

(** Neither range ends before the other starts. *)
Definition overlap (a b : KeyRange) : Prop :=
  ~ blt (kr_stop a) (kr_start b) /\ ~ blt (kr_stop b) (kr_start a).

#[export] Instance overlap_dec : RelDecision overlap.
Proof. intros a b. unfold overlap. apply _. Defined.

Definition any_overlap (r1 r2 : list KeyRange) : Prop :=
  Exists (fun a => Exists (overlap a) r2) r1.

#[export] Instance any_overlap_dec : RelDecision any_overlap.
Proof. intros r1 r2. unfold any_overlap. apply _. Defined.

Definition starts_le (a b : KeyRange) : Prop := ble (kr_start a) (kr_start b).

Lemma any_overlap_cons_l a r1 r2 :
  any_overlap (a :: r1) r2 <-> Exists (overlap a) r2 \/ any_overlap r1 r2.
Proof. apply Exists_cons. Qed.

Lemma any_overlap_cons_r r1 b r2 :
  any_overlap r1 (b :: r2) <-> Exists (fun a => overlap a b) r1 \/ any_overlap r1 r2.
Proof.
  unfold any_overlap. rewrite !Exists_exists. setoid_rewrite Exists_cons. naive_solver.
Qed.

Lemma any_overlap_perm r1 r1' r2 : r1 ≡ₚ r1' -> any_overlap r1 r2 <-> any_overlap r1' r2.
Proof. intros Hp. unfold any_overlap. by rewrite Hp. Qed.

Lemma any_overlap_perm_r r1 r2 r2' : r2 ≡ₚ r2' -> any_overlap r1 r2 <-> any_overlap r1 r2'.
Proof. intros Hp. unfold any_overlap. rewrite !Exists_exists. by setoid_rewrite Hp. Qed.

(** A range that ends before the first of a sorted list starts misses it all. *)
Lemma before_all a b r2 :
  StronglySorted starts_le (b :: r2) -> blt (kr_stop a) (kr_start b) ->
  ~ Exists (overlap a) (b :: r2).
Proof.
  intros [_ Hall]%StronglySorted_inv Hlt [c [Hc [Ho _]]]%Exists_exists. apply Ho.
  apply elem_of_cons in Hc as [->|Hc]; [done|]. rewrite Forall_forall in Hall.
  eapply blt_ble_trans; [exact Hlt|]. by apply Hall.
Qed.

Lemma before_all_r a r1 b :
  StronglySorted starts_le (a :: r1) -> blt (kr_stop b) (kr_start a) ->
  ~ Exists (fun a => overlap a b) (a :: r1).
Proof.
  intros [_ Hall]%StronglySorted_inv Hlt [c [Hc [_ Ho]]]%Exists_exists. apply Ho.
  apply elem_of_cons in Hc as [->|Hc]; [done|]. rewrite Forall_forall in Hall.
  eapply blt_ble_trans; [exact Hlt|]. by apply Hall.
Qed.

Lemma ranges_overlap_loop_ok fuel r1 r2 :
  StronglySorted starts_le r1 -> StronglySorted starts_le r2 ->
  (length r1 + length r2 <= fuel)%nat ->
  ranges_overlap_loop fuel r1 r2 = Ok (bool_decide (any_overlap r1 r2)).
Proof.
  revert r1 r2. induction fuel as [|fuel IH]; intros [|a r1] [|b r2] S1 S2 Hf; cbn [length] in Hf;
    try lia; cbn [ranges_overlap_loop];
    try (rewrite bool_decide_false; [done|]; unfold any_overlap; rewrite Exists_exists;
         intros (? & Ha & (? & Hb & _)%Exists_exists); set_solver).
  destruct (Z.ltb_spec (bytes_compare (kr_stop a) (kr_start b)) 0) as [H1|H1].
  { rewrite IH; [|by apply StronglySorted_inv in S1 as [? _]|done|cbn; lia]. f_equal.
    apply bool_decide_ext. rewrite any_overlap_cons_l. pose proof (before_all a b r2 S2 H1). tauto. }
  destruct (Z.ltb_spec (bytes_compare (kr_stop b) (kr_start a)) 0) as [H2|H2].
  { rewrite IH; [|done|by apply StronglySorted_inv in S2 as [? _]|cbn; lia]. f_equal.
    apply bool_decide_ext. rewrite any_overlap_cons_r. pose proof (before_all_r a r1 b S1 H2). tauto. }
  rewrite bool_decide_true; [done|]. rewrite any_overlap_cons_l. left. left.
  unfold overlap, blt. lia.
Qed.

(** ** The history *)

Definition history_ok (h : list CommittedTX) : Prop :=
  StronglySorted (fun c d => ct_version c <= ct_version d) h /\
  Forall (fun c => StronglySorted starts_le (ct_writes c)) h.

(** A commit newer than [version] wrote into one of [reads]. *)
Definition conflicting (version : Z) (reads : list KeyRange) (c : CommittedTX) : Prop :=
  version < ct_version c /\ any_overlap reads (ct_writes c).

#[export] Instance conflicting_dec version reads c : Decision (conflicting version reads c).
Proof. unfold conflicting. apply _. Defined.

Lemma conflict_loop_ok version reads h :
  StronglySorted starts_le reads -> history_ok h ->
  conflict_loop version reads (rev h) = Ok (bool_decide (Exists (conflicting version reads) h)).
Proof.
  intros Hr. induction h as [|c h IH] using rev_ind; intros [Hs Hw].
  { rewrite bool_decide_false; [done|]. by intros ?%Exists_nil. }
  apply StronglySorted_app in Hs as (Hle & Hs1 & _).
  apply Forall_app in Hw as [Hw1 [Hwc _]%Forall_cons].
  rewrite rev_unit. cbn [conflict_loop].
  assert (Exists (conflicting version reads) (h ++ [c]) <->
    Exists (conflicting version reads) h \/ conflicting version reads c) as Hex.
  { rewrite Exists_app, Exists_cons, Exists_nil. tauto. }
  unfold versionBefore. destruct (Z.ltb_spec version (ct_version c)) as [Hv|Hv]; cbn [negb].
  - unfold sortedRangesOverlap. rewrite ranges_overlap_loop_ok by done. step_res.
    destruct (decide (any_overlap reads (ct_writes c))) as [Ho|Ho].
    + rewrite !bool_decide_true; [done| |done]. apply Hex. by right.
    + rewrite (bool_decide_false (any_overlap _ _)), IH by (done || by split). f_equal. apply bool_decide_ext. rewrite Hex.
      assert (~ conflicting version reads c) by (by intros [_ ?]). tauto.
  - rewrite bool_decide_false; [done|]. rewrite Hex. intros [(d & Hd & Hvd & _)%Exists_exists|[? _]];
      [|lia].
    pose proof (Hle d c Hd ltac:(set_solver)). lia.
Qed.

(** [slices.SortFunc] sorts. *)
Section detect.
Context (sort : list KeyRange -> list KeyRange).
Context (sort_perm : forall l, sort l ≡ₚ l) (sort_sorted : forall l, StronglySorted starts_le (sort l)).

Lemma detectConflicts_ok kv v reads :
  history_ok (vs_history kv) ->
  detectConflicts sort kv v reads =
    Ok (bool_decide (Exists (conflicting v reads) (vs_history kv)), sort reads).
Proof using sort_perm sort_sorted.
  intros Hh. unfold detectConflicts. rewrite conflict_loop_ok by auto. step_res. do 2 f_equal.
  apply bool_decide_ext. rewrite !Exists_exists. unfold conflicting.
  setoid_rewrite (any_overlap_perm (sort reads) reads); [done|]. apply sort_perm.
Qed.

End detect.

(** ** The versions in use *)

Lemma index_of_spec x l :
  (index_of x l = -1 /\ x ∉ l) \/
  (exists l1 l2, l = l1 ++ x :: l2 /\ index_of x l = len l1).
Proof.
  induction l as [|y l IH]; [left; split; [done|apply not_elem_of_nil]|]. cbn.
  destruct (Z.eqb_spec y x) as [->|Hne]; [right; by exists [], l|].
  destruct IH as [[-> Hn]|(l1 & l2 & -> & ->)].
  - left. split; [done|]. set_solver.
  - right. exists (y :: l1), l2. pose proof (len_nonneg l1).
    rewrite (proj2 (Z.ltb_ge _ _)), len_cons by lia. done.
Qed.

Lemma min_version_le m l : min_version m l <= m /\ forall x, x ∈ l -> min_version m l <= x.
Proof.
  revert m. induction l as [|y l IH]; intros m; cbn [min_version foldl].
  - split; [lia|]. by intros x ?%not_elem_of_nil.
  - destruct (IH (if versionBefore y m then y else m)) as [H1 H2]. unfold min_version, versionBefore in *.
    split; [destruct (Z.ltb_spec y m); lia|].
    intros x [->|Hx]%elem_of_cons; [destruct (Z.ltb_spec y m); lia|auto].
Qed.

Lemma min_version_in m l : min_version m l = m \/ min_version m l ∈ l.
Proof.
  revert m. induction l as [|y l IH]; intros m; cbn [min_version foldl]; [by left|].
  destruct (IH (if versionBefore y m then y else m)) as [H1|H1]; unfold min_version in *.
  - rewrite H1. destruct (versionBefore y m); [right; left|by left].
  - right. by right.
Qed.

Lemma trim_history_app m h :
  exists old, h = old ++ trim_history m h /\ Forall (fun c => ct_version c <= m) old.
Proof.
  induction h as [|c h IH]; [by exists []|]. cbn. unfold versionBefore.
  destruct (Z.ltb_spec m (ct_version c)) as [|Hle]; [by exists []|].
  destruct IH as (old & Hh & Hold). exists (c :: old). cbn. rewrite <- Hh. split; [done|]. by constructor.
Qed.

Lemma trim_history_subset m h c : c ∈ trim_history m h -> c ∈ h.
Proof. intros Hc. destruct (trim_history_app m h) as (old & -> & _). apply elem_of_app. by right. Qed.

Lemma trim_history_ok m h : history_ok h -> history_ok (trim_history m h).
Proof.
  intros [Hs Hw]. destruct (trim_history_app m h) as (old & Hh & _). rewrite Hh in Hs, Hw.
  apply StronglySorted_app in Hs as (_ & _ & Hs). apply Forall_app in Hw as [_ Hw]. by split.
Qed.
