(* ===== verification/ConflictProps.v ===== *)
(** * What conflict detection promises

    The history that the store keeps is not the log of all commits: it is
    trimmed, and a commit with no other transaction around is not recorded.
    The step relation below runs the code's operations next to a ghost log of
    all commits; the answer of [detectConflicts] is the one the full log
    gives. *)

From S2P Require Import Prelude.
From S2P Require Import GoBytes.
From S2P Require Import Conflict.
From S2P Require Import ConflictFacts.

Section steps.
Context (sort : list KeyRange -> list KeyRange).

(** The ranges that [Commit] collects: none when no one else is running. *)
Definition captured (kv : Versions) (writes : list KeyRange) : list KeyRange :=
  if 1 <? len (vs_ongoing kv) then writes else [].

(** [kv.version++] *)
Definition bump_version (kv : Versions) : Versions :=
  mkVersions (u64 (vs_version kv + 1)) (vs_ongoing kv) (vs_history kv).

(** The steps of transactions on the versions, with the log of all commits. *)
Inductive step : Versions * list CommittedTX -> Versions * list CommittedTX -> Prop :=
| step_begin kv log : step (kv, log) (begin_version kv, log)
| step_abort kv log v kv' m :
    v ∈ vs_ongoing kv -> txFinalize kv v = Ok (kv', m) -> step (kv, log) (kv', log)
| step_commit kv log v writes kv' m :
    v ∈ vs_ongoing kv -> writes <> [] -> vs_version kv + 1 < 2 ^ 64 ->
    txFinalize (saveHistory sort (bump_version kv) (captured kv writes)) v = Ok (kv', m) ->
    step (kv, log) (kv', log ++ [mkCommittedTX (u64 (vs_version kv + 1)) (sort writes)]).

Definition opened (version : Z) : Versions * list CommittedTX := (mkVersions version [] [], []).

Definition reachable (version : Z) : Versions * list CommittedTX -> Prop := rtc step (opened version).

Definition versions_inv (st : Versions * list CommittedTX) : Prop :=
  0 <= vs_version st.1 /\ history_ok (vs_history st.1) /\
  (forall c, c ∈ st.2 -> ct_version c <= vs_version st.1) /\
  (forall v, v ∈ vs_ongoing st.1 -> v <= vs_version st.1) /\
  (forall c, c ∈ vs_history st.1 -> c ∈ st.2) /\
  (forall v c, v ∈ vs_ongoing st.1 -> c ∈ st.2 -> v < ct_version c -> c ∈ vs_history st.1).

(** ** The invariant *)

Lemma txFinalize_inv kv v kv' m :
  txFinalize kv v = Ok (kv', m) ->
  exists l1 l2, vs_ongoing kv = l1 ++ v :: l2 /\ vs_ongoing kv' = l1 ++ l2 /\
    vs_version kv' = vs_version kv /\ m = min_version (vs_version kv) (l1 ++ l2) /\
    vs_history kv' = trim_history m (vs_history kv).
Proof using.
  unfold txFinalize. destruct (index_of_spec v (vs_ongoing kv)) as [[-> _]|(l1 & l2 & Hl & ->)]; [done|].
  pose proof (len_nonneg l1). rewrite assert_true.
  2:{ rewrite (proj2 (Z.eqb_neq _ _)) by lia. done. }
  rewrite Hl, len_to_nat, take_app_length, cons_middle, app_assoc, drop_app_length'
    by (rewrite length_app; cbn; lia).
  intros [= <- <-]. exists l1, l2. cbn. split_and!; auto. by rewrite <- app_assoc.
Qed.

Lemma finalize_preserves kv log v kv' m :
  versions_inv (kv, log) -> txFinalize kv v = Ok (kv', m) -> versions_inv (kv', log).
Proof using.
  intros (H0 & Hh & Hlog & Hon & Hsub & Hall) (l1 & l2 & Eo & Eo' & Ev & Em & Eh)%txFinalize_inv.
  cbn [fst snd] in *. pose proof (min_version_le (vs_version kv) (l1 ++ l2)) as [_ Hmin].
  rewrite <- Em in Hmin.
  assert (forall w, w ∈ l1 ++ l2 -> w ∈ vs_ongoing kv) as Hin by (rewrite Eo; set_solver).
  destruct (trim_history_app m (vs_history kv)) as (old & Eold & Hold). rewrite Forall_forall in Hold.
  unfold versions_inv. cbn [fst snd]. rewrite Ev, Eo', Eh. split_and!; auto.
  - by apply trim_history_ok.
  - intros c Hc. apply Hsub. rewrite Eold. set_solver.
  - intros w c Hw Hc Hlt. pose proof (Hall w c (Hin _ Hw) Hc Hlt) as Hc'. rewrite Eold in Hc'.
    apply elem_of_app in Hc' as [Hc'|]; [|done].
    specialize (Hold _ Hc'). specialize (Hmin _ Hw). lia.
Qed.

Lemma history_snoc h c :
  history_ok h -> (forall d, d ∈ h -> ct_version d <= ct_version c) ->
  StronglySorted starts_le (ct_writes c) -> history_ok (h ++ [c]).
Proof using.
  intros [Hs Hw] Hle Hc. split.
  - apply StronglySorted_app. split_and!; [|done|by repeat constructor].
    intros d e Hd ->%list_elem_of_singleton. auto.
  - apply Forall_app. split; [done|]. by constructor.
Qed.

(** The state between the recording of a commit and [txFinalize]: the one who
    commits is still in the list. *)
Lemma commit_recorded kv log v writes w c :
  versions_inv (kv, log) -> v ∈ vs_ongoing kv -> writes <> [] ->
  let new := mkCommittedTX (u64 (vs_version kv + 1)) (sort writes) in
  let kv1 := saveHistory sort (bump_version kv) (captured kv writes) in
  (exists l1 l2, vs_ongoing kv = l1 ++ v :: l2 /\ w ∈ l1 ++ l2) ->
  c ∈ log ++ [new] -> w < ct_version c -> c ∈ vs_history kv1.
Proof using.
  intros (_ & _ & _ & _ & _ & Hall) Hv Hne new kv1 (l1 & l2 & Eo & Hw) Hc Hlt. cbn [fst snd] in *.
  assert (len l1 + len l2 > 0) as Hl.
  { pose proof (len_nonneg l1). pose proof (len_nonneg l2).
    destruct (decide (len l1 + len l2 = 0)); [|lia].
    rewrite (len_0_inv l1), (len_0_inv l2) in Hw by lia. by apply not_elem_of_nil in Hw. }
  subst kv1. unfold captured, saveHistory. rewrite Eo, len_app, len_cons, (proj2 (Z.ltb_lt 1 _)) by lia.
  destruct writes as [|x writes]; [done|]. rewrite (proj2 (Z.ltb_lt 0 (len (x :: writes)))).
  2:{ rewrite len_cons. pose proof (len_nonneg writes). lia. }
  cbn. apply elem_of_app in Hc as [Hc|Hc]; apply elem_of_app; [left|by right].
  apply (Hall w c); [rewrite Eo; set_solver|done|done].
Qed.

(** [slices.SortFunc] sorts. *)
Context (sort_perm : forall l, sort l ≡ₚ l) (sort_sorted : forall l, StronglySorted starts_le (sort l)).

Lemma step_preserves st st' : step st st' -> versions_inv st -> versions_inv st'.
Proof using sort_perm sort_sorted.
  intros [kv log|kv log v kv' m Hv E|kv log v writes kv' m Hv Hne Hver E] Hinv.
  - destruct Hinv as (H0 & Hh & Hlog & Hon & Hsub & Hall). unfold versions_inv. cbn in *.
    split_and!; auto.
    + intros v [Hv| ->%list_elem_of_singleton]%elem_of_app; [auto|lia].
    + intros v c [Hv| ->%list_elem_of_singleton]%elem_of_app Hc Hlt; [eauto|].
      specialize (Hlog _ Hc). lia.
  - by eapply finalize_preserves.
  - pose proof (commit_recorded kv log v writes) as Hrec.
    destruct (txFinalize_inv _ _ _ _ E) as (l1 & l2 & Eo & Eo' & Ev & Em & Eh).
    assert (vs_ongoing (saveHistory sort (bump_version kv) (captured kv writes)) = vs_ongoing kv) as Eon
      by (unfold saveHistory; by destruct (0 <? _)).
    assert (vs_version (saveHistory sort (bump_version kv) (captured kv writes)) = vs_version kv + 1) as Ever.
    { unfold saveHistory, bump_version. pose proof (proj1 Hinv). cbn [fst] in *.
      destruct (0 <? _); cbn; apply u64_small; lia. }
    rewrite Eon in Eo. rewrite Ever in *.
    set (new := mkCommittedTX (u64 (vs_version kv + 1)) (sort writes)) in *.
    pose proof Hinv as (H0 & Hh & Hlog & Hon & Hsub & Hall). cbn [fst snd] in *.
    assert (ct_version new = vs_version kv + 1) as Enew by (cbn; apply u64_small; lia).
    set (h1 := vs_history (saveHistory sort (bump_version kv) (captured kv writes))) in *.
    assert (h1 = vs_history kv \/ h1 = vs_history kv ++ [new]) as Hh1.
    { subst h1. unfold saveHistory, captured. destruct (1 <? _); cbn; [|by left].
      destruct (0 <? _); cbn; [by right|by left]. }
    assert (history_ok h1) as Hh1ok.
    { destruct Hh1 as [->| ->]; [done|]. apply history_snoc; [done| |apply sort_sorted].
      intros d Hd. specialize (Hlog _ (Hsub _ Hd)). lia. }
    pose proof (min_version_le (vs_version kv + 1) (l1 ++ l2)) as [_ Hmin]. rewrite <- Em in Hmin.
    destruct (trim_history_app m h1) as (old & Eold & Hold). rewrite Forall_forall in Hold.
    unfold versions_inv. cbn [fst snd]. rewrite Ev, Eo', Eh. split_and!.
    + lia.
    + by apply trim_history_ok.
    + intros c [Hc| ->%list_elem_of_singleton]%elem_of_app; [|lia]. specialize (Hlog _ Hc). lia.
    + intros w Hw. assert (w ∈ vs_ongoing kv) as Hw' by (rewrite Eo; set_solver). specialize (Hon _ Hw'). lia.
    + intros c Hc. assert (c ∈ h1) as Hc1 by (rewrite Eold; set_solver).
      apply elem_of_app. destruct Hh1 as [E1|E1]; rewrite E1 in Hc1; [left; auto|].
      apply elem_of_app in Hc1 as [Hc1|Hc1]; [left; auto|by right].
    + intros w c Hw Hc Hlt. assert (c ∈ h1) as Hc1 by (eapply Hrec; eauto).
      rewrite Eold in Hc1. apply elem_of_app in Hc1 as [Hc1|]; [|done].
      specialize (Hold _ Hc1). specialize (Hmin _ Hw). lia.
Qed.

Lemma reachable_inv version st : 0 <= version -> reachable version st -> versions_inv st.
Proof using sort_perm sort_sorted.
  intros H0 Hr. assert (versions_inv (opened version)) as Hi.
  { unfold versions_inv, opened. cbn. split_and!; try done; try by intros ? ?%not_elem_of_nil.
    split; constructor. }
  revert Hi. induction Hr as [|x y z Hxy _ IH]; [done|]. intros Hi. by apply IH, (step_preserves x).
Qed.

(** C20.  In every state that transactions can reach by beginning, aborting
    and committing in any order, [detectConflicts] of a running transaction
    answers whether some transaction that committed after it began, among
    all that ever committed, wrote into a range it read.  Trimming the
    history, not recording a commit without company and scanning the sorted
    ranges with two pointers lose nothing. *)
Theorem detectConflicts_exact version kv log v reads :
  0 <= version -> reachable version (kv, log) -> v ∈ vs_ongoing kv ->
  detectConflicts sort kv v reads =
    Ok (bool_decide (Exists (conflicting v reads) log), sort reads).
Proof using sort_perm sort_sorted.
  intros H0 Hr Hv. destruct (reachable_inv _ _ H0 Hr) as (_ & Hh & _ & _ & Hsub & Hall).
  cbn [fst snd] in *. rewrite detectConflicts_ok by done. do 2 f_equal. apply bool_decide_ext.
  rewrite !Exists_exists. split; intros (c & Hc & Hcon); exists c; split; auto.
  eapply Hall; eauto. apply Hcon.
Qed.

(** C21.  [txFinalize] of a running transaction succeeds; the version it hands
    to the free list is the oldest one that the store or a running
    transaction still uses, so that it is a lower bound of all of them and
    no smaller than necessary. *)
Theorem txFinalize_oldest kv v :
  v ∈ vs_ongoing kv ->
  exists kv' m, txFinalize kv v = Ok (kv', m) /\
    vs_ongoing kv ≡ₚ v :: vs_ongoing kv' /\ vs_version kv' = vs_version kv /\
    m <= vs_version kv' /\ (forall w, w ∈ vs_ongoing kv' -> m <= w) /\
    (m = vs_version kv' \/ m ∈ vs_ongoing kv').
Proof using.
  intros Hv. destruct (txFinalize kv v) as [[kv' m]| |] eqn:E.
  - destruct (txFinalize_inv _ _ _ _ E) as (l1 & l2 & Eo & Eo' & Ev & -> & _).
    exists kv', (min_version (vs_version kv) (l1 ++ l2)). rewrite Ev, Eo', Eo.
    destruct (min_version_le (vs_version kv) (l1 ++ l2)) as [H1 H2].
    split_and!; auto; [by rewrite Permutation_middle|apply min_version_in].
  - exfalso. unfold txFinalize in E. destruct (index_of_spec v (vs_ongoing kv)) as [[_ Hn]|(l1 & l2 & _ & Hi)]; [done|].
    rewrite Hi in E. pose proof (len_nonneg l1). rewrite (proj2 (Z.eqb_neq (len l1) (-1))) in E by lia. done.
  - exfalso. unfold txFinalize in E. by destruct (negb _).
Qed.

End steps.

(** ** Witnesses *)

#[local] Instance starts_le_dec : RelDecision starts_le.
Proof. intros a b. unfold starts_le. apply _. Defined.
#[local] Instance starts_le_total : Total starts_le.
Proof. intros a b. apply ble_total. Qed.
#[local] Instance starts_le_trans : Transitive starts_le.
Proof. intros a b c. unfold starts_le. apply transitivity. Qed.

Definition sort_ranges : list KeyRange -> list KeyRange := merge_sort starts_le.

Lemma sort_ranges_perm l : sort_ranges l ≡ₚ l.
Proof. apply merge_sort_Permutation. Qed.
Lemma sort_ranges_sorted l : StronglySorted starts_le (sort_ranges l).
Proof. apply StronglySorted_merge_sort; apply _. Qed.

Definition at_key (b : byte) : KeyRange := mkKeyRange [b] [b].

(** Two transactions begin at version 5 and one commits a write. *)
Lemma two_and_a_commit :
  reachable sort_ranges 5
    (mkVersions 6 [5] [mkCommittedTX 6 [at_key Byte.x61]], [mkCommittedTX 6 [at_key Byte.x61]]).
Proof.
  apply (rtc_l _ _ (mkVersions 5 [5] [], [])); [exact (step_begin _ (mkVersions 5 [] []) [])|].
  apply (rtc_l _ _ (mkVersions 5 [5; 5] [], [])); [exact (step_begin _ (mkVersions 5 [5] []) [])|].
  apply rtc_once.
  refine (step_commit sort_ranges (mkVersions 5 [5; 5] []) [] 5 [at_key Byte.x61]
    (mkVersions 6 [5] [mkCommittedTX 6 [at_key Byte.x61]]) 5 _ _ _ _); [left|done|done|reflexivity].
Qed.

(** The other one read that key in a range, or another key. *)
Lemma detectConflicts_exact_witness (kv := mkVersions 6 [5] [mkCommittedTX 6 [at_key Byte.x61]]) :
  detectConflicts sort_ranges kv 5 [mkKeyRange [] [Byte.x62]] =
    Ok (true, sort_ranges [mkKeyRange [] [Byte.x62]]) /\
  detectConflicts sort_ranges kv 5 [at_key Byte.x62] =
    Ok (false, sort_ranges [at_key Byte.x62]).
Proof.
  split.
  - rewrite (detectConflicts_exact sort_ranges sort_ranges_perm sort_ranges_sorted 5 kv _ 5 _
      ltac:(lia) two_and_a_commit ltac:(left)).
    reflexivity.
  - rewrite (detectConflicts_exact sort_ranges sort_ranges_perm sort_ranges_sorted 5 kv _ 5 _
      ltac:(lia) two_and_a_commit ltac:(left)).
    reflexivity.
Defined.

Lemma txFinalize_oldest_witness :
  exists kv' m, txFinalize (mkVersions 7 [5; 6] []) 5 = Ok (kv', m) /\ m = 6.
Proof.
  destruct (txFinalize_oldest (mkVersions 7 [5; 6] []) 5 ltac:(left)) as (kv' & m & E & _).
  exists kv', m. split; [exact E|]. vm_compute in E. injection E as _ <-. reflexivity.
Defined.
