(* ===== verification/Pager.v ===== *)
(** * Pages of the database file (src/db/kv.go) and their free list
      (src/db/free_list.go)

    The two call each other: the tree's pages come from the free list, whose
    nodes are pages as well.  The state is one record; [new_page], [get] and
    [set] of the free list are the functions the code plugs in as callbacks.
    A page that [pageWrite] returns is the buffer in [page.updates]: an
    in-place update of it is written back there. *)

From S2P Require Import Prelude.
From S2P Require Import GoBytes.
From S2P Require Import BNode.
From S2P Require Import BTree.
From S2P Require Import Conflict.

(** The state of [FreeList]. *)
Record FreeList := mkFreeList {
  fl_headPage : Z; fl_headSeq : Z; fl_tailPage : Z; fl_tailSeq : Z;
  fl_maxSeq : Z; fl_maxVer : Z; fl_curVer : Z
}.

(** One mapping: [ch_len] bytes of the file from [ch_off]. *)
Record Chunk := mkChunk { ch_off : Z; ch_len : Z }.

(** The part of [KV] that holds pages: the file, seen through the mappings,
    [page] and [free]. *)
Record Pager := mkPager {
  pg_file : bytes; pg_chunks : list Chunk;
  pg_flushed : Z; pg_nappend : Z; pg_updates : gmap Z bytes;
  pg_free : FreeList
}.

Definition set_updates (db : Pager) (updates : gmap Z bytes) : Pager :=
  mkPager (pg_file db) (pg_chunks db) (pg_flushed db) (pg_nappend db) updates (pg_free db).
Definition set_free (db : Pager) (fl : FreeList) : Pager :=
  mkPager (pg_file db) (pg_chunks db) (pg_flushed db) (pg_nappend db) (pg_updates db) fl.

(** ** Reading and writing pages *)

(** [chunk[offset : offset+BTREE_PAGE_SIZE]]: bytes of the file; a mapping
    reaches past the end of the file, where an access is a fault. *)
Definition chunk_read (file : bytes) (c : Chunk) (offset : Z) : res bytes :=
  _ ← assert ((0 <=? offset) && (offset + BTREE_PAGE_SIZE <=? ch_len c));
  slice file (ch_off c + offset) (ch_off c + offset + BTREE_PAGE_SIZE).

Fixpoint mmapRead_loop (file : bytes) (ptr start : Z) (chunks : list Chunk) : res bytes :=
  match chunks with
  | [] => Panic
  | chunk :: chunks =>
      let end_ := start + ch_len chunk / BTREE_PAGE_SIZE in
      if ptr <? end_ then chunk_read file chunk (BTREE_PAGE_SIZE * (ptr - start))
      else mmapRead_loop file ptr end_ chunks
  end.

Definition mmapRead (file : bytes) (ptr : Z) (chunks : list Chunk) : res bytes :=
  mmapRead_loop file ptr 0 chunks.

Definition pageRead (db : Pager) (ptr : Z) : res bytes :=
  _ ← assert (ptr <? u64 (pg_flushed db + pg_nappend db));
  match pg_updates db !! ptr with
  | Some node => Ok node
  | None => mmapRead (pg_file db) ptr (pg_chunks db)
  end.

Definition pageAppend (db : Pager) (node : bytes) : res (Pager * Z) :=
  _ ← assert (len node =? BTREE_PAGE_SIZE);
  let ptr := u64 (pg_flushed db + pg_nappend db) in
  _ ← assert (bool_decide (pg_updates db !! ptr = None));
  Ok (mkPager (pg_file db) (pg_chunks db) (pg_flushed db) (u64 (pg_nappend db + 1))
        (<[ptr := node]> (pg_updates db)) (pg_free db), ptr).

Definition pageWrite (db : Pager) (ptr : Z) : res (Pager * bytes) :=
  _ ← assert (ptr <? u64 (pg_flushed db + pg_nappend db));
  match pg_updates db !! ptr with
  | Some node => Ok (db, node)
  | None =>
      let node := make BTREE_PAGE_SIZE in
      node ← (if negb ((pg_flushed db =? 2) && (ptr =? 1)) then
                page ← mmapRead (pg_file db) ptr (pg_chunks db);
                copy_at node 0 page
              else Ok node);
      Ok (set_updates db (<[ptr := node]> (pg_updates db)), node)
  end.

(** ** Free list nodes *)

Definition FREE_LIST_HEADER : Z := 8.
Definition FREE_LIST_CAP : Z := (BTREE_PAGE_SIZE - FREE_LIST_HEADER) / 16.

Definition getNext (node : bytes) : res Z := b ← slice node 0 8; le_get 8 b.

Definition setNext (node : bytes) (next : Z) : res bytes := le_put 8 node 0 next.

Definition getItem (node : bytes) (idx : Z) : res (Z * Z) :=
  let offset := FREE_LIST_HEADER + idx * 16 in
  b ← slice_from node offset;
  ptr ← le_get 8 b;
  b ← slice_from node (offset + 8);
  version ← le_get 8 b;
  Ok (ptr, version).

Definition setItem (node : bytes) (idx ptr version : Z) : res bytes :=
  _ ← assert (idx <? FREE_LIST_CAP);
  let offset := FREE_LIST_HEADER + idx * 16 in
  node ← le_put 8 node offset ptr;
  le_put 8 node (offset + 8) version.

(** [LNode(fl.set(ptr)).f(...)]: an update in place of the buffer. *)
Definition modify_page (db : Pager) (ptr : Z) (f : bytes -> res bytes) : res Pager :=
  '(db, node) ← pageWrite db ptr;
  node ← f node;
  Ok (set_updates db (<[ptr := node]> (pg_updates db))).

(** ** The free list *)

Definition seq2idx (seq : Z) : Z := seq mod FREE_LIST_CAP.

Definition fl_check (fl : FreeList) : res unit :=
  _ ← assert (negb (fl_headPage fl =? 0) && negb (fl_tailPage fl =? 0));
  assert (negb (fl_headSeq fl =? fl_tailSeq fl) || (fl_headPage fl =? fl_tailPage fl)).

Definition set_head (fl : FreeList) (page seq : Z) : FreeList :=
  mkFreeList page seq (fl_tailPage fl) (fl_tailSeq fl) (fl_maxSeq fl) (fl_maxVer fl) (fl_curVer fl).
Definition set_tail (fl : FreeList) (page seq : Z) : FreeList :=
  mkFreeList (fl_headPage fl) (fl_headSeq fl) page seq (fl_maxSeq fl) (fl_maxVer fl) (fl_curVer fl).

(** The popped page and the removed head node, 0 for none. *)
Definition flPop (db : Pager) : res (Pager * Z * Z) :=
  let fl := pg_free db in
  _ ← fl_check fl;
  if fl_headSeq fl =? fl_maxSeq fl then Ok (db, 0, 0) else
  node ← pageRead db (fl_headPage fl);
  '(ptr, version) ← getItem node (seq2idx (fl_headSeq fl));
  if versionBefore (fl_maxVer fl) version then Ok (db, 0, 0) else
  let headSeq := u64 (fl_headSeq fl + 1) in
  if seq2idx headSeq =? 0 then
    next ← getNext node;
    _ ← assert (negb (next =? 0));
    Ok (set_free db (set_head fl next headSeq), ptr, fl_headPage fl)
  else Ok (set_free db (set_head fl (fl_headPage fl) headSeq), ptr, 0).

(** The end of [PushTail] when the tail node is full: a new tail node. *)
Definition extendTail (db : Pager) : res Pager :=
  '(db, next, head) ← flPop db;
  '(db, next) ← (if next =? 0 then pageAppend db (make BTREE_PAGE_SIZE) else Ok (db, next));
  db ← modify_page db (fl_tailPage (pg_free db)) (fun node => setNext node next);
  let db := set_free db (set_tail (pg_free db) next (fl_tailSeq (pg_free db))) in
  if negb (head =? 0) then
    db ← modify_page db (fl_tailPage (pg_free db))
           (fun node => setItem node 0 head (fl_curVer (pg_free db)));
    Ok (set_free db (set_tail (pg_free db) (fl_tailPage (pg_free db))
          (u64 (fl_tailSeq (pg_free db) + 1))))
  else Ok db.

Definition PushTail (db : Pager) (ptr : Z) : res Pager :=
  let fl := pg_free db in
  _ ← fl_check fl;
  db ← modify_page db (fl_tailPage fl)
         (fun node => setItem node (seq2idx (fl_tailSeq fl)) ptr (fl_curVer fl));
  let db := set_free db (set_tail (pg_free db) (fl_tailPage fl) (u64 (fl_tailSeq fl + 1))) in
  if seq2idx (fl_tailSeq (pg_free db)) =? 0 then extendTail db else Ok db.

Definition PopHead (db : Pager) : res (Pager * Z) :=
  '(db, ptr, head) ← flPop db;
  db ← (if negb (head =? 0) then PushTail db head else Ok db);
  Ok (db, ptr).

Definition SetMaxVer (db : Pager) (maxVer : Z) : Pager :=
  let fl := pg_free db in
  set_free db (mkFreeList (fl_headPage fl) (fl_headSeq fl) (fl_tailPage fl) (fl_tailSeq fl)
                 (fl_tailSeq fl) maxVer (fl_curVer fl)).

Definition pageAlloc (db : Pager) (node : bytes) : res (Pager * Z) :=
  '(db, ptr) ← PopHead db;
  if negb (ptr =? 0) then
    _ ← assert (bool_decide (pg_updates db !! ptr = None));
    Ok (set_updates db (<[ptr := node]> (pg_updates db)), ptr)
  else pageAppend db node.

(** The callbacks of [db.tree] (see [Open]). *)
#[export] Instance pager_store : PageStore Pager :=
  {| page_get := pageRead; page_new := pageAlloc; page_del := PushTail |}.
