(* ===== verification/PagerFacts.v ===== *)
(** * Pages and free list nodes: the lemmas of one page *)

From S2P Require Import Prelude.
From S2P Require Import GoBytes.
From S2P Require Import BNode.
From S2P Require Import BTree.
From S2P Require Import BTreeRep.
From S2P Require Import Conflict.
From S2P Require Import Pager.

(** ** Free list nodes *)

Definition lnode_next (c : bytes) : Z := le_combine (read_at c 0 8).
Definition lnode_item (c : bytes) (i : nat) : Z * Z :=
  (le_combine (read_at c (8 + 16 * i) 8), le_combine (read_at c (16 + 16 * i) 8)).

Lemma cap_255 : FREE_LIST_CAP = 255.
Proof. reflexivity. Qed.

Lemma page_length (c : bytes) : len c = BTREE_PAGE_SIZE <-> length c = 4096%nat.
Proof. unfold len, BTREE_PAGE_SIZE. lia. Qed.

Lemma getNext_ok c : len c = BTREE_PAGE_SIZE -> getNext c = Ok (lnode_next c).
Proof.
  intros Hl. unfold getNext. change 8 with (0 + Z.of_nat 8). rewrite le_get_slice; [done|lia|].
  unfold BTREE_PAGE_SIZE in *. lia.
Qed.

Lemma getItem_ok c (i : nat) :
  len c = BTREE_PAGE_SIZE -> (i < 255)%nat -> getItem c (Z.of_nat i) = Ok (lnode_item c i).
Proof.
  intros Hl Hi. unfold getItem, FREE_LIST_HEADER, lnode_item, BTREE_PAGE_SIZE in *.
  replace (8 + Z.of_nat i * 16) with (Z.of_nat (8 + 16 * i)) by lia.
  replace (Z.of_nat (8 + 16 * i) + 8) with (Z.of_nat (16 + 16 * i)) by lia.
  pose proof (le_get_read c (Z.of_nat (8 + 16 * i)) 8 ltac:(lia) ltac:(lia)) as E1.
  pose proof (le_get_read c (Z.of_nat (16 + 16 * i)) 8 ltac:(lia) ltac:(lia)) as E2.
  rewrite !Nat2Z.id in *. apply res_bind_Ok in E1 as (b1 & -> & E1). step_res. rewrite E1. step_res.
  apply res_bind_Ok in E2 as (b2 & -> & E2). step_res. rewrite E2. done.
Qed.

Lemma le8 v : 0 <= v < 2 ^ 64 -> le_combine (le_split 8 v) = v.
Proof. intros. apply le_combine_le_split. exact H. Qed.

(** Writing one 8-byte field changes the reads that meet it only. *)
Lemma put8_ok c (pos : nat) v :
  length c = 4096%nat -> (pos + 8 <= 4096)%nat -> 0 <= v < 2 ^ 64 ->
  exists c', le_put 8 c (Z.of_nat pos) v = Ok c' /\ length c' = 4096%nat /\
    le_combine (read_at c' pos 8) = v /\
    forall q, (q + 8 <= pos \/ pos + 8 <= q)%nat -> read_at c' q 8 = read_at c q 8.
Proof.
  intros Hl Hp Hv. rewrite le_put_Ok by (unfold len; lia). rewrite Nat2Z.id.
  assert (length (le_split 8 v) = 8%nat) as H8 by apply length_le_split.
  eexists. split; [done|]. split; [by rewrite length_write_at by lia|]. split.
  - rewrite <- H8 at 2. rewrite read_at_write_at_eq by lia. by apply le8.
  - intros q Hq. apply read_at_write_at_ne; lia.
Qed.

Lemma setNext_ok c next :
  len c = BTREE_PAGE_SIZE -> 0 <= next < 2 ^ 64 ->
  exists c', setNext c next = Ok c' /\ len c' = BTREE_PAGE_SIZE /\ lnode_next c' = next /\
    forall i, lnode_item c' i = lnode_item c i.
Proof.
  rewrite page_length. intros Hl Hn.
  destruct (put8_ok c 0 next Hl ltac:(lia) Hn) as (c' & E & Hl' & Hr & Hne).
  exists c'. rewrite page_length. split_and!; auto. intros i. unfold lnode_item. by rewrite !Hne by lia.
Qed.

Lemma setItem_ok c (i : nat) ptr version :
  len c = BTREE_PAGE_SIZE -> (i < 255)%nat -> 0 <= ptr < 2 ^ 64 -> 0 <= version < 2 ^ 64 ->
  exists c', setItem c (Z.of_nat i) ptr version = Ok c' /\ len c' = BTREE_PAGE_SIZE /\
    lnode_next c' = lnode_next c /\ lnode_item c' i = (ptr, version) /\
    forall j, j <> i -> lnode_item c' j = lnode_item c j.
Proof.
  rewrite page_length. intros Hl Hi Hp Hv. unfold setItem, FREE_LIST_HEADER. rewrite cap_255. step_res.
  replace (8 + Z.of_nat i * 16) with (Z.of_nat (8 + 16 * i)) by lia.
  replace (Z.of_nat (8 + 16 * i) + 8) with (Z.of_nat (16 + 16 * i)) by lia.
  destruct (put8_ok c (8 + 16 * i) ptr Hl ltac:(lia) Hp) as (c1 & -> & Hl1 & Hr1 & Hne1). step_res.
  destruct (put8_ok c1 (16 + 16 * i) version Hl1 ltac:(lia) Hv) as (c2 & -> & Hl2 & Hr2 & Hne2).
  exists c2. rewrite page_length. split_and!; auto.
  - unfold lnode_next. by rewrite Hne2, Hne1 by lia.
  - unfold lnode_item. by rewrite Hne2, Hr1, Hr2 by lia.
  - intros j Hj. unfold lnode_item. by rewrite !Hne2, !Hne1 by lia.
Qed.

(** ** What is in a page *)

(** The content that [pageWrite] would start from: a pending update, the
    zeros of the free list's first node before the file has it, or the file. *)
Definition view (db : Pager) (ptr : Z) : option bytes :=
  match pg_updates db !! ptr with
  | Some c => Some c
  | None =>
      if (pg_flushed db =? 2) && (ptr =? 1) then Some (make BTREE_PAGE_SIZE) else
      match mmapRead (pg_file db) ptr (pg_chunks db) with Ok c => Some c | _ => None end
  end.

Definition bound (db : Pager) : Z := pg_flushed db + pg_nappend db.

Lemma view_insert db p c q :
  view (set_updates db (<[p := c]> (pg_updates db))) q = if decide (p = q) then Some c else view db q.
Proof.
  unfold view. cbn. rewrite lookup_insert. by case_decide.
Qed.

Lemma view_free db fl q : view (set_free db fl) q = view db q.
Proof. done. Qed.

Lemma pageRead_ok db p c :
  view db p = Some c -> p < bound db -> 0 <= bound db < 2 ^ 64 ->
  ~ (pg_flushed db = 2 /\ p = 1) -> pageRead db p = Ok c.
Proof.
  unfold view, pageRead, bound. intros Hv Hp Hb Hf. rewrite u64_small by lia. step_res.
  destruct (pg_updates db !! p) as [c'|]; [by injection Hv as ->|].
  destruct (Z.eqb_spec (pg_flushed db) 2), (Z.eqb_spec p 1); cbn [andb] in Hv; try (exfalso; tauto);
    destruct (mmapRead _ _ _); congruence.
Qed.

Lemma chunk_read_len file c off page : chunk_read file c off = Ok page -> len page = BTREE_PAGE_SIZE.
Proof.
  unfold chunk_read, slice, BTREE_PAGE_SIZE. intros H. inv_res. case_bool_decide as Hb; [|done].
  injection H as <-. unfold len in *. rewrite length_take, length_drop. lia.
Qed.

Lemma mmapRead_len file ptr chunks page : mmapRead file ptr chunks = Ok page -> len page = BTREE_PAGE_SIZE.
Proof.
  unfold mmapRead. generalize 0. induction chunks as [|c chunks IH]; intros start; [done|].
  cbn [mmapRead_loop]. destruct (ptr <? _); [apply chunk_read_len|apply IH].
Qed.

Lemma pageWrite_ok db p c :
  view db p = Some c -> len c = BTREE_PAGE_SIZE -> p < bound db -> 0 <= bound db < 2 ^ 64 ->
  pageWrite db p = Ok (set_updates db (<[p := c]> (pg_updates db)), c).
Proof.
  unfold view, pageWrite, bound. intros Hv Hl Hp Hb. rewrite u64_small by lia. step_res.
  destruct (pg_updates db !! p) as [c'|] eqn:E.
  { injection Hv as ->. rewrite insert_id by done. by destruct db. }
  destruct ((pg_flushed db =? 2) && (p =? 1)); cbn [negb]; [by injection Hv as <-|].
  destruct (mmapRead _ _ _) as [c'| |]; [|done..]. injection Hv as ->. step_res.
  assert (length (make BTREE_PAGE_SIZE) = 4096%nat) as Hm by apply length_replicate.
  apply page_length in Hl. rewrite copy_at_Ok by (unfold len; lia). step_res.
  unfold write_at. rewrite take_0, drop_ge, app_nil_r by (cbn [Z.to_nat]; lia). done.
Qed.

Lemma modify_page_ok db p c f c' :
  view db p = Some c -> len c = BTREE_PAGE_SIZE -> p < bound db -> 0 <= bound db < 2 ^ 64 ->
  f c = Ok c' ->
  modify_page db p f = Ok (set_updates db (<[p := c']> (pg_updates db))).
Proof.
  intros Hv Hl Hp Hb Hf. unfold modify_page. rewrite (pageWrite_ok _ _ c) by done. step_res.
  rewrite Hf. step_res. unfold set_updates. cbn. by rewrite insert_insert_eq.
Qed.

Lemma pageAppend_ok db c :
  len c = BTREE_PAGE_SIZE -> 0 <= pg_nappend db -> 0 <= pg_flushed db -> bound db + 1 < 2 ^ 64 ->
  pg_updates db !! bound db = None ->
  pageAppend db c =
    Ok (mkPager (pg_file db) (pg_chunks db) (pg_flushed db) (pg_nappend db + 1)
          (<[bound db := c]> (pg_updates db)) (pg_free db), bound db).
Proof.
  unfold pageAppend, bound. intros Hl Hn Hf Hb Hu. rewrite Hl, Z.eqb_refl.
  rewrite !u64_small by lia. cbn [assert]. step_res. by rewrite bool_decide_true.
Qed.
