(* ===== verification/FreeListFacts.v ===== *)
(** * The free list is a queue

    The nodes of the list, from [headPage] to [tailPage], hold the freed
    pages with their versions in 255 slots each; the sequence numbers
    [headSeq] and [tailSeq] delimit the slots in use. *)

From S2P Require Import Prelude.
From S2P Require Import GoBytes.
From S2P Require Import BNode.
From S2P Require Import BTree.
From S2P Require Import Conflict.
From S2P Require Import Pager.
From S2P Require Import PagerFacts.

Abbreviation item := (Z * Z)%type.

(** The pages that the list owns: its nodes and the free pages. *)
Abbreviation owned chain items := (chain ++ (fst <$> items : list Z)).

(** [chain]: the nodes; [items]: the free pages with their versions, oldest
    first; [o]: the slot of the first item in the first node. *)
Record fl_inv (db : Pager) (o : nat) (chain : list Z) (items : list item) : Prop := {
  fi_o : (o < 255)%nat /\ fl_headSeq (pg_free db) mod 255 = Z.of_nat o;
  fi_head : head chain = Some (fl_headPage (pg_free db));
  fi_tail : last chain = Some (fl_tailPage (pg_free db));
  fi_seq : fl_tailSeq (pg_free db) = fl_headSeq (pg_free db) + len items;
  fi_max : 0 <= fl_headSeq (pg_free db) <= fl_maxSeq (pg_free db) /\
           fl_maxSeq (pg_free db) <= fl_tailSeq (pg_free db);
  fi_room : Z.of_nat o + (fl_maxSeq (pg_free db) - fl_headSeq (pg_free db)) < 255 * len chain;
  fi_fit : (o + length items <= 255 * length chain)%nat;
  fi_items : forall k e j i, items !! k = Some e -> (o + k = 255 * j + i)%nat -> (i < 255)%nat ->
    exists n c, chain !! j = Some n /\ view db n = Some c /\ lnode_item c i = e;
  fi_links : forall j n n', chain !! j = Some n -> chain !! S j = Some n' ->
    exists c, view db n = Some c /\ lnode_next c = n';
  fi_pages : forall n, n ∈ chain -> exists c, view db n = Some c /\ len c = BTREE_PAGE_SIZE;
  fi_nodup : NoDup (owned chain items);
  fi_bound : forall p, p ∈ owned chain items -> 0 < p < bound db;
  fi_vers : 0 <= fl_curVer (pg_free db) < 2 ^ 64;
  fi_old : forall k p v, items !! k = Some (p, v) ->
    fl_headSeq (pg_free db) + Z.of_nat k < fl_maxSeq (pg_free db) ->
    pg_updates db !! p = None /\ exists c, view db p = Some c /\ len c = BTREE_PAGE_SIZE;
  fi_new : pg_flushed db = 2 -> fl_maxSeq (pg_free db) = fl_headSeq (pg_free db) /\ 1 ∈ chain;
  fi_upd : forall p c, pg_updates db !! p = Some c -> 0 < p < bound db /\ len c = BTREE_PAGE_SIZE;
  fi_num : 2 <= pg_flushed db /\ 0 <= pg_nappend db;
  fi_app : forall p, pg_flushed db <= p < bound db -> is_Some (pg_updates db !! p)
}.

(** The tail node has a free slot, and the one after the last item is in it. *)
Definition settled (o : nat) (chain : list Z) (items : list item) : Prop :=
  (o + length items < 255 * length chain)%nat /\ (255 * length chain <= o + length items + 255)%nat.

(** Room for page and sequence numbers: [p] more pages, [q] more items. *)
Definition fl_room (db : Pager) (p q : Z) : Prop :=
  bound db + p < 2 ^ 63 /\ fl_tailSeq (pg_free db) + q < 2 ^ 63.

(** Only the pending updates and the list's own state differ. *)
Definition same_file (db db' : Pager) : Prop :=
  pg_file db' = pg_file db /\ pg_chunks db' = pg_chunks db /\ pg_flushed db' = pg_flushed db /\
  fl_maxSeq (pg_free db') = fl_maxSeq (pg_free db) /\
  fl_maxVer (pg_free db') = fl_maxVer (pg_free db) /\
  fl_curVer (pg_free db') = fl_curVer (pg_free db).

Lemma same_file_refl db : same_file db db.
Proof. by repeat split. Qed.

Lemma same_file_trans a b c : same_file a b -> same_file b c -> same_file a c.
Proof.
  intros (? & ? & ? & ? & ? & ?) (? & ? & ? & ? & ? & ?). unfold same_file. split_and!; congruence.
Qed.

Section inv.
Context (db : Pager) (o : nat) (chain : list Z) (items : list item).
Context (I : fl_inv db o chain items).

Lemma head_in : fl_headPage (pg_free db) ∈ chain.
Proof using I. pose proof (fi_head _ _ _ _ I) as Hh. destruct chain; [done|]. injection Hh as <-. left. Qed.

Lemma tail_in : fl_tailPage (pg_free db) ∈ chain.
Proof using I. apply last_Some_elem_of, (fi_tail _ _ _ _ I). Qed.

Lemma chain_bound p : p ∈ chain -> 0 < p < bound db.
Proof using I. intros Hp. apply (fi_bound _ _ _ _ I). by apply elem_of_app; left. Qed.

Lemma item_bound p : p ∈ items.*1 -> 0 < p < bound db.
Proof using I. intros Hp. apply (fi_bound _ _ _ _ I). by apply elem_of_app; right. Qed.

Lemma fl_check_ok : (items = [] -> length chain = 1%nat) -> fl_check (pg_free db) = Ok tt.
Proof using I.
  intros Hemp. pose proof (chain_bound _ head_in). pose proof (chain_bound _ tail_in).
  unfold fl_check. rewrite !(proj2 (Z.eqb_neq _ 0)) by lia. cbn [negb andb assert]. step_res.
  destruct (Z.eqb_spec (fl_headSeq (pg_free db)) (fl_tailSeq (pg_free db))) as [E|E]; [|done].
  pose proof (fi_seq _ _ _ _ I) as Hs. pose proof (fi_head _ _ _ _ I) as Hh.
  pose proof (fi_tail _ _ _ _ I) as Ht.
  specialize (Hemp (len_0_inv items ltac:(lia))). destruct chain as [|x [|]]; try done.
  injection Hh as <-. injection Ht as <-. cbn [negb orb]. by rewrite Z.eqb_refl.
Qed.

Lemma settled_empty : settled o chain items -> items = [] -> length chain = 1%nat.
Proof using I. intros [H1 H2] ->. pose proof (fi_o _ _ _ _ I). cbn in *. lia. Qed.

(** ** Taking an item *)

(** [head] as the list that [flPop] removes from the front of the chain. *)
Definition removed (head : Z) : list Z := if head =? 0 then [] else [head].

(** What [flPop] may do: nothing, or take the first item, which was freed at
    a version that no reader needs and before the last [SetMaxVer]. *)
Definition popped (db' : Pager) (ptr head : Z) (o' : nat) (chain' : list Z) (items' : list item) : Prop :=
  (ptr = 0 /\ head = 0 /\ db' = db /\ o' = o /\ chain' = chain /\ items' = items) \/
  (0 < ptr /\ exists ver, items = (ptr, ver) :: items' /\ ver <= fl_maxVer (pg_free db) /\
    fl_headSeq (pg_free db) < fl_maxSeq (pg_free db) /\ pg_updates db !! ptr = None /\
    (exists c, view db ptr = Some c /\ len c = BTREE_PAGE_SIZE) /\
    chain = removed head ++ chain' /\
    (o' + 255 * length (removed head) = S o)%nat).

Lemma seq2idx_next : fl_headSeq (pg_free db) + 1 < 2 ^ 64 ->
  seq2idx (u64 (fl_headSeq (pg_free db) + 1)) = if decide (S o = 255)%nat then 0 else Z.of_nat (S o).
Proof using I.
  intros Hb. destruct (fi_o _ _ _ _ I) as [Ho Hm]. pose proof (fi_max _ _ _ _ I) as [[H0 _] _].
  unfold seq2idx. rewrite cap_255, u64_small by lia.
  rewrite <- Zplus_mod_idemp_l, Hm. case_decide.
  - replace (Z.of_nat o + 1) with 255 by lia. done.
  - rewrite Z.mod_small by lia. lia.
Qed.

(** The invariant after the first item is gone, with the head node kept. *)
Lemma pop_inv_keep ptr ver items' :
  items = (ptr, ver) :: items' -> fl_headSeq (pg_free db) < fl_maxSeq (pg_free db) -> (S o < 255)%nat ->
  fl_headSeq (pg_free db) + 1 < 2 ^ 64 ->
  fl_inv (set_free db (set_head (pg_free db) (fl_headPage (pg_free db)) (fl_headSeq (pg_free db) + 1)))
    (S o) chain items'.
Proof using I.
  intros Ei Hlt Ho Hb. destruct I as [Io Ih It Is Im Ir If Iit Il Ip Ind Ib Iv Iold Inew Iupd Inum Iapp]. subst items.
  rewrite len_cons in Is. cbn [length] in If.
  constructor; cbn; auto; try lia.
  - split; [lia|]. rewrite <- Zplus_mod_idemp_l, (proj2 Io), Z.mod_small by lia. lia.
  - intros k e j i Hk Hj Hi. apply (Iit (S k) e j i Hk); lia.
  - rewrite fmap_cons in Ind. cbn in Ind. apply NoDup_app in Ind as (N1 & N2 & N3).
    apply NoDup_app. apply NoDup_cons in N3 as [_ N3]. split_and!; auto.
    intros x Hx Hx'. apply (N2 x Hx). by right.
  - intros p Hp. apply Ib. rewrite fmap_cons. set_solver.
  - intros k p v Hk Hlt'. apply (Iold (S k) p v Hk). lia.
Qed.

(** ... and with the head node removed. *)
Lemma pop_inv_drop ptr ver items' n next chain' :
  items = (ptr, ver) :: items' -> chain = n :: next :: chain' ->
  fl_headSeq (pg_free db) < fl_maxSeq (pg_free db) -> S o = 255%nat ->
  fl_headSeq (pg_free db) + 1 < 2 ^ 64 ->
  fl_inv (set_free db (set_head (pg_free db) next (fl_headSeq (pg_free db) + 1)))
    0 (next :: chain') items'.
Proof using I.
  intros Ei Ec Hlt Ho Hb. destruct I as [Io Ih It Is Im Ir If Iit Il Ip Ind Ib Iv Iold Inew Iupd Inum Iapp].
  subst items chain. rewrite len_cons in Is. rewrite len_cons in Ir. cbn [length] in If.
  constructor; cbn [pg_free set_free set_head fl_headSeq fl_headPage fl_tailPage fl_tailSeq fl_maxSeq fl_maxVer
    fl_curVer pg_updates pg_flushed pg_nappend]; auto; try lia.
  - split; [lia|]. rewrite <- Zplus_mod_idemp_l, (proj2 Io).
    replace (Z.of_nat o + 1) with 255 by lia. done.
  - cbn [length]. lia.
  - intros k e j i Hk Hj Hi. destruct (Iit (S k) e (S j) i Hk) as (x & c & Hx & Hrest); [lia..|].
    exists x, c. cbn in Hx. auto.
  - intros j x y Hx Hy. apply (Il (S j) x y); done.
  - intros x Hx. apply Ip. by right.
  - rewrite fmap_cons in Ind. cbn [app fst] in Ind. apply NoDup_cons in Ind as [_ Ind].
    change (next :: chain' ++ ptr :: items'.*1) with ((next :: chain') ++ ptr :: items'.*1) in Ind.
    apply NoDup_app in Ind as (N1 & N2 & N3). apply NoDup_cons in N3 as [_ N3].
    apply NoDup_app. split_and!; auto. intros x Hx Hx'. apply (N2 x Hx). by right.
  - intros p Hp. apply Ib. rewrite fmap_cons. set_solver.
  - intros k p v Hk Hlt'. apply (Iold (S k) p v Hk). lia.
Qed.

Lemma flPop_ok :
  (items = [] -> length chain = 1%nat) -> fl_room db 0 1 ->
  exists db' ptr head o' chain' items',
    flPop db = Ok (db', ptr, head) /\ popped db' ptr head o' chain' items' /\
    fl_inv db' o' chain' items' /\ pg_updates db' = pg_updates db /\
    bound db' = bound db /\ same_file db db' /\
    fl_tailSeq (pg_free db') = fl_tailSeq (pg_free db) /\ fl_tailPage (pg_free db') = fl_tailPage (pg_free db).
Proof using I.
  intros Hemp [Hb1 Hb2]. pose proof (fi_max _ _ _ _ I) as [[H0 H1] H2].
  assert (bound db < 2 ^ 64 /\ fl_headSeq (pg_free db) + 1 < 2 ^ 64) as [Hb Hs] by lia.
  unfold flPop. rewrite fl_check_ok by done. step_res.
  assert (exists db' ptr head o' chain' items', Ok (db, 0, 0) = Ok (db', ptr, head) /\
    popped db' ptr head o' chain' items' /\ fl_inv db' o' chain' items' /\
    pg_updates db' = pg_updates db /\ bound db' = bound db /\ same_file db db' /\
    fl_tailSeq (pg_free db') = fl_tailSeq (pg_free db) /\
    fl_tailPage (pg_free db') = fl_tailPage (pg_free db)) as Hnone.
  { exists db, 0, 0, o, chain, items. split_and!; auto using same_file_refl. left. auto 10. }
  destruct (Z.eqb_spec (fl_headSeq (pg_free db)) (fl_maxSeq (pg_free db))) as [E|Hne]; [exact Hnone|].
  pose proof head_in as Hin. destruct (fi_pages _ _ _ _ I _ Hin) as (c & Hv & Hl).
  pose proof (chain_bound _ Hin) as Hbd.
  rewrite (pageRead_ok _ _ c) by (first [done | lia | intros [E _]; by apply (fi_new _ _ _ _ I) in E; lia]).
  step_res. destruct (fi_o _ _ _ _ I) as [Ho Hm]. pose proof (fi_seq _ _ _ _ I) as Hq.
  assert (exists ptr ver items', items = (ptr, ver) :: items') as (ptr & ver & items' & Ei).
  { clear - Hq H1 H2 Hne. destruct items as [|[ptr ver] items']; [rewrite len_nil in Hq; lia|eauto]. }
  assert (seq2idx (fl_headSeq (pg_free db)) = Z.of_nat o) as -> by (unfold seq2idx; by rewrite cap_255).
  rewrite getItem_ok by done. step_res.
  destruct (fi_items _ _ _ _ I 0%nat (ptr, ver) 0%nat o ltac:(by rewrite Ei)) as (n & c' & Hn & Hv' & Hit); [lia..|].
  pose proof (fi_head _ _ _ _ I) as Hh.
  assert (n = fl_headPage (pg_free db)) as -> by (rewrite head_lookup in Hh; congruence).
  assert (c' = c) as -> by congruence. rewrite Hit. unfold versionBefore.
  destruct (Z.ltb_spec (fl_maxVer (pg_free db)) ver) as [|Hver]; [exact Hnone|].
  rewrite seq2idx_next by done.
  pose proof (item_bound ptr ltac:(rewrite Ei; left)) as Hpb.
  destruct (fi_old _ _ _ _ I 0%nat ptr ver ltac:(by rewrite Ei)) as [Hpu Hpv]; [lia|].
  rewrite u64_small by lia. case_decide as Ho'.
  - pose proof (fi_room _ _ _ _ I) as Hr. assert (exists n1 chain', chain = fl_headPage (pg_free db) :: n1 :: chain') as (n1 & chain' & Ec).
    { clear - Hh Hr Ho' Hne H1. destruct chain as [|n0 [|n1 chain']]; [done|rewrite len_cons, len_nil in Hr; lia|].
      injection Hh as ->. eauto. }
    change (0 =? 0) with true. cbv iota.
    rewrite getNext_ok by done. step_res.
    destruct (fi_links _ _ _ _ I 0%nat (fl_headPage (pg_free db)) n1 ltac:(by rewrite Ec) ltac:(by rewrite Ec)) as (c2 & Hv2 & Hnx).
    assert (c2 = c) as -> by congruence. rewrite Hnx.
    pose proof (chain_bound n1 ltac:(rewrite Ec; right; left)) as Hn1.
    rewrite (proj2 (Z.eqb_neq n1 0)) by lia. cbn [negb assert]. step_res.
    eexists _, ptr, (fl_headPage (pg_free db)), 0%nat, (n1 :: chain'), items'. split; [reflexivity|].
    split; [right|split; [eapply pop_inv_drop; [exact Ei|exact Ec|lia|exact Ho'|lia]|by repeat split]].
    split; [lia|]. exists ver. split_and!; auto; [lia|..]; unfold removed;
      rewrite (proj2 (Z.eqb_neq _ 0)) by lia; cbn; [done|lia].
  - rewrite (proj2 (Z.eqb_neq _ 0)) by lia.
    eexists _, ptr, 0, (S o), chain, items'. split; [reflexivity|].
    split; [right|split; [eapply pop_inv_keep; eauto; lia|by repeat split]].
    split; [lia|]. exists ver. split_and!; auto; lia.
Qed.

End inv.

(** ** Adding an item *)

(** A page that is not in the list, and can go there. *)
Definition fresh (db : Pager) (chain : list Z) (items : list item) (ptr : Z) : Prop :=
  ptr ∉ owned chain items /\ 0 < ptr < bound db.

Lemma settled_index o chain (items : list item) : settled o chain items ->
  exists j i, (o + length items = 255 * j + i)%nat /\ (i < 255)%nat /\ length chain = S j.
Proof.
  intros [H1 H2]. pose proof (Nat.div_mod_eq (o + length items) 255).
  pose proof (Nat.mod_upper_bound (o + length items) 255).
  exists ((o + length items) / 255)%nat, ((o + length items) mod 255)%nat. lia.
Qed.

Lemma tail_slot db o chain items j i :
  fl_inv db o chain items -> (o + length items = 255 * j + i)%nat -> (i < 255)%nat ->
  seq2idx (fl_tailSeq (pg_free db)) = Z.of_nat i.
Proof.
  intros I Hj Hi. destruct (fi_o _ _ _ _ I) as [Ho Hm]. rewrite (fi_seq _ _ _ _ I).
  unfold seq2idx. rewrite cap_255, <- Zplus_mod_idemp_l, Hm. unfold len.
  replace (Z.of_nat o + Z.of_nat (length items)) with (Z.of_nat i + Z.of_nat j * 255) by lia.
  rewrite Z_mod_plus_full, Z.mod_small; lia.
Qed.

Lemma last_at (chain : list Z) j x : last chain = Some x -> length chain = S j -> chain !! j = Some x.
Proof. intros Hl Hj. rewrite last_lookup, Hj in Hl. exact Hl. Qed.

Lemma nodup_at (chain : list Z) i j x :
  NoDup chain -> chain !! i = Some x -> chain !! j = Some x -> i = j.
Proof. intros. by eapply NoDup_lookup. Qed.

(** The tail page with one more item. *)
Lemma add_item_inv db o chain items j i ptr c c' :
  fl_inv db o chain items -> (o + length items = 255 * j + i)%nat -> (i < 255)%nat ->
  length chain = S j -> fresh db chain items ptr -> fl_room db 0 1 ->
  view db (fl_tailPage (pg_free db)) = Some c -> len c' = BTREE_PAGE_SIZE ->
  lnode_next c' = lnode_next c -> lnode_item c' i = (ptr, fl_curVer (pg_free db)) ->
  (forall k, k <> i -> lnode_item c' k = lnode_item c k) ->
  fl_inv (set_free (set_updates db (<[fl_tailPage (pg_free db) := c']> (pg_updates db)))
            (set_tail (pg_free db) (fl_tailPage (pg_free db)) (fl_tailSeq (pg_free db) + 1)))
    o chain (items ++ [(ptr, fl_curVer (pg_free db))]).
Proof.
  intros I Hj Hi Hlen [Hfresh Hptr] [_ Hroom] Hv Hl Hnext Hset Hother. pose proof (tail_in _ _ _ _ I) as Htail.
  pose proof (chain_bound _ _ _ _ I _ Htail) as Htb.
  destruct I as [Io Ih It Is Im Ir If Iit Il Ip Ind Ib Iv Iold Inew Iupd Inum Iapp].
  pose proof (last_at _ _ _ It Hlen) as Hat. pose proof Ind as (N1 & N2 & N3)%NoDup_app.
  assert (forall n cn, n ∈ chain -> view db n = Some cn -> exists cn',
    view (set_updates db (<[fl_tailPage (pg_free db) := c']> (pg_updates db))) n = Some cn' /\
    lnode_next cn' = lnode_next cn) as Hview.
  { intros n cn _ Hvn. rewrite view_insert. case_decide; [subst; exists c'; split; congruence|eauto]. }
  constructor; cbn [pg_free set_free set_tail set_updates fl_headSeq fl_headPage fl_tailPage fl_tailSeq fl_maxSeq
    fl_maxVer fl_curVer pg_updates pg_flushed pg_nappend]; auto; try lia.
  - rewrite len_app, len_cons, len_nil. lia.
  - rewrite length_app. cbn. lia.
  - intros k e j' i' Hk Hj' Hi'. setoid_rewrite view_free. setoid_rewrite view_insert.
    apply lookup_app_Some in Hk as [Hk|[Hge Hk]].
    + destruct (Iit k e j' i' Hk Hj' Hi') as (n & cn & Hn & Hvn & Hit).
      exists n. case_decide as E; [|by exists cn].
      exists c'. split_and!; auto. assert (cn = c) as -> by congruence. rewrite Hother; [done|].
      assert (j' = j) as -> by (eapply nodup_at; [exact N1|exact Hn|congruence]).
      apply lookup_lt_Some in Hk. lia.
    + apply list_lookup_singleton_Some in Hk as [Hk <-].
      assert (j' = j /\ i' = i) as [-> ->] by lia.
      exists (fl_tailPage (pg_free db)), c'. by rewrite decide_True.
  - intros k n n' Hn Hn'. destruct (Il k n n' Hn Hn') as (cn & Hvn & Hnx).
    destruct (Hview n cn) as (cn' & Hvn' & Hnx'); [by eapply list_elem_of_lookup_2|done|].
    exists cn'. split; [done|congruence].
  - intros n Hn. rewrite view_free, view_insert. case_decide; [eauto|auto].
  - rewrite fmap_app. cbn. rewrite app_assoc. apply NoDup_app. split_and!; auto.
    + intros x Hx ->%list_elem_of_singleton. done.
    + apply NoDup_singleton.
  - intros p. rewrite fmap_app, app_assoc. intros [Hp| ->%list_elem_of_singleton]%elem_of_app; [auto|done].
  - intros k p v Hk Hlt. apply lookup_app_Some in Hk as [Hk|[Hge Hk]]; [|unfold len in *; lia].
    destruct (Iold k p v Hk Hlt) as [Hu Hpv].
    assert (p <> fl_tailPage (pg_free db)) as Hne.
    { intros ->. apply (N2 _ Htail). apply list_elem_of_lookup_2 in Hk.
      by apply (list_elem_of_fmap_2 fst) in Hk. }
    rewrite lookup_insert_ne by done. split; [done|]. rewrite view_free, view_insert. by rewrite decide_False.
  - intros p cp. rewrite lookup_insert. case_decide; [subst; intros [= <-]; by split|apply Iupd].
  - intros p Hp. apply lookup_insert_is_Some'. right. by apply Iapp.
Qed.

(** ** Adding a node *)

Lemma append_inv db o chain items page :
  fl_inv db o chain items -> fl_room db 1 0 -> len page = BTREE_PAGE_SIZE ->
  let db' := mkPager (pg_file db) (pg_chunks db) (pg_flushed db) (pg_nappend db + 1)
               (<[bound db := page]> (pg_updates db)) (pg_free db) in
  fl_inv db' o chain items /\ fresh db' chain items (bound db) /\
  view db' (bound db) = Some page.
Proof.
  intros I [Hroom _] Hlp db'.
  assert (forall p, 0 < p < bound db -> view db' p = view db p) as Hview.
  { intros p Hp. unfold view. cbn. by rewrite lookup_insert_ne by lia. }
  assert (bound db' = bound db + 1) as Hb by (unfold bound; cbn; lia).
  destruct I as [Io Ih It Is Im Ir If Iit Il Ip Ind Ib Iv Iold Inew Iupd Inum Iapp].
  assert (forall p, p ∈ chain -> 0 < p < bound db) as Hc by (intros p Hp; apply Ib, elem_of_app; auto).
  split_and!.
  - constructor; auto; try lia.
    + intros k e j i Hk Hj Hi. destruct (Iit k e j i Hk Hj Hi) as (n & cn & Hn & Hvn & Hit).
      exists n, cn. rewrite Hview; [auto|]. apply Hc. by eapply list_elem_of_lookup_2.
    + intros j n n' Hn Hn'. rewrite Hview; [eauto|]. apply Hc. by eapply list_elem_of_lookup_2.
    + intros n Hn. rewrite Hview; auto.
    + intros p Hp. specialize (Ib p Hp). lia.
    + intros k p v Hk Hlt. assert (0 < p < bound db) as Hp.
      { apply Ib, elem_of_app. right. apply list_elem_of_lookup_2 in Hk. by apply (list_elem_of_fmap_2 fst) in Hk. }
      rewrite Hview by done. cbn. rewrite lookup_insert_ne by lia. eauto.
    + intros p c. cbn. rewrite lookup_insert. case_decide; [subst; intros [= <-]; split; [unfold bound in *; lia|done]|].
      intros [Hpb Hlc]%Iupd. split; [lia|done].
    + cbn. lia.
    + intros p Hp. cbn. apply lookup_insert_is_Some'. destruct (decide (bound db = p)) as [|Hne]; [by left|right].
      apply Iapp. cbn in Hp. lia.
  - split; [|unfold bound in *; lia]. intros Hin%Ib. lia.
  - unfold view. cbn. by rewrite lookup_insert_eq.
Qed.

(** The chain continues with the node [next]. *)
Lemma add_node_inv db o chain items next c c' cn :
  fl_inv db o chain items -> fresh db chain items next -> (o + length items = 255 * length chain)%nat ->
  view db (fl_tailPage (pg_free db)) = Some c -> len c' = BTREE_PAGE_SIZE ->
  lnode_next c' = next -> (forall k, lnode_item c' k = lnode_item c k) ->
  view db next = Some cn -> len cn = BTREE_PAGE_SIZE ->
  fl_inv (set_free (set_updates db (<[fl_tailPage (pg_free db) := c']> (pg_updates db)))
            (set_tail (pg_free db) next (fl_tailSeq (pg_free db))))
    o (chain ++ [next]) items.
Proof.
  intros I [Hfresh Hnb] Hfull Hv Hl Hnext Hsame Hvn Hln. pose proof (tail_in _ _ _ _ I) as Htail.
  pose proof (chain_bound _ _ _ _ I _ Htail) as Htb.
  destruct I as [Io Ih It Is Im Ir If Iit Il Ip Ind Ib Iv Iold Inew Iupd Inum Iapp].
  assert (fl_tailPage (pg_free db) <> next) as Hne by (intros E; apply Hfresh, elem_of_app; left; congruence).
  pose proof Ind as (N1 & N2 & N3)%NoDup_app.
  constructor; cbn [pg_free set_free set_tail set_updates fl_headSeq fl_headPage fl_tailPage fl_tailSeq fl_maxSeq
    fl_maxVer fl_curVer pg_updates pg_flushed pg_nappend]; auto.
  - destruct chain; [done|]. exact Ih.
  - by rewrite last_snoc.
  - rewrite len_app, len_cons, len_nil. lia.
  - rewrite length_app. cbn. lia.
  - intros k e j i Hk Hj Hi. destruct (Iit k e j i Hk Hj Hi) as (n & c0 & Hn & Hvn' & Hit).
    setoid_rewrite view_free. setoid_rewrite view_insert. exists n.
    rewrite (lookup_app_l_Some _ _ _ _ Hn). case_decide; [|by exists c0].
    exists c'. split_and!; auto. rewrite Hsame. congruence.
  - intros j n n' Hn Hn'. rewrite view_free, view_insert.
    apply lookup_app_Some in Hn' as [Hn'|[Hge Hn']].
    + rewrite lookup_app_l in Hn by (apply lookup_lt_Some in Hn'; lia).
      destruct (Il j n n' Hn Hn') as (c0 & Hv0 & Hnx). case_decide as E; [|eauto].
      exfalso. subst n. rewrite last_lookup in It. pose proof (nodup_at _ _ _ _ N1 Hn It).
      apply lookup_lt_Some in Hn'. lia.
    + apply list_lookup_singleton_Some in Hn' as [Hj <-].
      rewrite lookup_app_l in Hn by lia. rewrite last_lookup in It.
      replace (Init.Nat.pred (length chain)) with j in It by lia. rewrite Hn in It. injection It as ->.
      rewrite decide_True by done. eauto.
  - intros n. setoid_rewrite view_free. setoid_rewrite view_insert.
    intros [Hn| ->%list_elem_of_singleton]%elem_of_app; [case_decide; [eauto|auto]|].
    rewrite decide_False by done. eauto.
  - rewrite <- app_assoc. cbn. apply NoDup_app. split_and!; auto.
    + intros x Hx [->|Hx']%elem_of_cons; [apply Hfresh, elem_of_app; by left|]. by apply (N2 x).
    + apply NoDup_cons. split; [|done]. intros Hin. apply Hfresh, elem_of_app. by right.
  - intros p. rewrite <- app_assoc. cbn. intros [Hp|[->|Hp]%elem_of_cons]%elem_of_app; [|done|].
    + apply Ib, elem_of_app. by left.
    + apply Ib, elem_of_app. by right.
  - intros k p v Hk Hlt. destruct (Iold k p v Hk Hlt) as [Hu Hpv].
    assert (p <> fl_tailPage (pg_free db)) as Hne'.
    { intros ->. apply (N2 _ Htail). apply list_elem_of_lookup_2 in Hk.
      by apply (list_elem_of_fmap_2 fst) in Hk. }
    rewrite lookup_insert_ne by done. split; [done|]. rewrite view_free, view_insert. by rewrite decide_False.
  - intros E. destruct (Inew E). split; [done|]. apply elem_of_app. by left.
  - intros p cp. rewrite lookup_insert. case_decide; [subst; intros [= <-]; by split|apply Iupd].
  - intros p Hp. apply lookup_insert_is_Some'. right. by apply Iapp.
Qed.

(** ** [PushTail] *)

Lemma push_item_ok db o chain items j i ptr :
  fl_inv db o chain items -> (o + length items = 255 * j + i)%nat -> (i < 255)%nat ->
  length chain = S j -> fresh db chain items ptr -> fl_room db 0 1 ->
  exists c' (db1 := set_updates db (<[fl_tailPage (pg_free db) := c']> (pg_updates db))),
    modify_page db (fl_tailPage (pg_free db))
      (fun node => setItem node (Z.of_nat i) ptr (fl_curVer (pg_free db))) = Ok db1 /\
    fl_inv (set_free db1 (set_tail (pg_free db) (fl_tailPage (pg_free db)) (fl_tailSeq (pg_free db) + 1)))
      o chain (items ++ [(ptr, fl_curVer (pg_free db))]) /\
    exists c, view db (fl_tailPage (pg_free db)) = Some c /\ forall k, k <> i -> lnode_item c' k = lnode_item c k.
Proof.
  intros I Hj Hi Hlen Hf Hroom. pose proof (tail_in _ _ _ _ I) as Htail.
  destruct (fi_pages _ _ _ _ I _ Htail) as (c & Hv & Hl). pose proof (chain_bound _ _ _ _ I _ Htail).
  pose proof Hf as [_ Hpb]. pose proof (fi_vers _ _ _ _ I) as Hcv. pose proof Hroom as [Hb _].
  destruct (setItem_ok c i ptr (fl_curVer (pg_free db)) Hl Hi ltac:(lia) Hcv) as (c' & E & Hl' & Hn & Hs & Ho).
  exists c'. split; [by apply (modify_page_ok _ _ c); try done; lia|].
  split; [by eapply add_item_inv|by exists c].
Qed.

Lemma link_node_ok db o chain items next cn :
  fl_inv db o chain items -> fresh db chain items next -> (o + length items = 255 * length chain)%nat ->
  view db next = Some cn -> len cn = BTREE_PAGE_SIZE -> fl_room db 0 0 ->
  exists c' (db1 := set_updates db (<[fl_tailPage (pg_free db) := c']> (pg_updates db))),
    modify_page db (fl_tailPage (pg_free db)) (fun node => setNext node next) = Ok db1 /\
    fl_inv (set_free db1 (set_tail (pg_free db) next (fl_tailSeq (pg_free db)))) o (chain ++ [next]) items /\
    exists c, view db (fl_tailPage (pg_free db)) = Some c /\ forall k, lnode_item c' k = lnode_item c k.
Proof.
  intros I Hf Hfull Hvn Hln [Hb _]. pose proof (tail_in _ _ _ _ I) as Htail.
  destruct (fi_pages _ _ _ _ I _ Htail) as (c & Hv & Hl). pose proof (chain_bound _ _ _ _ I _ Htail).
  pose proof Hf as [_ Hpb]. destruct (setNext_ok c next Hl ltac:(lia)) as (c' & E & Hl' & Hn & Hs).
  exists c'. split; [by apply (modify_page_ok _ _ c); try done; lia|].
  split; [by eapply add_node_inv|by exists c].
Qed.

(** Pages outside the list keep their pending updates, ... *)
Definition updates_frame (db db' : Pager) (own : list Z) : Prop :=
  forall p, 0 < p < bound db -> p ∉ own -> pg_updates db' !! p = pg_updates db !! p.

(** ... and what the list owns now it owned before, was given, or is new. *)
Definition owned_frame (db : Pager) (own own' : list Z) : Prop :=
  forall p, p ∈ own' -> p ∈ own \/ bound db <= p.

(** The pages freed since the last [SetMaxVer]: the list does not hand them
    out before the next one. *)
Definition late (fl : FreeList) (items : list item) : list Z :=
  (drop (Z.to_nat (fl_maxSeq fl - fl_headSeq fl)) items).*1.

(** They stay in the list, and keep their pending updates. *)
Definition late_kept (db : Pager) (items : list item) (db' : Pager) (items' : list item) : Prop :=
  forall p, p ∈ late (pg_free db) items ->
    p ∈ late (pg_free db') items' /\ pg_updates db' !! p = pg_updates db !! p.

Lemma elem_of_drop {A} (x : A) n l : x ∈ drop n l -> x ∈ l.
Proof. intros Hx. rewrite <- (take_drop n l). apply elem_of_app. by right. Qed.

Lemma late_items fl items p : p ∈ late fl items -> p ∈ items.*1.
Proof. unfold late. intros (e & -> & He%elem_of_drop)%list_elem_of_fmap. by apply list_elem_of_fmap_2. Qed.

Lemma late_refl db items : late_kept db items db items.
Proof. by intros p Hp. Qed.

Lemma late_trans db1 items1 db2 items2 db3 items3 :
  late_kept db1 items1 db2 items2 -> late_kept db2 items2 db3 items3 -> late_kept db1 items1 db3 items3.
Proof. intros H1 H2 p Hp. destruct (H1 p Hp) as [Hp2 E2], (H2 p (proj1 (H1 p Hp))) as [Hp3 E3]. split; [done|congruence]. Qed.

(** A write to a page that is not an item, and items added at the end. *)
Lemma late_modify db items p c fl extra :
  fl_maxSeq fl = fl_maxSeq (pg_free db) -> fl_headSeq fl = fl_headSeq (pg_free db) -> p ∉ items.*1 ->
  late_kept db items (set_free (set_updates db (<[p := c]> (pg_updates db))) fl) (items ++ extra).
Proof.
  intros Em Eh Hn q Hq. cbn. split.
  - unfold late in *. rewrite Em, Eh, drop_app, fmap_app. apply elem_of_app. by left.
  - apply lookup_insert_ne. intros ->. by apply late_items in Hq.
Qed.

(** What is added at the end is late. *)
Lemma late_new fl items ptr ver : fl_maxSeq fl - fl_headSeq fl <= len items -> ptr ∈ late fl (items ++ [(ptr, ver)]).
Proof.
  intros Hl. unfold late, len in *. rewrite drop_app_le, fmap_app by lia. apply elem_of_app. right. by left.
Qed.

Lemma popped_late db o chain items db' ptr head o' chain' items' :
  fl_inv db o chain items -> popped db o chain items db' ptr head o' chain' items' ->
  fl_inv db' o' chain' items' -> same_file db db' -> pg_updates db' = pg_updates db ->
  fl_tailSeq (pg_free db') = fl_tailSeq (pg_free db) ->
  late_kept db items db' items' /\ (ptr <> 0 -> ptr ∉ late (pg_free db) items).
Proof.
  intros I [(-> & _ & -> & _ & _ & ->)|(Hp & ver & -> & _ & Hlt & _)] I' Hsf Hu Ht; [by split; [apply late_refl|]|].
  destruct Hsf as (_ & _ & _ & Em & _). pose proof (fi_seq _ _ _ _ I) as Es. pose proof (fi_seq _ _ _ _ I') as Es'.
  rewrite len_cons in Es. unfold late_kept, late. rewrite Em, Hu.
  replace (Z.to_nat (fl_maxSeq (pg_free db) - fl_headSeq (pg_free db)))
    with (S (Z.to_nat (fl_maxSeq (pg_free db) - fl_headSeq (pg_free db')))) by lia.
  cbn [drop]. split; [done|]. intros _ (e & -> & He%elem_of_drop)%list_elem_of_fmap.
  pose proof (fi_nodup _ _ _ _ I) as (_ & _ & Hn)%NoDup_app. apply NoDup_cons in Hn as [Hn _].
  apply Hn. cbn. by apply list_elem_of_fmap_2.
Qed.

(** The nodes of the list are not items of it. *)
Lemma tail_not_item db o chain items : fl_inv db o chain items -> fl_tailPage (pg_free db) ∉ items.*1.
Proof. intros I. pose proof (fi_nodup _ _ _ _ I) as (_ & Hn & _)%NoDup_app. apply Hn. by eapply tail_in. Qed.
