(* ===== verification/FreeListOps.v ===== *)
(** * The operations of the free list

    [PushTail] and [PopHead] keep the list a queue.  [traced]: the nodes that
    the list had at some earlier time still hold the items and the links that
    they held then, because slots are written only after the last item and
    removed nodes are not handed out before the next [SetMaxVer]. *)

From S2P Require Import Prelude.
From S2P Require Import GoBytes.
From S2P Require Import BNode.
From S2P Require Import BTree.
From S2P Require Import Conflict.
From S2P Require Import Pager.
From S2P Require Import PagerFacts.
From S2P Require Import FreeListFacts.

(** ** What becomes of an earlier list *)

Lemma view_frame db db' p :
  same_file db db' -> pg_updates db' !! p = pg_updates db !! p -> view db' p = view db p.
Proof. intros (E1 & E2 & E3 & _) Hu. unfold view. by rewrite Hu, E1, E2, E3. Qed.

Section traced.
Context (o0 : nat) (chain0 : list Z) (items0 : list item).

(** The nodes [R] and the items [P] have been taken from the front; the
    removed nodes are late, or about to be ([L]). *)
Definition taken_off (L : list Z) (db : Pager) (o : nat) (chain : list Z) (items : list item) : Prop :=
  exists (R : list Z) (P : list item) ext new, chain0 ++ ext = R ++ chain /\ items0 ++ new = P ++ items /\
    (o0 + length P = 255 * length R + o)%nat /\
    forall n, n ∈ R -> n ∈ late (pg_free db) items \/ n ∈ L /\ fresh db chain items n.

Record traced (L : list Z) (db : Pager) (o : nat) (chain : list Z) (items : list item) : Prop := {
  tr_off : taken_off L db o chain items;
  tr_items : forall k e j i, items0 !! k = Some e -> (o0 + k = 255 * j + i)%nat -> (i < 255)%nat ->
    exists n c, chain0 !! j = Some n /\ view db n = Some c /\ lnode_item c i = e;
  tr_links : forall j n n', chain0 !! j = Some n -> chain0 !! S j = Some n' ->
    exists c, view db n = Some c /\ lnode_next c = n'
}.

(** The same pages, for an earlier node. *)
Lemma traced_views L db o chain items L' db' o' chain' items' :
  traced L db o chain items -> taken_off L' db' o' chain' items' ->
  (forall n, n ∈ chain0 -> view db' n = view db n) -> traced L' db' o' chain' items'.
Proof using.
  intros [_ Hi Hl] Hoff Hv. split; [exact Hoff| |].
  - intros k e j i Hk Hj Hlt. destruct (Hi k e j i Hk Hj Hlt) as (n & c & Hn & Hvn & He). exists n, c.
    rewrite Hv; [done|]. by eapply list_elem_of_lookup_2.
  - intros j n n' Hn Hn'. rewrite Hv; [eauto|]. by eapply list_elem_of_lookup_2.
Qed.

Section step.
Context (L : list Z) (db : Pager) (o : nat) (chain : list Z) (items : list item).
Context (I : fl_inv db o chain items) (T : traced L db o chain items).

Lemma off_owned n : n ∈ chain0 -> n ∈ chain \/ n ∈ items.*1 \/ fresh db chain items n.
Proof using T.
  intros Hn. destruct (tr_off _ _ _ _ _ T) as (R & P & ext & new & Ec & _ & _ & HR).
  assert (n ∈ R ++ chain) as [Hr|Hc]%elem_of_app by (rewrite <- Ec; apply elem_of_app; by left); [|by left].
  destruct (HR n Hr) as [Hlt|[_ Hf]]; right; [left; by eapply late_items|by right].
Qed.

Lemma was_bound n : n ∈ chain0 -> 0 < n < bound db.
Proof using I T.
  intros [Hn|[Hn|[_ Hn]]]%off_owned; [by eapply chain_bound|by eapply item_bound|done].
Qed.

(** The tail node among the earlier ones: it can only be the last. *)
Lemma tail_position R ext j0 j : chain0 ++ ext = R ++ chain ->
  (forall n, n ∈ R -> n ∈ late (pg_free db) items \/ n ∈ L /\ fresh db chain items n) ->
  length chain = S j -> chain0 !! j0 = Some (fl_tailPage (pg_free db)) -> j0 = (length R + j)%nat.
Proof using I.
  intros Ec HR Hlen Hj0. pose proof (tail_in _ _ _ _ I) as Ht. pose proof (fi_nodup _ _ _ _ I) as (N1 & N2 & _)%NoDup_app.
  assert ((R ++ chain) !! j0 = Some (fl_tailPage (pg_free db))) as H0 by (rewrite <- Ec; by apply lookup_app_l_Some).
  apply lookup_app_Some in H0 as [H0|[Hge H0]].
  - exfalso. apply list_elem_of_lookup_2 in H0. destruct (HR _ H0) as [Hl|[_ [Hf _]]].
    + apply (N2 _ Ht). by eapply late_items.
    + apply Hf, elem_of_app. by left.
  - pose proof (last_at _ _ _ (fi_tail _ _ _ _ I) Hlen) as Hl. pose proof (nodup_at _ _ _ _ N1 H0 Hl). lia.
Qed.

(** A write to the tail node that keeps its slots before the next free one. *)
Lemma traced_tail c c' fl j i L' chain' items' :
  (o + length items = 255 * j + i)%nat -> length chain = S j -> view db (fl_tailPage (pg_free db)) = Some c ->
  (forall k, (k < i)%nat -> lnode_item c' k = lnode_item c k) ->
  let db' := set_free (set_updates db (<[fl_tailPage (pg_free db) := c']> (pg_updates db))) fl in
  taken_off L' db' o chain' items' -> traced L' db' o chain' items'.
Proof using I T.
  intros Hfill Hlen Hv Hsame db' Hoff. destruct (tr_off _ _ _ _ _ T) as (R & P & ext & new & Ec & Ei & Ho & HR).
  split; [exact Hoff| |].
  - intros k e j0 i0 Hk Hj0 Hi0. destruct (tr_items _ _ _ _ _ T k e j0 i0 Hk Hj0 Hi0) as (n & cn & Hn & Hvn & He).
    exists n. unfold db'. setoid_rewrite view_free. setoid_rewrite view_insert. case_decide as En; [|by exists cn].
    exists c'. split; [done|]. split; [done|]. subst n. assert (cn = c) as -> by congruence. rewrite Hsame; [done|].
    pose proof (tail_position R ext j0 j Ec HR Hlen Hn). apply lookup_lt_Some in Hk.
    apply (f_equal length) in Ei. rewrite !length_app in Ei. lia.
  - intros j0 n n' Hn Hn'. destruct (tr_links _ _ _ _ _ T j0 n n' Hn Hn') as (cn & Hvn & He).
    exists cn. unfold db'. rewrite view_free, view_insert, decide_False; [done|]. intros <-.
    pose proof (tail_position R ext j0 j Ec HR Hlen Hn). apply lookup_lt_Some in Hn'.
    apply (f_equal length) in Ec. rewrite !length_app in Ec. lia.
Qed.

End step.

Lemma traced_begin db : fl_inv db o0 chain0 items0 -> traced [] db o0 chain0 items0.
Proof using.
  intros I. split; [|exact (fi_items _ _ _ _ I)|exact (fi_links _ _ _ _ I)].
  exists [], [], [], []. rewrite !app_nil_r. split; [done|]. split; [done|]. split; [cbn; lia|]. by intros n Hn%not_elem_of_nil.
Qed.

(** The head node or the first item is taken. *)
Lemma traced_pop db o chain items db' ptr head o' chain' items' :
  fl_inv db o chain items -> popped db o chain items db' ptr head o' chain' items' -> fl_inv db' o' chain' items' ->
  same_file db db' -> pg_updates db' = pg_updates db -> bound db' = bound db ->
  late_kept db items db' items' -> (head <> 0 -> fresh db' chain' items' head) ->
  traced [] db o chain items -> traced (removed head) db' o' chain' items'.
Proof using.
  intros I Hpop I' Hsf Hu Hb Hlk Hhead T. apply (traced_views [] db o chain items); [done| |].
  2:{ intros n _. apply view_frame; [done|by rewrite Hu]. }
  destruct (tr_off _ _ _ _ _ T) as (R & P & ext & new & Ec & Ei & Ho & HR).
  assert (forall n, n ∈ R -> n ∈ late (pg_free db') items') as HR'.
  { intros n Hn. destruct (HR n Hn) as [Hl|[Hl _]]; [by apply Hlk|by apply not_elem_of_nil in Hl]. }
  destruct Hpop as [(_ & -> & -> & -> & -> & ->)|(_ & ver & -> & _ & _ & _ & _ & -> & Hoo)].
  - exists R, P, ext, new. split; [done|]. split; [done|]. split; [done|]. intros n Hn. left. by apply HR'.
  - exists (R ++ removed head), (P ++ [(ptr, ver)]), ext, new. rewrite <- !app_assoc.
    split; [done|]. split; [done|]. split; [rewrite !length_app; cbn; lia|].
    intros n [Hn|Hn]%elem_of_app; [left; by apply HR'|right; split; [done|]].
    unfold removed in Hn. destruct (Z.eqb_spec head 0) as [|Hh]; [by apply not_elem_of_nil in Hn|].
    apply list_elem_of_singleton in Hn as ->. by apply Hhead.
Qed.

(** A new page at the end of the file. *)
Lemma traced_append L db o chain items page :
  fl_inv db o chain items -> traced L db o chain items ->
  traced L (mkPager (pg_file db) (pg_chunks db) (pg_flushed db) (pg_nappend db + 1)
              (<[bound db := page]> (pg_updates db)) (pg_free db)) o chain items.
Proof using.
  intros I T. apply (traced_views L db o chain items); [done| |].
  - destruct (tr_off _ _ _ _ _ T) as (R & P & ext & new & Ec & Ei & Ho & HR). exists R, P, ext, new.
    split; [done|]. split; [done|]. split; [done|]. intros n Hn. destruct (HR n Hn) as [?|[? [? ?]]]; [by left|right].
    split; [done|]. split; [done|]. unfold bound in *. cbn. lia.
  - intros n Hn. pose proof (was_bound _ _ _ _ _ I T n Hn). unfold view. cbn. rewrite lookup_insert_ne by lia. done.
Qed.

(** A page outside the list is written. *)
Lemma traced_set_page db o chain items p c :
  fl_inv db o chain items -> p ∉ owned chain items -> traced [] db o chain items ->
  traced [] (set_updates db (<[p := c]> (pg_updates db))) o chain items.
Proof using.
  intros I Hp T. apply (traced_views [] db o chain items); [done| |].
  - destruct (tr_off _ _ _ _ _ T) as (R & P & ext & new & Ec & Ei & Ho & HR). by exists R, P, ext, new.
  - intros n Hn. rewrite view_insert, decide_False; [done|]. intros <-. apply Hp, elem_of_app.
    destruct (tr_off _ _ _ _ _ T) as (R & P & ext & new & Ec & _ & _ & HR).
    assert (p ∈ R ++ chain) as [Hr|Hc]%elem_of_app by (rewrite <- Ec; apply elem_of_app; by left); [right|by left].
    destruct (HR p Hr) as [Hlt|[Hl _]]; [by eapply late_items|by apply not_elem_of_nil in Hl].
Qed.

Lemma traced_weaken L L' db o chain items : (forall n, n ∈ L -> n ∈ L') -> traced L db o chain items -> traced L' db o chain items.
Proof using.
  intros HL [(R & P & ext & new & Ec & Ei & Ho & HR) Hi Hl]. split; [|done..]. exists R, P, ext, new.
  split; [done|]. split; [done|]. split; [done|]. intros n Hn. destruct (HR n Hn) as [|[? ?]]; [by left|right; auto].
Qed.

End traced.

(** What a step keeps: the late pages, and every earlier list. *)
Definition kept (L : list Z) (db : Pager) (o : nat) (chain : list Z) (items : list item)
    (L' : list Z) (db' : Pager) (o' : nat) (chain' : list Z) (items' : list item) : Prop :=
  late_kept db items db' items' /\
  forall o0 chain0 items0, traced o0 chain0 items0 L db o chain items -> traced o0 chain0 items0 L' db' o' chain' items'.

Lemma kept_trans L1 db1 o1 chain1 items1 L2 db2 o2 chain2 items2 L3 db3 o3 chain3 items3 :
  kept L1 db1 o1 chain1 items1 L2 db2 o2 chain2 items2 -> kept L2 db2 o2 chain2 items2 L3 db3 o3 chain3 items3 ->
  kept L1 db1 o1 chain1 items1 L3 db3 o3 chain3 items3.
Proof. intros [H1 H2] [H3 H4]. split; [by eapply late_trans|auto]. Qed.

Lemma kept_less L db o chain items L' db' o' chain' items' :
  kept L db o chain items L' db' o' chain' items' -> kept [] db o chain items L' db' o' chain' items'.
Proof.
  intros [H1 H2]. split; [done|]. intros o0 chain0 items0 T. apply H2. eapply traced_weaken; [|exact T].
  by intros n ?%not_elem_of_nil.
Qed.

Lemma kept_append L db o chain items page : fl_inv db o chain items ->
  kept L db o chain items L (mkPager (pg_file db) (pg_chunks db) (pg_flushed db) (pg_nappend db + 1)
    (<[bound db := page]> (pg_updates db)) (pg_free db)) o chain items.
Proof.
  intros I. split.
  - intros p Hp. split; [exact Hp|]. cbn. rewrite lookup_insert_ne; [done|]. intros <-.
    apply late_items, (item_bound _ _ _ _ I) in Hp. lia.
  - intros o0 chain0 items0. by apply traced_append.
Qed.

Lemma kept_set_page db o chain items p c : fl_inv db o chain items -> p ∉ owned chain items ->
  kept [] db o chain items [] (set_updates db (<[p := c]> (pg_updates db))) o chain items.
Proof.
  intros I Hp. split; [|intros o0 chain0 items0; by apply traced_set_page].
  intros q Hq. split; [exact Hq|]. cbn. apply lookup_insert_ne. intros <-. apply Hp, elem_of_app. right. by eapply late_items.
Qed.

(** The tail node gets its link. *)
Lemma kept_link L db o chain items next c c' :
  fl_inv db o chain items -> (o + length items = 255 * length chain)%nat -> view db (fl_tailPage (pg_free db)) = Some c ->
  (forall k, lnode_item c' k = lnode_item c k) -> (forall n, n ∈ L -> n <> next) ->
  kept L db o chain items
    L (set_free (set_updates db (<[fl_tailPage (pg_free db) := c']> (pg_updates db)))
         (set_tail (pg_free db) next (fl_tailSeq (pg_free db)))) o (chain ++ [next]) items.
Proof.
  intros I Hfull Hv Hsame HL. split.
  { rewrite <- (app_nil_r items) at 2. apply late_modify; [done|done|]. by eapply tail_not_item. }
  intros o0 chain0 items0 T. assert (chain <> []) as Hne by (intros ->; by pose proof (fi_head _ _ _ _ I)).
  destruct (length chain) as [|j] eqn:Hj; [by apply length_zero_iff_nil in Hj|].
  apply (traced_tail o0 chain0 items0 L db o chain items I T c c' _ j 255); [lia|done|done|auto|].
  destruct (tr_off _ _ _ _ _ _ _ _ T) as (R & P & ext & new & Ec & Ei & Ho & HR).
  exists R, P, (ext ++ [next]), new. rewrite !app_assoc, Ec.
  split; [done|]. split; [done|]. split; [done|]. intros n Hn. destruct (HR n Hn) as [|[Hl [Hf Hb]]]; [by left|right].
  split; [done|]. split; [|done]. pose proof (HL n Hl). set_solver.
Qed.

(** The tail node gets an item. *)
Lemma kept_push db o chain items j i ptr v c c' L :
  fl_inv db o chain items -> (o + length items = 255 * j + i)%nat -> length chain = S j ->
  view db (fl_tailPage (pg_free db)) = Some c -> (forall k, k <> i -> lnode_item c' k = lnode_item c k) ->
  (forall n, n ∈ L -> n = ptr) ->
  kept L db o chain items
    [] (set_free (set_updates db (<[fl_tailPage (pg_free db) := c']> (pg_updates db)))
         (set_tail (pg_free db) (fl_tailPage (pg_free db)) (fl_tailSeq (pg_free db) + 1))) o chain (items ++ [(ptr, v)]).
Proof.
  intros I Hj Hlen Hv Hsame HL.
  assert (late_kept db items (set_free (set_updates db (<[fl_tailPage (pg_free db) := c']> (pg_updates db)))
    (set_tail (pg_free db) (fl_tailPage (pg_free db)) (fl_tailSeq (pg_free db) + 1))) (items ++ [(ptr, v)])) as Hlk.
  { apply late_modify; [done|done|]. by eapply tail_not_item. }
  split; [exact Hlk|]. intros o0 chain0 items0 T.
  apply (traced_tail o0 chain0 items0 L db o chain items I T c c' _ j i); [lia|done|done|intros k Hk; apply Hsame; lia|].
  destruct (tr_off _ _ _ _ _ _ _ _ T) as (R & P & ext & new & Ec & Ei & Ho & HR).
  exists R, P, ext, (new ++ [(ptr, v)]). rewrite !app_assoc, Ei.
  split; [done|]. split; [done|]. split; [done|]. intros n Hn. left.
  destruct (HR n Hn) as [Hlt|[->%HL _]]; [by apply Hlk|]. apply late_new. cbn.
  pose proof (fi_max _ _ _ _ I). pose proof (fi_seq _ _ _ _ I). lia.
Qed.

(** The outcome of an operation on the list that adds up to [q] items. *)
Definition fl_step (q : Z) (db : Pager) (own : list Z) (db' : Pager)
    (o' : nat) (chain' : list Z) (items' : list item) : Prop :=
  fl_inv db' o' chain' items' /\ settled o' chain' items' /\
    same_file db db' /\ bound db <= bound db' <= bound db + 1 /\
    fl_tailSeq (pg_free db) <= fl_tailSeq (pg_free db') <= fl_tailSeq (pg_free db) + q /\
    updates_frame db db' own /\ owned_frame db own (owned chain' items').

Lemma popped_fresh db o chain items db' ptr head o' chain' items' :
  fl_inv db o chain items -> popped db o chain items db' ptr head o' chain' items' -> ptr <> 0 ->
  fl_inv db' o' chain' items' -> bound db' = bound db -> fresh db' chain' items' ptr.
Proof.
  intros I [(-> & _)|(_ & ver & -> & _ & _ & _ & _ & -> & _)] Hne I' Hb; [done|].
  pose proof (fi_nodup _ _ _ _ I) as Hn. cbn [fmap list_fmap fst] in Hn.
  split; [|rewrite Hb; apply (fi_bound _ _ _ _ I); cbn; set_solver].
  rewrite <- app_assoc in Hn. apply NoDup_app in Hn as (_ & _ & Hn).
  apply NoDup_app in Hn as (_ & N1 & N2). apply NoDup_cons in N2 as [N2 _].
  intros [Hc|Hi]%elem_of_app; [apply (N1 _ Hc); left|done].
Qed.

Lemma removed_fresh db o chain items db' ptr head o' chain' items' :
  fl_inv db o chain items -> popped db o chain items db' ptr head o' chain' items' -> head <> 0 ->
  fl_inv db' o' chain' items' -> bound db' = bound db ->
  fresh db' chain' items' head /\ head <> ptr.
Proof.
  intros I [(_ & -> & _)|(_ & ver & -> & _ & _ & _ & _ & -> & _)] Hne I' Hb; [done|].
  pose proof (fi_nodup _ _ _ _ I) as Hn. pose proof (fi_bound _ _ _ _ I head) as Hbd.
  unfold removed in *. rewrite (proj2 (Z.eqb_neq head 0)) in Hn, Hbd by done.
  cbn [fmap list_fmap fst app] in Hn, Hbd. apply NoDup_cons in Hn as [Hn _].
  split; [split|]; [|rewrite Hb; apply Hbd; left|]; set_solver.
Qed.

Lemma kept_pop db o chain items db' ptr head o' chain' items' :
  fl_inv db o chain items -> popped db o chain items db' ptr head o' chain' items' -> fl_inv db' o' chain' items' ->
  same_file db db' -> pg_updates db' = pg_updates db -> bound db' = bound db ->
  fl_tailSeq (pg_free db') = fl_tailSeq (pg_free db) ->
  kept [] db o chain items (removed head) db' o' chain' items'.
Proof.
  intros I Hpop I' Hsf Hu Hb Ht. destruct (popped_late _ _ _ _ _ _ _ _ _ _ I Hpop I' Hsf Hu Ht) as [Hlk _].
  split; [exact Hlk|]. intros o0 chain0 items0. apply (traced_pop _ _ _ _ _ _ _ _ ptr head); try done.
  intros Hh. by destruct (removed_fresh _ _ _ _ _ _ _ _ _ _ I Hpop Hh I' Hb).
Qed.

Lemma popped_shift db o chain items db' ptr head o' chain' items' :
  popped db o chain items db' ptr head o' chain' items' ->
  (o + length items + 255 * length chain' = o' + length items' + 255 * length chain)%nat.
Proof.
  intros [(_ & _ & _ & -> & -> & ->)|(_ & ver & -> & _ & _ & _ & _ & -> & Ho)]; [done|].
  rewrite length_app. cbn [length]. lia.
Qed.

Lemma popped_owned db o chain items db' ptr head o' chain' items' p :
  popped db o chain items db' ptr head o' chain' items' ->
  p ∈ owned chain' items' -> p ∈ owned chain items.
Proof.
  intros [(_ & _ & _ & -> & -> & ->)|(_ & ver & -> & _ & _ & _ & _ & -> & Ho)]; [done|]. cbn. set_solver.
Qed.

Lemma popped_ptr_owned db o chain items db' ptr head o' chain' items' :
  popped db o chain items db' ptr head o' chain' items' -> ptr <> 0 -> ptr ∈ owned chain items.
Proof.
  intros [(-> & _)|(_ & ver & -> & _)]; [done|]. intros _. cbn. set_solver.
Qed.

Lemma removed_owned db o chain items db' ptr head o' chain' items' :
  popped db o chain items db' ptr head o' chain' items' -> head <> 0 -> head ∈ owned chain items.
Proof.
  intros [(_ & -> & _)|(_ & ver & _ & _ & _ & _ & _ & -> & _)]; [done|]. intros Hne. unfold removed.
  rewrite (proj2 (Z.eqb_neq head 0)) by done. left.
Qed.

Lemma frame_modify db p c fl own :
  p ∈ own -> updates_frame db (set_free (set_updates db (<[p := c]> (pg_updates db))) fl) own.
Proof. intros Hp q Hq Hn. cbn. apply lookup_insert_ne. congruence. Qed.

Lemma frame_trans db db1 db2 own own1 :
  updates_frame db db1 own -> updates_frame db1 db2 own1 -> bound db <= bound db1 ->
  (forall p, p ∈ own1 -> p ∈ own \/ bound db <= p) -> updates_frame db db2 own.
Proof.
  intros H1 H2 Hb Ho p Hp Hn. rewrite (H2 p), (H1 p); auto; [lia|]. intros Hin%Ho. destruct Hin; [done|lia].
Qed.

(** The middle of [PushTail]: a page for the new tail node. *)
Lemma next_node_ok db o chain items (own := owned chain items) :
  fl_inv db o chain items -> items <> [] -> fl_room db 1 1 ->
  (o + length items = 255 * length chain)%nat ->
  exists db1 next0 head db' next o' chain' items' cn,
    flPop db = Ok (db1, next0, head) /\
    (if next0 =? 0 then pageAppend db1 (make BTREE_PAGE_SIZE) else Ok (db1, next0)) = Ok (db', next) /\
    fl_inv db' o' chain' items' /\ fresh db' chain' items' next /\
    view db' next = Some cn /\ len cn = BTREE_PAGE_SIZE /\
    (head <> 0 -> fresh db' (chain' ++ [next]) items' head /\ head ∈ own) /\
    (o' + length items' = 255 * length chain')%nat /\ same_file db db' /\
    bound db <= bound db' <= bound db + 1 /\ fl_tailSeq (pg_free db') = fl_tailSeq (pg_free db) /\
    updates_frame db db' own /\ owned_frame db own (owned chain' items') /\
    (next ∈ own \/ bound db <= next) /\ kept [] db o chain items (removed head) db' o' chain' items'.
Proof.
  intros I Hne [Hb1 Hb2] Hfull.
  destruct (flPop_ok db o chain items I) as (db1 & ptr & head & o1 & chain1 & items1 & E & Hpop & I1 & Hu & Hbd &
    Hsf & Hts & _); [done|by split; lia|].
  pose proof (popped_shift _ _ _ _ _ _ _ _ _ _ Hpop) as Hsh.
  assert (forall p, p ∈ owned chain1 items1 -> p ∈ own) as Hown by (intros; by eapply popped_owned).
  pose proof (kept_pop _ _ _ _ _ _ _ _ _ _ I Hpop I1 Hsf Hu Hbd Hts) as Hlk.
  exists db1, ptr, head. destruct (Z.eqb_spec ptr 0) as [->|Hp].
  - assert (head = 0) as ->.
    { destruct Hpop as [(_ & -> & _)|(? & _)]; [done|lia]. }
    destruct (append_inv db1 o1 chain1 items1 (make BTREE_PAGE_SIZE) I1) as (I2 & Hf & Hv); [split; lia|done|].
    pose proof (fi_num _ _ _ _ I1).
    assert (pg_updates db1 !! bound db1 = None) as Hnone.
    { destruct (pg_updates db1 !! bound db1) eqn:Eu; [|done]. apply (fi_upd _ _ _ _ I1) in Eu as [Eu _]. lia. }
    eexists _, (bound db1), o1, chain1, items1, _. split; [done|].
    split; [apply pageAppend_ok; first [done|lia]|]. split; [exact I2|]. split; [exact Hf|].
    split; [exact Hv|]. split; [done|]. split; [done|]. split; [lia|]. split; [exact Hsf|].
    unfold bound in *. cbn. split; [lia|]. split; [done|]. split_and!.
    + intros p Hp _. cbn. rewrite lookup_insert_ne by (unfold bound in *; lia). by rewrite Hu.
    + intros p Hp. left. auto.
    + right. lia.
    + eapply kept_trans; [exact Hlk|]. by apply kept_append.
  - pose proof (popped_fresh _ _ _ _ _ _ _ _ _ _ I Hpop Hp I1 Hbd) as Hf.
    assert (exists cn, view db ptr = Some cn /\ len cn = BTREE_PAGE_SIZE) as (cn & Hv & Hl).
    { destruct Hpop as [(-> & _)|(_ & ver & _ & _ & _ & _ & Hv & _)]; done. }
    exists db1, ptr, o1, chain1, items1, cn. split; [done|]. split; [done|]. split; [done|]. split; [done|].
    split; [by rewrite (view_frame db db1) by (rewrite ?Hu; done)|]. split; [done|]. split.
    { intros Hh. destruct (removed_fresh _ _ _ _ _ _ _ _ _ _ I Hpop Hh I1 Hbd) as [[Hf1 Hf2] Hne'].
      split; [|by eapply removed_owned]. split; [|done]. set_solver. }
    split; [lia|]. split; [done|]. split; [lia|]. split; [done|]. split_and!.
    + intros p _ _. by rewrite Hu.
    + intros p Hp'. left. auto.
    + left. by eapply popped_ptr_owned.
    + exact Hlk.
Qed.

Lemma step_app_owned chain (items : list item) next p :
  p ∈ owned (chain ++ [next]) items -> p = next \/ p ∈ owned chain items.
Proof. set_solver. Qed.

Lemma step_snoc_owned chain (items : list item) ptr v p :
  p ∈ owned chain (items ++ [(ptr, v)]) -> p = ptr \/ p ∈ owned chain items.
Proof. rewrite fmap_app. cbn. set_solver. Qed.

Lemma extendTail_ok db o chain items :
  fl_inv db o chain items -> items <> [] -> fl_room db 1 1 ->
  (o + length items = 255 * length chain)%nat ->
  exists db' o' chain' items', extendTail db = Ok db' /\
    fl_step 1 db (owned chain items) db' o' chain' items' /\ kept [] db o chain items [] db' o' chain' items'.
Proof.
  intros I Hne [Hb1 Hb2] Hfl. pose proof (fi_seq _ _ _ _ I). pose proof (fi_max _ _ _ _ I). unfold extendTail.
  destruct (next_node_ok db o chain items I Hne) as (db2 & next0 & head & db3 & next & o3 & chain3 & items3 & cn &
    E2 & E3 & I3 & Hf3 & Hv3 & Hln3 & Hhead & Hfull & Hsf & Hbd & Hts & Hfr & Hown & Hnext & Hlk); [by split|done|].
  rewrite E2. step_res. rewrite E3. step_res.
  destruct (link_node_ok db3 o3 chain3 items3 next cn I3 Hf3 Hfull Hv3 Hln3) as (c4 & E4 & I4 & c4' & Hv4 & Hs4).
  { split; lia. }
  rewrite E4. step_res. cbn [pg_free set_updates set_free set_tail fl_tailSeq fl_tailPage].
  set (db4 := set_free (set_updates db3 (<[fl_tailPage (pg_free db3) := c4]> (pg_updates db3)))
    (set_tail (pg_free db3) next (fl_tailSeq (pg_free db3)))) in *.
  assert (bound db4 = bound db3 /\ fl_tailSeq (pg_free db4) = fl_tailSeq (pg_free db)) as [Hb4 Hts4]
    by (split; [done|cbn; lia]).
  assert (updates_frame db db4 (owned chain items)) as Hfr4.
  { eapply frame_trans; [exact Hfr|apply (frame_modify _ _ _ _ (owned chain3 items3))|lia|exact Hown].
    apply elem_of_app. left. by eapply tail_in. }
  assert (owned_frame db (owned chain items) (owned (chain3 ++ [next]) items3)) as Hown4.
  { intros p [->|Hp]%step_app_owned; [done|by apply Hown]. }
  assert (same_file db db4) as Hsf4 by (eapply same_file_trans; [exact Hsf|by repeat split]).
  assert (kept [] db o chain items (removed head) db4 o3 (chain3 ++ [next]) items3) as Hlk4.
  { eapply kept_trans; [exact Hlk|]. eapply kept_link; [done|done|exact Hv4|exact Hs4|].
    intros n. unfold removed. destruct (Z.eqb_spec head 0) as [|Hh]; [by intros ?%not_elem_of_nil|].
    intros ->%list_elem_of_singleton ->. destruct (Hhead Hh) as [[Hfh _] _]. apply Hfh. set_solver. }
  destruct (Z.eqb_spec head 0) as [->|Hh]; cbn [negb].
  { exists db4, o3, (chain3 ++ [next]), items3. split; [done|]. split; [|exact Hlk4].
    split; [exact I4|]. split; [split; rewrite length_app; cbn; lia|].
    split; [exact Hsf4|]. split; [lia|]. split; [lia|]. done. }
  destruct (Hhead Hh) as [Hfh Hho].
  destruct (push_item_ok db4 o3 (chain3 ++ [next]) items3 (length chain3) 0 head I4) as (c5 & E5 & I5 & c5' & Hv5 & Hs5).
  { lia. } { lia. } { rewrite length_app. cbn. lia. } { exact Hfh. } { split; lia. }
  change (Z.of_nat 0) with 0 in E5. change (fl_tailPage (pg_free db4)) with next in E5, I5.
  change (fl_curVer (set_tail _ _ _)) with (fl_curVer (pg_free db4)). rewrite E5. step_res.
  cbn [pg_free set_updates set_free set_tail fl_tailSeq fl_tailPage]. rewrite Hts4, u64_small by lia.
  rewrite Hts4 in I5. eexists _, o3, (chain3 ++ [next]), _. split; [reflexivity|]. split.
  2:{ eapply kept_trans; [exact Hlk4|]. rewrite <- Hts4.
    eapply (kept_push db4 o3 (chain3 ++ [next]) items3 (length chain3) 0); [exact I4|lia|rewrite length_app; cbn; lia|exact Hv5|exact Hs5|].
    intros n. unfold removed. rewrite (proj2 (Z.eqb_neq _ _)) by done. by intros ?%list_elem_of_singleton. }
  split; [exact I5|]. split; [split; rewrite !length_app; cbn; lia|].
  split; [eapply same_file_trans; [exact Hsf4|]; by repeat split|].
  change (bound (set_free _ _)) with (bound db4). cbn [pg_free set_free set_tail fl_tailSeq].
  split; [lia|]. split; [lia|]. split.
  - eapply frame_trans; [exact Hfr4|apply frame_modify| |exact Hown4]; [set_solver|lia].
  - intros p [->|Hp]%step_snoc_owned; [by left|by apply Hown4].
Qed.

Lemma PushTail_ok db o chain items ptr :
  fl_inv db o chain items -> settled o chain items -> fresh db chain items ptr -> fl_room db 1 2 ->
  exists db' o' chain' items', PushTail db ptr = Ok db' /\
    fl_step 2 db (ptr :: owned chain items) db' o' chain' items' /\ kept [ptr] db o chain items [] db' o' chain' items' /\
    (ptr ∈ late (pg_free db') items' /\ pg_updates db' !! ptr = pg_updates db !! ptr).
Proof.
  intros I Hset Hf [Hb1 Hb2]. destruct (settled_index _ _ _ Hset) as (j & i & Hj & Hi & Hlen).
  pose proof (fi_max _ _ _ _ I) as Hmax. pose proof (tail_in _ _ _ _ I) as Htail.
  unfold PushTail. rewrite (fl_check_ok _ _ _ _ I) by (by eapply settled_empty).
  step_res. rewrite (tail_slot _ _ _ _ j i I Hj Hi).
  destruct (push_item_ok db o chain items j i ptr I Hj Hi Hlen Hf) as (c' & E & I1 & c0 & Hv0 & Hs0); [split; lia|].
  rewrite E. step_res. rewrite u64_small by lia. cbn [pg_free set_updates set_free set_tail fl_tailSeq fl_tailPage].
  set (db1 := set_free _ _) in *. set (items1 := items ++ _) in *.
  assert (length items1 = S (length items)) as Hl1 by (unfold items1; rewrite length_app; cbn; lia).
  assert (updates_frame db db1 (ptr :: owned chain items)) as Hfr1.
  { apply frame_modify. right. apply elem_of_app. by left. }
  assert (forall p, p ∈ owned chain items1 -> p ∈ ptr :: owned chain items) as Hown1.
  { intros p [->|Hp]%step_snoc_owned; [left|by right]. }
  assert (kept [ptr] db o chain items [] db1 o chain items1) as Hlk1.
  { eapply kept_push; [done|exact Hj|exact Hlen|exact Hv0|exact Hs0|]. by intros n ?%list_elem_of_singleton. }
  assert (ptr ∈ late (pg_free db1) items1) as Hlp1.
  { apply late_new. cbn. pose proof (fi_seq _ _ _ _ I). lia. }
  assert (pg_updates db1 !! ptr = pg_updates db !! ptr) as Hup1.
  { cbn. apply lookup_insert_ne. destruct Hf as [Hfn _]. intros E1. apply Hfn, elem_of_app. left. by rewrite <- E1. }
  destruct (decide (S i = 255)%nat) as [Hw|Hw].
  2:{ assert (seq2idx (fl_tailSeq (pg_free db) + 1) = Z.of_nat (S i)) as ->.
      { apply (tail_slot db1 o chain items1 j); [exact I1|lia|lia]. }
      rewrite (proj2 (Z.eqb_neq _ 0)) by lia. exists db1, o, chain, items1.
      split; [done|]. split; [|by split]. split; [exact I1|]. split; [split; lia|]. split; [by repeat split|].
      unfold bound. cbn. split; [lia|]. split; [lia|]. split; [done|]. intros p Hp. left. auto. }
  assert (seq2idx (fl_tailSeq (pg_free db) + 1) = 0) as ->.
  { change 0 with (Z.of_nat 0). apply (tail_slot db1 o chain items1 (S j)); [exact I1|lia|lia]. }
  change (0 =? 0) with true. cbv iota.
  destruct (extendTail_ok db1 o chain items1 I1) as (db' & o' & chain' & items' & -> & (I' & Hs' & Hsf & Hb & Hts &
    Hfr & Hown) & Hlk).
  { by destruct items. } { unfold fl_room, bound. cbn. unfold bound in *. lia. } { lia. }
  assert (bound db1 = bound db /\ fl_tailSeq (pg_free db1) = fl_tailSeq (pg_free db) + 1) as [Hb1' Ht1] by done.
  rewrite Hb1', Ht1 in *. exists db', o', chain', items'. split; [done|]. split.
  2:{ split; [by eapply kept_trans|]. destruct (proj1 Hlk ptr Hlp1) as [H1 H2]. split; [done|congruence]. }
  split; [exact I'|]. split; [exact Hs'|]. split; [eapply same_file_trans; [|exact Hsf]; by repeat split|].
  split; [lia|]. split; [lia|]. split.
  - eapply frame_trans; [exact Hfr1|exact Hfr|lia|]. intros p Hp. left. auto.
  - intros p Hp. destruct (Hown p Hp) as [Hp'|]; [left; auto|right; lia].
Qed.
