(* ===== verification/PagerStore.v ===== *)
(** * The database file is a page store

    [pageRead], [pageAlloc] and [PushTail] keep the promises that the tree
    relies on: a page in use keeps its content until it is deallocated, and
    is never handed out again before that. *)

From S2P Require Import Prelude.
From S2P Require Import GoBytes.
From S2P Require Import BNode.
From S2P Require Import BTree.
From S2P Require Import BTreeRep.
From S2P Require Import Conflict.
From S2P Require Import Pager.
From S2P Require Import PagerFacts.
From S2P Require Import FreeListFacts.
From S2P Require Import FreeListOps.

(** ** Taking a page from the list *)

(** What [PopHead] hands out: nothing, or the oldest free page, which was
    freed before the last [SetMaxVer] and at a version no reader needs. *)
Definition taken (db : Pager) (items : list item) (ptr : Z) : Prop :=
  ptr = 0 \/
  exists ver rest, items = (ptr, ver) :: rest /\ ver <= fl_maxVer (pg_free db) /\
    fl_headSeq (pg_free db) < fl_maxSeq (pg_free db) /\ pg_updates db !! ptr = None.

Lemma PopHead_ok db o chain items :
  fl_inv db o chain items -> settled o chain items -> fl_room db 1 3 ->
  exists db' ptr o' chain' items',
    PopHead db = Ok (db', ptr) /\ taken db items ptr /\
    fl_step 2 db (owned chain items) db' o' chain' items' /\ kept [] db o chain items [] db' o' chain' items' /\
    (ptr <> 0 -> 0 < ptr < bound db /\ ptr ∈ owned chain items /\ ptr ∉ owned chain' items' /\
       ptr ∉ late (pg_free db) items /\ pg_updates db' !! ptr = None).
Proof.
  intros I Hset [Hb1 Hb2]. unfold PopHead.
  destruct (flPop_ok db o chain items I) as (db1 & ptr & head & o1 & chain1 & items1 & -> & Hpop & I1 & Hu & Hbd &
    Hsf & Hts & _); [by eapply settled_empty|by split; lia|]. step_res.
  pose proof (popped_shift _ _ _ _ _ _ _ _ _ _ Hpop) as Hsh.
  destruct (popped_late _ _ _ _ _ _ _ _ _ _ I Hpop I1 Hsf Hu Hts) as [_ Hnl].
  pose proof (kept_pop _ _ _ _ _ _ _ _ _ _ I Hpop I1 Hsf Hu Hbd Hts) as Hlk.
  assert (settled o1 chain1 items1) as Hset1 by (destruct Hset; split; lia).
  assert (taken db items ptr) as Htk.
  { destruct Hpop as [(-> & _)|(_ & ver & -> & Hv & Hlt & Hnone & _)]; [by left|right; by exists ver, items1]. }
  assert (ptr <> 0 -> pg_updates db1 !! ptr = None) as Hnone.
  { rewrite Hu. intros Hp. destruct Htk as [|(_ & _ & _ & _ & _ & ?)]; [done|done]. }
  assert (ptr <> 0 -> fresh db1 chain1 items1 ptr /\ ptr ∈ owned chain items) as Hfp.
  { intros Hp. split; [|by eapply popped_ptr_owned].
    exact (popped_fresh _ _ _ _ _ _ _ _ _ _ I Hpop Hp I1 Hbd). }
  assert (forall p, p ∈ owned chain1 items1 -> p ∈ owned chain items) as Hown by (intros; by eapply popped_owned).
  destruct (Z.eqb_spec head 0) as [->|Hh]; cbn [negb].
  { exists db1, ptr, o1, chain1, items1. step_res. split; [done|]. split; [done|]. split.
    - split; [done|]. split; [done|]. split; [done|]. split; [lia|]. split; [lia|]. split.
      + intros p _ _. by rewrite Hu.
      + intros p Hp. left. auto.
    - split; [exact Hlk|]. intros Hp. destruct (Hfp Hp) as [[Hn Hbp] Ho]. rewrite Hbd in Hbp. auto 6. }
  destruct (removed_fresh _ _ _ _ _ _ _ _ _ _ I Hpop Hh I1 Hbd) as [Hfh Hne].
  destruct (PushTail_ok db1 o1 chain1 items1 head I1 Hset1 Hfh) as (db2 & o2 & chain2 & items2 & E & (I2 & Hset2 & Hsf2 &
    Hb & Ht & Hfr & Ho2) & Hlk2 & _); [split; lia|]. rewrite E. step_res.
  exists db2, ptr, o2, chain2, items2. split; [done|]. split; [done|]. rewrite Hbd, Hts in *.
  assert (head ∈ owned chain items) as Hho by by eapply removed_owned.
  assert (forall p, p ∈ head :: owned chain1 items1 -> p ∈ owned chain items) as Hown'.
  { intros p [->|Hp]%elem_of_cons; auto. }
  split.
  - split; [done|]. split; [done|]. split; [by eapply same_file_trans|]. split; [lia|]. split; [lia|]. split.
    + intros p Hp Hn. rewrite (Hfr p); [by rewrite Hu|by rewrite Hbd|auto].
    + intros p Hp. destruct (Ho2 p Hp) as [Hp'|]; [left; auto|right; lia].
  - split.
    { eapply kept_trans; [exact Hlk|]. unfold removed. rewrite (proj2 (Z.eqb_neq _ _)) by done. exact Hlk2. }
    intros Hp. destruct (Hfp Hp) as [[Hn Hbp] Ho]. rewrite Hbd in Hbp. split; [done|]. split; [done|].
    assert (ptr ∉ head :: owned chain1 items1) as Hn' by (intros [?|?]%elem_of_cons; [congruence|done]).
    split; [|split; [auto|rewrite (Hfr ptr); [auto|by rewrite Hbd|done]]].
    intros Hin. destruct (Ho2 ptr Hin); [done|lia].
Qed.

(** A page outside the list written. *)
Lemma set_page_inv db o chain items p c :
  fl_inv db o chain items -> p ∉ owned chain items -> 0 < p < bound db -> len c = BTREE_PAGE_SIZE ->
  fl_inv (set_updates db (<[p := c]> (pg_updates db))) o chain items.
Proof.
  intros I Hn Hb Hl. destruct I as [Io Ih It Is Im Ir If Iit Il Ip Ind Ib Iv Iold Inew Iupd Inum Iapp].
  assert (forall q, q ∈ owned chain items ->
    view (set_updates db (<[p := c]> (pg_updates db))) q = view db q) as Hview.
  { intros q Hq. rewrite view_insert, decide_False; [done|]. by intros ->. }
  assert (forall q, q ∈ chain -> q ∈ owned chain items) as Hc by (intros; apply elem_of_app; auto).
  constructor; auto.
  - intros k e j i Hk Hj Hi. destruct (Iit k e j i Hk Hj Hi) as (n & cn & Hnn & Hvn & Hit).
    exists n, cn. rewrite Hview; [auto|]. apply Hc. by eapply list_elem_of_lookup_2.
  - intros j n n' Hn1 Hn2. rewrite Hview; [eauto|]. apply Hc. by eapply list_elem_of_lookup_2.
  - intros n Hn1. rewrite Hview; auto.
  - intros k q v Hk Hlt. assert (q ∈ owned chain items) as Hq.
    { apply elem_of_app. right. apply list_elem_of_lookup_2 in Hk. by apply (list_elem_of_fmap_2 fst) in Hk. }
    rewrite Hview by done. cbn. rewrite lookup_insert_ne by (by intros ->). eauto.
  - intros q cq. cbn. rewrite lookup_insert. case_decide; [subst; intros [= <-]; by split|apply Iupd].
  - intros q Hq. apply lookup_insert_is_Some'. right. by apply Iapp.
Qed.

(** ** The promises *)

(** The pages of the tree, apart from the list. *)
Definition live_ok (db : Pager) (own : list Z) (m : heap) : Prop :=
  forall p c, m !! p = Some c -> view db p = Some c /\ p ∉ own /\ 0 < p < bound db.

Definition pager_state (db : Pager) (o : nat) (chain : list Z) (items : list item) (m : heap) (r : nat) : Prop :=
  fl_inv db o chain items /\ settled o chain items /\
    live_ok db (owned chain items) m /\ fl_room db (2 * Z.of_nat r) (3 * Z.of_nat r).

Definition pager_ok (db : Pager) (m : heap) (r : nat) : Prop :=
  exists o chain items, pager_state db o chain items m r.

(** What one request leaves alone: the file, the pending updates of the pages
    that are live or late, and the late pages, which stay in the list. *)
Definition undisturbed (db : Pager) (o : nat) (chain : list Z) (m : heap) (items : list item)
    (db' : Pager) (o' : nat) (chain' : list Z) (items' : list item) : Prop :=
  same_file db db' /\ bound db <= bound db' <= bound db + 2 /\ kept [] db o chain items [] db' o' chain' items' /\
  forall p, p ∈ dom m -> pg_updates db' !! p = pg_updates db !! p.

Lemma live_step q db own db' o' chain' items' own0 m :
  fl_step q db own db' o' chain' items' -> live_ok db own0 m ->
  (forall p, p ∈ own -> p ∉ dom m) -> live_ok db' (owned chain' items') m.
Proof.
  intros (_ & _ & Hsf & Hb & _ & Hfr & Ho) Hl Hd p c Hp. destruct (Hl p c Hp) as (Hv & _ & Hpb).
  assert (p ∉ own) as Hn by (intros Hin; by apply (Hd p Hin), elem_of_dom; eexists).
  split_and!; [|intros Hin; destruct (Ho p Hin); [done|lia]|lia|lia].
  rewrite (view_frame db db' p); auto.
Qed.

Lemma live_not_owned db own m p : live_ok db own m -> p ∈ own -> p ∉ dom m.
Proof. intros Hl Hp [c Hc]%elem_of_dom. by destruct (Hl p c Hc) as (_ & ? & _). Qed.

Lemma step_room q db own db' o' chain' items' r :
  fl_step q db own db' o' chain' items' -> q <= 3 -> fl_room db (2 * Z.of_nat (S r)) (3 * Z.of_nat (S r)) ->
  fl_room db' (2 * Z.of_nat r + 1) (3 * Z.of_nat r).
Proof. intros (_ & _ & _ & Hb & Ht & _) Hq [H1 H2]. split; lia. Qed.

(** A step of the list, seen from the live pages. *)
Lemma step_undisturbed q db own own0 o chain db' o' chain' items items' m :
  fl_step q db own db' o' chain' items' -> live_ok db own0 m -> (forall p, p ∈ own -> p ∉ dom m) ->
  kept [] db o chain items [] db' o' chain' items' -> undisturbed db o chain m items db' o' chain' items'.
Proof.
  intros (_ & _ & Hsf & Hb & _ & Hfr & _) Hl Hn Hlk. split; [done|]. split; [lia|]. split; [done|].
  intros p Hp. apply Hfr; [|by intros ?%Hn]. apply elem_of_dom in Hp as [c Hc]. by destruct (Hl p c Hc) as (_ & _ & ?).
Qed.

Lemma pageRead_live db m r p c : pager_ok db m r -> m !! p = Some c -> pageRead db p = Ok c.
Proof.
  intros (o & chain & items & I & _ & Hl & [Hb _]) Hp. destruct (Hl p c Hp) as (Hv & Hn & Hpb).
  apply pageRead_ok; [done|lia|lia|]. intros [E ->]. apply (fi_new _ _ _ _ I) in E as [_ H1].
  apply Hn, elem_of_app. by left.
Qed.

Lemma live_insert db db' own own' m p c :
  live_ok db own m -> (forall q, 0 < q < bound db -> q <> p -> view db' q = view db q) ->
  bound db <= bound db' -> (forall q, q ∈ own' -> q ∈ own) ->
  view db' p = Some c -> p ∉ own' -> 0 < p < bound db' -> live_ok db' own' (<[p := c]> m).
Proof.
  intros Hl Hv Hb Ho Hvp Hnp Hpb q cq. rewrite lookup_insert. case_decide as E.
  - subst q. by intros [= <-].
  - intros Hq. destruct (Hl q cq Hq) as (Hvq & Hnq & Hbq). split_and!; [|auto|lia|lia].
    rewrite Hv; auto.
Qed.

(** A page written that is neither live nor in the list. *)
Lemma undisturbed_insert db db1 db2 o chain m items o1 chain1 items1 p c :
  undisturbed db o chain m items db1 o1 chain1 items1 -> same_file db1 db2 ->
  pg_updates db2 = <[p := c]> (pg_updates db1) -> bound db1 <= bound db2 <= bound db + 2 ->
  p ∉ dom m -> kept [] db1 o1 chain1 items1 [] db2 o1 chain1 items1 -> undisturbed db o chain m items db2 o1 chain1 items1.
Proof.
  intros (Hsf & Hb & Hlk & Hl) Hsf2 Eu Hb2 Hp Hk. split; [by eapply same_file_trans|]. split; [lia|].
  split; [by eapply kept_trans|]. intros q Hq. rewrite Eu, lookup_insert_ne by congruence. by apply Hl.
Qed.

(** [pageAlloc] hands out a page that is not live. *)
Lemma pageAlloc_ok db o chain items m r c :
  pager_state db o chain items m (S r) -> len c = BTREE_PAGE_SIZE ->
  exists db' p (o' : nat) (chain' : list Z) (items' : list item), pageAlloc db c = Ok (db', p) /\ 0 < p < 2 ^ 64 /\ m !! p = None /\
    pager_state db' o' chain' items' (<[p := c]> m) r /\ undisturbed db o chain m items db' o' chain' items'.
Proof.
  intros (I & Hset & Hl & Hroom) Hc.
  destruct (PopHead_ok db o chain items I Hset) as (db1 & ptr & o1 & chain1 & items1 & E & _ & Hstep & Hlk & Hptr).
  { destruct Hroom. split; lia. }
  unfold pageAlloc. rewrite E. step_res.
  pose proof (live_step _ _ _ _ _ _ _ _ _ Hstep Hl (fun p => live_not_owned _ _ _ p Hl)) as Hl1.
  pose proof (step_undisturbed _ _ _ _ _ _ _ _ _ _ _ _ Hstep Hl (fun p => live_not_owned _ _ _ p Hl) Hlk) as Hun.
  assert (fl_room db1 (2 * Z.of_nat r + 1) (3 * Z.of_nat r)) as Hroom1 by (eapply step_room; eauto; lia).
  destruct Hstep as (I1 & Hset1 & Hsf & Hb & Ht & _ & Hown). destruct Hroom as [Hr1 Hr2], Hroom1 as [Hr3 Hr4].
  pose proof (fi_num _ _ _ _ I1) as Hnum.
  destruct (Z.eqb_spec ptr 0) as [->|Hp]; cbn [negb].
  - assert (pg_updates db1 !! bound db1 = None) as Hnone.
    { destruct (pg_updates db1 !! bound db1) eqn:Eu; [|done]. apply (fi_upd _ _ _ _ I1) in Eu as [Eu _]. lia. }
    destruct (append_inv db1 o1 chain1 items1 c I1) as (I2 & [Hf Hfb] & Hv); [split; lia|done|].
    assert (m !! bound db1 = None) as Hm.
    { destruct (m !! bound db1) eqn:Em; [|done]. apply Hl1 in Em as (_ & _ & ?). lia. }
    eexists _, (bound db1), o1, chain1, items1. split; [apply pageAppend_ok; first [done|lia]|].
    split; [unfold bound in *; lia|]. split; [exact Hm|]. split.
    + split; [exact I2|]. split; [exact Hset1|]. split.
      * apply (live_insert db1 _ (owned chain1 items1)); auto; [|unfold bound; cbn; lia].
        intros q Hq Hne. unfold view. cbn. by rewrite lookup_insert_ne.
      * unfold fl_room, bound in *. cbn. lia.
    + eapply undisturbed_insert; [exact Hun|by repeat split|done| |by apply not_elem_of_dom|by apply kept_append].
      unfold bound in *. cbn. lia.
  - destruct (Hptr Hp) as (Hpb & Hpo & Hpn & Hpl & Hpu).
    rewrite assert_true by (by apply bool_decide_true). eexists _, ptr, o1, chain1, items1. split; [done|].
    split; [lia|]. assert (ptr ∉ dom m) as Hpd by exact (live_not_owned _ _ _ _ Hl Hpo).
    split; [by apply not_elem_of_dom|]. split.
    + split; [apply set_page_inv; auto; lia|]. split; [done|]. split.
      * apply (live_insert db1 _ (owned chain1 items1)); auto; try done.
        -- intros q Hq Hne. by rewrite view_insert, decide_False.
        -- by rewrite view_insert, decide_True.
        -- change (bound (set_updates _ _)) with (bound db1). lia.
      * split; [change (bound (set_updates _ _)) with (bound db1); lia|cbn; lia].
    + eapply undisturbed_insert; [exact Hun|by repeat split|done| |done|by apply kept_set_page].
      change (bound (set_updates _ _)) with (bound db1). lia.
Qed.

(** [PushTail] puts a live page among the late ones. *)
Lemma PushTail_live_ok db o chain items m r p :
  pager_state db o chain items m (S r) -> is_Some (m !! p) ->
  exists db' o' chain' items', PushTail db p = Ok db' /\
    pager_state db' o' chain' items' (delete p m) r /\ undisturbed db o chain m items db' o' chain' items' /\
    p ∈ late (pg_free db') items'.
Proof.
  intros (I & Hset & Hl & Hroom) [c Hp]. destruct (Hl p c Hp) as (_ & Hn & Hpb).
  destruct (PushTail_ok db o chain items p I Hset) as (db' & o' & chain' & items' & E & Hstep & Hlk & Hpl & Hpu);
    [done| |].
  { destruct Hroom. split; lia. }
  exists db', o', chain', items'. split; [done|].
  assert (forall q, q ∈ p :: owned chain items -> q ∉ dom (delete p m)) as Hno.
  { intros q [->|Hq]%elem_of_cons; rewrite dom_delete; [set_solver|].
    pose proof (live_not_owned _ _ _ q Hl Hq). set_solver. }
  assert (live_ok db (owned chain items) (delete p m)) as Hl' by (intros q cq [_ Hq]%lookup_delete_Some; by apply Hl).
  pose proof (step_undisturbed _ _ _ _ _ _ _ _ _ _ _ _ Hstep Hl' Hno (kept_less _ _ _ _ _ _ _ _ _ _ Hlk)) as (Hsf & Hb & _ & Hup).
  split; [|split; [|exact Hpl]].
  - pose proof Hstep as (I' & Hset' & _). split; [done|]. split; [done|]. split; [by eapply live_step|].
    eapply step_room in Hstep as [H1 H2]; [|lia|exact Hroom]. split; lia.
  - split; [done|]. split; [done|]. split; [by eapply kept_less|]. intros q Hq. destruct (decide (q = p)) as [->|Hne]; [done|].
    apply Hup. rewrite dom_delete. set_solver.
Qed.

Lemma state_weaken db o chain items m r r' :
  pager_state db o chain items m r -> (r' <= r)%nat -> pager_state db o chain items m r'.
Proof. intros (I & Hset & Hl & [H1 H2]) Hle. split; [done|]. split; [done|]. split; [done|]. split; lia. Qed.

Lemma pageAlloc_live db m r c :
  pager_ok db m (S r) -> len c = BTREE_PAGE_SIZE ->
  exists db' p, pageAlloc db c = Ok (db', p) /\ 0 < p < 2 ^ 64 /\ m !! p = None /\
    pager_ok db' (<[p := c]> m) r.
Proof.
  intros (o & chain & items & Hst) Hc.
  destruct (pageAlloc_ok _ _ _ _ _ _ _ Hst Hc) as (db' & p & o' & chain' & items' & E & Hp & Hm & Hst' & _).
  exists db', p. split_and!; try done; [lia..|]. by exists o', chain', items'.
Qed.

Lemma PushTail_live db m r p :
  pager_ok db m (S r) -> is_Some (m !! p) ->
  exists db', PushTail db p = Ok db' /\ pager_ok db' (delete p m) r.
Proof.
  intros (o & chain & items & Hst) Hp.
  destruct (PushTail_live_ok _ _ _ _ _ _ _ Hst Hp) as (db' & o' & chain' & items' & E & Hst' & _).
  exists db'. split; [done|]. by exists o', chain', items'.
Qed.

#[export] Program Instance pager_store_ok : PageStoreOk Pager := {| store_ok := pager_ok |}.
Next Obligation. intros s m r p page Hs Hp. by eapply pageRead_live. Qed.
Next Obligation. intros s m r page Hs Hp. by apply pageAlloc_live. Qed.
Next Obligation. intros s m r p Hs Hp. by apply PushTail_live. Qed.
Next Obligation.
  intros s m r r' (o & chain & items & Hst) Hle. exists o, chain, items. by eapply state_weaken.
Qed.
