(* ===== verification/CowStore.v ===== *)
(** * Copy on write

    During a commit, the tree's pages come from the file through the free
    list.  The pages [K] of the tree before the commit are not written by it:
    each of them is still live, or late, that is freed by this commit and kept
    from reuse until [SetMaxVer].  The nodes of the free list before still hold
    its items.  [cow_ok] is a second way in which the pages
    of the file are a page store, with that promise added. *)

From S2P Require Import Prelude.
From S2P Require Import GoBytes.
From S2P Require Import BNode.
From S2P Require Import BNodeFacts.
From S2P Require Import BTree.
From S2P Require Import BTreeRep.
From S2P Require Import Conflict.
From S2P Require Import Pager.
From S2P Require Import PagerFacts.
From S2P Require Import FreeListFacts.
From S2P Require Import FreeListOps.
From S2P Require Import PagerStore.

Section cow.
Context (base : Pager) (K : gset Z) (o0 : nat) (chain0 : list Z) (items0 : list item).

(** The page [p] of the tree before is as it was. *)
Definition guarded (db : Pager) (m : heap) (items : list item) (p : Z) : Prop :=
  pg_updates db !! p = pg_updates base !! p /\ (p ∈ dom m \/ p ∈ late (pg_free db) items).

Definition cow_ok (db : Pager) (m : heap) (r : nat) : Prop :=
  exists o chain items, pager_state db o chain items m r /\ same_file base db /\
    bound base <= bound db /\ bound db + 2 * Z.of_nat r < 2 ^ 48 /\ set_Forall (guarded db m items) K /\
    traced o0 chain0 items0 [] db o chain items.

Lemma cow_pager db m r : cow_ok db m r -> pager_ok db m r.
Proof using. intros (o & chain & items & Hst & _). by exists o, chain, items. Qed.

(** One request keeps the guard. *)
Lemma guarded_step db o chain m items db' o' chain' m' items' p :
  undisturbed db o chain m items db' o' chain' items' -> (p ∈ dom m -> p ∈ dom m' \/ p ∈ late (pg_free db') items') ->
  guarded db m items p -> guarded db' m' items' p.
Proof using.
  intros (_ & _ & Hlk & Hl) Hm [Hu [Hp|Hp]].
  - split; [by rewrite Hl|auto].
  - destruct (proj1 Hlk p Hp) as [Hp' Hu']. split; [congruence|by right].
Qed.

Lemma cow_new db m r c :
  cow_ok db m (S r) -> len c = BTREE_PAGE_SIZE ->
  exists db' p, pageAlloc db c = Ok (db', p) /\ 0 < p < 2 ^ 64 /\ m !! p = None /\ cow_ok db' (<[p := c]> m) r.
Proof using.
  intros (o & chain & items & Hst & Hsf & Hb & Hb' & HK & HT) Hc.
  destruct (pageAlloc_ok _ _ _ _ _ _ _ Hst Hc) as (db' & p & o' & chain' & items' & E & Hp & Hm & Hst' & Hun).
  exists db', p. split_and!; try done; [lia..|]. exists o', chain', items'. split; [exact Hst'|].
  pose proof Hun as (Hsf' & Hbd & Hkept & _). split; [by eapply same_file_trans|]. split; [lia|]. split; [lia|].
  split; [|by apply Hkept].
  intros q Hq. eapply guarded_step; [exact Hun| |by apply HK]. intros Hqm. left. rewrite dom_insert. set_solver.
Qed.

Lemma cow_del db m r p :
  cow_ok db m (S r) -> is_Some (m !! p) -> exists db', PushTail db p = Ok db' /\ cow_ok db' (delete p m) r.
Proof using.
  intros (o & chain & items & Hst & Hsf & Hb & Hb' & HK & HT) Hp.
  destruct (PushTail_live_ok _ _ _ _ _ _ _ Hst Hp) as (db' & o' & chain' & items' & E & Hst' & Hun & Hlate).
  exists db'. split; [done|]. exists o', chain', items'. split; [exact Hst'|].
  pose proof Hun as (Hsf' & Hbd & Hkept & _). split; [by eapply same_file_trans|]. split; [lia|]. split; [lia|].
  split; [|by apply Hkept].
  intros q Hq. pose proof (HK q Hq) as Hg. destruct (decide (q = p)) as [->|Hne].
  - destruct (Hg) as [Hu _]. split; [|by right].
    destruct Hst as (_ & _ & Hl & _).
    destruct Hun as (_ & _ & _ & Hup). rewrite Hup; [done|by apply elem_of_dom].
  - eapply guarded_step; [exact Hun| |exact Hg]. intros Hqm. left. rewrite dom_delete. set_solver.
Qed.

(** Not an instance by default: the plain one is. *)
#[local] Program Instance cow_store_ok : PageStoreOk Pager := {| store_ok := cow_ok |}.
Next Obligation. intros s m r p page Hs%cow_pager Hp. by eapply pageRead_live. Qed.
Next Obligation. intros s m r page. apply cow_new. Qed.
Next Obligation. intros s m r p. apply cow_del. Qed.
Next Obligation.
  intros s m r r' (o & chain & items & Hst & Hsf & Hb & Hb' & HK & HT) Hle. exists o, chain, items.
  split; [by eapply state_weaken|]. split; [done|]. split; [done|]. split; [lia|by split].
Qed.

End cow.

(** At the beginning of a commit, every live page is guarded. *)
Lemma cow_begin db o chain items m r :
  pager_state db o chain items m r -> bound db + 2 * Z.of_nat r < 2 ^ 48 -> cow_ok db (dom m) o chain items db m r.
Proof.
  intros Hst Hb. exists o, chain, items. split; [done|]. split; [apply same_file_refl|].
  split; [lia|]. split; [done|]. split; [|apply traced_begin; by destruct Hst]. intros p Hp. split; [done|by left].
Qed.
