(* ===== verification/StmtScanner.v ===== *)
(** * Splitting the input into statements (StmtScanner, src/db/ql_parse.go)

    The prompt appends lines to the scanner and asks it for statements: it
    cuts the input at semicolons that are not inside a string literal. *)

From S2P Require Import Prelude.
From S2P Require Import GoBytes.

(** ** Characters *)

Definition between (lo hi : Z) (b : byte) : bool :=
  (lo <=? byte.unsigned b) && (byte.unsigned b <=? hi).

Definition is_byte (n : Z) (b : byte) : bool := byte.unsigned b =? n.

(** [unicode.IsSpace]: tab to carriage return, space, U+0085 and U+00A0. *)
Definition isSpace (ch : byte) : bool :=
  between 9 13 ch || is_byte 32 ch || is_byte 133 ch || is_byte 160 ch.

(** [unicode.IsLetter] below 256. *)
Definition IsLetter (ch : byte) : bool :=
  between 65 90 ch || between 97 122 ch || is_byte 170 ch || is_byte 181 ch || is_byte 186 ch ||
  between 192 214 ch || between 216 246 ch || between 248 255 ch.

(** [unicode.IsNumber] below 256: the digits, and superscripts and fractions. *)
Definition IsNumber (ch : byte) : bool :=
  between 48 57 ch || is_byte 178 ch || is_byte 179 ch || is_byte 185 ch || between 188 190 ch.

Definition isSym (ch : byte) : bool := IsLetter ch || IsNumber ch || is_byte 95 ch.
Definition isSymStart (ch : byte) : bool := IsLetter ch || is_byte 95 ch.

Definition is_digit (ch : byte) : bool := between 48 57 ch.

Lemma byte_forall (P : byte -> bool) :
  forallb P (byte.of_Z <$> (Z.of_nat <$> seq 0 256)) = true -> forall b, P b = true.
Proof.
  intros H b. rewrite forallb_forall in H. apply H. apply list_elem_of_In.
  apply list_elem_of_fmap. exists (byte.unsigned b). split; [by rewrite byte.of_Z_unsigned|].
  apply list_elem_of_fmap. exists (Z.to_nat (byte.unsigned b)).
  pose proof (byte.unsigned_range b). split; [lia|]. apply elem_of_seq. lia.
Qed.

(** A name never starts like a number, a string, a space or an operator. *)
Lemma sym_not_space ch : isSym ch = true -> isSpace ch = false.
Proof.
  pose proof (byte_forall (fun b => implb (isSym b) (negb (isSpace b))) ltac:(vm_compute; reflexivity) ch) as H.
  cbn beta in H. destruct (isSym ch), (isSpace ch); done.
Qed.

Lemma symstart_sym ch : isSymStart ch = true -> isSym ch = true.
Proof. unfold isSymStart, isSym. destruct (IsLetter ch), (IsNumber ch), (is_byte 95 ch); done. Qed.

Record StmtScanner := mkStmtScanner { ss_input : bytes; ss_idx : Z }.

Definition NewStmtScanner : StmtScanner := mkStmtScanner [] 0.

Inductive ScanErr := ErrStmtEmpty | ErrStmtIncomplete.

(** The number of spaces at the start. *)
Fixpoint count_spaces (rest : bytes) : Z :=
  match rest with
  | [] => 0
  | ch :: rest => if isSpace ch then 1 + count_spaces rest else 0
  end.

Definition ss_rest (s : StmtScanner) : bytes := drop (Z.to_nat (ss_idx s)) (ss_input s).

(** [s.skipSpaces()] *)
Definition ss_skipSpaces (s : StmtScanner) : StmtScanner :=
  mkStmtScanner (ss_input s) (ss_idx s + count_spaces (ss_rest s)).

Definition Append (s : StmtScanner) (extra : bytes) : StmtScanner :=
  mkStmtScanner (ss_input s ++ extra) (ss_idx s).

Definition Reset (s : StmtScanner) : StmtScanner := mkStmtScanner [] 0.

(** The loop of [NextStmtStr]: [rest] is the input from [end_]; the results
    are the final [end_] and [quote], where byte 0 is no quote. *)
Fixpoint scan_loop (rest : bytes) (end_ : Z) (quote : byte) : Z * byte :=
  match rest with
  | [] => (end_, quote)
  | ch :: rest =>
      if negb (is_byte 0 quote) then
        if decide (ch = quote) then scan_loop rest (end_ + 1) Byte.x00
        else scan_loop rest (end_ + 1) quote
      else if is_byte 39 ch || is_byte 34 ch then scan_loop rest (end_ + 1) ch
      else if is_byte 59 ch then (end_, quote)
      else scan_loop rest (end_ + 1) quote
  end.

(** The statement, [None] at the end of the input, or the error. *)
Definition NextStmtStr (s : StmtScanner) : res (StmtScanner * (option bytes + ScanErr)) :=
  let s := ss_skipSpaces s in
  if ss_idx s =? len (ss_input s) then Ok (s, inl None) else
  let '(end_, quote) := scan_loop (ss_rest s) (ss_idx s) Byte.x00 in
  if negb (is_byte 0 quote) then Ok (s, inr ErrStmtIncomplete) else
  if end_ =? ss_idx s then Ok (s, inr ErrStmtEmpty) else
  if end_ =? len (ss_input s) then Ok (s, inr ErrStmtIncomplete) else
  stmtStr ← slice (ss_input s) (ss_idx s) (end_ + 1);
  Ok (mkStmtScanner (ss_input s) (end_ + 1), inl (Some stmtStr)).

(** ** Where a statement ends *)

(** The text [s] leaves the literals balanced and has no semicolon outside
    them: [q] is the quote that is open at its start, [q'] at its end. *)
Inductive quoted : byte -> bytes -> byte -> Prop :=
| quoted_nil q : quoted q [] q
| quoted_in q ch s q' : q <> Byte.x00 -> ch <> q -> quoted q s q' -> quoted q (ch :: s) q'
| quoted_close q s q' : q <> Byte.x00 -> quoted Byte.x00 s q' -> quoted q (q :: s) q'
| quoted_open ch s q' : ch = Byte.x27 \/ ch = Byte.x22 -> quoted ch s q' -> quoted Byte.x00 (ch :: s) q'
| quoted_plain ch s q' : ch <> Byte.x27 -> ch <> Byte.x22 -> ch <> Byte.x3b ->
    quoted Byte.x00 s q' -> quoted Byte.x00 (ch :: s) q'.

Lemma is_byte_spec n b c : byte.unsigned c = n -> is_byte n b = bool_decide (b = c).
Proof.
  intros <-. unfold is_byte. case_bool_decide as H; [subst; apply Z.eqb_refl|].
  apply Z.eqb_neq. intros E. by apply H, byte.unsigned_inj.
Qed.

(** The loop stops at the end of the input or at the first semicolon outside
    a literal. *)
Lemma scan_loop_spec rest end_ quote end' quote' :
  scan_loop rest end_ quote = (end', quote') ->
  exists s r, rest = s ++ r /\ end' = end_ + len s /\ quoted quote s quote' /\
    (r = [] \/ exists r', r = Byte.x3b :: r' /\ quote' = Byte.x00).
Proof.
  revert end_ quote. induction rest as [|ch rest IH]; intros end_ quote; cbn [scan_loop].
  { intros [= <- <-]. exists [], []. split_and!; [done|rewrite len_nil; lia|constructor|by left]. }
  assert (forall q, scan_loop rest (end_ + 1) q = (end', quote') ->
    (forall s, quoted q s quote' -> quoted quote (ch :: s) quote') ->
    exists s r, ch :: rest = s ++ r /\ end' = end_ + len s /\ quoted quote s quote' /\
      (r = [] \/ exists r', r = Byte.x3b :: r' /\ quote' = Byte.x00)) as Hstep.
  { intros q (s & r & -> & -> & Hq & Hr)%IH Hs. exists (ch :: s), r.
    split_and!; [done|rewrite len_cons; lia|auto|done]. }
  rewrite (is_byte_spec 0 quote Byte.x00), (is_byte_spec 39 ch Byte.x27), (is_byte_spec 34 ch Byte.x22),
    (is_byte_spec 59 ch Byte.x3b) by done.
  destruct (bool_decide_reflect (quote = Byte.x00)) as [->|Hq]; cbn [negb].
  - destruct (bool_decide_reflect (ch = Byte.x27)) as [->|H1]; cbn [orb].
    { intros H. eapply Hstep; [exact H|]. intros. apply quoted_open; auto. }
    destruct (bool_decide_reflect (ch = Byte.x22)) as [->|H2].
    { intros H. eapply Hstep; [exact H|]. intros. apply quoted_open; auto. }
    destruct (bool_decide_reflect (ch = Byte.x3b)) as [->|H3].
    { intros [= <- <-]. exists [], (Byte.x3b :: rest).
      split_and!; [done|rewrite len_nil; lia|constructor|right; by exists rest]. }
    intros H. eapply Hstep; [exact H|]. intros. by apply quoted_plain.
  - case_decide as Hc; intros H; (eapply Hstep; [exact H|]); intros.
    + subst. by apply quoted_close.
    + by apply quoted_in.
Qed.

Lemma count_spaces_spec rest :
  exists sp r, rest = sp ++ r /\ count_spaces rest = len sp /\ Forall (fun c => isSpace c = true) sp /\
    (forall c r', r = c :: r' -> isSpace c = false).
Proof.
  induction rest as [|ch rest (sp & r & -> & E & Hs & Hr)]; [exists [], []; by split_and!|]. cbn.
  destruct (isSpace ch) eqn:Es.
  - exists (ch :: sp), r. split_and!; [done|rewrite len_cons; lia|by constructor|done].
  - exists [], (ch :: sp ++ r). split_and!; try done. by intros c r' [= -> _].
Qed.

(** A scanner whose pointer is inside its input. *)
Definition ss_ok (s : StmtScanner) : Prop := 0 <= ss_idx s <= len (ss_input s).

Lemma ss_rest_len s : ss_ok s -> len (ss_rest s) = len (ss_input s) - ss_idx s.
Proof. unfold ss_ok, ss_rest, len. intros. rewrite length_drop. lia. Qed.

Lemma rest_advance s (a b : bytes) :
  ss_ok s -> ss_rest s = a ++ b ->
  ss_ok (mkStmtScanner (ss_input s) (ss_idx s + len a)) /\
  ss_rest (mkStmtScanner (ss_input s) (ss_idx s + len a)) = b.
Proof.
  intros Hs E. pose proof (ss_rest_len s Hs) as Hl. rewrite E, len_app in Hl.
  pose proof (len_nonneg a). pose proof (len_nonneg b). unfold ss_ok, ss_rest in *. cbn. split; [lia|].
  rewrite Z2Nat.inj_add, <- drop_drop, E by lia. by rewrite len_to_nat, drop_app_length.
Qed.

(** ** The properties *)

(** C22.  [NextStmtStr] neither panics nor loses input.  A statement it
    returns is the text from the first non-space up to and including the
    first semicolon outside a string literal, and the scanner moves just
    behind it; an answer without a statement moves over spaces only, and is
    given exactly when the input ends, a literal or a statement is not
    terminated, or the statement is empty. *)
Theorem NextStmtStr_cuts s :
  ss_ok s ->
  exists s' answer, NextStmtStr s = Ok (s', answer) /\ ss_ok s' /\ ss_input s' = ss_input s /\
    exists spaces, Forall (fun c => isSpace c = true) spaces /\
    match answer with
    | inl (Some stmt) => exists body, ss_rest s = spaces ++ stmt ++ ss_rest s' /\
        stmt = body ++ [Byte.x3b] /\ body <> [] /\ quoted Byte.x00 body Byte.x00
    | inl None => ss_rest s = spaces /\ ss_rest s' = []
    | inr ErrStmtEmpty => ss_rest s = spaces ++ ss_rest s' /\ exists r, ss_rest s' = Byte.x3b :: r
    | inr ErrStmtIncomplete => ss_rest s = spaces ++ ss_rest s' /\
        exists q, quoted Byte.x00 (ss_rest s') q
    end.
Proof.
  intros Hs. destruct (count_spaces_spec (ss_rest s)) as (sp & r & Er & Ec & Hsp & _).
  destruct (rest_advance s sp r Hs Er) as [Hs1 Er1]. rewrite <- Ec in Hs1, Er1.
  unfold NextStmtStr. change (mkStmtScanner _ _) with (ss_skipSpaces s) in Hs1, Er1.
  set (s1 := ss_skipSpaces s) in *. assert (ss_input s1 = ss_input s) as Ei by done.
  pose proof (ss_rest_len s1 Hs1) as Hl1. rewrite Er1 in Hl1.
  destruct (Z.eqb_spec (ss_idx s1) (len (ss_input s1))) as [E|E].
  { exists s1, (inl None). split_and!; auto. exists sp. split; [done|].
    assert (r = []) as -> by (apply len_0_inv; lia). by rewrite Er, app_nil_r. }
  destruct (scan_loop (ss_rest s1) (ss_idx s1) Byte.x00) as [end_ quote] eqn:El.
  apply scan_loop_spec in El as (body & r2 & Eb & -> & Hq & Hr2). rewrite Er1 in Eb.
  rewrite (is_byte_spec 0 quote Byte.x00) by done.
  destruct (bool_decide_reflect (quote = Byte.x00)) as [->|Hq']; cbn [negb].
  2:{ exists s1, (inr ErrStmtIncomplete). split_and!; auto. exists sp. split; [done|]. rewrite Er1. split; [done|].
      exists quote. destruct Hr2 as [->|(? & _ & ?)]; [by rewrite Eb, app_nil_r|done]. }
  destruct (Z.eqb_spec (ss_idx s1 + len body) (ss_idx s1)) as [E0|E0].
  { assert (body = []) as -> by (apply len_0_inv; lia). cbn in Eb.
    exists s1, (inr ErrStmtEmpty). split_and!; auto. exists sp. split; [done|]. rewrite Er1. split; [done|].
    destruct Hr2 as [->|(r' & -> & _)]; [rewrite Eb, len_nil in Hl1; lia|by exists r']. }
  pose proof Hl1 as Hl2. rewrite Eb, len_app in Hl2.
  destruct (Z.eqb_spec (ss_idx s1 + len body) (len (ss_input s1))) as [Eend|Eend].
  { assert (r2 = []) as -> by (apply len_0_inv; lia). rewrite app_nil_r in Eb.
    exists s1, (inr ErrStmtIncomplete). split_and!; auto. exists sp. split; [done|]. rewrite Er1. split; [done|].
    exists Byte.x00. by rewrite Eb. }
  destruct Hr2 as [->|(r' & -> & _)]; [rewrite len_nil in Hl2; lia|]. rewrite len_cons in Hl2.
  pose proof (len_nonneg body). pose proof (len_nonneg r').
  assert (r = (body ++ [Byte.x3b]) ++ r') as Eb' by (by rewrite <- app_assoc).
  rewrite Eb' in Er1. destruct (rest_advance s1 _ _ Hs1 Er1) as [Hs2 Er2].
  rewrite len_app, len_cons, len_nil in Hs2, Er2. unfold ss_ok in Hs1.
  rewrite slice_Ok by lia. step_res.
  replace (ss_idx s1 + len body + 1) with (ss_idx s1 + (len body + (0 + 1))) by lia.
  eexists _, _. split; [reflexivity|]. split; [done|]. split; [done|]. exists sp. split; [done|].
  exists body. rewrite Er2, Er, Eb'. unfold read_at. fold (ss_rest s1). rewrite Er1.
  replace (Z.to_nat (ss_idx s1 + (len body + (0 + 1)) - ss_idx s1)) with (length (body ++ [Byte.x3b])).
  2:{ rewrite length_app. cbn [length]. unfold len. lia. }
  rewrite take_app_length. split_and!; auto. intros ->. rewrite len_nil in E0. lia.
Qed.

Lemma NextStmtStr_cuts_witness :
  exists s', NextStmtStr (mkStmtScanner [Byte.x20; Byte.x61; Byte.x22; Byte.x3b; Byte.x22; Byte.x3b; Byte.x62] 0)
    = Ok (s', inl (Some [Byte.x61; Byte.x22; Byte.x3b; Byte.x22; Byte.x3b])) /\ ss_rest s' = [Byte.x62].
Proof.
  destruct (NextStmtStr_cuts (mkStmtScanner [Byte.x20; Byte.x61; Byte.x22; Byte.x3b; Byte.x22; Byte.x3b; Byte.x62] 0))
    as (s' & a & E & _); [split; vm_compute; discriminate|].
  exists s'. vm_compute in E. injection E as <- _. split; reflexivity.
Defined.

(** An empty statement stays where it is: asking again gives the same answer,
    so a loop that ignores the error does not end. *)
Lemma empty_stmt_stuck s s' :
  ss_ok s -> NextStmtStr s = Ok (s', inr ErrStmtEmpty) -> NextStmtStr s' = Ok (s', inr ErrStmtEmpty).
Proof.
  unfold NextStmtStr. intros Hs. set (s1 := ss_skipSpaces s).
  destruct (count_spaces_spec (ss_rest s)) as (sp & r & Er & Ec & Hsp & Hr).
  destruct (rest_advance s sp r Hs Er) as [Hs1 Er1]. rewrite <- Ec in Er1.
  change (mkStmtScanner _ _) with s1 in Er1.
  assert (ss_skipSpaces s1 = s1) as Hidem.
  { unfold ss_skipSpaces at 1. rewrite Er1.
    assert (count_spaces r = 0) as ->.
    { destruct r as [|c r']; [done|]. cbn. by rewrite (Hr c r' eq_refl). }
    rewrite Z.add_0_r. by destruct s1. }
  destruct (ss_idx s1 =? len (ss_input s1)) eqn:E1; [done|].
  destruct (scan_loop (ss_rest s1) (ss_idx s1) Byte.x00) as [end_ quote] eqn:El.
  destruct (negb (is_byte 0 quote)) eqn:E2; [done|]. destruct (end_ =? ss_idx s1) eqn:E3.
  - intros [= <-]. by rewrite Hidem, E1, El, E2, E3.
  - destruct (end_ =? len (ss_input s1)); [done|]. destruct (slice _ _ _); done.
Qed.
