(* ===== verification/Json.v ===== *)
(** * JSON documents (Go's encoding/json)

    Schemas are stored as JSON.  This file has the encoder and the decoder for
    the documents that the program stores: objects, arrays, strings and
    numbers.  A document is written without spaces; strings are UTF-8, bytes
    that are not are replaced by U+FFFD. *)

From S2P Require Import Prelude.
From S2P Require Import GoBytes.
From S2P Require Import StmtScanner.

Inductive json :=
| JNull
| JBool (b : bool)
| JNum (text : bytes)
| JStr (s : bytes)
| JArr (items : list json)
| JObj (fields : list (bytes * json)).

Definition b_ (n : Z) : byte := byte.of_Z n.

(** ** UTF-8 *)

(** [utf8.DecodeRune]: the code point and its width; [None] is an invalid
    byte. *)
Definition decode_rune (s : bytes) : option (Z * nat) :=
  let cont lo hi b := between lo hi b in
  let bits b := byte.unsigned b - 128 in
  match s with
  | [] => None
  | a :: rest =>
      let v := byte.unsigned a in
      if v <? 128 then Some (v, 1%nat)
      else if between 194 223 a then
        match rest with
        | b :: _ => if cont 128 191 b then Some ((v - 192) * 64 + bits b, 2%nat) else None
        | _ => None
        end
      else if between 224 239 a then
        match rest with
        | b :: c :: _ =>
            let lo := if v =? 224 then 160 else 128 in
            let hi := if v =? 237 then 159 else 191 in
            if cont lo hi b && cont 128 191 c then Some (((v - 224) * 64 + bits b) * 64 + bits c, 3%nat) else None
        | _ => None
        end
      else if between 240 244 a then
        match rest with
        | b :: c :: d :: _ =>
            let lo := if v =? 240 then 144 else 128 in
            let hi := if v =? 244 then 143 else 191 in
            if cont lo hi b && cont 128 191 c && cont 128 191 d
            then Some ((((v - 240) * 64 + bits b) * 64 + bits c) * 64 + bits d, 4%nat) else None
        | _ => None
        end
      else None
  end.

(** [utf8.AppendRune], for code points that are not surrogates. *)
Definition encode_rune (r : Z) : bytes :=
  if r <? 2 ^ 7 then [b_ r]
  else if r <? 2 ^ 11 then [b_ (192 + r / 64); b_ (128 + r mod 64)]
  else if r <? 2 ^ 16 then [b_ (224 + r / 4096); b_ (128 + r / 64 mod 64); b_ (128 + r mod 64)]
  else [b_ (240 + r / 262144); b_ (128 + r / 4096 mod 64); b_ (128 + r / 64 mod 64); b_ (128 + r mod 64)].

(** ** Writing *)

Definition hex_digit (n : Z) : byte := b_ (if n <? 10 then 48 + n else 87 + n).

Definition u_escape (n : Z) : bytes :=
  [b_ 92; b_ 117; hex_digit (n / 4096 mod 16); hex_digit (n / 256 mod 16); hex_digit (n / 16 mod 16); hex_digit (n mod 16)].

(** An ASCII character, as [json.Marshal] writes it: also [<], [>] and [&] are
    escaped. *)
Definition quote_ascii (c : byte) : bytes :=
  let v := byte.unsigned c in
  if (v =? 34) || (v =? 92) then [b_ 92; c]
  else if v =? 8 then [b_ 92; b_ 98]
  else if v =? 9 then [b_ 92; b_ 116]
  else if v =? 10 then [b_ 92; b_ 110]
  else if v =? 12 then [b_ 92; b_ 102]
  else if v =? 13 then [b_ 92; b_ 114]
  else if (v <? 32) || (v =? 60) || (v =? 62) || (v =? 38) then u_escape v
  else [c].

(** [skip] bytes belong to the character before. *)
Fixpoint quote_loop (s : bytes) (skip : nat) : bytes :=
  match s with
  | [] => []
  | c :: rest =>
      match skip with
      | S skip => quote_loop rest skip
      | O =>
          if byte.unsigned c <? 128 then quote_ascii c ++ quote_loop rest 0
          else match decode_rune s with
               | None => u_escape 65533 ++ quote_loop rest 0
               | Some (r, n) =>
                   (if (r =? 8232) || (r =? 8233) then u_escape r else take n s) ++ quote_loop rest (n - 1)
               end
      end
  end.

Definition print_string (s : bytes) : bytes := b_ 34 :: quote_loop s 0 ++ [b_ 34].

(** Items with separators. *)
Definition commas (items : list bytes) : bytes :=
  match items with
  | [] => []
  | item :: items => item ++ (items ≫= fun i => b_ 44 :: i)
  end.

Fixpoint print (j : json) : bytes :=
  match j with
  | JNull => bytes_of "null"
  | JBool b => bytes_of (if b then "true" else "false")
  | JNum text => text
  | JStr s => print_string s
  | JArr items => b_ 91 :: commas (map print items) ++ [b_ 93]
  | JObj fields =>
      b_ 123 :: commas (map (fun f => print_string (fst f) ++ b_ 58 :: print (snd f)) fields) ++ [b_ 125]
  end.

(** Decimal digits, without leading zeros. *)
Fixpoint digits (fuel : nat) (n : Z) (acc : bytes) : bytes :=
  match fuel with
  | O => acc
  | S fuel =>
      let acc := b_ (48 + n mod 10) :: acc in
      if n <? 10 then acc else digits fuel (n / 10) acc
  end.

(** [strconv.AppendUint], and the text of a 64-bit integer. *)
Definition print_uint (n : Z) : bytes := digits 20 n [].
Definition FormatInt (n : Z) : bytes := if n <? 0 then b_ 45 :: print_uint (- n) else print_uint n.

(** ** Reading *)

Definition is_json_space (c : byte) : bool :=
  is_byte 32 c || is_byte 9 c || is_byte 10 c || is_byte 13 c.

Fixpoint skip_space (s : bytes) : bytes :=
  match s with
  | c :: rest => if is_json_space c then skip_space rest else s
  | [] => []
  end.

Definition hex_value (c : byte) : option Z :=
  let v := byte.unsigned c in
  if between 48 57 c then Some (v - 48)
  else if between 97 102 c then Some (v - 87)
  else if between 65 70 c then Some (v - 55)
  else None.

(** [getu4], after the [\u]. *)
Definition get_u4 (s : bytes) : option (Z * bytes) :=
  match s with
  | a :: b :: c :: d :: rest =>
      a ← hex_value a; b ← hex_value b; c ← hex_value c; d ← hex_value d;
      Some (((a * 16 + b) * 16 + c) * 16 + d, rest)
  | _ => None
  end.

Definition surrogate (r : Z) : bool := (55296 <=? r) && (r <=? 57343).

(** After [\u]: the bytes of the character and the rest; a high surrogate
    takes the low one that follows, any other is U+FFFD. *)
Definition read_u (s : bytes) : option (bytes * bytes) :=
  '(r, rest) ← get_u4 s;
  if negb (surrogate r) then Some (encode_rune r, rest) else
  let bad := Some (encode_rune 65533, rest) in
  if r <=? 56319 then
    match rest with
    | x :: y :: rest' =>
        if is_byte 92 x && is_byte 117 y then
          match get_u4 rest' with
          | Some (r2, rest'') =>
              if (56320 <=? r2) && (r2 <=? 57343)
              then Some (encode_rune ((r - 55296) * 1024 + (r2 - 56320) + 65536), rest'') else bad
          | None => bad
          end
        else bad
    | _ => bad
    end
  else bad.

Definition read_escape (s : bytes) : option (bytes * bytes) :=
  match s with
  | [] => None
  | c :: rest =>
      let v := byte.unsigned c in
      if (v =? 34) || (v =? 92) || (v =? 47) then Some ([c], rest)
      else if v =? 98 then Some ([b_ 8], rest)
      else if v =? 102 then Some ([b_ 12], rest)
      else if v =? 110 then Some ([b_ 10], rest)
      else if v =? 114 then Some ([b_ 13], rest)
      else if v =? 116 then Some ([b_ 9], rest)
      else if v =? 117 then read_u rest
      else None
  end.

(** After the opening quote: the string and what follows it. *)
Fixpoint read_string (fuel : nat) (s : bytes) : option (bytes * bytes) :=
  match fuel, s with
  | O, _ | _, [] => None
  | S fuel, c :: rest =>
      let v := byte.unsigned c in
      if v =? 34 then Some ([], rest)
      else
        '(piece, rest) ←
          (if v =? 92 then read_escape rest
           else if v <? 32 then None
           else if v <? 128 then Some ([c], rest)
           else match decode_rune s with
                | None => Some (encode_rune 65533, rest)
                | Some (_, n) => Some (take n s, drop n s)
                end);
        '(str, rest) ← read_string fuel rest;
        Some (piece ++ str, rest)
  end.

Fixpoint span (P : byte -> bool) (s : bytes) : bytes * bytes :=
  match s with
  | c :: rest => if P c then let '(a, b) := span P rest in (c :: a, b) else ([], s)
  | [] => ([], [])
  end.

(** The text of a number: an integer part without leading zeros, a fraction, an
    exponent. *)
Definition read_number (s : bytes) : option (bytes * bytes) :=
  let '(sign, s) := match s with c :: rest => if is_byte 45 c then ([c], rest) else ([], s) | [] => ([], s) end in
  let '(int, s) := span is_digit s in
  _ ← (match int with
       | [] => None
       | [_] => Some tt
       | d :: _ => if is_byte 48 d then None else Some tt
       end);
  '(frac, s) ← (match s with
       | c :: rest =>
           if is_byte 46 c then
             let '(ds, rest) := span is_digit rest in
             match ds with [] => None | _ => Some (c :: ds, rest) end
           else Some ([], s)
       | [] => Some ([], s)
       end);
  '(exp, s) ← (match s with
       | c :: rest =>
           if is_byte 101 c || is_byte 69 c then
             let '(sg, rest) := match rest with
               | d :: rest' => if is_byte 43 d || is_byte 45 d then ([d], rest') else ([], rest)
               | [] => ([], rest) end in
             let '(ds, rest) := span is_digit rest in
             match ds with [] => None | _ => Some (c :: sg ++ ds, rest) end
           else Some ([], s)
       | [] => Some ([], s)
       end);
  Some (sign ++ int ++ frac ++ exp, s).

Definition read_word (w : string) (j : json) (s : bytes) : option (json * bytes) :=
  let w := bytes_of w in
  if bytes_equal (take (length w) s) w then Some (j, drop (length w) s) else None.

(** [first] tells whether the list may end here. *)
Fixpoint read (fuel : nat) (s : bytes) : option (json * bytes) :=
  match fuel with
  | O => None
  | S fuel =>
      match skip_space s with
      | [] => None
      | (c :: rest) as s' =>
          let v := byte.unsigned c in
          if v =? 34 then '(str, rest) ← read_string fuel rest; Some (JStr str, rest)
          else if v =? 91 then
            match skip_space rest with
            | d :: rest' =>
                if is_byte 93 d then Some (JArr [], rest')
                else '(items, rest) ← read_items fuel (d :: rest'); Some (JArr items, rest)
            | [] => None
            end
          else if v =? 123 then
            match skip_space rest with
            | d :: rest' =>
                if is_byte 125 d then Some (JObj [], rest')
                else '(fields, rest) ← read_fields fuel (d :: rest'); Some (JObj fields, rest)
            | [] => None
            end
          else if v =? 110 then read_word "null" JNull s'
          else if v =? 116 then read_word "true" (JBool true) s'
          else if v =? 102 then read_word "false" (JBool false) s'
          else '(text, rest) ← read_number s'; Some (JNum text, rest)
      end
  end
with read_items (fuel : nat) (s : bytes) : option (list json * bytes) :=
  match fuel with
  | O => None
  | S fuel =>
      '(j, rest) ← read fuel s;
      match skip_space rest with
      | c :: rest =>
          if is_byte 93 c then Some ([j], rest)
          else if is_byte 44 c then '(items, rest) ← read_items fuel rest; Some (j :: items, rest)
          else None
      | [] => None
      end
  end
with read_fields (fuel : nat) (s : bytes) : option (list (bytes * json) * bytes) :=
  match fuel with
  | O => None
  | S fuel =>
      match skip_space s with
      | q :: rest =>
          if negb (is_byte 34 q) then None else
          '(name, rest) ← read_string fuel rest;
          match skip_space rest with
          | c :: rest =>
              if negb (is_byte 58 c) then None else
              '(j, rest) ← read fuel rest;
              match skip_space rest with
              | c :: rest =>
                  if is_byte 125 c then Some ([(name, j)], rest)
                  else if is_byte 44 c then '(fields, rest) ← read_fields fuel rest; Some ((name, j) :: fields, rest)
                  else None
              | [] => None
              end
          | [] => None
          end
      | [] => None
      end
  end.

(** A whole document: only spaces may follow. *)
Definition parse (s : bytes) : option json :=
  '(j, rest) ← read (3 * length s + 3) s;
  match skip_space rest with [] => Some j | _ :: _ => None end.
