(* ===== verification/QLNode.v ===== *)
(** * Expressions of the query language (src/db/ql_parse.go) and rows
      (src/db/table.go) *)

From S2P Require Import Prelude.
From S2P Require Import GoBytes.
From S2P Require Import Encode.

(** A Go error from [fmt.Errorf]: the format and its arguments. *)
Definition gerror : Type := string * list bytes.

(** *** Expression types *)

Definition QL_STR : Z := TYPE_BYTES.
Definition QL_I64 : Z := TYPE_INT64.
Definition QL_CMP_GE : Z := 10.
Definition QL_CMP_GT : Z := 11.
Definition QL_CMP_LT : Z := 12.
Definition QL_CMP_LE : Z := 13.
Definition QL_CMP_EQ : Z := 14.
Definition QL_CMP_NE : Z := 15.
Definition QL_ADD : Z := 20.
Definition QL_SUB : Z := 21.
Definition QL_MUL : Z := 22.
Definition QL_DIV : Z := 23.
Definition QL_MOD : Z := 24.
Definition QL_AND : Z := 30.
Definition QL_OR : Z := 31.
Definition QL_NOT : Z := 50.
Definition QL_NEG : Z := 51.
Definition QL_SYM : Z := 100.
Definition QL_TUP : Z := 101.
Definition QL_STAR : Z := 102.
Definition QL_ERR : Z := 200.

Inductive QLNode := mkQLNode (Type_ : Z) (I64 : Z) (Str : bytes) (Kids : list QLNode).

Definition ql_Type (n : QLNode) : Z := let 'mkQLNode t _ _ _ := n in t.
Definition ql_I64 (n : QLNode) : Z := let 'mkQLNode _ i _ _ := n in i.
Definition ql_Str (n : QLNode) : bytes := let 'mkQLNode _ _ s _ := n in s.
Definition ql_Kids (n : QLNode) : list QLNode := let 'mkQLNode _ _ _ k := n in k.

(** [QLNode{}] *)
Definition ql_zero : QLNode := mkQLNode 0 0 [] [].

(** Induction that reaches the kids. *)
Lemma QLNode_kids_ind (P : QLNode -> Prop) :
  (forall t i s kids, Forall P kids -> P (mkQLNode t i s kids)) -> forall n, P n.
Proof.
  intros H. fix IH 1. intros [t i s kids]. apply H.
  induction kids as [|k kids IHk]; constructor; [apply IH|exact IHk].
Qed.

Definition is_cmp_op (t : Z) : bool :=
  existsb (Z.eqb t) [QL_CMP_EQ; QL_CMP_NE; QL_CMP_GE; QL_CMP_LE; QL_CMP_GT; QL_CMP_LT].
Definition is_arith_op (t : Z) : bool :=
  existsb (Z.eqb t) [QL_ADD; QL_SUB; QL_MUL; QL_DIV; QL_MOD].
Definition is_logic_op (t : Z) : bool := existsb (Z.eqb t) [QL_AND; QL_OR].

(** ** Rows *)

Record Row := mkRow { rec_Cols : list bytes; rec_Vals : list Value }.

Definition AddStr (rec : Row) (col val : bytes) : Row :=
  mkRow (rec_Cols rec ++ [col]) (rec_Vals rec ++ [mkValue TYPE_BYTES 0 val]).

Definition AddInt64 (rec : Row) (col : bytes) (val : Z) : Row :=
  mkRow (rec_Cols rec ++ [col]) (rec_Vals rec ++ [mkValue TYPE_INT64 val []]).

(** [rec.Get(col)]: the value of the first column of that name; [None] is the
    nil pointer, and a row with fewer values than columns can panic. *)
Fixpoint row_get_loop (cols : list bytes) (vals : list Value) (i : Z) (col : bytes) : res (option Value) :=
  match cols with
  | [] => Ok None
  | c :: cols =>
      if decide (c = col) then v ← index vals i; Ok (Some v)
      else row_get_loop cols vals (i + 1) col
  end.

Definition row_Get (rec : Row) (col : bytes) : res (option Value) :=
  row_get_loop (rec_Cols rec) (rec_Vals rec) 0 col.
