(* ===== verification/Eval.v ===== *)
(** * Evaluating expressions (src/db/ql_exec.go) *)

From S2P Require Import Prelude.
From S2P Require Import GoBytes.
From S2P Require Import Encode.
From S2P Require Import QLNode.

Record QLEvalCtx := mkCtx { cx_env : Row; cx_out : Value; cx_err : option gerror }.

Definition set_out (ctx : QLEvalCtx) (v : Value) : QLEvalCtx := mkCtx (cx_env ctx) v (cx_err ctx).
Definition set_out_type (ctx : QLEvalCtx) (t : Z) : QLEvalCtx :=
  set_out ctx (mkValue t (v_I64 (cx_out ctx)) (v_Str (cx_out ctx))).
Definition set_out_i64 (ctx : QLEvalCtx) (i : Z) : QLEvalCtx :=
  set_out ctx (mkValue (v_Type (cx_out ctx)) i (v_Str (cx_out ctx))).
Definition set_out_str (ctx : QLEvalCtx) (s : bytes) : QLEvalCtx :=
  set_out ctx (mkValue (v_Type (cx_out ctx)) (v_I64 (cx_out ctx)) s).

(** [ctx.eErr]: the first error stays. *)
Definition eErr (ctx : QLEvalCtx) (fmt : string) (args : list bytes) : QLEvalCtx :=
  match cx_err ctx with
  | None => mkCtx (cx_env ctx) (mkValue QL_ERR (v_I64 (cx_out ctx)) (v_Str (cx_out ctx))) (Some (fmt, args))
  | Some _ => ctx
  end.

Definition b2i (b : bool) : Z := if b then 1 else 0.

Definition cmp2bool (result cmp : Z) : res bool :=
  if cmp =? QL_CMP_EQ then Ok (result =? 0)
  else if cmp =? QL_CMP_NE then Ok (negb (result =? 0))
  else if cmp =? QL_CMP_GE then Ok (0 <=? result)
  else if cmp =? QL_CMP_GT then Ok (0 <? result)
  else if cmp =? QL_CMP_LE then Ok (result <=? 0)
  else if cmp =? QL_CMP_LT then Ok (result <? 0)
  else Panic.

(** [cmp.Compare] on integers *)
Definition int_compare (a b : Z) : Z := match a ?= b with Lt => -1 | Eq => 0 | Gt => 1 end.

Definition valueCmp (ctx : QLEvalCtx) (val1 val2 : Value) : res (QLEvalCtx * Z) :=
  match cx_err ctx with
  | Some _ => Ok (ctx, 0)
  | None =>
      if negb (v_Type val1 =? v_Type val2) then Ok (eErr ctx "compare different types" [], 0)
      else if v_Type val1 =? TYPE_INT64 then Ok (ctx, int_compare (v_I64 val1) (v_I64 val2))
      else if v_Type val1 =? TYPE_BYTES then Ok (ctx, bytes_compare (v_Str val1) (v_Str val2))
      else Panic
  end.

(** [int64] operations wrap; [/] and [%] truncate towards zero. *)
Definition binOpI64 (ctx : QLEvalCtx) (op i1 i2 : Z) : QLEvalCtx * Z :=
  if op =? QL_ADD then (ctx, i64 (i1 + i2))
  else if op =? QL_SUB then (ctx, i64 (i1 - i2))
  else if op =? QL_MUL then (ctx, i64 (i1 * i2))
  else if op =? QL_DIV then
    if i2 =? 0 then (eErr ctx "division by 0" [], 0) else (ctx, i64 (Z.quot i1 i2))
  else if op =? QL_MOD then
    if i2 =? 0 then (eErr ctx "division by 0" [], 0) else (ctx, i64 (Z.rem i1 i2))
  else (eErr ctx "bad i64 arithmetic binop" [], 0).

Definition binOpStr (ctx : QLEvalCtx) (op : Z) (s1 s2 : bytes) : QLEvalCtx * bytes :=
  if op =? QL_ADD then (ctx, s1 ++ s2) else (eErr ctx "bad str binop" [], []).

(** The functions below take the evaluators of subexpressions instead of the
    subexpressions. *)
Abbreviation evaluator := (QLEvalCtx -> res QLEvalCtx).

Fixpoint tupleCmp_loop (ctx : QLEvalCtx) (k1 k2 : list evaluator) : res (QLEvalCtx * Z) :=
  match k1 with
  | [] => Ok (ctx, 0)
  | e1 :: k1 =>
      match cx_err ctx with
      | Some _ => Ok (ctx, 0)
      | None =>
          ctx ← e1 ctx;
          let val1 := cx_out ctx in
          e2 ← index k2 0;
          ctx ← (e2 : evaluator) ctx;
          let val2 := cx_out ctx in
          '(ctx, cmp) ← valueCmp ctx val1 val2;
          if negb (cmp =? 0) then Ok (ctx, cmp) else tupleCmp_loop ctx k1 (drop 1 k2)
      end
  end.

Definition tupleCmp (ctx : QLEvalCtx) (k1 k2 : list evaluator) : res (QLEvalCtx * Z) :=
  if negb (len k1 =? len k2) then Ok (eErr ctx "compare tuples of different lengths" [], 0)
  else tupleCmp_loop ctx k1 k2.

Definition evalLogic (ty : Z) (kid0 kid1 : res evaluator) (ctx : QLEvalCtx) : res QLEvalCtx :=
  let check_operand ctx :=
    if negb (v_Type (cx_out ctx) =? TYPE_INT64) then eErr ctx "invalid AND operand type" [] else ctx in
  e0 ← kid0;
  ctx ← e0 ctx;
  let ctx := check_operand ctx in
  match cx_err ctx with
  | Some _ => Ok ctx
  | None =>
      if (ty =? QL_AND) && (v_I64 (cx_out ctx) =? 0) then Ok ctx
      else if (ty =? QL_OR) && negb (v_I64 (cx_out ctx) =? 0) then Ok (set_out_i64 ctx 1)
      else
        e1 ← kid1;
        ctx ← e1 ctx;
        let ctx := check_operand ctx in
        match cx_err ctx with
        | Some _ => Ok ctx
        | None => Ok (set_out_i64 ctx (b2i (negb (v_I64 (cx_out ctx) =? 0))))
        end
  end.

(** One operand: its type, its evaluator and those of its kids. *)
Record operand := mkOperand { od_type : Z; od_eval : evaluator; od_kids : list evaluator }.

Definition evalBinOp (ty : Z) (kids : list operand) (ctx : QLEvalCtx) : res QLEvalCtx :=
  if is_logic_op ty then
    evalLogic ty (k ← index kids 0; Ok (od_eval k)) (k ← index kids 1; Ok (od_eval k)) ctx
  else
    let isCmp := is_cmp_op ty in
    k0 ← index kids 0;
    k1 ← index kids 1;
    if isCmp && (od_type k0 =? QL_TUP) && (od_type k1 =? QL_TUP) then
      '(ctx, r) ← tupleCmp ctx (od_kids k0) (od_kids k1);
      let ctx := set_out_type ctx TYPE_INT64 in
      b ← cmp2bool r ty;
      Ok (set_out_i64 ctx (b2i b))
    else
      ctx ← od_eval k0 ctx;
      let val1 := cx_out ctx in
      ctx ← od_eval k1 ctx;
      let val2 := cx_out ctx in
      if isCmp then
        '(ctx, r) ← valueCmp ctx val1 val2;
        let ctx := set_out_type ctx TYPE_INT64 in
        b ← cmp2bool r ty;
        Ok (set_out_i64 ctx (b2i b))
      else
        match cx_err ctx with
        | Some _ => Ok ctx
        | None =>
            if negb (v_Type val1 =? v_Type val2) then Ok (eErr ctx "binop type mismatch" [])
            else if v_Type val1 =? TYPE_INT64 then
              let ctx := set_out_type ctx TYPE_INT64 in
              let '(ctx, r) := binOpI64 ctx ty (v_I64 val1) (v_I64 val2) in
              Ok (set_out_i64 ctx r)
            else if v_Type val1 =? TYPE_BYTES then
              let ctx := set_out_type ctx TYPE_BYTES in
              let '(ctx, r) := binOpStr ctx ty (v_Str val1) (v_Str val2) in
              Ok (set_out_str ctx r)
            else Panic
        end.

Fixpoint evalExpr (node : QLNode) (ctx : QLEvalCtx) : res QLEvalCtx :=
  match cx_err ctx with
  | Some _ => Ok ctx
  | None =>
      let 'mkQLNode ty n str kids := node in
      if ty =? QL_SYM then
        v ← row_Get (cx_env ctx) str;
        match v with
        | Some v => Ok (set_out ctx v)
        | None => Ok (eErr ctx "unknown column: %s" [str])
        end
      else if (ty =? QL_I64) || (ty =? QL_STR) then Ok (set_out ctx (mkValue ty n str))
      else if ty =? QL_TUP then Ok (eErr ctx "unexpected tuple" [])
      else if ty =? QL_NEG then
        match kids with
        | [] => Panic
        | kid :: _ =>
            ctx ← evalExpr kid ctx;
            if v_Type (cx_out ctx) =? TYPE_INT64 then Ok (set_out_i64 ctx (i64 (- v_I64 (cx_out ctx))))
            else Ok (eErr ctx "QL_NEG type error" [])
        end
      else if ty =? QL_NOT then
        match kids with
        | [] => Panic
        | kid :: _ =>
            ctx ← evalExpr kid ctx;
            if v_Type (cx_out ctx) =? TYPE_INT64 then Ok (set_out_i64 ctx (b2i (v_I64 (cx_out ctx) =? 0)))
            else Ok (eErr ctx "QL_NOT type error" [])
        end
      else if is_cmp_op ty || is_arith_op ty || is_logic_op ty then
        evalBinOp ty
          (map (fun kid => match kid with
             | mkQLNode t _ _ kk => mkOperand t (evalExpr kid) (map evalExpr kk)
             end) kids) ctx
      else Panic
  end.

(** [evalMulti]: the values, or the first error. *)
Fixpoint evalMulti_loop (env : Row) (exprs : list QLNode) (vals : list Value)
    : res (list Value + gerror) :=
  match exprs with
  | [] => Ok (inl vals)
  | expr :: exprs =>
      ctx ← evalExpr expr (mkCtx env (mkValue 0 0 []) None);
      match cx_err ctx with
      | Some e => Ok (inr e)
      | None => evalMulti_loop env exprs (vals ++ [cx_out ctx])
      end
  end.

Definition evalMulti (env : Row) (exprs : list QLNode) : res (list Value + gerror) :=
  evalMulti_loop env exprs [].
