(* ===== verification/EvalFacts.v ===== *)
(** * Evaluation against a reference semantics

    [denote] gives the value of an expression the way a textbook would: no
    context, no error state, no field of another type left over.  The
    evaluator of src/db/ql_exec.go agrees with it. *)

From S2P Require Import Prelude.
From S2P Require Import GoBytes.
From S2P Require Import Encode.
From S2P Require Import QLNode.
From S2P Require Import Eval.

Inductive sval := SInt (n : Z) | SStr (s : bytes).

Definition val_of (v : Value) : option sval :=
  if v_Type v =? TYPE_INT64 then Some (SInt (v_I64 v))
  else if v_Type v =? TYPE_BYTES then Some (SStr (v_Str v)) else None.

Fixpoint assoc (cols : list bytes) (vals : list Value) (col : bytes) : option Value :=
  match cols, vals with
  | c :: cols, v :: vals => if decide (c = col) then Some v else assoc cols vals col
  | _, _ => None
  end.

Definition scmp (a b : sval) : option Z :=
  match a, b with
  | SInt x, SInt y => Some (int_compare x y)
  | SStr x, SStr y => Some (bytes_compare x y)
  | _, _ => None
  end.

(** Lexicographic; what follows the first difference is not evaluated. *)
Fixpoint tcmp (l1 l2 : list (option sval)) : option Z :=
  match l1, l2 with
  | a :: l1, b :: l2 =>
      x ← a; y ← b; c ← scmp x y; if c =? 0 then tcmp l1 l2 else Some c
  | _, _ => Some 0
  end.

Definition holds (op r : Z) : bool :=
  if op =? QL_CMP_EQ then r =? 0 else if op =? QL_CMP_NE then negb (r =? 0)
  else if op =? QL_CMP_GE then 0 <=? r else if op =? QL_CMP_GT then 0 <? r
  else if op =? QL_CMP_LE then r <=? 0 else r <? 0.

Definition arith (op : Z) (a b : sval) : option sval :=
  match a, b with
  | SInt x, SInt y =>
      if op =? QL_ADD then Some (SInt (i64 (x + y)))
      else if op =? QL_SUB then Some (SInt (i64 (x - y)))
      else if op =? QL_MUL then Some (SInt (i64 (x * y)))
      else if y =? 0 then None
      else if op =? QL_DIV then Some (SInt (i64 (Z.quot x y)))
      else Some (SInt (i64 (Z.rem x y)))
  | SStr x, SStr y => if op =? QL_ADD then Some (SStr (x ++ y)) else None
  | _, _ => None
  end.

Definition as_int (v : option sval) : option Z :=
  match v with Some (SInt n) => Some n | _ => None end.

Definition logic (op : Z) (a b : option sval) : option sval :=
  x ← as_int a;
  if (op =? QL_AND) && (x =? 0) then Some (SInt 0)
  else if (op =? QL_OR) && negb (x =? 0) then Some (SInt 1)
  else y ← as_int b; Some (SInt (b2i (negb (y =? 0)))).

Fixpoint denote (env : Row) (node : QLNode) : option sval :=
  let 'mkQLNode ty n str kids := node in
  if ty =? QL_SYM then v ← assoc (rec_Cols env) (rec_Vals env) str; val_of v
  else if ty =? QL_I64 then Some (SInt n)
  else if ty =? QL_STR then Some (SStr str)
  else if ty =? QL_TUP then None
  else
    match kids with
    | [k] =>
        x ← as_int (denote env k);
        if ty =? QL_NEG then Some (SInt (i64 (- x))) else Some (SInt (b2i (x =? 0)))
    | [a; b] =>
        if is_logic_op ty then logic ty (denote env a) (denote env b)
        else if is_cmp_op ty then
          r ← match a, b with
              | mkQLNode ta _ _ ka, mkQLNode tb _ _ kb =>
                  if (ta =? QL_TUP) && (tb =? QL_TUP) then
                    if (length ka =? length kb)%nat then tcmp (map (denote env) ka) (map (denote env) kb)
                    else None
                  else x ← denote env a; y ← denote env b; scmp x y
              end;
          Some (SInt (b2i (holds ty r)))
        else x ← denote env a; y ← denote env b; arith ty x y
    | _ => None
    end.

(** Expressions as the parser builds them: operators with their operands. *)
Fixpoint ql_wf (node : QLNode) : bool :=
  let 'mkQLNode ty _ _ kids := node in
  if (ty =? QL_SYM) || (ty =? QL_I64) || (ty =? QL_STR) then true
  else forallb ql_wf kids &&
    if ty =? QL_TUP then true
    else if (ty =? QL_NEG) || (ty =? QL_NOT) then (length kids =? 1)%nat
    else (is_cmp_op ty || is_arith_op ty || is_logic_op ty) && (length kids =? 2)%nat.

Definition env_ok (env : Row) : Prop :=
  length (rec_Cols env) = length (rec_Vals env) /\
  Forall (fun v => v_Type v = TYPE_INT64 \/ v_Type v = TYPE_BYTES) (rec_Vals env).

(** ** Evaluators that agree with a denotation *)

(** The context after an evaluation. *)
Definition ctx_is (env : Row) (ctx : QLEvalCtx) (d : option sval) : Prop :=
  cx_env ctx = env /\
  match d with
  | Some v => cx_err ctx = None /\ val_of (cx_out ctx) = Some v
  | None => cx_err ctx <> None
  end.

Definition ev_ok (env : Row) (e : evaluator) (d : option sval) : Prop :=
  (forall ctx, cx_err ctx <> None -> e ctx = Ok ctx) /\
  (forall ctx, cx_env ctx = env -> cx_err ctx = None -> exists ctx', e ctx = Ok ctx' /\ ctx_is env ctx' d).

Lemma eErr_err ctx fmt args : cx_err (eErr ctx fmt args) <> None.
Proof. unfold eErr. destruct (cx_err ctx) eqn:E; cbn; congruence. Qed.

Lemma eErr_env ctx fmt args : cx_env (eErr ctx fmt args) = cx_env ctx.
Proof. unfold eErr. by destruct (cx_err ctx). Qed.

Lemma eErr_id ctx fmt args : cx_err ctx <> None -> eErr ctx fmt args = ctx.
Proof. unfold eErr. by destruct (cx_err ctx). Qed.

Lemma ctx_is_err env ctx fmt args : cx_env ctx = env -> ctx_is env (eErr ctx fmt args) None.
Proof. intros <-. split; [apply eErr_env|apply eErr_err]. Qed.

Lemma val_of_int v n : val_of v = Some (SInt n) -> v_Type v = TYPE_INT64 /\ v_I64 v = n.
Proof.
  unfold val_of. destruct (Z.eqb_spec (v_Type v) TYPE_INT64); [by intros [= <-]|]. by destruct (_ =? _).
Qed.

Lemma val_of_str v s : val_of v = Some (SStr s) -> v_Type v = TYPE_BYTES /\ v_Str v = s.
Proof.
  unfold val_of. destruct (Z.eqb_spec (v_Type v) TYPE_INT64); [done|].
  destruct (Z.eqb_spec (v_Type v) TYPE_BYTES); [by intros [= <-]|done].
Qed.

Lemma int_of ctx n : val_of (mkValue TYPE_INT64 n (v_Str (cx_out ctx))) = Some (SInt n).
Proof. done. Qed.

(** A type that is not an integer's. *)
Lemma not_int v d : val_of v = Some d -> as_int (Some d) = None -> (v_Type v =? TYPE_INT64) = false.
Proof. destruct d; [done|]. intros [-> _]%val_of_str _. done. Qed.

Lemma valueCmp_ok env ctx v1 v2 x y :
  cx_env ctx = env -> cx_err ctx = None -> val_of v1 = Some x -> val_of v2 = Some y ->
  exists ctx' r, valueCmp ctx v1 v2 = Ok (ctx', r) /\ cx_env ctx' = env /\
    match scmp x y with
    | Some c => ctx' = ctx /\ r = c
    | None => cx_err ctx' <> None
    end.
Proof.
  intros He Hn H1 H2. unfold valueCmp. rewrite Hn.
  destruct x as [x|x], y as [y|y];
    first [apply val_of_int in H1 as [-> <-]|apply val_of_str in H1 as [-> <-]];
    first [apply val_of_int in H2 as [-> <-]|apply val_of_str in H2 as [-> <-]]; cbn.
  all: eexists _, _; split; [reflexivity|]; first [by split|split; [by rewrite eErr_env|apply eErr_err]].
Qed.

Lemma valueCmp_err ctx v1 v2 : cx_err ctx <> None -> valueCmp ctx v1 v2 = Ok (ctx, 0).
Proof. unfold valueCmp. by destruct (cx_err ctx). Qed.

(** Two operands in a row. *)
Lemma eval_two env e1 e2 d1 d2 ctx :
  ev_ok env e1 d1 -> ev_ok env e2 d2 -> cx_env ctx = env -> cx_err ctx = None ->
  exists ctx1 ctx2, e1 ctx = Ok ctx1 /\ e2 ctx1 = Ok ctx2 /\ cx_env ctx2 = env /\
    match d1, d2 with
    | Some x, Some y => cx_err ctx2 = None /\ val_of (cx_out ctx1) = Some x /\ val_of (cx_out ctx2) = Some y
    | _, _ => cx_err ctx2 <> None
    end.
Proof.
  intros [_ H1] [H2e H2] He Hn. destruct (H1 ctx He Hn) as (ctx1 & E1 & He1 & Hd1).
  destruct d1 as [x|].
  - destruct Hd1 as [Hn1 Hv1]. destruct (H2 ctx1 He1 Hn1) as (ctx2 & E2 & He2 & Hd2).
    exists ctx1, ctx2. split_and!; auto. destruct d2; [|done]. by destruct Hd2.
  - exists ctx1, ctx1. split_and!; auto.
Qed.

Lemma tupleCmp_loop_ok env k1 k2 l1 l2 ctx :
  Forall2 (ev_ok env) k1 l1 -> Forall2 (ev_ok env) k2 l2 -> length k1 = length k2 ->
  cx_env ctx = env -> cx_err ctx = None ->
  exists ctx' r, tupleCmp_loop ctx k1 k2 = Ok (ctx', r) /\ cx_env ctx' = env /\
    match tcmp l1 l2 with
    | Some c => cx_err ctx' = None /\ r = c
    | None => cx_err ctx' <> None
    end.
Proof.
  intros H1. revert k2 l2 ctx. induction H1 as [|e1 d1 k1 l1 Hd1 H1 IH]; intros k2 l2 ctx H2 Hl He Hn.
  { exists ctx, 0. by split_and!. }
  destruct H2 as [|e2 d2 k2 l2 Hd2 H2]; [done|]. injection Hl as Hl.
  cbn [tupleCmp_loop tcmp]. rewrite Hn.
  destruct (eval_two env e1 e2 d1 d2 ctx Hd1 Hd2 He Hn) as (ctx1 & ctx2 & E1 & E2 & He2 & Hd).
  rewrite E1. step_res. change (index (e2 :: k2) 0) with (Ok e2). step_res. rewrite E2. step_res.
  assert (cx_err ctx2 <> None -> exists ctx' r,
    ('(ctx, cmp) ← valueCmp ctx2 (cx_out ctx1) (cx_out ctx2);
     if negb (cmp =? 0) then Ok (ctx, cmp) else tupleCmp_loop ctx k1 (drop 1 (e2 :: k2))) = Ok (ctx', r) /\
    cx_env ctx' = env /\ cx_err ctx' <> None) as Hfail.
  { intros Hf. rewrite valueCmp_err by done. step_res. exists ctx2, 0. split; [|done].
    cbn. destruct k1; [done|]. cbn. by destruct (cx_err ctx2). }
  destruct d1 as [x|]; [|by apply Hfail]. destruct d2 as [y|]; [|by apply Hfail].
  destruct Hd as (Hn2 & Hv1 & Hv2).
  destruct (valueCmp_ok env ctx2 _ _ x y He2 Hn2 Hv1 Hv2) as (ctx3 & r & E3 & He3 & Hr).
  cbn. rewrite E3. step_res. destruct (scmp x y) as [c|]; cbn.
  - destruct Hr as [-> ->]. destruct (c =? 0); cbn [negb]; [|by exists ctx2, c].
    change (drop 1 (e2 :: k2)) with k2. by apply IH.
  - destruct (negb (r =? 0)); [by exists ctx3, r|]. change (drop 1 (e2 :: k2)) with k2.
    exists ctx3, 0. split; [|done]. destruct k1; [done|]. cbn. by destruct (cx_err ctx3).
Qed.

(** ** Operators *)

(** The context with a new integer result. *)
Lemma ctx_is_int env ctx n :
  cx_env ctx = env -> cx_err ctx = None -> v_Type (cx_out ctx) = TYPE_INT64 ->
  ctx_is env (set_out_i64 ctx n) (Some (SInt n)).
Proof. intros He Hn Ht. split; [done|]. split; [done|]. unfold val_of. cbn. by rewrite Ht. Qed.

(** The operand check of [evalLogic]. *)
Lemma check_ok env ctx d fmt args :
  ctx_is env ctx d ->
  let ctx' := if negb (v_Type (cx_out ctx) =? TYPE_INT64) then eErr ctx fmt args else ctx in
  cx_env ctx' = env /\
  match as_int d with
  | Some n => ctx' = ctx /\ cx_err ctx = None /\ v_Type (cx_out ctx) = TYPE_INT64 /\ v_I64 (cx_out ctx) = n
  | None => cx_err ctx' <> None
  end.
Proof.
  intros [He Hd]. destruct d as [[n|s]|]; cbn [as_int].
  - destruct Hd as [Hn [Ht Hi]%val_of_int]. rewrite Ht. cbn. auto.
  - destruct Hd as [Hn [Ht Hi]%val_of_str]. rewrite Ht. cbn. split; [by rewrite eErr_env|apply eErr_err].
  - destruct (negb _); [|done]. split; [by rewrite eErr_env|apply eErr_err].
Qed.

Lemma evalLogic_ok env ty e0 e1 d0 d1 ctx :
  ev_ok env e0 d0 -> ev_ok env e1 d1 -> cx_env ctx = env -> cx_err ctx = None ->
  exists ctx', evalLogic ty (Ok e0) (Ok e1) ctx = Ok ctx' /\ ctx_is env ctx' (logic ty d0 d1).
Proof.
  intros [_ H0] [_ H1] He Hn. unfold evalLogic. step_res.
  destruct (H0 ctx He Hn) as (c1 & -> & Hc1). step_res.
  destruct (check_ok env c1 d0 "invalid AND operand type" [] Hc1) as [He1 Hk1].
  set (c1' := if negb (v_Type (cx_out c1) =? TYPE_INT64) then _ else _) in *. unfold logic.
  destruct (as_int d0) as [x|]; cbn [mbind option_bind].
  2:{ destruct (cx_err c1') eqn:E; [|done]. exists c1'. split; [done|]. split; [done|congruence]. }
  destruct Hk1 as (Ec & Hn1 & Ht1 & Hi1). rewrite Ec, Hn1, Hi1 in *.
  destruct ((ty =? QL_AND) && (x =? 0)) eqn:Ea.
  { apply andb_true_iff in Ea as [_ ->%Z.eqb_eq]. exists c1. split; [done|]. split; [done|]. split; [done|].
    unfold val_of. by rewrite Ht1, Hi1. }
  destruct ((ty =? QL_OR) && negb (x =? 0)).
  { eexists. split; [done|]. by apply ctx_is_int. }
  destruct (H1 c1 He1 Hn1) as (c2 & -> & Hc2). step_res.
  destruct (check_ok env c2 d1 "invalid AND operand type" [] Hc2) as [He2 Hk2].
  set (c2' := if negb (v_Type (cx_out c2) =? TYPE_INT64) then _ else _) in *.
  destruct (as_int d1) as [y|]; cbn [mbind option_bind].
  2:{ destruct (cx_err c2') eqn:E; [|done]. exists c2'. split; [done|]. split; [done|congruence]. }
  destruct Hk2 as (Ec2 & Hn2 & Ht2 & Hi2). rewrite Ec2, Hn2, Hi2 in *.
  eexists. split; [done|]. by apply ctx_is_int.
Qed.

Lemma cmp2bool_ok op r : is_cmp_op op = true -> cmp2bool r op = Ok (holds op r).
Proof.
  unfold is_cmp_op, cmp2bool, holds. cbn [existsb].
  destruct (op =? QL_CMP_EQ), (op =? QL_CMP_NE), (op =? QL_CMP_GE), (op =? QL_CMP_GT), (op =? QL_CMP_LE),
    (op =? QL_CMP_LT); done.
Qed.

Lemma arith_binop_ok env ctx ty v1 v2 x y :
  is_arith_op ty = true -> cx_env ctx = env -> cx_err ctx = None ->
  val_of v1 = Some x -> val_of v2 = Some y ->
  exists ctx', (if negb (v_Type v1 =? v_Type v2) then Ok (eErr ctx "binop type mismatch" [])
     else if v_Type v1 =? TYPE_INT64 then
       let ctx := set_out_type ctx TYPE_INT64 in
       let '(ctx, r) := binOpI64 ctx ty (v_I64 v1) (v_I64 v2) in
       Ok (set_out_i64 ctx r)
     else if v_Type v1 =? TYPE_BYTES then
       let ctx := set_out_type ctx TYPE_BYTES in
       let '(ctx, r) := binOpStr ctx ty (v_Str v1) (v_Str v2) in
       Ok (set_out_str ctx r)
     else Panic) = Ok ctx' /\ ctx_is env ctx' (arith ty x y).
Proof.
  intros Hop He Hn H1 H2.
  destruct x as [x|x], y as [y|y];
    first [apply val_of_int in H1 as [-> <-]|apply val_of_str in H1 as [-> <-]];
    first [apply val_of_int in H2 as [-> <-]|apply val_of_str in H2 as [-> <-]]; cbn -[binOpI64 binOpStr arith].
  - unfold binOpI64, arith. unfold is_arith_op in Hop. cbn [existsb] in Hop.
    destruct (ty =? QL_ADD); [eexists; split; [reflexivity|by apply ctx_is_int]|].
    destruct (ty =? QL_SUB); [eexists; split; [reflexivity|by apply ctx_is_int]|].
    destruct (ty =? QL_MUL); [eexists; split; [reflexivity|by apply ctx_is_int]|].
    destruct (ty =? QL_DIV); [|destruct (ty =? QL_MOD); [|done]];
      (destruct (v_I64 v2 =? 0); eexists; split; [reflexivity| |reflexivity|]; [|by apply ctx_is_int]);
      (split; [cbn; rewrite eErr_env; done|apply eErr_err]).
  - eexists. split; [reflexivity|]. by apply ctx_is_err.
  - eexists. split; [reflexivity|]. by apply ctx_is_err.
  - unfold binOpStr, arith. destruct (ty =? QL_ADD).
    + eexists. split; [reflexivity|]. by split_and!.
    + eexists. split; [reflexivity|]. split; [cbn; rewrite eErr_env; done|apply eErr_err].
Qed.

(** A comparison's result, as the evaluator leaves it. *)
Lemma cmp_result_ok env ctx ty r :
  is_cmp_op ty = true -> cx_env ctx = env -> cx_err ctx = None ->
  exists ctx', (b ← cmp2bool r ty; Ok (set_out_i64 (set_out_type ctx TYPE_INT64) (b2i b))) = Ok ctx' /\
    ctx_is env ctx' (Some (SInt (b2i (holds ty r)))).
Proof.
  intros Hop He Hn. rewrite cmp2bool_ok by done. step_res. eexists. split; [done|]. by apply ctx_is_int.
Qed.

Lemma cmp_error_ok env ctx ty r :
  is_cmp_op ty = true -> cx_env ctx = env -> cx_err ctx <> None ->
  exists ctx', (b ← cmp2bool r ty; Ok (set_out_i64 (set_out_type ctx TYPE_INT64) (b2i b))) = Ok ctx' /\
    ctx_is env ctx' None.
Proof. intros Hop He Hn. rewrite cmp2bool_ok by done. step_res. eexists. by split. Qed.

Lemma eval_cmp_scalar env ty e1 e2 d1 d2 ctx :
  is_cmp_op ty = true -> ev_ok env e1 d1 -> ev_ok env e2 d2 -> cx_env ctx = env -> cx_err ctx = None ->
  exists ctx', (ctx ← e1 ctx; let val1 := cx_out ctx in ctx ← e2 ctx; let val2 := cx_out ctx in
    '(ctx, r) ← valueCmp ctx val1 val2;
    b ← cmp2bool r ty; Ok (set_out_i64 (set_out_type ctx TYPE_INT64) (b2i b))) = Ok ctx' /\
    ctx_is env ctx' (x ← d1; y ← d2; r ← scmp x y; Some (SInt (b2i (holds ty r)))).
Proof.
  intros Hop H1 H2 He Hn.
  destruct (eval_two env e1 e2 d1 d2 ctx H1 H2 He Hn) as (c1 & c2 & -> & E2 & He2 & Hd). step_res.
  cbv zeta. rewrite E2. step_res.
  assert (cx_err c2 <> None -> exists ctx', ('(ctx, r) ← valueCmp c2 (cx_out c1) (cx_out c2);
    b ← cmp2bool r ty; Ok (set_out_i64 (set_out_type ctx TYPE_INT64) (b2i b))) = Ok ctx' /\
    ctx_is env ctx' None) as Hfail.
  { intros Hf. rewrite valueCmp_err by done. step_res. by apply cmp_error_ok. }
  destruct d1 as [x|]; [|by apply Hfail]. destruct d2 as [y|]; [|by apply Hfail].
  destruct Hd as (Hn2 & Hv1 & Hv2).
  destruct (valueCmp_ok env c2 _ _ x y He2 Hn2 Hv1 Hv2) as (c3 & r & -> & He3 & Hr). step_res.
  cbn. destruct (scmp x y) as [c|]; cbn.
  - destruct Hr as [-> ->]. by apply cmp_result_ok.
  - by apply cmp_error_ok.
Qed.

Lemma eval_cmp_tuple env ty k1 k2 l1 l2 ctx :
  is_cmp_op ty = true -> Forall2 (ev_ok env) k1 l1 -> Forall2 (ev_ok env) k2 l2 ->
  cx_env ctx = env -> cx_err ctx = None ->
  exists ctx', ('(ctx, r) ← tupleCmp ctx k1 k2;
    b ← cmp2bool r ty; Ok (set_out_i64 (set_out_type ctx TYPE_INT64) (b2i b))) = Ok ctx' /\
    ctx_is env ctx'
      (r ← (if (length l1 =? length l2)%nat then tcmp l1 l2 else None); Some (SInt (b2i (holds ty r)))).
Proof.
  intros Hop H1 H2 He Hn. unfold tupleCmp, len.
  pose proof (Forall2_length _ _ _ H1). pose proof (Forall2_length _ _ _ H2).
  destruct (Nat.eqb_spec (length l1) (length l2)) as [E|E].
  - rewrite (proj2 (Z.eqb_eq _ _)) by lia. cbn [negb].
    destruct (tupleCmp_loop_ok env k1 k2 l1 l2 ctx H1 H2 ltac:(lia) He Hn) as (c & r & -> & Hc & Hr).
    step_res. destruct (tcmp l1 l2); cbn.
    + destruct Hr as [Hr ->]. by apply cmp_result_ok.
    + by apply cmp_error_ok.
  - rewrite (proj2 (Z.eqb_neq _ _)) by lia. cbn [negb]. step_res.
    apply cmp_error_ok; [done|by rewrite eErr_env|apply eErr_err].
Qed.

Lemma eval_arith env ty e1 e2 d1 d2 ctx :
  is_arith_op ty = true -> ev_ok env e1 d1 -> ev_ok env e2 d2 -> cx_env ctx = env -> cx_err ctx = None ->
  exists ctx', (ctx ← e1 ctx; let val1 := cx_out ctx in ctx ← e2 ctx; let val2 := cx_out ctx in
    match cx_err ctx with
    | Some _ => Ok ctx
    | None =>
        if negb (v_Type val1 =? v_Type val2) then Ok (eErr ctx "binop type mismatch" [])
        else if v_Type val1 =? TYPE_INT64 then
          let ctx := set_out_type ctx TYPE_INT64 in
          let '(ctx, r) := binOpI64 ctx ty (v_I64 val1) (v_I64 val2) in
          Ok (set_out_i64 ctx r)
        else if v_Type val1 =? TYPE_BYTES then
          let ctx := set_out_type ctx TYPE_BYTES in
          let '(ctx, r) := binOpStr ctx ty (v_Str val1) (v_Str val2) in
          Ok (set_out_str ctx r)
        else Panic
    end) = Ok ctx' /\ ctx_is env ctx' (x ← d1; y ← d2; arith ty x y).
Proof.
  intros Hop H1 H2 He Hn.
  destruct (eval_two env e1 e2 d1 d2 ctx H1 H2 He Hn) as (c1 & c2 & -> & E2 & He2 & Hd). step_res.
  cbv zeta. rewrite E2. step_res.
  destruct d1 as [x|], d2 as [y|]; cbn [mbind option_bind].
  1: destruct Hd as (Hn2 & Hv1 & Hv2); rewrite Hn2; by apply arith_binop_ok.
  all: destruct (cx_err c2) eqn:E; [|done]; exists c2; split; [done|]; split; congruence.
Qed.

(** ** Whole expressions *)

Lemma row_get_loop_ok cols vals0 vals col :
  length cols = length vals ->
  row_get_loop cols (vals0 ++ vals) (len vals0) col = Ok (assoc cols vals col).
Proof.
  revert vals0 vals. induction cols as [|c cols IH]; intros vals0 [|v vals] Hl; try done.
  cbn. destruct (decide (c = col)).
  - unfold index. pose proof (len_nonneg vals0). rewrite (proj2 (Z.leb_le _ _)) by done.
    rewrite len_to_nat, list_lookup_middle by done. done.
  - injection Hl as Hl. specialize (IH (vals0 ++ [v]) vals Hl).
    rewrite <- app_assoc, len_app in IH. exact IH.
Qed.

Lemma assoc_typed cols vals col v :
  Forall (fun v => v_Type v = TYPE_INT64 \/ v_Type v = TYPE_BYTES) vals ->
  assoc cols vals col = Some v -> is_Some (val_of v).
Proof.
  intros H. revert cols. induction H as [|w vals Hw _ IH]; intros [|c cols]; try done. cbn.
  destruct (decide (c = col)); [|apply IH]. intros [= <-]. unfold val_of.
  destruct Hw as [-> | ->]; cbn; by eexists.
Qed.

Lemma eval_sym_ok env str ctx :
  env_ok env -> cx_env ctx = env ->  cx_err ctx = None ->
  exists ctx', (v ← row_Get (cx_env ctx) str;
    match v with
    | Some v => Ok (set_out ctx v)
    | None => Ok (eErr ctx "unknown column: %s" [str])
    end) = Ok ctx' /\ ctx_is env ctx' (v ← assoc (rec_Cols env) (rec_Vals env) str; val_of v).
Proof.
  intros [Hl Ht] He Hn. rewrite He. unfold row_Get.
  pose proof (row_get_loop_ok (rec_Cols env) [] (rec_Vals env) str Hl) as E. cbn in E.
  change (len []) with 0 in E. rewrite E. step_res.
  destruct (assoc _ _ _) as [v|] eqn:Ev; cbn.
  - destruct (assoc_typed _ _ _ _ Ht Ev) as [d Hd]. rewrite Hd. eexists. by split.
  - eexists. split; [done|]. by apply ctx_is_err.
Qed.

Lemma eval_unary_ok env e d ctx fmt (f : Z -> Z) :
  ev_ok env e d -> cx_env ctx = env -> cx_err ctx = None ->
  exists ctx', (ctx ← e ctx;
    if v_Type (cx_out ctx) =? TYPE_INT64 then Ok (set_out_i64 ctx (f (v_I64 (cx_out ctx))))
    else Ok (eErr ctx fmt [])) = Ok ctx' /\ ctx_is env ctx' (x ← as_int d; Some (SInt (f x))).
Proof.
  intros [_ H] He Hn. destruct (H ctx He Hn) as (c & -> & Hc). step_res.
  pose proof (check_ok env c d fmt [] Hc) as Hk. cbv zeta in Hk. revert Hk.
  destruct (v_Type (cx_out c) =? TYPE_INT64) eqn:Et; cbn [negb]; intros [He' Hk]; eexists; (split; [done|]).
  - destruct (as_int d) as [x|]; [|by split]. destruct Hk as (_ & Hn' & Ht & <-). by apply ctx_is_int.
  - destruct (as_int d) as [x|]; [|by split]. destruct Hk as (Hk & _ & Ht & _).
    rewrite Ht in Et. done.
Qed.

(** The operand an expression becomes. *)
Definition operand_of (kid : QLNode) : operand :=
  mkOperand (ql_Type kid) (evalExpr kid) (map evalExpr (ql_Kids kid)).

Lemma evalBinOp_ok env ty a b ctx :
  (is_cmp_op ty || is_arith_op ty || is_logic_op ty) = true ->
  ev_ok env (evalExpr a) (denote env a) -> ev_ok env (evalExpr b) (denote env b) ->
  (ql_Type a = QL_TUP -> Forall2 (ev_ok env) (map evalExpr (ql_Kids a)) (map (denote env) (ql_Kids a))) ->
  (ql_Type b = QL_TUP -> Forall2 (ev_ok env) (map evalExpr (ql_Kids b)) (map (denote env) (ql_Kids b))) ->
  cx_env ctx = env -> cx_err ctx = None ->
  exists ctx', evalBinOp ty [operand_of a; operand_of b] ctx = Ok ctx' /\
    ctx_is env ctx'
      (if is_logic_op ty then logic ty (denote env a) (denote env b)
       else if is_cmp_op ty then
         r ← (if (ql_Type a =? QL_TUP) && (ql_Type b =? QL_TUP) then
                if (length (ql_Kids a) =? length (ql_Kids b))%nat
                then tcmp (map (denote env) (ql_Kids a)) (map (denote env) (ql_Kids b)) else None
              else x ← denote env a; y ← denote env b; scmp x y);
         Some (SInt (b2i (holds ty r)))
       else x ← denote env a; y ← denote env b; arith ty x y).
Proof.
  intros Hop Ha Hb Hka Hkb He Hn. unfold evalBinOp. destruct (is_logic_op ty); [by apply evalLogic_ok|].
  rewrite orb_false_r in Hop.
  change (index [operand_of a; operand_of b] 0) with (Ok (operand_of a)). step_res.
  change (index [operand_of a; operand_of b] 1) with (Ok (operand_of b)). step_res.
  cbn [operand_of od_type od_eval od_kids]. destruct (is_cmp_op ty) eqn:Ec; cbn [andb].
  - destruct (ql_Type a =? QL_TUP) eqn:Ea; cbn [andb].
    2:{ destruct (eval_cmp_scalar env ty _ _ _ _ ctx Ec Ha Hb He Hn) as (c & E & Hc). exists c. split; [exact E|].
        revert Hc. by destruct (denote env a), (denote env b). }
    destruct (ql_Type b =? QL_TUP) eqn:Eb; cbn [andb].
    2:{ destruct (eval_cmp_scalar env ty _ _ _ _ ctx Ec Ha Hb He Hn) as (c & E & Hc). exists c. split; [exact E|].
        revert Hc. by destruct (denote env a), (denote env b). }
    apply Z.eqb_eq in Ea, Eb.
    destruct (eval_cmp_tuple env ty _ _ _ _ ctx Ec (Hka Ea) (Hkb Eb) He Hn) as (c & E & Hc).
    exists c. split; [exact E|]. rewrite !length_map in Hc. exact Hc.
  - by apply eval_arith.
Qed.

Lemma evalExpr_unfold_bin env ty n str a b :
  (is_cmp_op ty || is_arith_op ty || is_logic_op ty) = true ->
  (forall ctx, cx_err ctx = None ->
     evalExpr (mkQLNode ty n str [a; b]) ctx = evalBinOp ty [operand_of a; operand_of b] ctx) /\
  denote env (mkQLNode ty n str [a; b]) =
    (if is_logic_op ty then logic ty (denote env a) (denote env b)
     else if is_cmp_op ty then
       r ← (if (ql_Type a =? QL_TUP) && (ql_Type b =? QL_TUP) then
              if (length (ql_Kids a) =? length (ql_Kids b))%nat
              then tcmp (map (denote env) (ql_Kids a)) (map (denote env) (ql_Kids b)) else None
            else x ← denote env a; y ← denote env b; scmp x y);
       Some (SInt (b2i (holds ty r)))
     else x ← denote env a; y ← denote env b; arith ty x y).
Proof.
  intros Hop. split.
  - intros ctx Hn. destruct a as [ta ia sa ka], b as [tb ib sb kb]. cbn [evalExpr]. rewrite Hn.
    assert (ty =? QL_SYM = false /\ ty =? QL_I64 = false /\ ty =? QL_STR = false /\ ty =? QL_TUP = false /\
      ty =? QL_NEG = false /\ ty =? QL_NOT = false) as (-> & -> & -> & -> & -> & ->).
    { split_and!; apply Z.eqb_neq; intros ->; discriminate Hop. }
    rewrite Hop. reflexivity.
  - destruct a as [ta ia sa ka], b as [tb ib sb kb].
    assert (ty =? QL_SYM = false /\ ty =? QL_I64 = false /\ ty =? QL_STR = false /\ ty =? QL_TUP = false)
      as (E1 & E2 & E3 & E4).
    { split_and!; apply Z.eqb_neq; intros ->; discriminate Hop. }
    cbn [denote]. rewrite E1, E2, E3, E4. reflexivity.
Qed.

Lemma evalExpr_ok env node :
  env_ok env -> ql_wf node = true ->
  ev_ok env (evalExpr node) (denote env node) /\
  (ql_Type node = QL_TUP ->
   Forall2 (ev_ok env) (map evalExpr (ql_Kids node)) (map (denote env) (ql_Kids node))).
Proof.
  intros Henv. induction node as [ty n str kids IH] using QLNode_kids_ind. intros Hwf.
  assert (forall ctx, cx_err ctx <> None -> evalExpr (mkQLNode ty n str kids) ctx = Ok ctx) as Herr.
  { intros ctx Hn. cbn [evalExpr]. by destruct (cx_err ctx). }
  cbn [ql_wf] in Hwf. destruct ((ty =? QL_SYM) || (ty =? QL_I64) || (ty =? QL_STR)) eqn:Eleaf.
  { split; [|cbn; intros ->; done]. split; [exact Herr|]. intros ctx He Hn. cbn [evalExpr denote]. rewrite Hn.
    destruct (Z.eqb_spec ty QL_SYM) as [->|]; [by apply eval_sym_ok|].
    rewrite orb_false_l in Eleaf. rewrite Eleaf.
    destruct (Z.eqb_spec ty QL_I64) as [->|]; [by eexists|].
    destruct (Z.eqb_spec ty QL_STR) as [->|]; [|done]. by eexists. }
  apply orb_false_iff in Eleaf as [[E1 E2]%orb_false_iff E3]. apply andb_true_iff in Hwf as [Hkids Hwf].
  rewrite forallb_forall in Hkids.
  assert (Forall (fun k => ev_ok env (evalExpr k) (denote env k) /\ (ql_Type k = QL_TUP ->
    Forall2 (ev_ok env) (map evalExpr (ql_Kids k)) (map (denote env) (ql_Kids k)))) kids) as Hk.
  { rewrite Forall_forall in IH |- *. intros k Hin. apply IH; [done|]. apply Hkids. by apply list_elem_of_In. }
  destruct (Z.eqb_spec ty QL_TUP) as [->|Etup].
  { split; [split; [exact Herr|]|].
    - intros ctx He Hn. cbn. rewrite Hn. eexists. split; [done|]. by apply ctx_is_err.
    - intros _. cbn. clear -Hk. induction Hk as [|k kids [Hk _] _ IH]; constructor; [exact Hk|exact IH]. }
  split; [|done]. split; [exact Herr|]. intros ctx He Hn.
  destruct ((ty =? QL_NEG) || (ty =? QL_NOT)) eqn:Eun.
  - destruct kids as [|k [|? ?]]; try done. apply Forall_cons in Hk as [[Hk _] _].
    apply orb_true_iff in Eun as [E|E]; apply Z.eqb_eq in E as ->; cbn; rewrite Hn.
    + apply (eval_unary_ok env (evalExpr k) (denote env k) ctx _ (fun x => i64 (- x))); done.
    + apply (eval_unary_ok env (evalExpr k) (denote env k) ctx _ (fun x => b2i (x =? 0))); done.
  - apply andb_true_iff in Hwf as [Hop Hl]. destruct kids as [|a [|b [|? ?]]]; try done.
    destruct (evalExpr_unfold_bin env ty n str a b Hop) as [-> ->]; [|done].
    do 2 (apply Forall_cons in Hk as [[? ?] Hk]). by apply evalBinOp_ok.
Qed.
