(* ===== verification/EvalProps.v ===== *)
(** * Properties of the evaluator *)

From S2P Require Import Prelude.
From S2P Require Import GoBytes.
From S2P Require Import Encode.
From S2P Require Import QLNode.
From S2P Require Import Eval.
From S2P Require Import EvalFacts.

(** C23.  On every expression of the shape the parser builds and every row of
    typed columns, [evalExpr] returns (it does not reach its [panic]s), leaves
    the row alone, and agrees with the reference semantics [denote]: the output
    is the denoted integer or string with wrapping arithmetic, lexicographic
    tuple comparison and short-circuit AND/OR, and the error is set exactly
    where the expression has no value (unknown column, type mismatch, division
    by zero, tuple out of place). *)
Theorem evalExpr_denotes (env : Row) (node : QLNode) (out : Value) :
  env_ok env -> ql_wf node = true ->
  exists ctx, evalExpr node (mkCtx env out None) = Ok ctx /\ cx_env ctx = env /\
    match denote env node with
    | Some v => cx_err ctx = None /\ val_of (cx_out ctx) = Some v
    | None => cx_err ctx <> None
    end.
Proof. intros He Hw. by apply (evalExpr_ok env node He Hw). Qed.

(** The row [a = 7, b = "xy"]. *)
Definition row_ab : Row :=
  mkRow [bytes_of "a"; bytes_of "b"] [mkValue TYPE_INT64 7 []; mkValue TYPE_BYTES 0 (bytes_of "xy")].

Lemma row_ab_ok : env_ok row_ab.
Proof. split; [done|]. apply Forall_cons; split; [by left|]. apply Forall_cons; split; [by right|constructor]. Qed.

Definition ql_sym (s : string) : QLNode := mkQLNode QL_SYM 0 (bytes_of s) [].
Definition ql_int (n : Z) : QLNode := mkQLNode QL_I64 n [] [].
Definition ql_str (s : string) : QLNode := mkQLNode QL_STR 0 (bytes_of s) [].
Definition ql_op (ty : Z) (kids : list QLNode) : QLNode := mkQLNode ty 0 [] kids.

(** [(a, b) < (7, "xz") and not a % 7] *)
Definition expr_ab : QLNode :=
  ql_op QL_AND
    [ql_op QL_CMP_LT [ql_op QL_TUP [ql_sym "a"; ql_sym "b"]; ql_op QL_TUP [ql_int 7; ql_str "xz"]];
     ql_op QL_NOT [ql_op QL_MOD [ql_sym "a"; ql_int 7]]].

Example evalExpr_denotes_witness :
  denote row_ab expr_ab = Some (SInt 1) /\
  exists ctx, evalExpr expr_ab (mkCtx row_ab (mkValue 0 0 []) None) = Ok ctx /\ cx_env ctx = row_ab /\
    match denote row_ab expr_ab with
    | Some v => cx_err ctx = None /\ val_of (cx_out ctx) = Some v
    | None => cx_err ctx <> None
    end.
Proof.
  split; [vm_compute; reflexivity|].
  exact (evalExpr_denotes row_ab expr_ab (mkValue 0 0 []) row_ab_ok eq_refl).
Defined.

(** The values of a list of expressions; [None] when one of them has none. *)
Fixpoint denotes (env : Row) (nodes : list QLNode) : option (list sval) :=
  match nodes with
  | [] => Some []
  | n :: nodes => v ← denote env n; vs ← denotes env nodes; Some (v :: vs)
  end.

Lemma evalMulti_loop_ok env nodes vals :
  env_ok env -> forallb ql_wf nodes = true ->
  match denotes env nodes with
  | Some vs => exists vals', evalMulti_loop env nodes vals = Ok (inl (vals ++ vals')) /\
      map val_of vals' = map Some vs
  | None => exists e, evalMulti_loop env nodes vals = Ok (inr e)
  end.
Proof.
  intros He. revert vals. induction nodes as [|n nodes IH]; intros vals Hw.
  { exists []. cbn. by rewrite app_nil_r. }
  cbn in Hw. apply andb_true_iff in Hw as [Hn Hw].
  destruct (evalExpr_ok env n He Hn) as [[_ H] _].
  destruct (H (mkCtx env (mkValue 0 0 []) None) eq_refl eq_refl) as (ctx & E & Henv & Hd).
  cbn [evalMulti_loop denotes]. rewrite E. step_res. destruct (denote env n) as [v|]; cbn [mbind option_bind].
  - destruct Hd as [-> Hv]. specialize (IH (vals ++ [cx_out ctx]) Hw).
    destruct (denotes env nodes) as [vs|]; cbn [mbind option_bind]; [|exact IH].
    destruct IH as (vals' & -> & Hm). exists (cx_out ctx :: vals'). rewrite <- app_assoc. split; [done|].
    cbn. by rewrite Hv, Hm.
  - destruct (cx_err ctx) as [e|]; [by exists e|done].
Qed.

Lemma denotes_length env nodes vs : denotes env nodes = Some vs -> length nodes = length vs.
Proof.
  revert vs. induction nodes as [|n nodes IH]; intros vs; cbn; [by intros [= <-]|].
  destruct (denote env n) as [v|]; [|done]. cbn. destruct (denotes env nodes) as [vs'|]; [|done]. cbn. intros [= <-].
  cbn. by rewrite (IH vs').
Qed.

Lemma evalMulti_denoted (env : Row) (nodes : list QLNode) :
  env_ok env -> forallb ql_wf nodes = true ->
  match denotes env nodes with
  | Some vs => exists vals, evalMulti env nodes = Ok (inl vals) /\ map val_of vals = map Some vs
  | None => exists e, evalMulti env nodes = Ok (inr e)
  end.
Proof.
  intros He Hw. unfold evalMulti. pose proof (evalMulti_loop_ok env nodes [] He Hw) as H.
  destruct (denotes env nodes); exact H.
Qed.

(** C24.  [evalMulti] never panics on expressions of the parser's shape: it
    returns one value per expression, each the denoted one, or an error when
    some expression has no value. *)
Theorem evalMulti_denotes (env : Row) (nodes : list QLNode) :
  env_ok env -> forallb ql_wf nodes = true ->
  match denotes env nodes with
  | Some vs => exists vals, evalMulti env nodes = Ok (inl vals) /\ map val_of vals = map Some vs
  | None => exists e, evalMulti env nodes = Ok (inr e)
  end.
Proof. apply evalMulti_denoted. Qed.

Example evalMulti_denotes_witness :
  denotes row_ab [ql_sym "b"; ql_op QL_DIV [ql_int 1; ql_int 0]] = None /\
  match denotes row_ab [ql_sym "b"; ql_op QL_DIV [ql_int 1; ql_int 0]] with
  | Some vs => exists vals, evalMulti row_ab [ql_sym "b"; ql_op QL_DIV [ql_int 1; ql_int 0]] = Ok (inl vals) /\
      map val_of vals = map Some vs
  | None => exists e, evalMulti row_ab [ql_sym "b"; ql_op QL_DIV [ql_int 1; ql_int 0]] = Ok (inr e)
  end.
Proof.
  split; [vm_compute; reflexivity|].
  exact (evalMulti_denotes row_ab [ql_sym "b"; ql_op QL_DIV [ql_int 1; ql_int 0]] row_ab_ok eq_refl).
Defined.
