(* ===== verification/PagerProps.v ===== *)
(** * What the pages of the file promise *)

From S2P Require Import Prelude.
From S2P Require Import GoBytes.
From S2P Require Import BNode.
From S2P Require Import BTree.
From S2P Require Import BTreeRep.
From S2P Require Import Conflict.
From S2P Require Import Pager.
From S2P Require Import PagerFacts.
From S2P Require Import FreeListFacts.
From S2P Require Import FreeListOps.
From S2P Require Import PagerStore.

(** The state of an empty file after [Open]: no mapping, the meta page and one
    free list node reserved. *)
Definition new_pager : Pager := mkPager [] [] 2 0 ∅ (mkFreeList 1 0 1 0 0 0 0).

Lemma new_pager_inv : fl_inv new_pager 0 [1] [] /\ settled 0 [1] [].
Proof.
  split; [|by split; cbn; lia]. constructor; try done; cbn; try lia.
  - split; [lia|reflexivity].
  - intros n ->%list_elem_of_singleton. exists (make BTREE_PAGE_SIZE). split; [done|].
    unfold len, make. by rewrite length_replicate.
  - apply NoDup_singleton.
  - intros p ->%list_elem_of_singleton. unfold bound. cbn. lia.
  - split; [done|]. set_solver.
  - unfold bound. cbn. lia.
Qed.

Lemma new_pager_ok r : Z.of_nat r < 2 ^ 32 -> pager_ok new_pager ∅ r.
Proof.
  intros Hr. destruct new_pager_inv as [I Hs]. exists 0%nat, [1], []. split_and!; auto; [done|].
  unfold fl_room, bound. cbn. lia.
Qed.

(** One request of the tree to its callbacks, with the pages the tree then
    has: the map of live pages. *)
Inductive tree_request : Pager * heap -> Pager * heap -> Prop :=
| req_new db m c db' p :
    len c = BTREE_PAGE_SIZE -> pageAlloc db c = Ok (db', p) -> tree_request (db, m) (db', <[p := c]> m)
| req_del db m p db' :
    is_Some (m !! p) -> PushTail db p = Ok db' -> tree_request (db, m) (db', delete p m).

Lemma request_ok db m r s : pager_ok db m (S r) -> tree_request (db, m) s -> pager_ok s.1 s.2 r.
Proof.
  intros Hok Hreq. inversion Hreq as [? ? c db' p Hc E|? ? p db' Hp E]; subst; cbn.
  - destruct (pageAlloc_live db m r c Hok Hc) as (db2 & p2 & E2 & _ & _ & H). congruence.
  - destruct (PushTail_live db m r p Hok Hp) as (db2 & E2 & H). congruence.
Qed.

Lemma requests_ok n db m r s : pager_ok db m (n + r) -> nsteps tree_request n (db, m) s -> pager_ok s.1 s.2 r.
Proof.
  intros Hok Hs. remember (db, m) as s0 eqn:E. revert db m E Hok.
  induction Hs as [|n s0 [db1 m1] s2 H1 _ IH]; intros db m -> Hok; [done|].
  by apply (IH db1 m1), (request_ok db m (n + r) (db1, m1)).
Qed.

(** C25.  Over the pages of the file and its free list, any sequence of
    allocations and deallocations by a tree that only deallocates its own
    pages is safe: afterwards every page in use still reads back what was
    written to it, allocating returns a page that is not in use (page 0, the
    meta page, never), and deallocating a page in use does not fail.  Nothing
    else in the list's nodes, its growth or its reuse of its own pages can
    touch a page of the tree. *)
Theorem pages_in_use_safe db m n r db' m' :
  pager_ok db m (n + S r) -> nsteps tree_request n (db, m) (db', m') ->
  (forall p c, m' !! p = Some c -> pageRead db' p = Ok c) /\
  (forall c, len c = BTREE_PAGE_SIZE ->
     exists db2 p, pageAlloc db' c = Ok (db2, p) /\ m' !! p = None /\ 0 < p) /\
  (forall p, is_Some (m' !! p) -> exists db2, PushTail db' p = Ok db2).
Proof.
  intros Hok Hs. pose proof (requests_ok _ _ _ _ _ Hok Hs) as H. cbn in H. split_and!.
  - intros p c Hp. by eapply pageRead_live.
  - intros c Hc. destruct (pageAlloc_live db' m' r c H Hc) as (db2 & p & E & Hp & Hn & _).
    exists db2, p. split_and!; auto. lia.
  - intros p Hp. destruct (PushTail_live db' m' r p H Hp) as (db2 & E & _). by exists db2.
Qed.

(** Allocation of two pages and deallocation of the first one. *)
Definition page_of (b : byte) : bytes := replicate 4096 b.

Example pages_in_use_safe_witness :
  exists db', nsteps tree_request 3 (new_pager, ∅)
      (db', delete 2 (<[3 := page_of Byte.x02]> (<[2 := page_of Byte.x01]> ∅))) /\
    pageRead db' 3 = Ok (page_of Byte.x02).
Proof.
  assert (exists db1, pageAlloc new_pager (page_of Byte.x01) = Ok (db1, 2) /\
    exists db2, pageAlloc db1 (page_of Byte.x02) = Ok (db2, 3) /\
    exists db3, PushTail db2 2 = Ok db3) as (db1 & E1 & db2 & E2 & db3 & E3).
  { eexists. split; [vm_compute; reflexivity|]. eexists. split; [vm_compute; reflexivity|].
    eexists. vm_compute. reflexivity. }
  assert (nsteps tree_request 3 (new_pager, ∅)
      (db3, delete 2 (<[3 := page_of Byte.x02]> (<[2 := page_of Byte.x01]> ∅)))) as Hs.
  { eapply nsteps_l; [eapply req_new; [|exact E1]; reflexivity|].
    eapply nsteps_l; [eapply req_new; [|exact E2]; reflexivity|].
    eapply nsteps_l; [apply req_del; [|exact E3]|apply nsteps_O].
    rewrite lookup_insert_ne, lookup_insert_eq by done. by eexists. }
  exists db3. split; [exact Hs|].
  destruct (pages_in_use_safe new_pager ∅ 3 4 db3 _ (new_pager_ok 8 ltac:(lia)) Hs) as (Hread & _ & _).
  apply Hread. rewrite lookup_delete_ne, lookup_insert_eq by done. reflexivity.
Defined.

(** C26.  What [PopHead] hands out is either nothing or the oldest page of the
    queue, and then that page was freed at a version that the oldest reader
    does not see ([maxVer]), was in the list before the last [SetMaxVer] (so
    not freed by the running transaction), has no pending update, and has left
    the list; the list stays well formed, even when its own emptied head node
    is recycled into its tail. *)
Theorem PopHead_reuse_safe db o chain items :
  fl_inv db o chain items -> settled o chain items -> fl_room db 1 3 ->
  exists db' ptr, PopHead db = Ok (db', ptr) /\
    (ptr = 0 \/
     exists ver rest, items = (ptr, ver) :: rest /\ ver <= fl_maxVer (pg_free db) /\
       fl_headSeq (pg_free db) < fl_maxSeq (pg_free db) /\ pg_updates db !! ptr = None) /\
    exists o' chain' items', fl_inv db' o' chain' items' /\ settled o' chain' items' /\
      (ptr <> 0 -> ptr ∉ chain' /\ ptr ∉ items'.*1).
Proof.
  intros I Hs Hr. destruct (PopHead_ok db o chain items I Hs Hr) as
    (db' & ptr & o' & chain' & items' & E & Htk & (I' & Hs' & _) & _ & Hptr).
  exists db', ptr. split; [done|]. split; [exact Htk|]. exists o', chain', items'. split; [done|].
  split; [done|]. intros Hp. destruct (Hptr Hp) as (_ & _ & Hn & _). by apply not_elem_of_app in Hn.
Qed.

(** A file of three pages: the list node 1 holds page 2, freed at version 1. *)
Definition one_free_node : bytes :=
  match setItem (make BTREE_PAGE_SIZE) 0 2 1 with Ok c => c | _ => [] end.
Definition one_free : Pager :=
  mkPager (make BTREE_PAGE_SIZE ++ one_free_node ++ make BTREE_PAGE_SIZE) [mkChunk 0 (2 ^ 26)] 3 0 ∅
    (mkFreeList 1 0 1 1 1 1 2).

Lemma one_free_inv : fl_inv one_free 0 [1] [(2, 1)] /\ settled 0 [1] [(2, 1)].
Proof.
  assert (view one_free 1 = Some one_free_node) as V1 by (vm_compute; reflexivity).
  assert (view one_free 2 = Some (make BTREE_PAGE_SIZE)) as V2 by (vm_compute; reflexivity).
  split; [|by split; cbn; lia]. constructor.
  - split; [lia|reflexivity].
  - reflexivity.
  - reflexivity.
  - reflexivity.
  - by split.
  - reflexivity.
  - change (0 + 1 <= 255 * 1)%nat. lia.
  - intros [|k] e j i Hk Hj Hi; [|done]. injection Hk as <-.
    assert (j = 0%nat /\ i = 0%nat) as [-> ->] by lia. exists 1, one_free_node.
    split; [done|]. split; [exact V1|]. vm_compute. reflexivity.
  - intros [|j] n n' H1 H2; done.
  - intros n ->%list_elem_of_singleton. exists one_free_node. split; [exact V1|]. vm_compute. reflexivity.
  - apply (bool_decide_unpack _). vm_compute. done.
  - change (forall p, p ∈ [1; 2] -> 0 < p < 3). intros p. rewrite elem_of_cons, list_elem_of_singleton. lia.
  - by split.
  - intros [|k] p v Hk _; [|done]. injection Hk as <- <-. split; [done|].
    exists (make BTREE_PAGE_SIZE). split; [exact V2|]. vm_compute. reflexivity.
  - done.
  - done.
  - by split.
  - unfold bound. cbn. lia.
Qed.

Example PopHead_reuse_safe_witness :
  (exists db', PopHead one_free = Ok (db', 2)) /\
  exists db' ptr, PopHead one_free = Ok (db', ptr) /\
    (ptr = 0 \/
     exists ver rest, [(2, 1)] = (ptr, ver) :: rest /\ ver <= fl_maxVer (pg_free one_free) /\
       fl_headSeq (pg_free one_free) < fl_maxSeq (pg_free one_free) /\ pg_updates one_free !! ptr = None) /\
    exists o' chain' items', fl_inv db' o' chain' items' /\ settled o' chain' items' /\
      (ptr <> 0 -> ptr ∉ chain' /\ ptr ∉ items'.*1).
Proof.
  split; [eexists; vm_compute; reflexivity|].
  apply (PopHead_reuse_safe one_free 0 [1] [(2, 1)]);
    [apply one_free_inv|apply one_free_inv|split; vm_compute; done].
Defined.
