(* ===== verification/KV.v ===== *)
(** * The store behind a file (src/db/kv.go)

    [KV] with its file, its tree, its pages and the state of its
    transactions.  The system calls answer from [kv_io], a list of outcomes
    that the environment chooses: a call succeeds, or fails after some bytes
    have reached the file, or, if it is a write, reports success although only
    some bytes have; past the end of the list every call succeeds. *)

From S2P Require Import Prelude.
From S2P Require Import GoBytes.
From S2P Require Import BNode.
From S2P Require Import BTree.
From S2P Require Import Conflict.
From S2P Require Import Pager.

Inductive outcome := IoOk | IoErr (written : nat) | IoShort (written : nat).

Record KV := mkKV {
  kv_root : Z; kv_pages : Pager; kv_total : Z; kv_failed : bool;
  kv_vers : Versions; kv_io : list outcome
}.

Definition set_root (db : KV) (root : Z) : KV :=
  mkKV root (kv_pages db) (kv_total db) (kv_failed db) (kv_vers db) (kv_io db).
Definition set_pages (db : KV) (pages : Pager) : KV :=
  mkKV (kv_root db) pages (kv_total db) (kv_failed db) (kv_vers db) (kv_io db).
Definition set_failed (db : KV) (failed : bool) : KV :=
  mkKV (kv_root db) (kv_pages db) (kv_total db) failed (kv_vers db) (kv_io db).
Definition set_vers (db : KV) (vers : Versions) : KV :=
  mkKV (kv_root db) (kv_pages db) (kv_total db) (kv_failed db) vers (kv_io db).
Definition set_version (db : KV) (version : Z) : KV :=
  set_vers db (mkVersions version (vs_ongoing (kv_vers db)) (vs_history (kv_vers db))).
Definition set_file (pg : Pager) (file : bytes) : Pager :=
  mkPager file (pg_chunks pg) (pg_flushed pg) (pg_nappend pg) (pg_updates pg) (pg_free pg).

(** ** System calls *)

Definition next_io (db : KV) : KV * outcome :=
  match kv_io db with
  | [] => (db, IoOk)
  | o :: io => (mkKV (kv_root db) (kv_pages db) (kv_total db) (kv_failed db) (kv_vers db) io, o)
  end.

(** The file after [data] is written at [off]: a gap reads as zeros. *)
Definition file_write (file : bytes) (off : nat) (data : bytes) : bytes :=
  match data with
  | [] => file
  | _ => write_at (file ++ replicate (off + length data - length file) Byte.x00) off data
  end.

(** [pwrite]: on failure, some prefix of the data may have been written; a
    write may also be cut short without an error, and the callers ignore the
    count of bytes. *)
Definition Pwrite (db : KV) (data : bytes) (off : Z) : KV * option error :=
  if off <? 0 then (db, Some "invalid argument"%string) else
  let '(db, o) := next_io db in
  let write d := set_pages db (set_file (kv_pages db) (file_write (pg_file (kv_pages db)) (Z.to_nat off) d)) in
  match o with
  | IoOk => (write data, None)
  | IoErr n => (write (take n data), Some "input/output error"%string)
  | IoShort n => (write (take n data), None)
  end.

Definition Fsync (db : KV) : KV * option error :=
  let '(db, o) := next_io db in
  (db, match o with IoErr _ => Some "input/output error"%string | _ => None end).

(** ** Writing pages *)

(** [for db.mmap.total+alloc < size { alloc *= 2 }] on 64-bit [int]s *)
Fixpoint grow_alloc (fuel : nat) (total alloc size : Z) : res Z :=
  if i64 (total + alloc) <? size then
    match fuel with
    | O => NoFuel
    | S fuel => grow_alloc fuel total (i64 (alloc * 2)) size
    end
  else Ok alloc.

Definition extendMmap (db : KV) (size : Z) : res (KV * option error) :=
  if size <=? kv_total db then Ok (db, None) else
  alloc ← grow_alloc 64 (kv_total db) (Z.max (kv_total db) (Z.shiftl 64 20)) size;
  let '(db, o) := next_io db in
  match o with
  | IoErr _ => Ok (db, Some "mmap: %w"%string)
  | _ =>
      let pg := kv_pages db in
      let pg := mkPager (pg_file pg) (pg_chunks pg ++ [mkChunk (kv_total db) alloc])
                  (pg_flushed pg) (pg_nappend pg) (pg_updates pg) (pg_free pg) in
      Ok (mkKV (kv_root db) pg (i64 (kv_total db + alloc)) (kv_failed db) (kv_vers db) (kv_io db), None)
  end.

(** The loop over [db.page.updates]. *)
Fixpoint write_pages_loop (db : KV) (pages : list (Z * bytes)) : KV * option error :=
  match pages with
  | [] => (db, None)
  | (ptr, node) :: pages =>
      let offset := i64 (u64 (ptr * BTREE_PAGE_SIZE)) in
      let '(db, err) := Pwrite db node offset in
      match err with
      | Some _ => (db, err)
      | None => write_pages_loop db pages
      end
  end.

Section order.
(** The order in which Go ranges over a map. *)
Context (order : gmap Z bytes -> list (Z * bytes)).

Definition writePages (db : KV) : res (KV * option error) :=
  let size := i64 (i64 (u64 (pg_flushed (kv_pages db) + pg_nappend (kv_pages db))) * BTREE_PAGE_SIZE) in
  '(db, err) ← extendMmap db size;
  match err with
  | Some _ => Ok (db, err)
  | None =>
      let '(db, err) := write_pages_loop db (order (pg_updates (kv_pages db))) in
      match err with
      | Some _ => Ok (db, err)
      | None =>
          let pg := kv_pages db in
          Ok (set_pages db (mkPager (pg_file pg) (pg_chunks pg) (u64 (pg_flushed pg + pg_nappend pg)) 0 ∅
                              (pg_free pg)), None)
      end
  end.

(** ** The meta page *)

Definition DB_SIG : bytes := bytes_of "RelationalDB0123".

(** [binary.LittleEndian.Uint64(data[i:i+8])] *)
Definition meta_get (data : bytes) (i : Z) : res Z := b ← slice data i (i + 8); le_get 8 b.

Definition loadMeta (db : KV) (data : bytes) : res KV :=
  root ← meta_get data 16;
  flushed ← meta_get data 24;
  headPage ← meta_get data 32;
  headSeq ← meta_get data 40;
  tailPage ← meta_get data 48;
  tailSeq ← meta_get data 56;
  version ← meta_get data 64;
  let pg := kv_pages db in
  let fl := pg_free pg in
  let fl := mkFreeList headPage headSeq tailPage tailSeq (fl_maxSeq fl) (fl_maxVer fl) (fl_curVer fl) in
  let pg := mkPager (pg_file pg) (pg_chunks pg) flushed (pg_nappend pg) (pg_updates pg) fl in
  Ok (set_version (set_pages (set_root db root) pg) version).

(** [binary.LittleEndian.PutUint64(data[i:i+8], v)] *)
Definition meta_put (data : bytes) (i v : Z) : res bytes :=
  _ ← slice data i (i + 8); le_put 8 data i v.

Definition saveMeta (db : KV) : res bytes :=
  let fl := pg_free (kv_pages db) in
  data ← copy_at (make 72) 0 DB_SIG;
  data ← meta_put data 16 (kv_root db);
  data ← meta_put data 24 (pg_flushed (kv_pages db));
  data ← meta_put data 32 (fl_headPage fl);
  data ← meta_put data 40 (fl_headSeq fl);
  data ← meta_put data 48 (fl_tailPage fl);
  data ← meta_put data 56 (fl_tailSeq fl);
  meta_put data 64 (vs_version (kv_vers db)).

(** The meta page is read through the first mapping; 72 bytes of it are
    looked at. *)
Definition readRoot (db : KV) (fileSize : Z) : res (KV * option error) :=
  let pg := kv_pages db in
  if fileSize =? 0 then
    let fl := pg_free pg in
    let fl := mkFreeList 1 (fl_headSeq fl) 1 (fl_tailSeq fl) (fl_maxSeq fl) (fl_maxVer fl) (fl_curVer fl) in
    Ok (set_pages db (mkPager (pg_file pg) (pg_chunks pg) 2 (pg_nappend pg) (pg_updates pg) fl), None)
  else if negb (Z.rem fileSize BTREE_PAGE_SIZE =? 0) then
    Ok (db, Some "file is not multiple of pages"%string)
  else
    chunk ← index (pg_chunks pg) 0;
    data ← slice (pg_file pg) (ch_off chunk) (ch_off chunk + 72);
    db ← loadMeta db data;
    let db := set_pages db (SetMaxVer (kv_pages db) (vs_version (kv_vers db))) in
    let flushed := pg_flushed (kv_pages db) in
    let fl := pg_free (kv_pages db) in
    sig ← slice data 0 16;
    let bad := negb (bytes_equal DB_SIG sig) in
    let maxPages := u64 (Z.quot fileSize BTREE_PAGE_SIZE) in
    let bad := bad || negb ((0 <? flushed) && (flushed <=? maxPages)) in
    let bad := bad || negb ((0 <? kv_root db) && (kv_root db <? flushed)) in
    let bad := bad || negb ((0 <? fl_headPage fl) && (fl_headPage fl <? flushed)) in
    let bad := bad || negb ((0 <? fl_tailPage fl) && (fl_tailPage fl <? flushed)) in
    if bad then Ok (db, Some "bad meta page"%string) else Ok (db, None).

(** [&KV{}] with an open file. *)
Definition kv_zero (file : bytes) (io : list outcome) : KV :=
  mkKV 0 (mkPager file [] 0 0 ∅ (mkFreeList 0 0 0 0 0 0 0)) 0 false (mkVersions 0 [] []) io.

(** [db.Open()], once the file is open and its size known. *)
Definition Open (file : bytes) (io : list outcome) : res (KV * option error) :=
  '(db, err) ← extendMmap (kv_zero file io) (len file);
  match err with
  | Some _ => Ok (db, Some "KV.Open: %w"%string)
  | None =>
      '(db, err) ← readRoot db (len file);
      match err with
      | Some _ => Ok (db, Some "KV.Open: %w"%string)
      | None => Ok (db, None)
      end
  end.

(** ** Committing the pages *)

Definition updateRoot (db : KV) : res (KV * option error) :=
  data ← saveMeta db;
  let '(db, err) := Pwrite db data 0 in
  match err with
  | Some _ => Ok (db, Some "write meta page: %w"%string)
  | None => Ok (db, None)
  end.

(** [if err := m; err != nil { return err }] *)
Definition and_then (m : KV * option error) (k : KV -> res (KV * option error)) : res (KV * option error) :=
  match snd m with
  | Some _ => Ok m
  | None => k (fst m)
  end.

Definition updateFile (db : KV) : res (KV * option error) :=
  r ← writePages db;
  and_then r (fun db =>
  and_then (Fsync db) (fun db =>
  r ← updateRoot db;
  and_then r (fun db =>
  and_then (Fsync db) (fun db =>
  Ok (db, None))))).

(** What [updateOrRevert] does after a failure of [updateFile]. *)
Definition revert (db : KV) (meta : bytes) : res KV :=
  let db := set_failed db true in
  db ← loadMeta db meta;
  let pg := kv_pages db in
  Ok (set_pages db (mkPager (pg_file pg) (pg_chunks pg) (pg_flushed pg) 0 ∅ (pg_free pg))).

(** The two phases, undone in memory if they fail. *)
Definition update_revert (db : KV) (meta : bytes) : res (KV * option error) :=
  '(db, err) ← updateFile db;
  match err with
  | Some e => db ← revert db meta; Ok (db, Some e)
  | None => Ok (db, None)
  end.

Definition updateOrRevert (db : KV) (meta : bytes) : res (KV * option error) :=
  if kv_failed db then
    let '(db, err) := Pwrite db meta 0 in
    match err with
    | Some _ => Ok (db, Some "rewrite meta page: %w"%string)
    | None => and_then (Fsync db) (fun db => update_revert (set_failed db false) meta)
    end
  else update_revert db meta.

End order.
