(* ===== verification/KVFacts.v ===== *)
(** * Files, mappings and the meta page: lemmas *)

From S2P Require Import Prelude.
From S2P Require Import GoBytes.
From S2P Require Import BNode.
From S2P Require Import BTree.
From S2P Require Import Conflict.
From S2P Require Import Pager.
From S2P Require Import PagerFacts.
From S2P Require Import KV.

(** ** The meta page *)

Lemma make_split n m : 0 <= n -> 0 <= m -> make (n + m) = make n ++ make m.
Proof. intros. unfold make. by rewrite Z2Nat.inj_add, replicate_add by lia. Qed.

Lemma write_at_app A B d : length d = length B -> write_at (A ++ B) (length A) d = A ++ d.
Proof. intros Hl. unfold write_at. rewrite take_app_length, drop_ge, app_nil_r; [done|]. rewrite length_app. lia. Qed.

Lemma write_at_mid A B C d : length d = length B -> write_at (A ++ B ++ C) (length A) d = A ++ d ++ C.
Proof.
  intros Hl. unfold write_at. rewrite take_app_length, (app_assoc A B C), drop_app_length'; [done|].
  rewrite length_app. lia.
Qed.

(** The next word of the meta page. *)
Lemma meta_put_next A i v n :
  len A = i -> 0 <= n -> meta_put (A ++ make (8 + n)) i v = Ok ((A ++ le_split 8 v) ++ make n).
Proof.
  intros <- Hn. pose proof (len_nonneg A). unfold meta_put.
  assert (len (A ++ make (8 + n)) = len A + (8 + n)) as Hl by (rewrite len_app, len_make; lia).
  rewrite slice_Ok by lia. step_res. change 8%nat with (Z.to_nat 8).
  rewrite le_put_Ok by lia. rewrite len_to_nat, make_split by lia. rewrite write_at_mid.
  - by rewrite <- app_assoc.
  - rewrite length_le_split. done.
Qed.

Lemma meta_get_at A v C i : len A = i -> 0 <= v < 2 ^ 64 -> meta_get (A ++ le_split 8 v ++ C) i = Ok v.
Proof.
  intros <- Hv. pose proof (len_nonneg A). unfold meta_get. change 8 with (Z.of_nat 8) at 1.
  rewrite le_get_slice; [|lia|].
  - unfold read_at. rewrite len_to_nat, drop_app_length.
    replace 8%nat with (length (le_split 8 v)) at 1 by apply length_le_split.
    rewrite take_app_length. f_equal. by apply le_combine_le_split.
  - rewrite !len_app. unfold len at 3. rewrite length_le_split. pose proof (len_nonneg C). lia.
Qed.

(** The words that the meta page records. *)
Definition meta_words (db : KV) : list Z :=
  let fl := pg_free (kv_pages db) in
  [kv_root db; pg_flushed (kv_pages db); fl_headPage fl; fl_headSeq fl; fl_tailPage fl; fl_tailSeq fl;
   vs_version (kv_vers db)].

Definition words (l : list Z) : bytes := concat (le_split 8 <$> l).

Lemma saveMeta_layout db : saveMeta db = Ok (DB_SIG ++ words (meta_words db)).
Proof.
  unfold saveMeta. assert (copy_at (make 72) 0 DB_SIG = Ok (DB_SIG ++ make (8 + 48))) as -> by (vm_compute; reflexivity).
  step_res.
  rewrite (meta_put_next DB_SIG 16 _ 48) by done. step_res. change 48 with (8 + 40) at 1.
  rewrite (meta_put_next _ 24 _ 40) by done. step_res. change 40 with (8 + 32) at 1.
  rewrite (meta_put_next _ 32 _ 32) by done. step_res. change 32 with (8 + 24) at 1.
  rewrite (meta_put_next _ 40 _ 24) by done. step_res. change 24 with (8 + 16) at 1.
  rewrite (meta_put_next _ 48 _ 16) by done. step_res. change 16 with (8 + 8) at 1.
  rewrite (meta_put_next _ 56 _ 8) by done. step_res. change 8 with (8 + 0) at 1.
  rewrite (meta_put_next _ 64 _ 0) by done. cbn [make]. rewrite app_nil_r.
  unfold words. cbn [fmap list_fmap concat meta_words]. rewrite app_nil_r, <- !app_assoc. done.
Qed.

Lemma len_words l : len (words l) = 8 * len l.
Proof.
  unfold words, len. induction l as [|x l IH]; [done|]. cbn [fmap list_fmap concat length].
  rewrite length_app, length_le_split. change (list_fmap Z (list byte) (le_split 8) l) with (le_split 8 <$> l). lia.
Qed.

(** [db] with what the words say. *)
Definition with_words (db : KV) (root flushed headPage headSeq tailPage tailSeq version : Z) : KV :=
  let pg := kv_pages db in
  let fl := pg_free pg in
  mkKV root
    (mkPager (pg_file pg) (pg_chunks pg) flushed (pg_nappend pg) (pg_updates pg)
       (mkFreeList headPage headSeq tailPage tailSeq (fl_maxSeq fl) (fl_maxVer fl) (fl_curVer fl)))
    (kv_total db) (kv_failed db)
    (mkVersions version (vs_ongoing (kv_vers db)) (vs_history (kv_vers db))) (kv_io db).

(** Word [k] of the meta page. *)
Lemma meta_word ws (k : nat) i w :
  ws !! k = Some w -> i = 16 + 8 * Z.of_nat k -> 0 <= w < 2 ^ 64 -> meta_get (DB_SIG ++ words ws) i = Ok w.
Proof.
  intros Hk -> Hw. rewrite <- (take_drop_middle ws k w Hk) at 1. pose proof (lookup_lt_Some _ _ _ Hk).
  assert (words (take k ws ++ w :: drop (S k) ws) = words (take k ws) ++ le_split 8 w ++ words (drop (S k) ws)) as ->.
  { unfold words. by rewrite fmap_app, concat_app. }
  rewrite app_assoc. apply meta_get_at; [|done].
  rewrite len_app, len_words. unfold len at 2. rewrite length_take. change (len DB_SIG) with 16. lia.
Qed.

Lemma loadMeta_layout db a b c d e f g :
  Forall (fun w => 0 <= w < 2 ^ 64) [a; b; c; d; e; f; g] ->
  loadMeta db (DB_SIG ++ words [a; b; c; d; e; f; g]) = Ok (with_words db a b c d e f g).
Proof.
  rewrite !Forall_cons. intros (Ha & Hb & Hc & Hd & He & Hf & Hg & _). unfold loadMeta.
  rewrite (meta_word _ 0 16 a) by done. step_res. rewrite (meta_word _ 1 24 b) by done. step_res.
  rewrite (meta_word _ 2 32 c) by done. step_res. rewrite (meta_word _ 3 40 d) by done. step_res.
  rewrite (meta_word _ 4 48 e) by done. step_res. rewrite (meta_word _ 5 56 f) by done. step_res.
  rewrite (meta_word _ 6 64 g) by done. step_res. done.
Qed.

(** ** Writes to the file *)

Lemma file_write_length file off data :
  data <> [] -> length (file_write file off data) = Nat.max (length file) (off + length data).
Proof.
  intros Hd. unfold file_write. destruct data as [|b data]; [done|].
  rewrite length_write_at; rewrite length_app, length_replicate; lia.
Qed.

Lemma file_write_grows file off data : (length file <= length (file_write file off data))%nat.
Proof.
  destruct data as [|b data]; [done|]. rewrite file_write_length by done. lia.
Qed.

Lemma file_write_eq file off data : read_at (file_write file off data) off (length data) = data.
Proof.
  destruct data as [|b data]; [done|]. unfold file_write. apply read_at_write_at_eq.
  rewrite length_app, length_replicate. lia.
Qed.

Lemma read_at_app_l s t q n : (q + n <= length s)%nat -> read_at (s ++ t) q n = read_at s q n.
Proof.
  intros Hl. unfold read_at. rewrite drop_app_le, take_app_le; [done|rewrite length_drop; lia|lia].
Qed.

Lemma file_write_ne file off data q n :
  (q + n <= length file)%nat -> (q + n <= off \/ off + length data <= q)%nat ->
  read_at (file_write file off data) q n = read_at file q n.
Proof.
  intros Hl Hd. destruct data as [|b data]; [done|]. unfold file_write.
  rewrite read_at_write_at_ne; [by apply read_at_app_l| |done].
  rewrite length_app, length_replicate. lia.
Qed.

(** ** Mappings *)

(** The mappings follow each other and are whole pages. *)
Fixpoint mapped (off : Z) (chunks : list Chunk) (total : Z) : Prop :=
  match chunks with
  | [] => off = total
  | c :: chunks =>
      ch_off c = off /\ 0 <= ch_len c /\ (BTREE_PAGE_SIZE | ch_len c) /\ mapped (off + ch_len c) chunks total
  end.

Lemma mapped_snoc off chunks total alloc :
  mapped off chunks total -> 0 <= alloc -> (BTREE_PAGE_SIZE | alloc) ->
  mapped off (chunks ++ [mkChunk total alloc]) (total + alloc).
Proof.
  revert off. induction chunks as [|c chunks IH]; intros off; cbn.
  - intros -> Ha Hd. by split_and!.
  - intros (? & ? & ? & Hm) Ha Hd. split_and!; auto.
Qed.

Lemma mmapRead_mapped_loop file ptr start chunks total :
  mapped (BTREE_PAGE_SIZE * start) chunks total -> start <= ptr ->
  BTREE_PAGE_SIZE * ptr + BTREE_PAGE_SIZE <= total ->
  mmapRead_loop file ptr start chunks =
    slice file (BTREE_PAGE_SIZE * ptr) (BTREE_PAGE_SIZE * ptr + BTREE_PAGE_SIZE).
Proof.
  unfold BTREE_PAGE_SIZE. revert start. induction chunks as [|c chunks IH]; intros start; cbn; [lia|].
  intros (Ho & Hl & [k Hk] & Hm) Hs Ht. unfold BTREE_PAGE_SIZE in *. rewrite Hk, Z.div_mul by done.
  destruct (Z.ltb_spec ptr (start + k)) as [Hp|Hp].
  - unfold chunk_read, BTREE_PAGE_SIZE. rewrite Hk, Ho. rewrite assert_true.
    + f_equal; lia.
    + apply andb_true_intro. split; apply Z.leb_le; lia.
  - apply IH; [|lia|lia]. replace (4096 * (start + k)) with (4096 * start + ch_len c) by lia. done.
Qed.

Lemma mmapRead_mapped file ptr chunks total :
  mapped 0 chunks total -> 0 <= ptr -> BTREE_PAGE_SIZE * ptr + BTREE_PAGE_SIZE <= total ->
  mmapRead file ptr chunks = slice file (BTREE_PAGE_SIZE * ptr) (BTREE_PAGE_SIZE * ptr + BTREE_PAGE_SIZE).
Proof. intros Hm Hp Ht. by apply (mmapRead_mapped_loop file ptr 0 chunks total). Qed.

(** A page past the mappings cannot be read. *)
Lemma mmapRead_unmapped_loop file ptr start chunks total page :
  mapped (BTREE_PAGE_SIZE * start) chunks total ->
  mmapRead_loop file ptr start chunks = Ok page -> BTREE_PAGE_SIZE * ptr + BTREE_PAGE_SIZE <= total.
Proof.
  unfold BTREE_PAGE_SIZE. revert start. induction chunks as [|c chunks IH]; intros start; cbn; [done|].
  intros (Ho & Hl & [k Hk] & Hm). unfold BTREE_PAGE_SIZE in *. rewrite Hk, Z.div_mul by done.
  assert (4096 * (start + k) <= total) as Ht.
  { replace (4096 * (start + k)) with (4096 * start + ch_len c) by lia. clear -Hm. revert Hm.
    generalize (4096 * start + ch_len c). clear. induction chunks as [|d chunks IH]; intros off; cbn; [lia|].
    intros (? & ? & ? & Hm). apply IH in Hm. lia. }
  destruct (Z.ltb_spec ptr (start + k)) as [Hp|Hp]; [lia|]. apply IH.
  replace (4096 * (start + k)) with (4096 * start + ch_len c) by lia. done.
Qed.

Lemma mmapRead_unmapped file ptr chunks total page :
  mapped 0 chunks total -> mmapRead file ptr chunks = Ok page -> BTREE_PAGE_SIZE * ptr + BTREE_PAGE_SIZE <= total.
Proof. apply (mmapRead_unmapped_loop file ptr 0). Qed.
