(* ===== verification/KVCommit.v ===== *)
(** * Committing the pages: what reaches the file

    Whatever the outcomes of the system calls, a commit touches the meta page
    and the pages with pending updates only. *)

From S2P Require Import Prelude.
From S2P Require Import GoBytes.
From S2P Require Import BNode.
From S2P Require Import BTree.
From S2P Require Import Conflict.
From S2P Require Import Pager.
From S2P Require Import PagerFacts.
From S2P Require Import KV.
From S2P Require Import KVFacts.

Abbreviation kv_file db := (pg_file (kv_pages db)).
Abbreviation kv_chunks db := (pg_chunks (kv_pages db)).
Abbreviation kv_updates db := (pg_updates (kv_pages db)).

(** The mappings follow each other from the start of the file. *)
Definition disk_ok (db : KV) : Prop :=
  mapped 0 (kv_chunks db) (kv_total db) /\ 0 <= kv_total db <= 2 ^ 62 /\ (BTREE_PAGE_SIZE | kv_total db).

(** What is in memory stays; the file and its mappings may change. *)
Definition same_mem (db db' : KV) : Prop :=
  kv_root db' = kv_root db /\ kv_failed db' = kv_failed db /\ kv_vers db' = kv_vers db /\
  pg_flushed (kv_pages db') = pg_flushed (kv_pages db) /\
  pg_nappend (kv_pages db') = pg_nappend (kv_pages db) /\
  kv_updates db' = kv_updates db /\ pg_free (kv_pages db') = pg_free (kv_pages db).

(** The pages outside [S] keep their bytes. *)
Definition file_keeps (S : Z -> Prop) (file file' : bytes) : Prop :=
  len file <= len file' /\
  forall p, 0 <= p -> ~ S p -> BTREE_PAGE_SIZE * p + BTREE_PAGE_SIZE <= len file ->
    read_at file' (Z.to_nat (BTREE_PAGE_SIZE * p)) 4096 = read_at file (Z.to_nat (BTREE_PAGE_SIZE * p)) 4096.

Lemma same_mem_refl db : same_mem db db.
Proof. by repeat split. Qed.

Lemma same_mem_trans a b c : same_mem a b -> same_mem b c -> same_mem a c.
Proof. unfold same_mem. intros. destruct_and!. split_and!; congruence. Qed.

Lemma keeps_refl S f : file_keeps S f f.
Proof. by split. Qed.

Lemma keeps_trans S S' f1 f2 f3 :
  file_keeps S f1 f2 -> file_keeps S' f2 f3 -> file_keeps (fun p => S p \/ S' p) f1 f3.
Proof.
  intros [Hl1 H1] [Hl2 H2]. split; [lia|]. intros p Hp Hn Hf. rewrite H2, H1; auto. lia.
Qed.

Lemma keeps_mono (S S' : Z -> Prop) f f' : (forall p, S p -> S' p) -> file_keeps S f f' -> file_keeps S' f f'.
Proof. intros HS [Hl H]. split; [done|]. intros p Hp Hn. apply H; auto. Qed.

(** What is mapped reads the same. *)
Lemma keeps_read S f f' chunks chunks' total total' p page :
  file_keeps S f f' -> mapped 0 chunks total -> mapped 0 chunks' total' -> total <= total' ->
  0 <= p -> ~ S p -> mmapRead f p chunks = Ok page -> mmapRead f' p chunks' = Ok page.
Proof.
  intros [Hl Hk] Hm Hm' Ht Hp Hn Hr. pose proof (mmapRead_unmapped _ _ _ _ _ Hm Hr) as Hpt.
  rewrite (mmapRead_mapped f p chunks total) in Hr by done.
  rewrite (mmapRead_mapped f' p chunks' total') by (try done; lia).
  assert (BTREE_PAGE_SIZE * p + BTREE_PAGE_SIZE <= len f) as Hf.
  { unfold slice in Hr. case_bool_decide; [lia|done]. }
  unfold BTREE_PAGE_SIZE in *. rewrite slice_Ok in Hr |- * by lia. injection Hr as <-.
  replace (Z.to_nat (4096 * p + 4096 - 4096 * p)) with 4096%nat by lia. f_equal. by apply Hk.
Qed.

(** ** One write *)

(** No write to come is cut short without an error. *)
Definition complete (o : outcome) : Prop := match o with IoShort _ => False | _ => True end.

Abbreviation full_writes db := (Forall complete (kv_io db)).

Lemma next_io_full db db' o : next_io db = (db', o) -> full_writes db -> full_writes db' /\ complete o.
Proof.
  unfold next_io. destruct (kv_io db) as [|o' io] eqn:E; intros [= <- <-] Hs; [by rewrite E|].
  apply Forall_cons in Hs as [? ?]. by split.
Qed.

Lemma file_write_keeps file off data q :
  0 <= off -> BTREE_PAGE_SIZE * q <= off -> off + len data <= BTREE_PAGE_SIZE * q + BTREE_PAGE_SIZE ->
  file_keeps (eq q) file (file_write file (Z.to_nat off) data).
Proof.
  unfold BTREE_PAGE_SIZE, len. intros Ho Hq Hd. split.
  - pose proof (file_write_grows file (Z.to_nat off) data). unfold len. lia.
  - intros p Hp Hn Hf. unfold BTREE_PAGE_SIZE, len in *. apply file_write_ne; [lia|].
    assert (p < q \/ q < p) as [|] by lia; lia.
Qed.

Lemma Pwrite_ok db data off q :
  disk_ok db -> 0 <= off -> BTREE_PAGE_SIZE * q <= off ->
  off + len data <= BTREE_PAGE_SIZE * q + BTREE_PAGE_SIZE ->
  exists db' err, Pwrite db data off = (db', err) /\ same_mem db db' /\ disk_ok db' /\
    kv_total db' = kv_total db /\ kv_chunks db' = kv_chunks db /\
    file_keeps (eq q) (kv_file db) (kv_file db') /\
    (full_writes db -> full_writes db' /\ (err = None -> kv_file db' = file_write (kv_file db) (Z.to_nat off) data)).
Proof.
  intros Hdisk Ho Hq Hd. unfold Pwrite. rewrite (proj2 (Z.ltb_ge _ _)) by done.
  assert (forall n, off + len (take n data) <= BTREE_PAGE_SIZE * q + BTREE_PAGE_SIZE) as Htake.
  { intros n. unfold len in *. rewrite length_take. lia. }
  destruct (next_io db) as [db1 o] eqn:E. pose proof (next_io_full _ _ _ E) as Hfull.
  assert (exists io, db1 = mkKV (kv_root db) (kv_pages db) (kv_total db) (kv_failed db) (kv_vers db) io) as [io ->].
  { unfold next_io in E. destruct db as [a b c d e [|o' io]]; injection E as <- _; by eexists. }
  destruct o as [|n|n]; eexists _, _; (split; [reflexivity|]); cbn in *;
    (split; [done|]); (split; [done|]); (split; [done|]); (split; [done|]); (split; [by apply file_write_keeps|]);
    intros Hf; destruct (Hfull Hf); by split.
Qed.

Lemma Fsync_ok db :
  disk_ok db ->
  exists db' err, Fsync db = (db', err) /\ same_mem db db' /\ disk_ok db' /\
    kv_total db' = kv_total db /\ kv_chunks db' = kv_chunks db /\ kv_file db' = kv_file db /\
    (full_writes db -> full_writes db').
Proof.
  intros Hd. unfold Fsync. destruct (next_io db) as [db1 o] eqn:E. pose proof (next_io_full _ _ _ E) as Hfull.
  eexists _, _. split; [reflexivity|]. unfold next_io in E. destruct (kv_io db) as [|o' io]; injection E as <- _;
    (split; [done|]); (split; [done|]); (split; [done|]); (split; [done|]); (split; [done|]); apply Hfull.
Qed.

(** ** Growing the mappings *)

Lemma grow_alloc_ok fuel total alloc size :
  0 <= total < size -> size <= 2 ^ 60 -> 0 < alloc -> (alloc <= 2 ^ 61) -> size <= alloc * 2 ^ Z.of_nat fuel ->
  exists a, grow_alloc fuel total alloc size = Ok a /\ size <= total + a /\ (alloc | a) /\ 0 < a /\
    a <= Z.max alloc (2 * size).
Proof.
  intros Ht Hs. revert alloc. induction fuel as [|fuel IH]; intros alloc Ha Hm Hf; cbn [grow_alloc];
    rewrite i64_small by lia; destruct (Z.ltb_spec (total + alloc) size) as [Hlt|Hge].
  1: change (2 ^ Z.of_nat 0) with 1 in Hf; lia.
  1,3: exists alloc; split_and!; auto; [by exists 1; lia|lia].
  rewrite i64_small by lia. destruct (IH (alloc * 2)) as (a & E & Hge & [k Hk] & Hp & Hle); [lia|lia| |].
  { rewrite Nat2Z.inj_succ, Z.pow_succ_r in Hf by lia. lia. }
  exists a. split_and!; auto; [exists (k * 2); lia|lia].
Qed.

Lemma extendMmap_ok db size :
  disk_ok db -> size <= 2 ^ 60 ->
  exists db' err, extendMmap db size = Ok (db', err) /\ same_mem db db' /\ disk_ok db' /\
    kv_total db <= kv_total db' /\ kv_file db' = kv_file db /\ (err = None -> size <= kv_total db') /\
    (full_writes db -> full_writes db').
Proof.
  intros (Hm & Ht & Hd) Hs. unfold extendMmap. destruct (Z.leb_spec size (kv_total db)) as [Hle|Hlt].
  { exists db, None. by repeat (split; [done|]). }
  change (Z.shiftl 64 20) with (2 ^ 26).
  destruct (grow_alloc_ok 64 (kv_total db) (Z.max (kv_total db) (2 ^ 26)) size) as (a & E & Hge & Hdiv & Hp & Hle);
    [lia..| |].
  { change (Z.of_nat 64) with 64. nia. }
  rewrite E. step_res.
  assert (BTREE_PAGE_SIZE | a) as Hda.
  { etransitivity; [|exact Hdiv]. destruct (Z.max_spec (kv_total db) (2 ^ 26)) as [[_ ->]|[_ ->]]; [|done].
    by exists (2 ^ 14). }
  assert (forall io, disk_ok (mkKV (kv_root db) (mkPager (kv_file db) (kv_chunks db ++ [mkChunk (kv_total db) a])
    (pg_flushed (kv_pages db)) (pg_nappend (kv_pages db)) (kv_updates db) (pg_free (kv_pages db)))
    (i64 (kv_total db + a)) (kv_failed db) (kv_vers db) io)) as Hdisk.
  { intros io. unfold disk_ok. cbn. rewrite i64_small by lia. split; [apply mapped_snoc; auto; lia|].
    split; [lia|by apply Z.divide_add_r]. }
  unfold next_io. destruct (kv_io db) as [|[|n|n] io] eqn:Eio; eexists _, _; (split; [reflexivity|]); cbn; rewrite ?Eio;
    rewrite ?i64_small by lia; split_and!; try done; try lia;
    first [by intros [_ ?]%Forall_cons|exact (conj Hm (conj Ht Hd))|rewrite <- (i64_small (_ + _)) by lia; apply Hdisk|by repeat split].
Qed.

(** ** Writing the pages *)

(** A page of the file. *)
Definition page_bytes (file : bytes) (p : Z) : bytes := read_at file (Z.to_nat (BTREE_PAGE_SIZE * p)) 4096.

(** The pages of [l] are in the file. *)
Definition written (l : list (Z * bytes)) (file : bytes) : Prop :=
  Forall (fun pc => page_bytes file (fst pc) = snd pc /\
    BTREE_PAGE_SIZE * fst pc + BTREE_PAGE_SIZE <= len file) l.

Definition page_ok (pc : Z * bytes) : Prop :=
  1 <= fst pc < 2 ^ 48 /\ len (snd pc) = BTREE_PAGE_SIZE.

Lemma page_write file p c :
  page_ok (p, c) -> written [(p, c)] (file_write file (Z.to_nat (BTREE_PAGE_SIZE * p)) c).
Proof.
  intros [Hp Hc]. cbn in Hp, Hc. pose proof Hc as Hc'. rewrite page_length in Hc'.
  constructor; [|constructor]. cbn [fst snd]. unfold page_bytes. rewrite <- Hc' at 1. rewrite file_write_eq.
  split; [done|]. unfold len. rewrite file_write_length by (by intros ->). unfold BTREE_PAGE_SIZE in *. lia.
Qed.

Lemma written_keeps l file file' S :
  written l file -> file_keeps S file file' -> Forall page_ok l -> (forall p, p ∈ l.*1 -> ~ S p) -> written l file'.
Proof.
  intros Hw [Hl Hk] Hok HS. unfold written in *. rewrite Forall_forall in Hw, Hok |- *. intros [p c] Hin.
  destruct (Hw _ Hin) as [Hr Hb]. destruct (Hok _ Hin) as [Hp _]. cbn [fst snd] in *. split; [|lia].
  rewrite <- Hr. apply Hk; [lia| |done]. apply HS. by apply (list_elem_of_fmap_2 fst) in Hin.
Qed.

Lemma write_pages_loop_ok db l :
  disk_ok db -> Forall page_ok l -> NoDup l.*1 ->
  exists db' err, write_pages_loop db l = (db', err) /\ same_mem db db' /\ disk_ok db' /\
    kv_total db' = kv_total db /\
    file_keeps (fun p => p ∈ l.*1) (kv_file db) (kv_file db') /\
    (full_writes db -> full_writes db' /\ (err = None -> written l (kv_file db'))).
Proof.
  intros Hdisk Hl. revert db Hdisk. induction Hl as [|[p c] l [Hp Hc] Hl IH]; intros db Hdisk Hnd.
  { exists db, None. split_and!; try done. by split; [|constructor]. }
  cbn [write_pages_loop]. cbn [fmap list_fmap fst] in Hnd. apply NoDup_cons in Hnd as [Hnp Hnd]. cbn [fst snd] in Hp, Hc.
  assert (i64 (u64 (p * BTREE_PAGE_SIZE)) = BTREE_PAGE_SIZE * p) as ->.
  { unfold BTREE_PAGE_SIZE in *. rewrite u64_small, i64_small by lia. lia. }
  destruct (Pwrite_ok db c (BTREE_PAGE_SIZE * p) p Hdisk) as
    (db1 & err & -> & Hm1 & Hd1 & Ht1 & _ & Hk1 & Hw1); [unfold BTREE_PAGE_SIZE in *; lia..|].
  destruct err as [e|].
  { exists db1, (Some e). split_and!; try done; [|by intros [? _]%Hw1]. eapply keeps_mono; [|exact Hk1].
    intros q <-. cbn. set_solver. }
  destruct (IH db1 Hd1 Hnd) as (db2 & err & -> & Hm2 & Hd2 & Ht2 & Hk2 & Hw2).
  exists db2, err. split_and!; try done; [by eapply same_mem_trans|congruence| |].
  - eapply keeps_mono; [|exact (keeps_trans _ _ _ _ _ Hk1 Hk2)]. intros q [<-|Hq]; cbn; set_solver.
  - intros [Hf1 E1]%Hw1. destruct (Hw2 Hf1) as [Hf2 Hwr]. split; [exact Hf2|]. specialize (E1 eq_refl).
    intros He. apply Forall_cons. split; [|by apply Hwr].
    assert (written [(p, c)] (kv_file db1)) as H1.
    { rewrite E1. apply page_write. by split. }
    apply (written_keeps _ _ (kv_file db2) (fun q => q ∈ l.*1)) in H1; [|done|..].
    + by apply Forall_cons in H1 as [H1 _].
    + constructor; [by split|constructor].
    + intros q ->%list_elem_of_singleton. done.
Qed.

(** The state in which a commit writes. *)
Record kv_ok (db : KV) : Prop := {
  ko_disk : disk_ok db;
  ko_num : 2 <= pg_flushed (kv_pages db) /\ 0 <= pg_nappend (kv_pages db) /\ bound (kv_pages db) < 2 ^ 48;
  ko_updates : forall p c, kv_updates db !! p = Some c -> 1 <= p < bound (kv_pages db) /\ len c = BTREE_PAGE_SIZE
}.

(** The state after the pages are written. *)
Definition pages_flushed (db db' : KV) : Prop :=
  kv_root db' = kv_root db /\ kv_vers db' = kv_vers db /\ pg_free (kv_pages db') = pg_free (kv_pages db) /\
  pg_flushed (kv_pages db') = bound (kv_pages db) /\ pg_nappend (kv_pages db') = 0 /\ kv_updates db' = ∅ /\
  forall p c, kv_updates db !! p = Some c -> page_bytes (kv_file db') p = c /\
    BTREE_PAGE_SIZE * p + BTREE_PAGE_SIZE <= len (kv_file db') /\
    BTREE_PAGE_SIZE * p + BTREE_PAGE_SIZE <= kv_total db'.

Section order.
Context (order : gmap Z bytes -> list (Z * bytes)) (Horder : forall m, order m ≡ₚ map_to_list m).

Lemma writePages_ok db :
  kv_ok db ->
  exists db' err, writePages order db = Ok (db', err) /\ disk_ok db' /\ kv_total db <= kv_total db' /\
    kv_failed db' = kv_failed db /\ kv_vers db' = kv_vers db /\ pg_free (kv_pages db') = pg_free (kv_pages db) /\
    file_keeps (fun p => is_Some (kv_updates db !! p)) (kv_file db) (kv_file db') /\
    (full_writes db -> full_writes db' /\ (err = None -> pages_flushed db db')).
Proof using All.
  intros [Hdisk (Hf & Hn & Hb) Hu]. unfold writePages, bound in *.
  rewrite u64_small, i64_small, i64_small by (rewrite ?i64_small; unfold BTREE_PAGE_SIZE; lia).
  destruct (extendMmap_ok db ((pg_flushed (kv_pages db) + pg_nappend (kv_pages db)) * BTREE_PAGE_SIZE) Hdisk)
    as (db1 & err & -> & Hm1 & Hd1 & Ht1 & Hf1 & He1 & Hfull1); [unfold BTREE_PAGE_SIZE; lia|]. step_res.
  destruct err as [e|].
  { exists db1, (Some e). destruct Hm1 as (_ & Hfail & Hvers & _ & _ & _ & Hfree).
    split_and!; try done; [rewrite Hf1; apply keeps_refl|]. intros Hfull. by split; [apply Hfull1|]. }
  pose proof Hm1 as (Hr & Hfail & Hvers & Hfl & Hna & Hup & Hfree). rewrite Hup.
  pose proof (Horder (kv_updates db)) as Hperm.
  assert (forall p c, (p, c) ∈ order (kv_updates db) <-> kv_updates db !! p = Some c) as Hin.
  { intros p c. by rewrite Hperm, elem_of_map_to_list. }
  assert (forall p, p ∈ (order (kv_updates db)).*1 <-> is_Some (kv_updates db !! p)) as Hin1.
  { intros p. rewrite list_elem_of_fmap. split.
    - intros ([q c] & -> & Hq%Hin). by eexists.
    - intros [c Hc%Hin]. by exists (p, c). }
  destruct (write_pages_loop_ok db1 (order (kv_updates db)) Hd1) as (db2 & err & -> & Hm2 & Hd2 & Ht2 & Hk2 & Hw2).
  { apply Forall_forall. intros [p c] Hpc%Hin%Hu. split; cbn; [lia|by destruct Hpc]. }
  { rewrite Hperm. apply NoDup_fst_map_to_list. }
  destruct Hm2 as (Hr2 & Hfail2 & Hvers2 & Hfl2 & Hna2 & Hup2 & Hfree2).
  rewrite Hf1 in Hk2.
  assert (file_keeps (fun p => is_Some (kv_updates db !! p)) (kv_file db) (kv_file db2)) as Hk.
  { eapply keeps_mono; [|exact Hk2]. intros p. apply Hin1. }
  destruct err as [e|]; eexists _, _; (split; [reflexivity|]); cbn; split_and!; try done; try congruence; try lia;
    intros [Hfull2 Hw]%Hfull1%Hw2; (split; [exact Hfull2|]); [done|].
  intros _. unfold pages_flushed, bound; cbn. rewrite u64_small by lia. split_and!; try done; try congruence.
  intros p c Hpc. apply Hin in Hpc as Hpin. specialize (Hw eq_refl). unfold written in Hw.
  rewrite Forall_forall in Hw. destruct (Hw _ Hpin) as [H1 H2]. split; [done|]. split; [done|].
  specialize (He1 eq_refl). destruct (Hu p c Hpc) as [[_ Hpb] _]. unfold BTREE_PAGE_SIZE in *. lia.
Qed.

Lemma len_meta db meta : saveMeta db = Ok meta -> len meta = 72.
Proof using. rewrite saveMeta_layout. intros H. apply Ok_inj in H as <-. rewrite len_app, len_words. reflexivity. Qed.

(** The meta page as saved is in the file. *)
Definition meta_saved (db : KV) : Prop := saveMeta db = Ok (read_at (kv_file db) 0 72).

(** A write of meta data. *)
Lemma Pwrite_meta db meta :
  disk_ok db -> len meta = 72 ->
  exists db' err, Pwrite db meta 0 = (db', err) /\ same_mem db db' /\ disk_ok db' /\
    kv_total db' = kv_total db /\ file_keeps (eq 0) (kv_file db) (kv_file db') /\
    (full_writes db -> full_writes db' /\ (err = None -> read_at (kv_file db') 0 72 = meta)).
Proof using.
  intros Hd Hl. destruct (Pwrite_ok db meta 0 0 Hd) as (db' & err & E & Hm & Hd' & Ht & _ & Hk & Hw);
    [unfold BTREE_PAGE_SIZE; lia..|].
  exists db', err. split_and!; try done. intros [Hf Hw']%Hw. split; [done|]. intros He. rewrite (Hw' He).
  assert (72%nat = length meta) as -> by (unfold len in Hl; lia). apply file_write_eq.
Qed.

Lemma saveMeta_same db db' : same_mem db db' -> saveMeta db' = saveMeta db.
Proof using.
  intros (Hr & _ & Hv & Hf & _ & _ & Hfree). rewrite !saveMeta_layout. unfold meta_words.
  by rewrite Hr, Hv, Hf, Hfree.
Qed.

Lemma flushed_same db db1 db2 S :
  (forall p c, kv_updates db !! p = Some c -> 0 <= p /\ ~ S p) ->
  pages_flushed db db1 -> same_mem db1 db2 -> kv_total db1 <= kv_total db2 ->
  file_keeps S (kv_file db1) (kv_file db2) -> pages_flushed db db2.
Proof using.
  intros HS (H1 & H2 & H3 & H4 & H5 & H6 & H7) (Hr & _ & Hv & Hf & Hn & Hu & Hfree) Ht [Hl Hk].
  unfold pages_flushed. split_and!; try congruence. intros p c Hpc. destruct (H7 p c Hpc) as (Hp & Hb & Hbt).
  destruct (HS p c Hpc). split_and!; [|lia|lia]. rewrite <- Hp. by apply Hk.
Qed.

(** What a commit may touch. *)
Definition touched (db : KV) (p : Z) : Prop := p = 0 \/ is_Some (kv_updates db !! p).

Lemma updateFile_ok db :
  kv_ok db ->
  exists db' err, updateFile order db = Ok (db', err) /\ disk_ok db' /\ kv_total db <= kv_total db' /\
    kv_failed db' = kv_failed db /\ kv_vers db' = kv_vers db /\ pg_free (kv_pages db') = pg_free (kv_pages db) /\
    file_keeps (touched db) (kv_file db) (kv_file db') /\
    (full_writes db -> full_writes db' /\ (err = None -> pages_flushed db db' /\ meta_saved db')).
Proof using All.
  intros Hok. unfold updateFile.
  destruct (writePages_ok db Hok) as (db1 & err & -> & Hd1 & Ht1 & Hf1 & Hv1 & Hfr1 & Hk1 & Hw1). step_res.
  assert (file_keeps (touched db) (kv_file db) (kv_file db1)) as Hk1'.
  { eapply keeps_mono; [|exact Hk1]. by right. }
  destruct err as [e|].
  { exists db1, (Some e). split_and!; try done. by intros [? _]%Hw1. }
  unfold and_then at 1. cbn [snd fst].
  destruct (Fsync_ok db1 Hd1) as (db2 & err & -> & Hm2 & Hd2 & Ht2 & _ & Ef2 & Hfull2).
  pose proof Hm2 as (_ & Hf2 & Hv2 & _ & _ & _ & Hfr2). rewrite <- Ef2 in Hk1'.
  destruct err as [e|]; unfold and_then at 1; cbn [snd fst].
  { exists db2, (Some e). split_and!; try done; try first [lia|congruence]. by intros [?%Hfull2 _]%Hw1. }
  unfold updateRoot. rewrite saveMeta_layout. step_res. set (meta := DB_SIG ++ words (meta_words db2)).
  assert (len meta = 72) as Hl by (unfold meta; rewrite len_app, len_words; reflexivity).
  destruct (Pwrite_meta db2 meta Hd2 Hl) as (db3 & err & -> & Hm3 & Hd3 & Ht3 & Hk3 & Hw3).
  pose proof Hm3 as (_ & Hf3 & Hv3 & _ & _ & _ & Hfr3).
  assert (file_keeps (touched db) (kv_file db) (kv_file db3)) as Hk3'.
  { eapply keeps_mono; [|exact (keeps_trans _ _ _ _ _ Hk1' Hk3)]. intros p [Hp|<-]; [done|by left]. }
  destruct err as [e|]; step_res; unfold and_then at 1; cbn [snd fst].
  { eexists db3, _. split; [reflexivity|]. split_and!; try done; try first [lia|congruence].
    by intros [[? _]%Hfull2%Hw3 _]%Hw1. }
  destruct (Fsync_ok db3 Hd3) as (db4 & err & -> & Hm4 & Hd4 & Ht4 & _ & Ef4 & Hfull4). pose proof Hm4 as (_ & Hf4 & Hv4 & _ & _ & _ & Hfr4).
  destruct err as [e|]; unfold and_then; cbn [snd fst]; eexists db4, _; (split; [reflexivity|]);
    rewrite Ef4; split_and!; try done; try lia; try congruence;
    intros [Hff1 Hfl]%Hw1; destruct (Hw3 (Hfull2 Hff1)) as [Hff3 Hms]; (split; [by apply Hfull4|]); [done|].
  intros _. specialize (Hfl eq_refl). specialize (Hms eq_refl). assert (same_mem db2 db4) as Hm by by eapply same_mem_trans.
  split.
  - assert (forall p c, kv_updates db !! p = Some c -> 1 <= p) as Hpos.
    { intros p c Hpc. apply (ko_updates _ Hok) in Hpc as [? _]. lia. }
    assert (pages_flushed db db2) as Hw2.
    { apply (flushed_same db db1 db2 (fun _ => False)); auto; [|lia|rewrite Ef2; apply keeps_refl].
      intros p c Hpc%Hpos. split; [lia|auto]. }
    apply (flushed_same db db2 db4 (eq 0)); auto; [|lia|by rewrite Ef4].
    intros p c Hpc%Hpos. split; lia.
  - unfold meta_saved. rewrite (saveMeta_same db2 db4) by done. rewrite saveMeta_layout, Ef4. fold meta.
    by rewrite Hms.
Qed.

(** ** The whole commit *)

(** What of the free list is not in the meta page. *)
Definition fl_limits (fl : FreeList) : Z * Z * Z := (fl_maxSeq fl, fl_maxVer fl, fl_curVer fl).

(** What memory holds after a commit that failed: the words of [meta0]. *)
Definition reverted (db db' : KV) (words0 : list Z) : Prop :=
  fl_limits (pg_free (kv_pages db')) = fl_limits (pg_free (kv_pages db)) /\ meta_words db' = words0 /\ pg_nappend (kv_pages db') = 0 /\ kv_updates db' = ∅ /\ kv_failed db' = true /\
  vs_ongoing (kv_vers db') = vs_ongoing (kv_vers db) /\ vs_history (kv_vers db') = vs_history (kv_vers db).

Definition words_ok (db : KV) : Prop := Forall (fun w => 0 <= w < 2 ^ 64) (meta_words db).

Lemma revert_ok db meta ws :
  Forall (fun w => 0 <= w < 2 ^ 64) ws -> length ws = 7%nat -> meta = DB_SIG ++ words ws ->
  exists db', revert db meta = Ok db' /\ reverted db db' ws /\
    kv_file db' = kv_file db /\ kv_chunks db' = kv_chunks db /\ kv_total db' = kv_total db.
Proof using.
  intros Hw Hl ->. do 7 (destruct ws as [|? ws]; [done|]). destruct ws; [|done].
  unfold revert. rewrite loadMeta_layout by done. step_res. eexists. split; [reflexivity|]. by repeat split.
Qed.

Lemma update_revert_ok db meta ws :
  kv_ok db -> Forall (fun w => 0 <= w < 2 ^ 64) ws -> length ws = 7%nat -> meta = DB_SIG ++ words ws ->
  exists db' err, update_revert order db meta = Ok (db', err) /\ disk_ok db' /\ kv_total db <= kv_total db' /\
    file_keeps (touched db) (kv_file db) (kv_file db') /\
    match err with
    | None => full_writes db -> pages_flushed db db' /\ meta_saved db' /\ kv_failed db' = kv_failed db
    | Some _ => reverted db db' ws
    end.
Proof using All.
  intros Hok Hw Hl Hmeta. unfold update_revert.
  destruct (updateFile_ok db Hok) as (db2 & err & -> & Hd2 & Ht2 & Hf2 & Hv2 & Hfr2 & Hk2 & Hw2). step_res.
  destruct err as [e|].
  2:{ eexists db2, _. split; [reflexivity|]. split_and!; try done. intros [_ Hw']%Hw2. by destruct (Hw' eq_refl). }
  destruct (revert_ok db2 meta ws Hw Hl Hmeta) as (db3 & -> & (H0 & H1 & H2 & H3 & H4 & H5 & H6) & Ef & Ec & Et).
  step_res. eexists db3, _. split; [reflexivity|]. unfold disk_ok in *. rewrite Ef, Ec, Et.
  split_and!; try done; try apply Hd2. unfold reverted. rewrite <- Hv2, <- Hfr2. by split_and!.
Qed.

Lemma kv_ok_same db db' : kv_ok db -> same_mem db db' -> disk_ok db' -> kv_ok (set_failed db' false).
Proof using.
  intros [_ Hnum Hup] (_ & _ & _ & Hfl & Hn & Hu & _) Hd. split; [exact Hd| |]; cbn; unfold bound; rewrite ?Hfl, ?Hn, ?Hu; auto.
Qed.

Lemma updateOrRevert_ok db meta ws :
  kv_ok db -> Forall (fun w => 0 <= w < 2 ^ 64) ws -> length ws = 7%nat -> meta = DB_SIG ++ words ws ->
  exists db' err, updateOrRevert order db meta = Ok (db', err) /\ disk_ok db' /\ kv_total db <= kv_total db' /\
    file_keeps (touched db) (kv_file db) (kv_file db') /\
    match err with
    | None => full_writes db -> pages_flushed db db' /\ meta_saved db' /\ kv_failed db' = false
    | Some _ => reverted db db' ws \/ (kv_failed db = true /\ same_mem db db')
    end.
Proof using All.
  intros Hok Hw Hl Hmeta. unfold updateOrRevert. destruct (kv_failed db) eqn:Ef.
  2:{ destruct (update_revert_ok db meta ws Hok Hw Hl Hmeta) as (db' & err & E & H1 & H2 & H3 & H4).
      exists db', err. rewrite <- Ef. split_and!; try done. destruct err; [by left|done]. }
  assert (len meta = 72) as Hlm.
  { rewrite Hmeta, len_app, len_words. unfold len at 2. by rewrite Hl. }
  destruct (Pwrite_meta db meta (ko_disk _ Hok) Hlm) as (db1 & err & -> & Hm1 & Hd1 & Ht1 & Hk1 & Hfull1).
  assert (file_keeps (touched db) (kv_file db) (kv_file db1)) as Hk1'.
  { eapply keeps_mono; [|exact Hk1]. intros p <-. by left. }
  destruct err as [e|]; [eexists db1, _; split; [reflexivity|]; split_and!; try done; [lia|by right]|].
  destruct (Fsync_ok db1 Hd1) as (db2 & err & -> & Hm2 & Hd2 & Ht2 & _ & Ef2 & Hfull2).
  assert (same_mem db db2) as Hm by by eapply same_mem_trans.
  destruct err as [e|]; unfold and_then; cbn [snd fst].
  { eexists db2, _. split; [reflexivity|]. rewrite Ef2. split_and!; try done; [lia|by right]. }
  pose proof (kv_ok_same _ _ Hok Hm Hd2) as Hok2. destruct Hm as (Hr & Hf & Hv & Hfl & Hn & Hu & Hfree).
  destruct (update_revert_ok _ meta ws Hok2 Hw Hl Hmeta) as (db' & err & E & H1 & H2 & H3 & H4).
  exists db', err. cbn in H2, H3, H4. split; [done|]. split; [done|]. split; [lia|]. split.
  - rewrite <- Ef2 in Hk1'. eapply keeps_mono; [|exact (keeps_trans _ _ _ _ _ Hk1' H3)].
    intros p [Hp|Hp]; [done|]. unfold touched in *. cbn in Hp. by rewrite Hu in Hp.
  - destruct err as [e|].
    + left. unfold reverted in *. cbn in H4. by rewrite Hv, Hfree in H4.
    + intros [Hf1%Hfull2 _]%Hfull1. specialize (H4 Hf1). unfold pages_flushed, bound in *. cbn in H4. by rewrite Hr, Hv, Hfl, Hn, Hu, Hfree in H4.
Qed.

(** ** The size of the file *)

(** Whole pages, and not too many. *)
Definition file_fine (file : bytes) : Prop := (BTREE_PAGE_SIZE | len file) /\ len file <= 2 ^ 60.

(** What is in the file is what is in memory: no write has failed, and the
    meta page is the one of this state (an empty database has none). *)
Definition durable (db : KV) : Prop :=
  kv_failed db = false /\ file_fine (kv_file db) /\ (kv_root db <> 0 -> meta_saved db).

Lemma page_write_fine file p c : page_ok (p, c) -> file_fine file ->
  file_fine (file_write file (Z.to_nat (BTREE_PAGE_SIZE * p)) c).
Proof using.
  intros [Hp Hc] [Hd Hl]. cbn in Hp, Hc. unfold file_fine.
  assert (len (file_write file (Z.to_nat (BTREE_PAGE_SIZE * p)) c) = Z.max (len file) (BTREE_PAGE_SIZE * p + BTREE_PAGE_SIZE)) as ->.
  { unfold len in *. rewrite file_write_length by (intros ->; done). unfold BTREE_PAGE_SIZE in *. lia. }
  destruct (Z.max_spec (len file) (BTREE_PAGE_SIZE * p + BTREE_PAGE_SIZE)) as [[_ ->]|[_ ->]]; [|done].
  split; [exists (p + 1); unfold BTREE_PAGE_SIZE; lia|unfold BTREE_PAGE_SIZE; lia].
Qed.

Lemma Pwrite_inv db data off db' : full_writes db -> Pwrite db data off = (db', None) ->
  full_writes db' /\ kv_file db' = file_write (kv_file db) (Z.to_nat off) data.
Proof using.
  unfold Pwrite, next_io. destruct (off <? 0); [done|]. intros Hf.
  destruct (kv_io db) as [|[|n|n] io] eqn:Eio; intros [= <-]; cbn; rewrite ?Eio; try done;
    apply Forall_cons in Hf as [Hc Hf]; done.
Qed.

Lemma Fsync_inv db db' : full_writes db -> Fsync db = (db', None) -> full_writes db' /\ kv_file db' = kv_file db.
Proof using.
  unfold Fsync, next_io. intros Hf. destruct (kv_io db) as [|[|n|n] io] eqn:Eio; intros [= <-]; cbn; rewrite ?Eio; try done;
    by apply Forall_cons in Hf as [_ Hf].
Qed.

Lemma write_pages_fine db l db' : Forall page_ok l -> full_writes db -> write_pages_loop db l = (db', None) ->
  file_fine (kv_file db) -> full_writes db' /\ file_fine (kv_file db').
Proof using.
  intros Hl. revert db. induction Hl as [|[p c] l Hpc _ IH]; intros db; [by intros Hfull [= <-]|].
  intros Hfull. cbn [write_pages_loop].
  assert (i64 (u64 (p * BTREE_PAGE_SIZE)) = BTREE_PAGE_SIZE * p) as ->.
  { destruct Hpc as [Hp _]. cbn in Hp. unfold BTREE_PAGE_SIZE. rewrite u64_small, i64_small by lia. lia. }
  destruct (Pwrite _ _ _) as [db1 [e|]] eqn:E; [done|]. intros Ew Hf. destruct (Pwrite_inv _ _ _ _ Hfull E) as [Hfull1 Ef].
  apply (IH db1 Hfull1 Ew). rewrite Ef. by apply page_write_fine.
Qed.

Lemma extendMmap_file db size db' err : extendMmap db size = Ok (db', err) ->
  kv_file db' = kv_file db /\ kv_updates db' = kv_updates db /\ (full_writes db -> full_writes db').
Proof using.
  unfold extendMmap. destruct (_ <=? _); [by intros [= <- _]|]. intros (a & _ & E)%res_bind_Ok. unfold next_io in E.
  destruct (kv_io db) as [|[|n|n] io] eqn:Eio; injection E as <- _; cbn; rewrite ?Eio; split_and!; try done;
    by intros [_ ?]%Forall_cons.
Qed.

Lemma writePages_fine db db' : kv_ok db -> full_writes db -> writePages order db = Ok (db', None) ->
  file_fine (kv_file db) -> full_writes db' /\ file_fine (kv_file db').
Proof using Horder.
  intros Hok Hfull. unfold writePages. intros ([db1 e1] & Ee & E)%res_bind_Ok.
  destruct (extendMmap_file _ _ _ _ Ee) as (Ef & Hu & Hf1). specialize (Hf1 Hfull). destruct e1 as [e|]; [done|].
  destruct (write_pages_loop db1 _) as [db2 [e|]] eqn:Ew; [done|]. injection E as <-. cbn. rewrite <- Ef.
  eapply write_pages_fine; [|exact Hf1|exact Ew]. apply Forall_forall. intros [p c]. rewrite Horder, elem_of_map_to_list, Hu. intros Hp.
  destruct (ko_updates _ Hok p c Hp) as [Hpb Hlc]. destruct (ko_num _ Hok) as (_ & _ & Hb). split; cbn; [lia|done].
Qed.

(** The file after a commit that succeeds: the meta page is inside of it. *)
Lemma updateOrRevert_fine db meta db' : kv_ok db -> full_writes db -> kv_failed db = false ->
  updateOrRevert order db meta = Ok (db', None) -> file_fine (kv_file db) ->
    (exists p, is_Some (kv_updates db !! p)) \/ BTREE_PAGE_SIZE <= len (kv_file db) -> file_fine (kv_file db').
Proof using All.
  intros Hok Hfull Hf. unfold updateOrRevert, update_revert, updateFile. rewrite Hf.
  intros ([db1 e1] & Er & E)%res_bind_Ok Hfine Hup. destruct e1 as [e|].
  { apply res_bind_Ok in E as (? & _ & E). done. }
  injection E as <-. apply res_bind_Ok in Er as ([dw ew] & Ew & Er).
  destruct ew as [e|]; [done|]. unfold and_then in Er at 1. cbn [snd fst] in Er.
  destruct (Fsync dw) as [d1 [e|]] eqn:Es1; [done|]. unfold and_then in Er at 1. cbn [snd fst] in Er.
  unfold updateRoot in Er. rewrite saveMeta_layout, bind_Ok in Er.
  destruct (Pwrite d1 _ 0) as [d2 [e|]] eqn:Ep; rewrite bind_Ok in Er; [done|]. unfold and_then in Er at 1. cbn [snd fst] in Er.
  destruct (Fsync d2) as [d3 [e|]] eqn:Es2; [done|]. injection Er as <-.
  destruct (writePages_fine db dw Hok Hfull Ew Hfine) as [Hfw Hdw].
  destruct (Fsync_inv _ _ Hfw Es1) as [Hf1 E1]. destruct (Pwrite_inv _ _ _ _ Hf1 Ep) as [Hf2 E2]. destruct (Fsync_inv _ _ Hf2 Es2) as [_ E3].
  rewrite E3, E2, E1.
  destruct (writePages_ok db Hok) as (dw' & ew' & Ew' & _ & _ & _ & _ & _ & [Hgrow _] & Hw).
  rewrite Ew in Ew'. injection Ew' as <- <-. destruct (proj2 (Hw Hfull) eq_refl) as (_ & _ & _ & _ & _ & _ & Hpages).
  assert (BTREE_PAGE_SIZE <= len (kv_file dw)) as Hlen.
  { destruct Hup as [(p & c & Hp)|]; [|lia]. destruct (Hpages p c Hp) as (_ & Hlen & _).
    destruct (ko_updates _ Hok p c Hp) as [[Hp1 _] _]. unfold BTREE_PAGE_SIZE in *. lia. }
  unfold file_fine. set (data := DB_SIG ++ _).
  assert (len (file_write (kv_file dw) (Z.to_nat 0) data) = len (kv_file dw)) as ->; [|done].
  assert (len data = 72) as Hld by (unfold data; rewrite len_app, len_words; reflexivity).
  unfold len in *. rewrite file_write_length by (intros E0; rewrite E0 in Hld; done).
  unfold BTREE_PAGE_SIZE in *. lia.
Qed.

(** ** When no system call fails *)

Lemma Pwrite_quiet db data off : kv_io db = [] -> 0 <= off ->
  exists db', Pwrite db data off = (db', None) /\ kv_io db' = [].
Proof using.
  intros Hio Ho. unfold Pwrite, next_io. rewrite (proj2 (Z.ltb_ge _ _)), Hio by done. eexists. split; [reflexivity|done].
Qed.

Lemma Fsync_quiet db : kv_io db = [] -> Fsync db = (db, None).
Proof using. intros Hio. unfold Fsync, next_io. by rewrite Hio. Qed.

Lemma write_pages_quiet l db : Forall page_ok l -> kv_io db = [] ->
  exists db', write_pages_loop db l = (db', None) /\ kv_io db' = [].
Proof using.
  intros Hl. revert db. induction Hl as [|[p c] l [Hp _] _ IH]; intros db Hio; [by exists db|].
  cbn [write_pages_loop fst] in *.
  assert (0 <= i64 (u64 (p * BTREE_PAGE_SIZE))) as Ho.
  { unfold BTREE_PAGE_SIZE. rewrite u64_small, i64_small by lia. lia. }
  destruct (Pwrite_quiet db c _ Hio Ho) as (db1 & -> & Hio1). by apply IH.
Qed.

Lemma writePages_quiet db db' err : kv_ok db -> kv_io db = [] -> writePages order db = Ok (db', err) ->
  err = None /\ kv_io db' = [].
Proof using Horder.
  intros Hok Hio. unfold writePages. intros (r & Ee & E)%res_bind_Ok. destruct r as [db1 e1].
  assert (e1 = None /\ kv_io db1 = [] /\ kv_updates db1 = kv_updates db) as (-> & Hio1 & Hu).
  { unfold extendMmap in Ee. destruct (_ <=? _); [by injection Ee as <- <-|].
    apply res_bind_Ok in Ee as (a & _ & Ee). unfold next_io in Ee. rewrite Hio in Ee. by injection Ee as <- <-. }
  destruct (write_pages_quiet (order (kv_updates db1)) db1) as (db2 & Ew & Hio2); [|done|].
  { apply Forall_forall. intros [p c]. rewrite Horder, elem_of_map_to_list, Hu. intros Hp.
    destruct (ko_updates _ Hok p c Hp) as [Hpb Hlc]. destruct (ko_num _ Hok) as (_ & _ & Hb). split; cbn; [lia|done]. }
  rewrite Ew in E. injection E as <- <-. by split.
Qed.

Lemma update_revert_quiet db meta db' err : kv_ok db -> kv_io db = [] ->
  update_revert order db meta = Ok (db', err) -> err = None.
Proof using Horder.
  intros Hok Hio. unfold update_revert, updateFile.
  intros (r & Er & E)%res_bind_Ok. destruct r as [db1 e1]. apply res_bind_Ok in Er as (r & Ew & Er). destruct r as [dw ew].
  destruct (writePages_quiet _ _ _ Hok Hio Ew) as [-> Hiow]. unfold and_then in Er at 1. cbn [snd fst] in Er.
  rewrite (Fsync_quiet _ Hiow) in Er. unfold and_then in Er at 1. cbn [snd fst] in Er.
  unfold updateRoot in Er. rewrite saveMeta_layout, bind_Ok in Er.
  destruct (Pwrite_quiet dw (DB_SIG ++ words (meta_words dw)) 0 Hiow ltac:(done)) as (dp & Ep & Hiop).
  rewrite Ep, bind_Ok in Er. unfold and_then in Er at 1. cbn [snd fst] in Er.
  rewrite (Fsync_quiet _ Hiop) in Er. injection Er as <- <-. by injection E as <- <-.
Qed.

(** A commit that repairs the meta page first, too. *)
Lemma updateOrRevert_quiet db meta db' err : kv_ok db -> len meta = 72 -> kv_io db = [] ->
  updateOrRevert order db meta = Ok (db', err) -> err = None.
Proof using Horder.
  intros Hok Hlm Hio. unfold updateOrRevert. destruct (kv_failed db); [|by apply update_revert_quiet].
  destruct (Pwrite_meta db meta (ko_disk _ Hok) Hlm) as (db1 & err1 & E1 & Hm1 & Hd1 & _).
  destruct (Pwrite_quiet db meta 0 Hio ltac:(done)) as (db1' & E1' & Hio1). rewrite E1 in E1'. injection E1' as <- ->.
  rewrite E1, (Fsync_quiet _ Hio1). unfold and_then. cbn [snd fst]. apply update_revert_quiet; [|done].
  by apply (kv_ok_same db).
Qed.

End order.
