(* ===== verification/KVProps.v ===== *)
(** * What committing to the file promises *)

From S2P Require Import Prelude.
From S2P Require Import GoBytes.
From S2P Require Import BNode.
From S2P Require Import BTree.
From S2P Require Import Conflict.
From S2P Require Import Pager.
From S2P Require Import PagerFacts.
From S2P Require Import KV.
From S2P Require Import KVFacts.
From S2P Require Import KVCommit.

(** A database with one page to append, whose last commit had version 4. *)
Definition page_x : bytes := replicate 4096 Byte.x78.
Definition kv_one (io : list outcome) (failed : bool) : KV :=
  mkKV 2 (mkPager [] [] 2 1 {[2 := page_x]} (mkFreeList 1 0 1 0 0 0 5)) 0 failed (mkVersions 5 [4] []) io.

Lemma kv_one_ok io failed : kv_ok (kv_one io failed).
Proof.
  split.
  - split; [done|]. split; [by split|]. by exists 0.
  - by repeat split.
  - intros p c. cbn. rewrite lookup_singleton_Some. intros [<- <-]. split; [done|]. vm_compute. reflexivity.
Qed.

(** The words of an empty database at version 4. *)
Definition words_4 : list Z := [0; 2; 1; 0; 1; 0; 4].

Lemma words_4_ok : Forall (fun w => 0 <= w < 2 ^ 64) words_4.
Proof. repeat (apply Forall_cons; split; [lia|]). constructor. Qed.

(** C27.  The meta page round trip: what [saveMeta] writes is 72 bytes that
    begin with the signature, and loading it into any database state sets the
    root, the number of pages, the free list's ends and the version to those
    that were saved, and changes nothing else: the file with its mappings and
    their size, the pending pages, the limits of the free list, the running
    transactions, the history and the mark of a failure are those before. *)
Theorem loadMeta_saveMeta db db' :
  words_ok db ->
  exists meta, saveMeta db = Ok meta /\ len meta = 72 /\ take 16 meta = DB_SIG /\
    exists db2, loadMeta db' meta = Ok db2 /\ meta_words db2 = meta_words db /\
      kv_file db2 = kv_file db' /\ kv_chunks db2 = kv_chunks db' /\ kv_total db2 = kv_total db' /\
      pg_nappend (kv_pages db2) = pg_nappend (kv_pages db') /\ kv_updates db2 = kv_updates db' /\
      fl_limits (pg_free (kv_pages db2)) = fl_limits (pg_free (kv_pages db')) /\
      vs_ongoing (kv_vers db2) = vs_ongoing (kv_vers db') /\ vs_history (kv_vers db2) = vs_history (kv_vers db') /\
      kv_failed db2 = kv_failed db' /\ kv_io db2 = kv_io db'.
Proof.
  intros Hw. exists (DB_SIG ++ words (meta_words db)). rewrite saveMeta_layout. split; [done|].
  split; [by rewrite len_app, len_words|]. split; [by rewrite take_app_length' by done|].
  unfold meta_words in *. rewrite loadMeta_layout by done. eexists. split; [reflexivity|]. by split_and!.
Qed.

Example loadMeta_saveMeta_witness :
  words_ok (kv_one [] false) /\
  exists meta, saveMeta (kv_one [] false) = Ok meta /\ len meta = 72 /\
    exists db2, loadMeta (kv_zero [] []) meta = Ok db2 /\ kv_root db2 = 2 /\ vs_version (kv_vers db2) = 5.
Proof.
  assert (words_ok (kv_one [] false)) as Hw.
  { repeat (apply Forall_cons; split; [cbn; lia|]). constructor. }
  split; [exact Hw|].
  destruct (loadMeta_saveMeta (kv_one [] false) (kv_zero [] []) Hw) as (meta & E & Hl & _ & db2 & E2 & Hm & _).
  exists meta. split; [exact E|]. split; [exact Hl|]. exists db2. split; [exact E2|].
  injection Hm as H1 _ _ _ _ _ H7. split; [exact H1|exact H7].
Defined.

Section commit.
(** The order in which Go ranges over the map of updates. *)
Context (order : gmap Z bytes -> list (Z * bytes)) (Horder : forall m, order m ≡ₚ map_to_list m).

(** Committing never panics, in whatever order the pages are written and
    however the system calls answer.  When it reports success, and no write was
    cut short without an error, every page
    with a pending update reads back from the file through the mappings, which
    cover the new size; nothing is pending; the page count includes the
    appended pages; and the meta page in the file is the one of the state in
    memory. *)
Theorem updateOrRevert_success db meta ws :
  kv_ok db -> Forall (fun w => 0 <= w < 2 ^ 64) ws -> length ws = 7%nat -> meta = DB_SIG ++ words ws ->
  exists db' err, updateOrRevert order db meta = Ok (db', err) /\
    (err = None -> full_writes db ->
     (forall p c, kv_updates db !! p = Some c -> mmapRead (kv_file db') p (kv_chunks db') = Ok c) /\
     kv_updates db' = ∅ /\ pg_nappend (kv_pages db') = 0 /\ kv_failed db' = false /\
     pg_flushed (kv_pages db') = bound (kv_pages db) /\ kv_root db' = kv_root db /\
     kv_vers db' = kv_vers db /\ saveMeta db' = Ok (read_at (kv_file db') 0 72)).
Proof using All.
  intros Hok Hw Hl Hmeta.
  destruct (updateOrRevert_ok order Horder db meta ws Hok Hw Hl Hmeta) as (db' & err & E & [Hmap _] & _ & _ & Hres).
  exists db', err. split; [done|]. intros -> Hfull. destruct (Hres Hfull) as ((Hr & Hv & _ & Hf & Hn & Hu & Hp) & Hm & Hfail).
  split_and!; try done. intros p c Hpc. destruct (Hp p c Hpc) as (Hb & Hlf & Ht).
  apply (ko_updates _ Hok) in Hpc as [Hp1 Hlc]. rewrite (mmapRead_mapped _ p _ _ Hmap) by lia.
  unfold BTREE_PAGE_SIZE in *. rewrite slice_Ok by lia. rewrite <- Hb. unfold page_bytes.
  by replace (Z.to_nat (4096 * p + 4096 - 4096 * p)) with 4096%nat by lia.
Qed.

(** C28.  When a commit reports an error, and no earlier one is still to be
    repaired, the memory is as if it had not been tried: root, page count,
    free list ends and version are those of the meta data saved before it,
    nothing is pending, running transactions and history stay, and the
    database remembers that the meta page has to be rewritten. *)
Theorem updateOrRevert_failure db meta ws :
  kv_ok db -> kv_failed db = false ->
  Forall (fun w => 0 <= w < 2 ^ 64) ws -> length ws = 7%nat -> meta = DB_SIG ++ words ws ->
  exists db' err, updateOrRevert order db meta = Ok (db', err) /\
    (err <> None ->
     meta_words db' = ws /\ pg_nappend (kv_pages db') = 0 /\ kv_updates db' = ∅ /\ kv_failed db' = true /\
     vs_ongoing (kv_vers db') = vs_ongoing (kv_vers db) /\ vs_history (kv_vers db') = vs_history (kv_vers db)).
Proof using All.
  intros Hok Hfail Hw Hl Hmeta.
  destruct (updateOrRevert_ok order Horder db meta ws Hok Hw Hl Hmeta) as (db' & err & E & _ & _ & _ & Hres).
  exists db', err. split; [done|]. intros He. destruct err as [e|]; [|done].
  destruct Hres as [Hres|[Hf _]]; [by destruct Hres as [_ Hres]|congruence].
Qed.

(** Copy on write: whatever the system calls answer, and whether the
    commit succeeds or not, every page that was readable from the file and
    has no pending update reads the same afterwards, so the snapshots of
    running readers stay intact.  Only the meta page and the pages with
    updates are written. *)
Lemma updateOrRevert_keeps_pages db meta ws :
  kv_ok db -> Forall (fun w => 0 <= w < 2 ^ 64) ws -> length ws = 7%nat -> meta = DB_SIG ++ words ws ->
  exists db' err, updateOrRevert order db meta = Ok (db', err) /\
    forall p page, 1 <= p -> kv_updates db !! p = None ->
      mmapRead (kv_file db) p (kv_chunks db) = Ok page ->
      mmapRead (kv_file db') p (kv_chunks db') = Ok page.
Proof using All.
  intros Hok Hw Hl Hmeta.
  destruct (updateOrRevert_ok order Horder db meta ws Hok Hw Hl Hmeta) as (db' & err & E & [Hm' _] & Ht & Hk & _).
  exists db', err. split; [done|]. intros p page Hp Hn Hr.
  eapply (keeps_read (touched db)); [exact Hk|apply (ko_disk _ Hok)|exact Hm'|exact Ht|lia| |exact Hr].
  intros [->|[c Hc]]; [lia|congruence].
Qed.

End commit.

Lemma order_id (m : gmap Z bytes) : map_to_list m ≡ₚ map_to_list m.
Proof. done. Qed.

Example updateOrRevert_success_witness :
  exists db', updateOrRevert map_to_list (kv_one [] false) (DB_SIG ++ words words_4) = Ok (db', None) /\
    mmapRead (kv_file db') 2 (kv_chunks db') = Ok page_x.
Proof.
  destruct (updateOrRevert_success map_to_list order_id (kv_one [] false) _ words_4 (kv_one_ok [] false)
    words_4_ok eq_refl eq_refl) as (db' & err & E & H).
  assert (err = None) as ->.
  { assert (exists db2, updateOrRevert map_to_list (kv_one [] false) (DB_SIG ++ words words_4) = Ok (db2, None))
      as [db2 E2] by (eexists; vm_compute; reflexivity). congruence. }
  exists db'. split; [exact E|]. destruct (H eq_refl ltac:(constructor)) as (Hp & _). apply Hp. cbn. by rewrite lookup_singleton_eq.
Defined.

(** The first write of the pages goes through, the synchronization fails. *)
Example updateOrRevert_failure_witness :
  exists db' e, updateOrRevert map_to_list (kv_one [IoOk; IoOk; IoErr 0] false) (DB_SIG ++ words words_4) =
      Ok (db', Some e) /\ kv_root db' = 0 /\ kv_updates db' = ∅.
Proof.
  destruct (updateOrRevert_failure map_to_list order_id (kv_one [IoOk; IoOk; IoErr 0] false) _ words_4
    (kv_one_ok _ false) eq_refl words_4_ok eq_refl eq_refl) as (db' & err & E & H).
  assert (exists e, err = Some e) as [e ->].
  { assert (exists db2 e, updateOrRevert map_to_list (kv_one [IoOk; IoOk; IoErr 0] false)
      (DB_SIG ++ words words_4) = Ok (db2, Some e)) as (db2 & e & E2) by (eexists _, _; vm_compute; reflexivity).
    exists e. congruence. }
  exists db', e. split; [exact E|]. destruct (H ltac:(done)) as (Hw & _ & Hu & _).
  injection Hw as Hr _. split; [exact Hr|exact Hu].
Defined.

(** A file of two pages, page 1 of which has no update. *)
Definition kv_two (io : list outcome) : KV :=
  mkKV 2 (mkPager (make BTREE_PAGE_SIZE ++ page_x) [mkChunk 0 (2 ^ 26)] 2 1 {[2 := make BTREE_PAGE_SIZE]}
            (mkFreeList 1 0 1 0 0 0 5)) (2 ^ 26) false (mkVersions 5 [4] []) io.

Lemma kv_two_ok io : kv_ok (kv_two io).
Proof.
  split.
  - split; [|split; [by split|by exists (2 ^ 14)]]. cbn. split_and!; try done. by exists (2 ^ 14).
  - by repeat split.
  - intros p c. cbn. rewrite lookup_singleton_Some. intros [<- <-]. split; [done|]. vm_compute. reflexivity.
Qed.

Example updateOrRevert_keeps_pages_witness :
  exists db' err, updateOrRevert map_to_list (kv_two [IoErr 100]) (DB_SIG ++ words words_4) = Ok (db', err) /\
    mmapRead (kv_file db') 1 (kv_chunks db') = Ok page_x.
Proof.
  destruct (updateOrRevert_keeps_pages map_to_list order_id (kv_two [IoErr 100]) _ words_4 (kv_two_ok _)
    words_4_ok eq_refl eq_refl) as (db' & err & E & H).
  exists db', err. split; [exact E|]. apply H; [done|reflexivity|]. vm_compute. reflexivity.
Defined.

(** After a failed commit, a commit that cannot rewrite the meta page returns
    the error without undoing anything: the new root and its pages stay. *)
Lemma failed_repair_keeps_updates :
  exists db' e, updateOrRevert map_to_list (kv_one [IoErr 0] true) (DB_SIG ++ words words_4) = Ok (db', Some e) /\
    kv_root db' = 2 /\ kv_updates db' = {[2 := page_x]} /\ vs_version (kv_vers db') = 5.
Proof. eexists _, _. split; [vm_compute; reflexivity|]. by split_and!. Qed.

(** A write that is cut short without an error goes unnoticed: the commit
    reports success and drops the page, which is not in the file. *)
Lemma short_write_unnoticed :
  exists db', updateOrRevert map_to_list (kv_one [IoOk; IoShort 0] false) (DB_SIG ++ words words_4) = Ok (db', None) /\
    kv_root db' = 2 /\ kv_updates db' = ∅ /\ mmapRead (kv_file db') 2 (kv_chunks db') = Panic.
Proof. eexists. split; [vm_compute; reflexivity|]. by split_and!. Qed.
