(* ===== verification/KVTX.v ===== *)
(** * Transactions (src/db/transaction.go)

    A transaction reads a snapshot of the tree in the file and keeps its
    updates in a tree in memory, whose values carry a flag byte; a deleted key
    is a flag without a value.  [Commit] moves the updates to the tree of the
    file.  The operations take the depth of the trees' recursion as [depth]. *)

From S2P Require Import Prelude.
From S2P Require Import GoBytes.
From S2P Require Import BNode.
From S2P Require Import BTree.
From S2P Require Import BTreeRep.
From S2P Require Import MemStore.
From S2P Require Import BIter.
From S2P Require Import Conflict.
From S2P Require Import Pager.
From S2P Require Import KV.

(** ** Snapshots

    The callback of the snapshot reads the file through the mappings of the
    time when the transaction began; the other callbacks are nil. *)
Record Snapshot := mkSnapshot { sn_file : bytes; sn_chunks : list Chunk }.

#[export] Instance snapshot_store : PageStore Snapshot :=
  {| page_get := fun s ptr => mmapRead (sn_file s) ptr (sn_chunks s);
     page_new := fun _ _ => Panic; page_del := fun _ _ => Panic |}.

#[export] Program Instance snapshot_read : PageReadOk Snapshot :=
  {| read_ok := fun s m => forall p page, m !! p = Some page -> mmapRead (sn_file s) p (sn_chunks s) = Ok page |}.
Next Obligation. intros s m p page Hs Hp. by apply Hs. Qed.

(** [snapshot.root] and the captured mappings, not the file. *)
Record KVTX := mkKVTX {
  tx_root : Z; tx_chunks : list Chunk; tx_version : Z;
  tx_pending : BTree mem_pages; tx_reads : list KeyRange;
  tx_updateAttempted : bool; tx_done : bool
}.

Definition set_pending (tx : KVTX) (pending : BTree mem_pages) : KVTX :=
  mkKVTX (tx_root tx) (tx_chunks tx) (tx_version tx) pending (tx_reads tx) (tx_updateAttempted tx) (tx_done tx).
Definition set_reads (tx : KVTX) (reads : list KeyRange) : KVTX :=
  mkKVTX (tx_root tx) (tx_chunks tx) (tx_version tx) (tx_pending tx) reads (tx_updateAttempted tx) (tx_done tx).
Definition set_attempted (tx : KVTX) : KVTX :=
  mkKVTX (tx_root tx) (tx_chunks tx) (tx_version tx) (tx_pending tx) (tx_reads tx) true (tx_done tx).
Definition set_done (tx : KVTX) : KVTX :=
  mkKVTX (tx_root tx) (tx_chunks tx) (tx_version tx) (tx_pending tx) (tx_reads tx) (tx_updateAttempted tx) true.

Definition snapshot (file : bytes) (tx : KVTX) : BTree Snapshot :=
  mkBTree (tx_root tx) (mkSnapshot file (tx_chunks tx)).

(** The tree of the file. *)
Definition kv_tree (db : KV) : BTree Pager := mkBTree (kv_root db) (kv_pages db).
Definition set_tree (db : KV) (tree : BTree Pager) : KV := set_pages (set_root db (bt_root tree)) (bt_store tree).

Definition FLAG_DELETED : byte := Byte.x01.
Definition FLAG_UPDATED : byte := Byte.x02.

(** ** Savepoints of a statement *)

Record TXSaved := mkTXSaved { sv_root : Z; sv_reads : list KeyRange }.

Definition tx_Save (tx : KVTX) : TXSaved := mkTXSaved (bt_root (tx_pending tx)) (tx_reads tx).

Definition tx_Revert (tx : KVTX) (saved : TXSaved) : KVTX :=
  set_reads (set_pending tx (mkBTree (sv_root saved) (bt_store (tx_pending tx)))) (sv_reads saved).

(** ** Beginning and ending *)

Definition kv_Begin (kv : KV) : KV * KVTX :=
  (set_vers kv (begin_version (kv_vers kv)),
   mkKVTX (kv_root kv) (pg_chunks (kv_pages kv)) (vs_version (kv_vers kv)) (mkBTree 0 []) [] false false).

(** [txFinalize], with the free list. *)
Definition tx_finalize (kv : KV) (tx : KVTX) : res KV :=
  '(vers, minVersion) ← txFinalize (kv_vers kv) (tx_version tx);
  Ok (set_pages (set_vers kv vers) (SetMaxVer (kv_pages kv) minVersion)).

Definition kv_Abort (kv : KV) (tx : KVTX) : res (KV * KVTX) :=
  _ ← assert (negb (tx_done tx));
  kv ← tx_finalize kv (set_done tx);
  Ok (kv, set_done tx).

(** ** Reading and updating *)

Section depth.
Context (depth : nat).

(** [tx.Get]: the transaction with the key as a dependency, and the value. *)
Definition tx_Get (file : bytes) (tx : KVTX) (key : bytes) : res (KVTX * option bytes) :=
  let tx := set_reads tx (tx_reads tx ++ [mkKeyRange key key]) in
  val ← Get depth (tx_pending tx) key;
  match val with
  | Some val =>
      flag ← index val 0;
      if decide (flag = FLAG_UPDATED) then v ← slice_from val 1; Ok (tx, Some v)
      else if decide (flag = FLAG_DELETED) then Ok (tx, None)
      else Panic
  | None => v ← Get depth (snapshot file tx) key; Ok (tx, v)
  end.

Definition tx_Update (file : bytes) (tx : KVTX) (req : UpdateReq)
    : res (KVTX * UpdateReq * (bool * option error)) :=
  let tx := set_attempted tx in
  '(tx, curr) ← tx_Get file tx (uq_Key req);
  let exists_ := match curr with Some _ => true | None => false end in
  let currVal := default [] curr in
  if (uq_Mode req =? MODE_INSERT_ONLY) && exists_ then
    Ok (tx, req, (false, Some "insert duplicate key"%string))
  else if ((uq_Mode req =? MODE_UPDATE_ONLY) && negb exists_) || (exists_ && bytes_equal currVal (uq_Val req)) then
    Ok (tx, req, (false, None))
  else
    let req := mkUpdateReq (uq_Key req) (uq_Val req) (uq_Mode req) (uq_Added req) (uq_Updated req) currVal in
    '(pending, _, (updated, err)) ←
      Update depth (tx_pending tx) (updateReq (uq_Key req) (FLAG_UPDATED :: uq_Val req) MODE_UPSERT);
    let tx := set_pending tx pending in
    match err with
    | Some _ => Ok (tx, req, (false, err))
    | None =>
        _ ← assert updated;
        Ok (tx, mkUpdateReq (uq_Key req) (uq_Val req) (uq_Mode req) (negb exists_) true (uq_Old req), (true, None))
    end.

Definition tx_Set (file : bytes) (tx : KVTX) (key val : bytes) :=
  tx_Update file tx (updateReq key val MODE_UPSERT).

Definition tx_Del (file : bytes) (tx : KVTX) (req : DeleteReq)
    : res (KVTX * DeleteReq * (bool * option error)) :=
  let tx := set_attempted tx in
  '(tx, curr) ← tx_Get file tx (dq_Key req);
  match curr with
  | None => Ok (tx, req, (false, None))
  | Some currVal =>
      let req := mkDeleteReq (dq_Key req) currVal in
      '(pending, _, (updated, err)) ←
        Update depth (tx_pending tx) (updateReq (dq_Key req) [FLAG_DELETED] MODE_UPSERT);
      let tx := set_pending tx pending in
      match err with
      | Some _ => Ok (tx, req, (false, err))
      | None => _ ← assert updated; Ok (tx, req, (true, None))
      end
  end.

(** ** Range queries *)

Record CombinedIter := mkCombinedIter {
  ci_top : BIter mem_pages; ci_bottom : BIter Snapshot; ci_direction : Z;
  ci_endKey : bytes; ci_endCmp : Z
}.

Definition CI_Deref (iter : CombinedIter) : res (bytes * bytes) :=
  topValid ← BIter_Valid (ci_top iter);
  bottomValid ← BIter_Valid (ci_bottom iter);
  _ ← assert (topValid || bottomValid);
  kv1 ← (if (topValid : bool) then BIter_Deref (ci_top iter) else Ok ([], []));
  kv2 ← (if (bottomValid : bool) then BIter_Deref (ci_bottom iter) else Ok ([], []));
  if topValid && bottomValid && (bytes_compare (fst kv1) (fst kv2) =? ci_direction iter) then Ok kv2
  else if topValid then v ← slice_from (snd kv1) 1; Ok (fst kv1, v)
  else Ok kv2.

Definition CI_Valid (iter : CombinedIter) : res bool :=
  topValid ← BIter_Valid (ci_top iter);
  bottomValid ← (if topValid : bool then Ok false else BIter_Valid (ci_bottom iter));
  if negb topValid && negb bottomValid then Ok false else
  kv ← CI_Deref iter;
  cmpOK (fst kv) (ci_endCmp iter) (ci_endKey iter).

Definition CI_Next (iter : CombinedIter) : res CombinedIter :=
  topValid ← BIter_Valid (ci_top iter);
  bottomValid ← BIter_Valid (ci_bottom iter);
  '(topMove, bottomMove) ←
    (if topValid && bottomValid then
       kv1 ← BIter_Deref (ci_top iter);
       kv2 ← BIter_Deref (ci_bottom iter);
       let c := bytes_compare (fst kv1) (fst kv2) in
       if c =? - ci_direction iter then Ok (true, false)
       else if c =? ci_direction iter then Ok (false, true)
       else Ok (topValid, bottomValid)
     else Ok (topValid, bottomValid));
  _ ← assert (topMove || bottomMove);
  top ← (if (topMove : bool) then
           if 0 <? ci_direction iter then BIter_Next (ci_top iter) else BIter_Prev (ci_top iter)
         else Ok (ci_top iter));
  bottom ← (if (bottomMove : bool) then
              if 0 <? ci_direction iter then BIter_Next (ci_bottom iter) else BIter_Prev (ci_bottom iter)
            else Ok (ci_bottom iter));
  Ok (mkCombinedIter top bottom (ci_direction iter) (ci_endKey iter) (ci_endCmp iter)).

Definition cmp2dir (cmp : Z) : res Z :=
  if 0 <? cmp then Ok 1 else if cmp <? 0 then Ok (-1) else Panic.

Definition tx_Seek (file : bytes) (tx : KVTX) (key1 : bytes) (cmp1 : Z) (key2 : bytes) (cmp2 : Z)
    : res (KVTX * CombinedIter) :=
  direction ← cmp2dir cmp1;
  d2 ← cmp2dir cmp2;
  _ ← assert (negb (direction =? d2));
  let '(low, high) := if direction <? 0 then (key2, key1) else (key1, key2) in
  let tx := set_reads tx (tx_reads tx ++ [mkKeyRange low high]) in
  top ← BTree_Seek depth (tx_pending tx) key1 cmp1;
  bottom ← BTree_Seek depth (snapshot file tx) key1 cmp1;
  Ok (tx, mkCombinedIter top bottom direction key2 cmp2).

(** ** Committing *)

(** One round of the loop of [Commit]: the pending pair is applied to the tree
    of the file; the answer says whether the snapshot had something else. *)
Definition transfer_one (kv : KV) (tx : KVTX) (key val : bytes) : res (KV * bool * option error) :=
  old ← Get depth (snapshot (pg_file (kv_pages kv)) tx) key;
  flag ← index val 0;
  if decide (flag = FLAG_DELETED) then
    let modified := match old with Some _ => true | None => false end in
    '(tree, _, (deleted, err)) ← Delete depth (kv_tree kv) (mkDeleteReq key []);
    match err with
    | Some _ => Ok (set_tree kv tree, modified, err)
    | None => _ ← assert (Bool.eqb deleted modified); Ok (set_tree kv tree, modified, None)
    end
  else if decide (flag = FLAG_UPDATED) then
    val1 ← slice_from val 1;
    let modified := match old with Some oldVal => negb (bytes_equal oldVal val1) | None => true end in
    '(tree, _, (updated, err)) ← Update depth (kv_tree kv) (updateReq key val1 MODE_UPSERT);
    match err with
    | Some _ => Ok (set_tree kv tree, modified, err)
    | None => _ ← assert (Bool.eqb updated modified); Ok (set_tree kv tree, modified, None)
    end
  else Panic.

(** The loop of [Commit]: [fuel] bounds the number of pending updates. *)
Fixpoint transfer_loop (fuel : nat) (kv : KV) (tx : KVTX) (iter : BIter mem_pages) (writes : list KeyRange)
    : res (KV * list KeyRange * option error) :=
  v ← BIter_Valid iter;
  if negb v then Ok (kv, writes, None) else
  match fuel with
  | O => NoFuel
  | S fuel =>
      '(key, val) ← BIter_Deref iter;
      '(kv, modified, err) ← transfer_one kv tx key val;
      match err with
      | Some _ => Ok (kv, writes, err)
      | None =>
          let writes := if modified && (1 <? len (vs_ongoing (kv_vers kv)))
                        then writes ++ [mkKeyRange key key] else writes in
          iter ← BIter_Next iter;
          transfer_loop fuel kv tx iter writes
      end
  end.

Section commit.
(** [slices.SortFunc(_, keyRangeCmp)] and the order of Go's maps. *)
Context (sort : list KeyRange -> list KeyRange) (order : gmap Z bytes -> list (Z * bytes)).

Definition ErrorConflict : error := "cannot commit due to conflict"%string.

(** [Commit] before [txFinalize] runs. *)
Definition commit_body (fuel : nat) (kv : KV) (tx : KVTX) : res (KV * KVTX * option error) :=
  '(conflict, tx) ←
    (if tx_updateAttempted tx then
       '(c, reads) ← detectConflicts sort (kv_vers kv) (tx_version tx) (tx_reads tx);
       Ok (c, set_reads tx reads)
     else Ok (false, tx));
  if (conflict : bool) then Ok (kv, tx, Some ErrorConflict) else
  meta ← saveMeta kv;
  let root := kv_root kv in
  let fl := pg_free (kv_pages kv) in
  let fl := mkFreeList (fl_headPage fl) (fl_headSeq fl) (fl_tailPage fl) (fl_tailSeq fl)
              (fl_maxSeq fl) (fl_maxVer fl) (u64 (vs_version (kv_vers kv) + 1)) in
  let kv := set_pages kv (set_free (kv_pages kv) fl) in
  iter ← BTree_Seek depth (tx_pending tx) [] CMP_GT;
  '(kv, writes, err) ← transfer_loop fuel kv tx iter [];
  match err with
  | Some _ => Ok (kv, tx, err)
  | None =>
      '(kv, err) ←
        (if negb (kv_root kv =? root) then
           updateOrRevert order (set_version kv (u64 (vs_version (kv_vers kv) + 1))) meta
         else Ok (kv, None));
      match err with
      | Some _ => Ok (kv, tx, err)
      | None => Ok (set_vers kv (saveHistory sort (kv_vers kv) writes), tx, None)
      end
  end.

Definition kv_Commit (fuel : nat) (kv : KV) (tx : KVTX) : res (KV * KVTX * option error) :=
  _ ← assert (negb (tx_done tx));
  let tx := set_done tx in
  '(kv, tx, err) ← commit_body fuel kv tx;
  kv ← tx_finalize kv tx;
  Ok (kv, tx, err).

End commit.
End depth.
