(* ===== verification/KVTXFacts.v ===== *)
(** * What a transaction sees

    The keys of a transaction form a map: the snapshot, overlaid with the
    pending updates.  [Get], [Update] and [Del] are lookup, insertion and
    deletion of that map, and record the key as a dependency. *)

From S2P Require Import Prelude.
From S2P Require Import GoBytes.
From S2P Require Import BNode.
From S2P Require Import KVSpec.
From S2P Require Import BSplitFacts.
From S2P Require Import BTree.
From S2P Require Import BTreeRep.
From S2P Require Import MemStore.
From S2P Require Import BTreeInsert.
From S2P Require Import BTreeMap.
From S2P Require Import Conflict.
From S2P Require Import Pager.
From S2P Require Import PagerFacts.
From S2P Require Import KV.
From S2P Require Import KVFacts.
From S2P Require Import KVCommit.
From S2P Require Import KVTX.

(** A value of the pending tree over one of the snapshot. *)
Definition over (m p : option bytes) : option bytes :=
  match p with
  | Some (flag :: v) => if decide (flag = FLAG_UPDATED) then Some v else None
  | Some [] => None
  | None => m
  end.

Definition overlay (M P : gmap bytes bytes) : gmap bytes bytes := merge over M P.

(** The values of the pending tree. *)
Definition flagged (P : gmap bytes bytes) : Prop :=
  map_Forall (fun _ v => (exists w, v = FLAG_UPDATED :: w) \/ v = [FLAG_DELETED]) P.

Lemma lookup_overlay M P key : overlay M P !! key = over (M !! key) (P !! key).
Proof. unfold overlay. rewrite lookup_merge. by destruct (M !! key), (P !! key). Qed.

Lemma overlay_set M P key val : overlay M (<[key := FLAG_UPDATED :: val]> P) = <[key := val]> (overlay M P).
Proof.
  apply map_eq. intros k. rewrite lookup_overlay, !lookup_insert, lookup_overlay. by case_decide.
Qed.

Lemma overlay_del M P key : overlay M (<[key := [FLAG_DELETED]]> P) = delete key (overlay M P).
Proof.
  apply map_eq. intros k. rewrite lookup_overlay, lookup_insert, lookup_delete, lookup_overlay. by case_decide.
Qed.

Lemma overlay_empty M : overlay M ∅ = M.
Proof. apply map_eq. intros k. rewrite lookup_overlay, lookup_empty. done. Qed.

Lemma flagged_set P key val : flagged P -> flagged (<[key := FLAG_UPDATED :: val]> P).
Proof. intros HP. apply map_Forall_insert_2; [|done]. left. by eexists. Qed.

Lemma flagged_del P key : flagged P -> flagged (<[key := [FLAG_DELETED]]> P).
Proof. intros HP. apply map_Forall_insert_2; [|done]. by right. Qed.

(** [tx] sees the keys [N]: [h] and [hp] are the heights of the snapshot and
    of the pending tree, which has room for [r] more pages. *)
Definition tx_sees (file : bytes) (h hp : nat) (tx : KVTX) (N : gmap bytes bytes) (r : nat) : Prop :=
  exists kvs P, tree_reads h (snapshot file tx) kvs /\ tree_models hp ∅ (tx_pending tx) P r /\
    flagged P /\ overlay (kv_map kvs) P = N.

(** The dependency that every operation records. *)
Definition depends (tx tx' : KVTX) (key : bytes) : Prop :=
  tx_reads tx' = tx_reads tx ++ [mkKeyRange key key] /\
  tx_root tx' = tx_root tx /\ tx_chunks tx' = tx_chunks tx /\ tx_version tx' = tx_version tx /\
  tx_done tx' = tx_done tx.

Section tx.
Context (depth : nat) (file : bytes) (h hp : nat) (Hd : (h < depth)%nat) (Hdp : (hp < depth)%nat).

Lemma tx_Get_ok tx N r key :
  tx_sees file h hp tx N r -> key <> [] ->
  tx_Get depth file tx key = Ok (set_reads tx (tx_reads tx ++ [mkKeyRange key key]), N !! key).
Proof using Hd Hdp.
  intros (kvs & P & Hs & Hp & HP & <-) Hk. unfold tx_Get.
  change (tx_pending (set_reads tx _)) with (tx_pending tx).
  rewrite (Get_models hp depth _ key ∅ P r Hp Hk Hdp). step_res. rewrite lookup_overlay.
  destruct (P !! key) as [v|] eqn:E.
  - apply HP in E as [[w ->]| ->]; cbn.
    + rewrite slice_from_Ok by (rewrite len_cons; pose proof (len_nonneg w); lia). step_res. done.
    + done.
  - change (snapshot file (set_reads tx _)) with (snapshot file tx).
    rewrite (Get_reads h depth _ key kvs Hs Hk Hd). step_res. cbn. by rewrite kv_get_map.
Qed.

(** [Get] of the empty key, which is in the sentinel of the pending tree, and
    has no flag there. *)
Lemma tx_Get_empty tx N r : tx_sees file h hp tx N r ->
  tx_Get depth file tx [] =
    if decide (bt_root (tx_pending tx) = 0)
    then Ok (set_reads tx (tx_reads tx ++ [mkKeyRange [] []]), if decide (tx_root tx = 0) then None else Some [])
    else Panic.
Proof using Hd Hdp.
  intros (kvs & P & Hs & (pk & Hp & _) & _). unfold tx_Get.
  change (tx_pending (set_reads tx _)) with (tx_pending tx).
  rewrite (Get_empty hp depth _ pk (stores_reads _ _ _ _ _ Hp) Hdp). step_res. case_decide; [|done].
  change (snapshot file (set_reads tx _)) with (snapshot file tx).
  rewrite (Get_empty h depth _ kvs Hs Hd). by step_res.
Qed.

(** The tests of [Update], on the value the transaction sees. *)
Lemma exists_test (old : option bytes) :
  (match old with Some _ => true | None => false end) = bool_decide (is_Some old).
Proof using. destruct old; [by rewrite bool_decide_true by eauto|by rewrite bool_decide_false by by intros [? ?]]. Qed.

Lemma nop_test (u : bool) old val :
  (u && negb (bool_decide (is_Some old))) || (bool_decide (is_Some old) && bytes_equal (default [] old) val) =
  negb (negb (u && bool_decide (old = None)) && bool_decide (old <> Some val)).
Proof using.
  unfold bytes_equal. destruct old as [v|].
  - rewrite (bool_decide_true (is_Some _)), (bool_decide_false (_ = None)) by eauto.
    cbn. rewrite !andb_false_r. cbn. destruct (decide (v = val)) as [->|Hne].
    + rewrite bool_decide_true by done. rewrite bool_decide_false by auto. done.
    + rewrite bool_decide_false by congruence. rewrite bool_decide_true by congruence. done.
  - by destruct u.
Qed.

(** Room for pages can be given up. *)
Lemma tx_sees_weaken tx N r r' : tx_sees file h hp tx N r -> (r' <= r)%nat -> tx_sees file h hp tx N r'.
Proof using.
  intros (kvs & P & Hs & (pk & Hp & HpP) & HP & HN) Hr. exists kvs, P. split; [exact Hs|]. split; [|by split].
  exists pk. split; [|exact HpP]. by eapply stores_weaken.
Qed.

(** Writing one flagged value. *)
Lemma pending_Update tx P key v r :
  tree_models hp ∅ (tx_pending tx) P (4 * hp + 5 + r) -> key <> [] -> small_kv (key, v) -> P !! key <> Some v ->
  exists t' q hp', Update depth (tx_pending tx) (updateReq key v MODE_UPSERT) = Ok (t', q, (true, None)) /\
    (hp' <= S hp)%nat /\ tree_models hp' ∅ t' (<[key := v]> P) r.
Proof using Hdp.
  intros Hp Hk Hv Hne.
  destruct (Update_models hp depth _ (updateReq key v MODE_UPSERT) ∅ P r Hp Hk Hv Hdp) as (t' & h' & E & Hh & Ht & _).
  cbn [updateReq uq_Key uq_Val uq_Mode] in E, Ht.
  assert ((bt_root (tx_pending tx) =? 0) || upd_changes MODE_UPSERT v (P !! key) = true) as Ech.
  { apply orb_true_iff. right. unfold upd_changes. destruct (P !! key) as [w|]; [|done]. cbn.
    unfold bytes_equal. by rewrite bool_decide_false by congruence. }
  rewrite Ech in E, Ht. eexists t', _, h'. by split_and!.
Qed.

(** [Update] is insertion. *)
Lemma tx_Update_ok tx N r req :
  tx_sees file h hp tx N (4 * hp + 5 + r) -> uq_Key req <> [] -> small_kv (uq_Key req, FLAG_UPDATED :: uq_Val req) ->
  let old := N !! uq_Key req in
  let duplicate := (uq_Mode req =? MODE_INSERT_ONLY) && bool_decide (is_Some old) in
  let changed := negb duplicate && negb ((uq_Mode req =? MODE_UPDATE_ONLY) && bool_decide (old = None)) &&
                 bool_decide (old <> Some (uq_Val req)) in
  exists tx' req' hp',
    tx_Update depth file tx req =
      Ok (tx', req', (changed, if duplicate then Some "insert duplicate key"%string else None)) /\
    (if changed then uq_Old req' = default [] old /\ uq_Updated req' = true /\ uq_Added req' = bool_decide (old = None)
     else req' = req) /\
    (hp' <= S hp)%nat /\ depends tx tx' (uq_Key req) /\ tx_updateAttempted tx' = true /\
    tx_sees file h hp' tx' (if changed then <[uq_Key req := uq_Val req]> N else N) r.
Proof using Hd Hdp.
  intros Ht Hk Hsm old duplicate changed. unfold tx_Update.
  rewrite (tx_Get_ok (set_attempted tx) N (4 * hp + 5 + r) _ Ht Hk). step_res. cbv zeta.
  fold old. set (tx1 := set_reads _ _).
  assert (tx_sees file h hp tx1 N r) as Hsame.
  { apply (tx_sees_weaken tx1 N (4 * hp + 5 + r)); [exact Ht|lia]. }
  rewrite exists_test, nop_test. fold duplicate. destruct duplicate eqn:Edup.
  { exists tx1, req, hp. split; [done|]. split; [done|]. split; [lia|]. by split_and!. }
  change (negb _ && bool_decide (old <> Some (uq_Val req))) with changed. destruct changed eqn:Ech; cbn [negb].
  2:{ exists tx1, req, hp. split; [done|]. split; [done|]. split; [lia|]. by split_and!. }
  destruct Ht as (kvs & P & Hs & Hp & HP & HN).
  destruct (pending_Update tx1 P (uq_Key req) (FLAG_UPDATED :: uq_Val req) r Hp Hk Hsm) as
    (t' & q & hp' & E & Hh & Ht').
  { intros HPk. subst changed. apply andb_true_iff in Ech as [_ Ech%bool_decide_eq_true]. apply Ech.
    unfold old. by rewrite <- HN, lookup_overlay, HPk. }
  cbn [uq_Key uq_Val uq_Mode uq_Old]. rewrite E. step_res.
  eexists _, _, hp'. split; [reflexivity|]. split.
  { cbn. split_and!; try done. by destruct old. }
  split; [done|]. split; [by repeat split|]. split; [done|].
  exists kvs, (<[uq_Key req := FLAG_UPDATED :: uq_Val req]> P).
  split; [exact Hs|]. split; [exact Ht'|]. split; [by apply flagged_set|]. by rewrite overlay_set, HN.
Qed.

(** [Del] is deletion. *)
Lemma tx_Del_ok tx N r req :
  tx_sees file h hp tx N (4 * hp + 5 + r) -> dq_Key req <> [] -> small_kv (dq_Key req, [FLAG_DELETED]) ->
  let old := N !! dq_Key req in
  exists tx' hp',
    tx_Del depth file tx req =
      Ok (tx', match old with Some v => mkDeleteReq (dq_Key req) v | None => req end,
          (bool_decide (is_Some old), None)) /\
    (hp' <= S hp)%nat /\ depends tx tx' (dq_Key req) /\ tx_updateAttempted tx' = true /\
    tx_sees file h hp' tx' (delete (dq_Key req) N) r.
Proof using Hd Hdp.
  intros Ht Hk Hsm old. unfold tx_Del.
  rewrite (tx_Get_ok (set_attempted tx) N (4 * hp + 5 + r) _ Ht Hk). step_res.
  fold old. set (tx1 := set_reads _ _). destruct Ht as (kvs & P & Hs & Hp & HP & HN).
  destruct old as [v|] eqn:Eold.
  - destruct (pending_Update tx1 P (dq_Key req) [FLAG_DELETED] r Hp Hk Hsm) as
      (t' & q & hp' & E & Hh & Ht').
    { intros HPk. unfold old in Eold. rewrite <- HN, lookup_overlay, HPk in Eold. done. }
    cbn [dq_Key]. rewrite E. step_res. exists (set_pending tx1 t'), hp'. split; [done|]. split; [done|].
    split; [by repeat split|]. split; [done|]. exists kvs, (<[dq_Key req := [FLAG_DELETED]]> P).
    split; [exact Hs|]. split; [exact Ht'|]. split; [by apply flagged_del|]. by rewrite overlay_del, HN.
  - exists tx1, hp. split; [done|]. split; [lia|]. split; [by repeat split|]. split; [done|].
    rewrite delete_id by exact Eold. apply (tx_sees_weaken tx1 N (4 * hp + 5 + r)); [|lia].
    by exists kvs, P.
Qed.

(** Writing the empty key: never successful. *)
Lemma tx_sees_step tx tx' N r : tx_sees file h hp tx N (4 * hp + 5 + r) -> tx_root tx' = tx_root tx ->
  tx_chunks tx' = tx_chunks tx -> tx_pending tx' = tx_pending tx -> tx_sees file h hp tx' N r.
Proof using Hd Hdp.
  intros Ht Er Ec Ep. apply (tx_sees_weaken tx' N (4 * hp + 5 + r)); [|lia]. unfold tx_sees, snapshot in *. by rewrite Er, Ec, Ep.
Qed.

Lemma Update_empty_key (t : BTree mem_pages) val mode : Update depth t (updateReq [] val mode) =
  Ok (t, updateReq [] val mode, (false, Some "empty key"%string)).
Proof using. done. Qed.

Lemma tx_Update_empty tx N r req : tx_sees file h hp tx N (4 * hp + 5 + r) -> uq_Key req = [] ->
  if decide (bt_root (tx_pending tx) = 0)
  then exists tx' req' err, tx_Update depth file tx req = Ok (tx', req', (false, err)) /\ tx_sees file h hp tx' N r
  else tx_Update depth file tx req = Panic.
Proof using Hd Hdp.
  intros Ht Hk. unfold tx_Update. rewrite Hk, (tx_Get_empty (set_attempted tx) N _ Ht).
  change (tx_pending (set_attempted tx)) with (tx_pending tx). case_decide; [|done]. step_res. cbv zeta.
  destruct (_ && _); [|destruct (_ || _)]; [| |cbn [uq_Key uq_Val uq_Mode]; rewrite Update_empty_key; step_res];
    (eexists _, _, _; (split; [reflexivity|]); by apply (tx_sees_step tx)).
Qed.

Lemma tx_Del_empty tx N r req : tx_sees file h hp tx N (4 * hp + 5 + r) -> dq_Key req = [] ->
  if decide (bt_root (tx_pending tx) = 0)
  then exists tx' req' err, tx_Del depth file tx req = Ok (tx', req', (false, err)) /\ tx_sees file h hp tx' N r
  else tx_Del depth file tx req = Panic.
Proof using Hd Hdp.
  intros Ht Hk. unfold tx_Del. rewrite Hk, (tx_Get_empty (set_attempted tx) N _ Ht).
  change (tx_pending (set_attempted tx)) with (tx_pending tx). case_decide; [|done]. step_res.
  case_decide; [|cbn [dq_Key]; rewrite Update_empty_key; step_res];
    (eexists _, _, _; (split; [reflexivity|]); by apply (tx_sees_step tx)).
Qed.

End tx.
