(* ===== verification/KVTXProps.v ===== *)
(** * Transactions see their own updates

    The properties of [Get], [Update] and [Del], and the isolation of a
    snapshot from commits. *)

From S2P Require Import Prelude.
From S2P Require Import GoBytes.
From S2P Require Import BNode.
From S2P Require Import KVSpec.
From S2P Require Import BSplitFacts.
From S2P Require Import BTree.
From S2P Require Import BTreeRep.
From S2P Require Import MemStore.
From S2P Require Import BTreeInsert.
From S2P Require Import BTreeMap.
From S2P Require Import Conflict.
From S2P Require Import Pager.
From S2P Require Import PagerFacts.
From S2P Require Import KV.
From S2P Require Import KVFacts.
From S2P Require Import KVCommit.
From S2P Require Import KVTX.
From S2P Require Import KVTXFacts.

Section props.
Context (depth : nat) (file : bytes) (h hp : nat) (Hd : (h < depth)%nat) (Hdp : (hp < depth)%nat).

(** C29.  A transaction reads its own writes over its snapshot.  For a key
    that is not empty, [Get] returns the value of the map that the transaction
    sees, whether the key was updated, deleted or left alone by it, and records
    the key as a dependency.  The empty key is in no map; [Get] finds it in the
    sentinel of the trees: it panics (the value there has no flag byte) as soon
    as there are pending updates, and before that it answers an empty value if
    the snapshot has a tree. *)
Theorem tx_Get_sees tx N r key :
  tx_sees file h hp tx N r ->
  (key <> [] -> exists tx', tx_Get depth file tx key = Ok (tx', N !! key) /\ depends tx tx' key /\
     tx_sees file h hp tx' N r) /\
  (key = [] -> tx_Get depth file tx key =
     if decide (bt_root (tx_pending tx) = 0)
     then Ok (set_reads tx (tx_reads tx ++ [mkKeyRange [] []]), if decide (tx_root tx = 0) then None else Some [])
     else Panic).
Proof using Hd Hdp.
  intros Ht. split; [|intros ->; exact (tx_Get_empty depth file h hp Hd Hdp tx N r Ht)]. intros Hk.
  eexists. split; [exact (tx_Get_ok depth file h hp Hd Hdp tx N r key Ht Hk)|]. split; [by repeat split|].
  destruct Ht as (kvs & P & Hs). by exists kvs, P.
Qed.

(** C30.  [Update] with a key that is not empty, where key and value are at
    most 277 bytes together: it does not panic; it fails exactly when an
    insert-only request meets an existing key, it changes nothing when an
    update-only request meets none or the value is already there, and
    otherwise the transaction sees the map with the pair inserted; the old
    value and the added flag of the request are right.  Its answer depends on
    the key only, which becomes a dependency.  With the empty key it never
    writes; but the error of the limits is returned only as long as there are
    no pending updates, afterwards the lookup of the old value panics. *)
Theorem tx_Update_sees tx N r req :
  tx_sees file h hp tx N (4 * hp + 5 + r) ->
  let old := N !! uq_Key req in
  let duplicate := (uq_Mode req =? MODE_INSERT_ONLY) && bool_decide (is_Some old) in
  let changed := negb duplicate && negb ((uq_Mode req =? MODE_UPDATE_ONLY) && bool_decide (old = None)) &&
                 bool_decide (old <> Some (uq_Val req)) in
  (uq_Key req <> [] -> small_kv (uq_Key req, FLAG_UPDATED :: uq_Val req) ->
   exists tx' req' hp',
    tx_Update depth file tx req =
      Ok (tx', req', (changed, if duplicate then Some "insert duplicate key"%string else None)) /\
    (if changed then uq_Old req' = default [] old /\ uq_Updated req' = true /\ uq_Added req' = bool_decide (old = None)
     else req' = req) /\
    (hp' <= S hp)%nat /\ depends tx tx' (uq_Key req) /\ tx_updateAttempted tx' = true /\
    tx_sees file h hp' tx' (if changed then <[uq_Key req := uq_Val req]> N else N) r) /\
  (uq_Key req = [] ->
   if decide (bt_root (tx_pending tx) = 0)
   then exists tx' req' err, tx_Update depth file tx req = Ok (tx', req', (false, err)) /\ tx_sees file h hp tx' N r
   else tx_Update depth file tx req = Panic).
Proof using Hd Hdp.
  intros Ht. split; [exact (tx_Update_ok depth file h hp Hd Hdp tx N r req Ht)|].
  exact (tx_Update_empty depth file h hp Hd Hdp tx N r req Ht).
Qed.

(** C31.  [Del] with a key of 1 to 277 bytes does not panic; it reports whether
    the transaction saw the key, hands out the value it had, and afterwards the
    transaction no longer sees the key, whether it came from the snapshot or
    from an update of the same transaction.  With the empty key it deletes
    nothing, and panics as soon as there are pending updates. *)
Theorem tx_Del_sees tx N r req :
  tx_sees file h hp tx N (4 * hp + 5 + r) ->
  let old := N !! dq_Key req in
  (dq_Key req <> [] -> small_kv (dq_Key req, [FLAG_DELETED]) ->
   exists tx' hp',
    tx_Del depth file tx req =
      Ok (tx', match old with Some v => mkDeleteReq (dq_Key req) v | None => req end,
          (bool_decide (is_Some old), None)) /\
    (hp' <= S hp)%nat /\ depends tx tx' (dq_Key req) /\ tx_updateAttempted tx' = true /\
    tx_sees file h hp' tx' (delete (dq_Key req) N) r) /\
  (dq_Key req = [] ->
   if decide (bt_root (tx_pending tx) = 0)
   then exists tx' req' err, tx_Del depth file tx req = Ok (tx', req', (false, err)) /\ tx_sees file h hp tx' N r
   else tx_Del depth file tx req = Panic).
Proof using Hd Hdp.
  intros Ht. split; [exact (tx_Del_ok depth file h hp Hd Hdp tx N r req Ht)|].
  exact (tx_Del_empty depth file h hp Hd Hdp tx N r req Ht).
Qed.

End props.

(** C32.  Snapshot isolation against the file: while a transaction runs,
    another commit may write the file, fail half way, or grow the mappings;
    as long as it has no pending update for a page of the snapshot's tree
    (freed pages that a reader needs are not reused), every lookup of the
    running transaction still answers from the map of its snapshot. *)
Theorem snapshot_survives_commit order (Horder : forall m, order m ≡ₚ map_to_list m)
    db meta ws tx total h m kvs :
  kv_ok db -> Forall (fun w => 0 <= w < 2 ^ 64) ws -> length ws = 7%nat -> meta = DB_SIG ++ words ws ->
  mapped 0 (tx_chunks tx) total -> tree_shape h m (tx_root tx) kvs -> sorted_kvs (with_sentinel kvs) ->
  (forall p page, m !! p = Some page ->
     1 <= p /\ kv_updates db !! p = None /\ mmapRead (kv_file db) p (tx_chunks tx) = Ok page) ->
  exists db' err, updateOrRevert order db meta = Ok (db', err) /\
    forall depth key, (h < depth)%nat -> key <> [] ->
      Get depth (snapshot (kv_file db') tx) key = Ok (kv_map kvs !! key).
Proof.
  intros Hok Hw Hl Hmeta Hmap Hsh Hs Hm.
  destruct (updateOrRevert_ok order Horder db meta ws Hok Hw Hl Hmeta) as (db' & err & E & _ & _ & Hk & _).
  exists db', err. split; [done|]. intros depth key Hd Hkey. rewrite kv_get_map.
  apply (Get_reads h); [|done|done]. exists m, ∅. split; [exact Hsh|]. split; [apply map_disjoint_empty_r|].
  split; [|exact Hs]. rewrite (right_id_L ∅ (∪)). intros p page Hp. destruct (Hm p page Hp) as (Hp1 & Hu & Hr).
  eapply keeps_read; [exact Hk|exact Hmap|exact Hmap|lia|lia| |exact Hr].
  intros [->|[c Hc]]; [lia|congruence].
Qed.

(** ** Concrete transactions *)

Definition key_a : bytes := bytes_of "a".
Definition val_1 : bytes := bytes_of "1".

(** A transaction on an empty database. *)
Definition tx_new : KVTX := snd (kv_Begin (kv_zero [] [])).

Lemma tx_new_reads : tree_reads 0 (snapshot [] tx_new) [].
Proof.
  exists ∅, ∅. split; [done|]. split; [apply map_disjoint_empty_r|]. split; [|by repeat constructor].
  by rewrite (left_id_L ∅ (∪)).
Qed.

Lemma tx_new_sees r : Z.of_nat r < 2 ^ 62 -> tx_sees [] 0 0 tx_new ∅ r.
Proof.
  intros Hr. exists [], ∅. split; [apply tx_new_reads|].
  split; [|split; [by apply map_Forall_empty|apply overlay_empty]].
  exists []. split; [|done]. exists ∅. split; [done|]. split; [done|]. split; [apply mem_ok_empty; lia|].
  split; by repeat constructor.
Qed.

Lemma small_a : small_kv (key_a, val_1) /\ small_kv (key_a, FLAG_UPDATED :: val_1) /\ small_kv (key_a, [FLAG_DELETED]).
Proof. unfold small_kv, SMALL_COST. cbn. lia. Qed.

(** After one key is set. *)
Lemma tx_one_sees r : Z.of_nat r < 2 ^ 61 ->
  exists tx hp, (hp <= 1)%nat /\ tx_sees [] 0 hp tx {[key_a := val_1]} r.
Proof.
  intros Hr. destruct (tx_new_sees (5 + r) ltac:(lia)) as (kvs & P & Hs & Hp & HP & HN).
  destruct (pending_Update 1 0 ltac:(lia) tx_new P key_a (FLAG_UPDATED :: val_1) r Hp ltac:(done)
    (proj1 (proj2 small_a))) as (t' & q & hp' & E & Hh & Ht).
  { intros HPk. assert (overlay (kv_map kvs) P !! key_a = None) as H0 by (rewrite HN; apply lookup_empty).
    rewrite lookup_overlay, HPk in H0. done. }
  exists (set_pending tx_new t'), hp'. split; [lia|]. exists kvs, (<[key_a := FLAG_UPDATED :: val_1]> P).
  split; [exact Hs|]. split; [exact Ht|]. split; [by apply flagged_set|]. rewrite overlay_set, HN. done.
Qed.

Example tx_Get_sees_witness :
  exists tx tx', tx_Get 2 [] tx key_a = Ok (tx', Some val_1).
Proof.
  destruct (tx_one_sees 0 ltac:(lia)) as (tx & hp & Hh & Ht).
  destruct (proj1 (tx_Get_sees 2 [] 0 hp ltac:(lia) ltac:(lia) tx _ 0 key_a Ht) ltac:(done)) as (tx' & E & _).
  exists tx, tx'. rewrite lookup_singleton_eq in E. exact E.
Defined.

Example tx_Update_sees_witness :
  exists tx' req' hp', tx_Update 1 [] tx_new (updateReq key_a val_1 MODE_UPSERT) = Ok (tx', req', (true, None)) /\
    tx_sees [] 0 hp' tx' {[key_a := val_1]} 0.
Proof.
  destruct (proj1 (tx_Update_sees 1 [] 0 0 ltac:(lia) ltac:(lia) tx_new ∅ 0 (updateReq key_a val_1 MODE_UPSERT)
    (tx_new_sees 5 ltac:(lia))) ltac:(done) (proj1 (proj2 small_a))) as
    (tx' & req' & hp' & E & _ & _ & _ & _ & Ht).
  exists tx', req', hp'. split; [exact E|exact Ht].
Defined.

Example tx_Del_sees_witness :
  exists tx tx' hp', tx_Del 2 [] tx (mkDeleteReq key_a []) = Ok (tx', mkDeleteReq key_a val_1, (true, None)) /\
    tx_sees [] 0 hp' tx' ∅ 0.
Proof.
  destruct (tx_one_sees 9 ltac:(lia)) as (tx & hp & Hh & Ht).
  assert (tx_sees [] 0 hp tx {[key_a := val_1]} (4 * hp + 5 + 0)) as Ht' by
    (apply (tx_sees_weaken [] 0 hp tx _ 9); [exact Ht|lia]).
  destruct (proj1 (tx_Del_sees 2 [] 0 hp ltac:(lia) ltac:(lia) tx _ 0 (mkDeleteReq key_a []) Ht') ltac:(done)
    (proj2 (proj2 small_a))) as (tx' & hp' & E & _ & _ & _ & Hs).
  exists tx, tx', hp'. cbn [dq_Key] in E, Hs. rewrite lookup_singleton_eq in E.
  split; [exact E|]. rewrite delete_singleton_eq in Hs. exact Hs.
Defined.

(** A file with a leaf as page 1, and a commit that fails after 7 bytes. *)
Example snapshot_survives_commit_witness :
  exists (leaf : bytes) db' err,
    let file := make BTREE_PAGE_SIZE ++ leaf in
    let db := mkKV 2 (mkPager file [mkChunk 0 (2 ^ 26)] 2 1 {[2 := make BTREE_PAGE_SIZE]}
                (mkFreeList 1 0 1 0 0 0 5)) (2 ^ 26) false (mkVersions 5 [4] []) [IoErr 7] in
    let tx := mkKVTX 1 [mkChunk 0 (2 ^ 26)] 4 (mkBTree 0 []) [] false false in
    updateOrRevert map_to_list db (DB_SIG ++ words [1; 2; 1; 0; 1; 0; 4]) = Ok (db', err) /\
    Get 1 (snapshot (kv_file db') tx) key_a = Ok (Some val_1).
Proof.
  destruct (first_root_ok key_a val_1 ltac:(done) (proj1 small_a)) as
    (_ & _ & leaf & _ & _ & _ & Hl & Hr).
  set (file := make BTREE_PAGE_SIZE ++ leaf).
  set (db := mkKV 2 (mkPager file [mkChunk 0 (2 ^ 26)] 2 1 {[2 := make BTREE_PAGE_SIZE]}
                (mkFreeList 1 0 1 0 0 0 5)) (2 ^ 26) false (mkVersions 5 [4] []) [IoErr 7]).
  set (tx := mkKVTX 1 [mkChunk 0 (2 ^ 26)] 4 (mkBTree 0 []) [] false false).
  assert (mapped 0 [mkChunk 0 (2 ^ 26)] (2 ^ 26)) as Hmap.
  { cbn. split_and!; try done. by exists (2 ^ 14). }
  assert (kv_ok db) as Hok.
  { split.
    - split; [exact Hmap|]. split; [by split|by exists (2 ^ 14)].
    - by repeat split.
    - intros p c. cbn. rewrite lookup_singleton_Some. intros [<- <-]. split; [done|]. vm_compute. reflexivity. }
  assert (tree_shape 0 (<[1 := leaf]> ∅) 1 [(key_a, val_1)]) as Hsh.
  { eapply root_shape; [lia|done|done|]. split_and!; [exact Hr|done|].
    exists ∅, ∅, [([], [])], [(key_a, val_1)]. split_and!; try done. by apply forest_single. }
  assert (len file = 8192) as Hf.
  { unfold file. rewrite len_app, Hl. unfold BTREE_PAGE_SIZE. rewrite len_make by lia. lia. }
  destruct (snapshot_survives_commit map_to_list ltac:(done) db _ [1; 2; 1; 0; 1; 0; 4] tx (2 ^ 26) 0 _ _
    Hok ltac:(repeat (apply Forall_cons; split; [lia|]); constructor) eq_refl eq_refl Hmap Hsh
    ltac:(by repeat constructor)) as (db' & err & E & H).
  - intros p page. rewrite insert_empty, lookup_singleton_Some. intros [<- <-]. split; [lia|]. split; [done|].
    rewrite (mmapRead_mapped _ 1 _ (2 ^ 26)) by (try done; unfold BTREE_PAGE_SIZE; lia).
    unfold BTREE_PAGE_SIZE in *. change (kv_file db) with file. rewrite slice_Ok by lia. f_equal. unfold read_at, file.
    change (Z.to_nat (4096 * 1)) with 4096%nat. rewrite drop_app_length' by done.
    apply take_ge. unfold len in Hl. lia.
  - exists leaf, db', err. split; [exact E|]. rewrite (H 1%nat key_a ltac:(lia) ltac:(done)). reflexivity.
Defined.
