(* ===== verification/Flush.v ===== *)
(** * The pages after a commit

    [flush_inv]: once the pending pages are in the file, the free list is the
    one it was in memory.  [db_holds]: what the database promises between
    operations. *)

From S2P Require Import Prelude.
From S2P Require Import GoBytes.
From S2P Require Import BNode.
From S2P Require Import KVSpec.
From S2P Require Import BSplitFacts.
From S2P Require Import BTree.
From S2P Require Import BTreeRep.
From S2P Require Import BTreeInsert.
From S2P Require Import MemStore.
From S2P Require Import BTreeMap.
From S2P Require Import Conflict.
From S2P Require Import Pager.
From S2P Require Import PagerFacts.
From S2P Require Import FreeListFacts.
From S2P Require Import FreeListOps.
From S2P Require Import PagerStore.
From S2P Require Import KV.
From S2P Require Import KVFacts.
From S2P Require Import KVCommit.
From S2P Require Import KVTX.
From S2P Require Import KVTXFacts.

(** ** The free list, in memory and in the file *)

Lemma zeros_combine n : le_combine (replicate n Byte.x00) = 0.
Proof. induction n as [|n IH]; [done|]. rewrite replicate_S. change (Z.lor 0 (Z.shiftl (le_combine (replicate n Byte.x00)) 8) = 0). by rewrite IH. Qed.

Lemma zero_field pos : (pos + 8 <= 4096)%nat -> le_combine (read_at (make BTREE_PAGE_SIZE) pos 8) = 0.
Proof.
  intros Hp. unfold read_at, make. rewrite drop_replicate, take_replicate. apply zeros_combine.
Qed.

(** An empty node has no items and no next node. *)
Lemma zero_node : lnode_next (make BTREE_PAGE_SIZE) = 0 /\
  forall i, (i < 255)%nat -> lnode_item (make BTREE_PAGE_SIZE) i = (0, 0).
Proof.
  split; [apply (zero_field 0); lia|]. intros i Hi. unfold lnode_item. rewrite !zero_field by lia. done.
Qed.

(** The state [db'] has the pages of [db] in the file, and the same list. *)
Record flush_of (db db' : Pager) : Prop := {
  fo_num : pg_flushed db' = bound db /\ pg_nappend db' = 0 /\ pg_updates db' = ∅;
  fo_list : fl_headPage (pg_free db') = fl_headPage (pg_free db) /\ fl_headSeq (pg_free db') = fl_headSeq (pg_free db) /\
    fl_tailPage (pg_free db') = fl_tailPage (pg_free db) /\ fl_tailSeq (pg_free db') = fl_tailSeq (pg_free db) /\
    0 <= fl_curVer (pg_free db') < 2 ^ 64;
  fo_max : fl_headSeq (pg_free db') <= fl_maxSeq (pg_free db') <= fl_tailSeq (pg_free db');
  fo_all : bound db <> 2 -> forall p, 0 < p < bound db -> exists c, mmapRead (pg_file db') p (pg_chunks db') = Ok c;
  fo_read : forall p c, 0 < p < bound db -> view db p = Some c ->
    (pg_flushed db = 2 -> p = 1 -> is_Some (pg_updates db !! p)) -> mmapRead (pg_file db') p (pg_chunks db') = Ok c
}.

(** A file of two pages: the list has one empty node. *)
Lemma two_pages db o chain items : fl_inv db o chain items -> bound db = 2 -> chain = [1] /\ items = [].
Proof.
  intros I Hb. pose proof (fi_num _ _ _ _ I) as [Hf Hn]. unfold bound in Hb.
  destruct (fi_new _ _ _ _ I ltac:(lia)) as [_ H1].
  pose proof (fi_nodup _ _ _ _ I) as Hnd. pose proof (fi_bound _ _ _ _ I) as Hbd. unfold bound in Hbd.
  assert (forall p, p ∈ owned chain items -> p = 1) as Hone by (intros p Hp%Hbd; lia).
  destruct chain as [|a [|b chain']]; [by apply not_elem_of_nil in H1| |].
  - rewrite (Hone a) in * by left. split; [done|]. destruct items as [|[q v] items']; [done|]. exfalso.
    cbn in Hnd. apply NoDup_cons in Hnd as [Hnd _]. apply Hnd. rewrite (Hone q) by (cbn; set_solver). left.
  - exfalso. cbn in Hnd. apply NoDup_cons in Hnd as [Hnd _]. apply Hnd.
    rewrite (Hone a), (Hone b) by (cbn; set_solver). left.
Qed.

Section flush.
Context (db db' : Pager) (o : nat) (chain : list Z) (items : list item).
Context (I : fl_inv db o chain items) (Hset : settled o chain items) (F : flush_of db db').

Lemma flush_bound : bound db' = bound db.
Proof using F. destruct F as [(E1 & E2 & _) _ _ _ _]. unfold bound at 1. lia. Qed.

Lemma flush_view p c : bound db <> 2 -> 0 < p < bound db -> view db p = Some c ->
  (pg_flushed db = 2 -> p = 1 -> is_Some (pg_updates db !! p)) -> view db' p = Some c.
Proof using F.
  intros Hb Hp Hv Hs. destruct F as [(E1 & _ & E3) _ _ _ Hr]. unfold view at 1. rewrite E3, lookup_empty, E1.
  rewrite (proj2 (Z.eqb_neq _ _)) by done. cbn [andb]. by rewrite (Hr p c Hp Hv Hs).
Qed.

(** The node that has not been written yet is empty. *)
Lemma flush_node n c : bound db <> 2 -> 0 < n < bound db -> view db n = Some c ->
  view db' n = Some c \/ c = make BTREE_PAGE_SIZE.
Proof using F.
  intros Hb Hn Hv. destruct (pg_updates db !! n) as [u|] eqn:Eu.
  { left. apply flush_view; [done..|]. intros _ _. rewrite Eu. by eexists. }
  destruct (decide (pg_flushed db = 2 /\ n = 1)) as [[E1 E2]|Hno].
  - right. unfold view in Hv. rewrite Eu, E1, E2 in Hv. cbn in Hv. by injection Hv as <-.
  - left. apply flush_view; [done..|]. intros E1 E2. by destruct Hno.
Qed.

Lemma flush_page p : bound db <> 2 -> 0 < p < bound db -> exists c, view db' p = Some c /\ len c = BTREE_PAGE_SIZE.
Proof using F.
  intros Hb Hp. destruct F as [(E1 & _ & E3) _ _ Ha _]. destruct (Ha Hb p Hp) as [c Hc]. exists c.
  unfold view. rewrite E3, lookup_empty, E1, (proj2 (Z.eqb_neq _ _)) by done. cbn [andb]. rewrite Hc.
  split; [done|]. by eapply mmapRead_len.
Qed.

Lemma flush_inv : fl_inv db' o chain items.
Proof using All.
  pose proof flush_bound as Hbd. pose proof F as [(E1 & E2 & E3) (L1 & L2 & L3 & L4 & L5) [M1 M2] _ _].
  pose proof zero_node as [Znext Zitem].
  assert (forall p, p ∈ chain -> p ∈ owned chain items) as Hc by (intros p Hp; apply elem_of_app; by left).
  assert (forall k e, items !! k = Some e -> 0 < e.1 < bound db) as Hit.
  { intros k e He. apply (fi_bound _ _ _ _ I), elem_of_app. right. apply list_elem_of_fmap_2. by eapply list_elem_of_lookup_2. }
  pose proof (fi_num _ _ _ _ I) as [Hn1 Hn2].
  pose proof (fi_bound _ _ _ _ I) as Hib. pose proof (fi_seq _ _ _ _ I) as Hseq.
  constructor; rewrite ?L1, ?L2, ?L3, ?L4, ?Hbd, ?E3.
  - apply I.
  - apply I.
  - apply I.
  - done.
  - pose proof (fi_max _ _ _ _ I). rewrite L2 in *. lia.
  - destruct Hset as [Hs _]. rewrite L4 in M2. unfold len in *. lia.
  - apply I.
  - intros k e j i Hk Hj Hi. destruct (decide (bound db = 2)) as [Hb|Hb].
    { destruct (two_pages _ _ _ _ I Hb) as [_ ->]. done. }
    destruct (fi_items _ _ _ _ I k e j i Hk Hj Hi) as (n & c & Hn & Hv & He). exists n, c.
    assert (0 < n < bound db) as Hnb by (apply Hib, Hc; by eapply list_elem_of_lookup_2).
    destruct (flush_node n c Hb Hnb Hv) as [|Ez]; [done|]. exfalso. specialize (Hit k e Hk).
    rewrite Ez, Zitem in He by done. subst e. cbn in Hit. lia.
  - intros j n n' Hn Hn'. destruct (decide (bound db = 2)) as [Hb|Hb].
    { destruct (two_pages _ _ _ _ I Hb) as [-> _]. by destruct j. }
    destruct (fi_links _ _ _ _ I j n n' Hn Hn') as (c & Hv & He). exists c.
    assert (0 < n < bound db) as Hnb by (apply Hib, Hc; by eapply list_elem_of_lookup_2).
    destruct (flush_node n c Hb Hnb Hv) as [|Ez]; [done|]. exfalso.
    assert (0 < n' < bound db) as Hnb' by (apply Hib, Hc; by eapply list_elem_of_lookup_2). rewrite Ez, Znext in He. lia.
  - intros n Hn. destruct (decide (bound db = 2)) as [Hb|Hb]; [|apply flush_page; [done|by apply Hib, Hc]].
    destruct (two_pages _ _ _ _ I Hb) as [-> _]. apply list_elem_of_singleton in Hn as ->. exists (make BTREE_PAGE_SIZE).
    unfold view. rewrite E3, lookup_empty, E1, Hb. split; [done|]. apply page_length, length_replicate.
  - apply I.
  - apply I.
  - exact L5.
  - intros k p v Hk _. split; [apply lookup_empty|]. destruct (decide (bound db = 2)) as [Hb|Hb].
    { destruct (two_pages _ _ _ _ I Hb) as [_ ->]. done. }
    apply flush_page; [done|]. exact (Hit k (p, v) Hk).
  - intros Hb. rewrite E1 in Hb. destruct (two_pages _ _ _ _ I Hb) as [-> ->]. split; [|left].
    rewrite L2, L4, Hseq in *. change (len []) with 0 in *. lia.
  - intros p c. rewrite lookup_empty. done.
  - rewrite E1, E2. unfold bound. lia.
  - rewrite E1. lia.
Qed.

(** The live pages are in the file. *)
Lemma flush_live m : live_ok db (owned chain items) m ->
  live_ok db' (owned chain items) m /\ forall p c, m !! p = Some c -> 0 < p /\ mmapRead (pg_file db') p (pg_chunks db') = Ok c.
Proof using I F Hset.
  intros Hl. pose proof F as [(E1 & _ & E3) _ _ _ Hr].
  assert (forall p c, m !! p = Some c -> ~ (pg_flushed db = 2 /\ p = 1)) as Hne.
  { intros p c Hp [E ->]. destruct (fi_new _ _ _ _ I E) as [_ H1]. destruct (Hl 1 c Hp) as (_ & Hn & _).
    apply Hn, elem_of_app. by left. }
  assert (forall p c, m !! p = Some c -> mmapRead (pg_file db') p (pg_chunks db') = Ok c) as Hread.
  { intros p c Hp. destruct (Hl p c Hp) as (Hv & _ & Hb). apply (Hr p c Hb Hv). intros H1 H2.
    exfalso. by apply (Hne p c Hp). }
  split.
  - intros p c Hp. destruct (Hl p c Hp) as (Hv & Hn & Hb). split; [|by rewrite flush_bound].
    unfold view. rewrite E3, lookup_empty, E1. rewrite (Hread p c Hp).
    destruct (Z.eqb_spec (bound db) 2) as [E|]; [|done]. destruct (Z.eqb_spec p 1) as [->|]; [|done]. exfalso.
    apply Hn, elem_of_app. left. destruct (two_pages _ _ _ _ I E) as [-> _]. left.
  - intros p c Hp. split; [|by apply Hread]. by destruct (Hl p c Hp) as (_ & _ & ? & _).
Qed.

End flush.

(** ** Between operations *)

(** The database is idle: nothing is pending, and the tree of the pairs [kvs]
    in the pages [m] is in the file, with room for [r] more requests. *)
Record db_state (db : KV) (h : nat) (kvs : list kv) (m : heap) (r : nat) : Prop := {
  ds_disk : disk_ok db;
  ds_idle : kv_updates db = ∅ /\ pg_nappend (kv_pages db) = 0;
  ds_vers : 0 <= vs_version (kv_vers db) < 2 ^ 64;
  ds_shape : tree_shape h m (kv_root db) kvs;
  ds_sorted : sorted_kvs (with_sentinel kvs);
  ds_small : Forall small_kv kvs;
  ds_pages : pager_ok (kv_pages db) m r;
  ds_bound : bound (kv_pages db) + 2 * Z.of_nat r < 2 ^ 48;
  ds_file : pg_flushed (kv_pages db) = 2 \/
    BTREE_PAGE_SIZE * pg_flushed (kv_pages db) <= len (kv_file db) /\
    BTREE_PAGE_SIZE * pg_flushed (kv_pages db) <= kv_total db
}.

(** The database holds the keys [M], in a tree of height [h]. *)
Definition db_holds (db : KV) (h : nat) (M : gmap bytes bytes) (r : nat) : Prop :=
  exists kvs m, db_state db h kvs m r /\ kv_map kvs = M.

(** A page that the mappings and the file cover can be read. *)
Lemma covered_read db p : disk_ok db -> 0 <= p -> BTREE_PAGE_SIZE * p + BTREE_PAGE_SIZE <= len (kv_file db) ->
  BTREE_PAGE_SIZE * p + BTREE_PAGE_SIZE <= kv_total db -> exists c, mmapRead (kv_file db) p (kv_chunks db) = Ok c.
Proof.
  intros [Hm _] Hp Hl Ht. rewrite (mmapRead_mapped _ p _ _ Hm Hp Ht). unfold BTREE_PAGE_SIZE in *.
  rewrite slice_Ok by lia. by eexists.
Qed.

(** A transaction that begins has no pending update. *)
Lemma pending_empty db M r : Z.of_nat r < 2 ^ 63 ->
  tree_models 0 ∅ (tx_pending (snd (kv_Begin db))) ∅ r /\ flagged ∅ /\ overlay M ∅ = M.
Proof.
  intros Hr. split; [|split; [by apply map_Forall_empty|apply overlay_empty]].
  exists []. split; [|done]. exists ∅. split; [done|]. split; [done|]. split; [by apply mem_ok_empty|].
  split; by repeat constructor.
Qed.

Section state.
Context (db : KV) (h : nat) (kvs : list kv) (m : heap) (r : nat) (S : db_state db h kvs m r).

Lemma state_weaken_room r' : (r' <= r)%nat -> db_state db h kvs m r'.
Proof using S.
  intros Hr. destruct S as [S1 S2 S3 S4 S5 S6 (o & chain & items & Hst) S8 S9]. constructor; auto; [|lia].
  exists o, chain, items. by eapply state_weaken.
Qed.

(** The pages of the tree are in the file. *)
Lemma state_read p c : m !! p = Some c -> 0 < p /\ mmapRead (kv_file db) p (kv_chunks db) = Ok c.
Proof using S.
  destruct S as [_ [Hu _] _ _ _ _ (o & chain & items & (I & _ & Hl & _)) _ _]. intros Hp.
  destruct (Hl p c Hp) as (Hv & Hn & Hb). split; [lia|]. unfold view in Hv. rewrite Hu, lookup_empty in Hv.
  destruct (Z.eqb_spec (pg_flushed (kv_pages db)) 2) as [E|]; cbn [andb] in Hv;
    [destruct (Z.eqb_spec p 1) as [->|]|]; try (by destruct (mmapRead _ _ _); congruence).
  exfalso. destruct (fi_new _ _ _ _ I E) as [_ H1]. apply Hn, elem_of_app. by left.
Qed.

(** A transaction that begins sees the keys of the database. *)
Lemma state_snapshot : tree_reads h (snapshot (kv_file db) (snd (kv_Begin db))) kvs.
Proof using S.
  exists m, ∅. split; [exact (ds_shape _ _ _ _ _ S)|]. split; [apply map_disjoint_empty_r|].
  rewrite (right_id_L ∅ (∪)). split; [|exact (ds_sorted _ _ _ _ _ S)]. intros p page Hp. by apply state_read.
Qed.

Lemma state_begin r' : Z.of_nat r' < 2 ^ 63 ->
  tx_sees (kv_file db) h 0 (snd (kv_Begin db)) (kv_map kvs) r'.
Proof using S. intros Hr. exists kvs, ∅. split; [exact state_snapshot|by apply pending_empty]. Qed.

(** Beginning a transaction leaves the data alone. *)
Lemma state_begun : db_state (fst (kv_Begin db)) h kvs m r.
Proof using S. by destruct S. Qed.

(** The words of the meta page fit. *)
Lemma state_words : words_ok db.
Proof using S.
  destruct S as [_ _ Hver Hsh _ _ (o & chain & items & (I & _ & Hl & Hroom)) Hb _].
  pose proof (fi_num _ _ _ _ I). pose proof (fi_max _ _ _ _ I). destruct Hroom as [_ Hroom].
  pose proof (chain_bound _ _ _ _ I _ (head_in _ _ _ _ I)). pose proof (chain_bound _ _ _ _ I _ (tail_in _ _ _ _ I)).
  assert (0 <= kv_root db < bound (kv_pages db)) as Hroot.
  { destruct (decide (kv_root db = 0)) as [->|Hne]; [unfold bound in *; lia|].
    destruct (shape_root _ _ _ _ Hne Hsh) as (page & mk & es & -> & _).
    destruct (Hl (kv_root db) page (lookup_insert_eq _ _ _)) as (_ & _ & ?). lia. }
  unfold words_ok, meta_words. unfold bound in *.
  repeat (apply Forall_cons; split; [lia|]). constructor.
Qed.

End state.

Lemma holds_begin db h M r r' : db_holds db h M r -> Z.of_nat r' < 2 ^ 63 ->
  tx_sees (kv_file db) h 0 (snd (kv_Begin db)) M r'.
Proof. intros (kvs & m & HS & <-) Hr. by eapply state_begin. Qed.

Lemma holds_weaken db h M r r' : db_holds db h M r -> (r' <= r)%nat -> db_holds db h M r'.
Proof. intros (kvs & m & HS & HM) Hr. exists kvs, m. split; [by eapply state_weaken_room|done]. Qed.

Lemma holds_begun db h M r : db_holds db h M r -> db_holds (fst (kv_Begin db)) h M r.
Proof. intros (kvs & m & HS & HM). exists kvs, m. split; [by apply state_begun|done]. Qed.

(** Without a root there are no keys. *)
Lemma holds_root db h M r : db_holds db h M r -> kv_root db = 0 -> M = ∅.
Proof.
  intros (kvs & m & HS & <-) H0. pose proof (ds_shape _ _ _ _ _ HS) as Hsh.
  rewrite H0 in Hsh. unfold tree_shape in Hsh. rewrite decide_True in Hsh by done. by destruct Hsh as [_ ->].
Qed.

(** ** After a commit *)

Lemma flushed_read db db' p c : disk_ok db' -> 0 <= p -> pages_flushed db db' -> kv_updates db !! p = Some c ->
  len c = BTREE_PAGE_SIZE -> mmapRead (kv_file db') p (kv_chunks db') = Ok c.
Proof.
  intros [Hm _] Hp (_ & _ & _ & _ & _ & _ & Hw) Hc Hlc. destruct (Hw p c Hc) as (Hb & Hl & Ht).
  rewrite (mmapRead_mapped _ p _ _ Hm Hp Ht). unfold BTREE_PAGE_SIZE in *. rewrite slice_Ok by lia.
  rewrite <- Hb. unfold page_bytes. by replace (Z.to_nat (4096 * p + 4096 - 4096 * p)) with 4096%nat by lia.
Qed.

Section flushed.
Context (db db' : KV) (o : nat) (chain : list Z) (items : list item) (m : heap) (r : nat).
Context (Hst : pager_state (kv_pages db) o chain items m r).
Context (Hcov : pg_flushed (kv_pages db) = 2 \/
  BTREE_PAGE_SIZE * pg_flushed (kv_pages db) <= len (kv_file db) /\
  BTREE_PAGE_SIZE * pg_flushed (kv_pages db) <= kv_total db).
Context (Hd : disk_ok db) (Hd' : disk_ok db') (Ht : kv_total db <= kv_total db').
Context (Hk : file_keeps (touched db) (kv_file db) (kv_file db')) (Hfl : pages_flushed db db').

(** The file and the mappings cover all pages. *)
Lemma flushed_covers : bound (kv_pages db) <> 2 ->
  BTREE_PAGE_SIZE * bound (kv_pages db) <= len (kv_file db') /\ BTREE_PAGE_SIZE * bound (kv_pages db) <= kv_total db'.
Proof using Hst Hcov Ht Hk Hfl.
  intros Hb. destruct Hst as (I & _). pose proof (fi_num _ _ _ _ I) as [Hn1 Hn2].
  destruct Hfl as (_ & _ & _ & _ & _ & _ & Hw). destruct Hk as [Hlen _].
  destruct (decide (pg_flushed (kv_pages db) = bound (kv_pages db))) as [E|E].
  - rewrite E in Hcov. unfold BTREE_PAGE_SIZE in *. destruct Hcov as [?|[? ?]]; [done|lia].
  - destruct (fi_app _ _ _ _ I (bound (kv_pages db) - 1)) as [c Hc]; [unfold bound in *; lia|].
    destruct (Hw _ c Hc) as (_ & H1 & H2). unfold BTREE_PAGE_SIZE in *. lia.
Qed.

Lemma flushed_of v : flush_of (kv_pages db) (SetMaxVer (kv_pages db') v).
Proof using Hst Hcov Hd Hd' Ht Hk Hfl.
  pose proof flushed_covers as Hc. destruct Hst as (I & _). pose proof (fi_max _ _ _ _ I) as Hmax.
  pose proof Hfl as (_ & _ & Hfree & H4 & H5 & H6 & _). constructor; cbn.
  - done.
  - rewrite Hfree. split_and!; try done; apply I.
  - rewrite Hfree. lia.
  - intros Hb p Hp. destruct (Hc Hb) as [H1 H2].
    apply covered_read; [done|lia|unfold BTREE_PAGE_SIZE in *; lia..].
  - intros p c Hp Hv Hs. destruct (kv_updates db !! p) as [u|] eqn:Eu.
    + pose proof (fi_upd _ _ _ _ I p u Eu) as [_ Hlu]. unfold view in Hv. rewrite Eu in Hv. injection Hv as <-.
      eapply flushed_read; [done|lia|done|done|done].
    + unfold view in Hv. rewrite Eu in Hv.
      assert ((pg_flushed (kv_pages db) =? 2) && (p =? 1) = false) as Ef.
      { destruct (Z.eqb_spec (pg_flushed (kv_pages db)) 2), (Z.eqb_spec p 1); try done.
        destruct (Hs ltac:(done) ltac:(done)); congruence. }
      rewrite Ef in Hv. destruct (mmapRead _ _ _) as [c'| |] eqn:Er; try done. injection Hv as ->.
      eapply keeps_read; [exact Hk|apply Hd|apply Hd'|done|lia| |exact Er].
      intros [->|[u Hu]]; [lia|congruence].
Qed.

(** The database is idle again, once the list is released. *)
Lemma flushed_state h kvs vers v :
  tree_shape h m (kv_root db) kvs -> sorted_kvs (with_sentinel kvs) -> Forall small_kv kvs ->
  bound (kv_pages db) + 2 * Z.of_nat r < 2 ^ 48 -> 0 <= vs_version vers < 2 ^ 64 ->
  db_state (set_pages (set_vers db' vers) (SetMaxVer (kv_pages db') v)) h kvs m r.
Proof using Hst Hcov Hd Hd' Ht Hk Hfl.
  intros Hsh Hs Hsm Hb Hv. pose proof (flushed_of v) as F. pose proof flushed_covers as Hc.
  destruct Hst as (I & Hset & Hl & [Hr1 Hr2]). pose proof Hfl as (H1 & _ & Hfree & H4 & H5 & H6 & _).
  pose proof (flush_bound _ _ F) as Hbd.
  constructor; cbn; [done|done|done|by rewrite H1|done|done| |by rewrite Hbd|].
  - exists o, chain, items. split; [by eapply flush_inv|]. split; [done|]. split; [by eapply flush_live|].
    split; [by rewrite Hbd|]. cbn. by rewrite Hfree.
  - rewrite H4. destruct (decide (bound (kv_pages db) = 2)) as [|Hne]; [by left|right; by apply Hc].
Qed.

End flushed.

(** An idle database is flushed already. *)
Lemma idle_flushed db : kv_updates db = ∅ -> pg_nappend (kv_pages db) = 0 -> pages_flushed db db.
Proof.
  intros Hu Hn. unfold pages_flushed, bound. rewrite Hu, Hn, Z.add_0_r. split_and!; try done.
Qed.

(** Releasing the list at any version keeps what the database holds. *)
Lemma holds_release db h M r vers v : db_holds db h M r -> 0 <= vs_version vers < 2 ^ 64 ->
  db_holds (set_pages (set_vers db vers) (SetMaxVer (kv_pages db) v)) h M r.
Proof.
  intros (kvs & m & [S1 [S2 S2'] S3 S4 S5 S6 (o & chain & items & Hst) S8 S9] & HM) Hv. exists kvs, m. split; [|done].
  eapply flushed_state; try done. by apply idle_flushed.
Qed.
