(* ===== verification/Reopen.v ===== *)
(** * Opening the file again

    What [Open] makes of a file whose meta page was saved by a commit: a
    database that holds the same keys. *)

From S2P Require Import Prelude.
From S2P Require Import GoBytes.
From S2P Require Import BNode.
From S2P Require Import KVSpec.
From S2P Require Import BTree.
From S2P Require Import BTreeRep.
From S2P Require Import BTreeInsert.
From S2P Require Import BTreeMap.
From S2P Require Import Conflict.
From S2P Require Import Pager.
From S2P Require Import PagerFacts.
From S2P Require Import FreeListFacts.
From S2P Require Import FreeListOps.
From S2P Require Import PagerStore.
From S2P Require Import KV.
From S2P Require Import KVFacts.
From S2P Require Import KVCommit.
From S2P Require Import Flush.

(** The numbers of a state with a tree. *)
Lemma state_numbers db h kvs m r : db_state db h kvs m r -> kv_root db <> 0 ->
  let fl := pg_free (kv_pages db) in
  0 < kv_root db < pg_flushed (kv_pages db) /\ 0 < fl_headPage fl < pg_flushed (kv_pages db) /\
  0 < fl_tailPage fl < pg_flushed (kv_pages db) /\ 2 < pg_flushed (kv_pages db) /\
  BTREE_PAGE_SIZE * pg_flushed (kv_pages db) <= len (kv_file db) /\
  BTREE_PAGE_SIZE * pg_flushed (kv_pages db) <= kv_total db.
Proof.
  intros [_ [_ Hn] _ Hsh _ _ (o & chain & items & (I & _ & Hl & _)) _ Hc] Hroot fl.
  pose proof (chain_bound _ _ _ _ I _ (head_in _ _ _ _ I)) as Hh. pose proof (chain_bound _ _ _ _ I _ (tail_in _ _ _ _ I)) as Ht.
  destruct (shape_root _ _ _ _ Hroot Hsh) as (page & mk & es & -> & _).
  destruct (Hl (kv_root db) page (lookup_insert_eq _ _ _)) as (_ & Hno & Hb). unfold bound in *. rewrite Hn in *.
  pose proof (fi_num _ _ _ _ I) as [Hf _].
  assert (pg_flushed (kv_pages db) <> 2) as Hne.
  { intros E. destruct (fi_new _ _ _ _ I E) as [_ H1]. apply Hno, elem_of_app. left.
    by assert (kv_root db = 1) as -> by lia. }
  destruct Hc as [|[Hc1 Hc2]]; [done|]. subst fl. split_and!; lia.
Qed.

(** The database after the meta page is loaded into an empty one. *)
Definition reopened (db db1 : KV) : KV :=
  let fl := pg_free (kv_pages db) in
  mkKV (kv_root db)
    (mkPager (kv_file db1) (kv_chunks db1) (pg_flushed (kv_pages db)) 0 ∅
       (mkFreeList (fl_headPage fl) (fl_headSeq fl) (fl_tailPage fl) (fl_tailSeq fl) (fl_tailSeq fl)
          (vs_version (kv_vers db)) 0))
    (kv_total db1) false (mkVersions (vs_version (kv_vers db)) [] []) (kv_io db1).

Lemma reopened_state db db1 h kvs m r :
  db_state db h kvs m r -> kv_root db <> 0 -> disk_ok db1 -> kv_file db1 = kv_file db -> len (kv_file db) <= kv_total db1 ->
  db_state (reopened db db1) h kvs m r.
Proof.
  intros HS Hroot Hd1 Ef Ht. destruct (state_numbers _ _ _ _ _ HS Hroot) as (_ & _ & _ & Hf & Hc1 & Hc2).
  destruct HS as [Hd [Hu Hn] Hv Hsh Hs Hsm (o & chain & items & (I & Hset & Hl & Hroom)) Hb _].
  pose proof (fi_max _ _ _ _ I) as Hmax.
  assert (bound (kv_pages db) = pg_flushed (kv_pages db)) as Hbd by (unfold bound; lia).
  assert (forall p, 0 < p < bound (kv_pages db) ->
    mmapRead (kv_file db1) p (kv_chunks db1) = mmapRead (kv_file db) p (kv_chunks db)) as Hsame.
  { intros p Hp. destruct Hd as [Hm _], Hd1 as [Hm1 _]. rewrite Ef. unfold BTREE_PAGE_SIZE in *.
    rewrite (mmapRead_mapped _ p _ _ Hm), (mmapRead_mapped _ p _ _ Hm1); unfold BTREE_PAGE_SIZE; try lia. done. }
  assert (flush_of (kv_pages db) (kv_pages (reopened db db1))) as F.
  { constructor; cbn -[mmapRead]; try done.
    - lia.
    - intros _ p Hp. unfold BTREE_PAGE_SIZE in *.
      destruct (covered_read db p Hd) as [c Hc]; [lia|unfold BTREE_PAGE_SIZE; lia..|].
      exists c. by rewrite Hsame.
    - intros p c Hp Hvw _. rewrite Hsame by done. unfold view in Hvw. rewrite Hu, lookup_empty in Hvw.
      rewrite (proj2 (Z.eqb_neq _ _)) in Hvw by lia. cbn [andb] in Hvw. destruct (mmapRead _ _ _); congruence. }
  constructor; try done.
  - exists o, chain, items. split; [by eapply flush_inv|]. split; [done|]. split; [by eapply flush_live|].
    unfold fl_room in *. rewrite (flush_bound _ _ F). exact Hroom.
  - by rewrite (flush_bound _ _ F).
  - right. cbn. rewrite Ef. unfold BTREE_PAGE_SIZE in *. lia.
Qed.

(** Reading the meta page that was saved. *)
Lemma readRoot_ok db db1 h kvs m r :
  db_state db h kvs m r -> durable db -> kv_root db <> 0 -> disk_ok db1 -> same_mem (kv_zero (kv_file db) []) db1 ->
  kv_file db1 = kv_file db -> len (kv_file db) <= kv_total db1 ->
  readRoot db1 (len (kv_file db)) = Ok (reopened db db1, None).
Proof.
  intros HS (_ & [[k Hk] _] & Hmeta) Hroot (Hm1 & Htot & _) (M1 & M2 & M3 & M4 & M5 & M6 & M7) Ef Ht.
  destruct (state_numbers _ _ _ _ _ HS Hroot) as (Hr & Hh & Htl & Hf & Hc & _).
  pose proof (state_words _ _ _ _ _ HS) as Hw. unfold BTREE_PAGE_SIZE in *.
  unfold readRoot. rewrite (proj2 (Z.eqb_neq _ _)) by lia. unfold BTREE_PAGE_SIZE.
  rewrite Z.rem_mod_nonneg, Hk, Z_mod_mult by lia. cbn [Z.eqb negb].
  destruct (kv_chunks db1) as [|c chunks] eqn:Ech; [cbn in Hm1; lia|]. destruct Hm1 as (Hoff & _).
  change (index (c :: chunks) 0) with (Ok c). step_res. rewrite Hoff, Ef.
  assert (slice (kv_file db) 0 (0 + 72) = Ok (read_at (kv_file db) 0 72)) as -> by (rewrite slice_Ok by lia; done).
  step_res.
  specialize (Hmeta Hroot). unfold meta_saved in Hmeta. rewrite saveMeta_layout in Hmeta. apply Ok_inj in Hmeta.
  rewrite <- Hmeta. unfold meta_words in *. rewrite loadMeta_layout by exact Hw. step_res.
  set (ws := [_; _; _; _; _; _; _]) in *.
  assert (slice (DB_SIG ++ words ws) 0 16 = Ok DB_SIG) as ->.
  { rewrite slice_Ok; [|lia|rewrite len_app, len_words; change (len DB_SIG) with 16; change (len ws) with 7; lia].
    change (Ok (take 16 (DB_SIG ++ words ws)) = Ok DB_SIG). by rewrite take_app_length' by done. }
  step_res.
  unfold bytes_equal. rewrite bool_decide_true by done. cbn.
  rewrite Z.quot_mul by lia. rewrite u64_small by lia.
  repeat rewrite (proj2 (Z.ltb_lt _ _)) by lia. rewrite (proj2 (Z.leb_le _ _)) by lia. cbn.
  unfold reopened, set_version, set_vers, set_pages, set_root, set_free. cbn. cbn in M1, M2, M3, M4, M5, M6, M7.
  rewrite M2, M3, M5, M6, M7, Ech. done.
Qed.

(** Opening a file that holds all of [db]. *)
Lemma Open_ok db h M r io :
  db_holds db h M r -> durable db -> kv_root db <> 0 -> io = [] ->
  exists db', Open (kv_file db) io = Ok (db', None) /\ db_holds db' h M r /\ meta_words db' = meta_words db.
Proof.
  intros (kvs & m & HS & HM) Hdur Hroot ->. unfold Open. pose proof Hdur as (_ & [_ Hlen] & _).
  destruct (extendMmap_ok (kv_zero (kv_file db) []) (len (kv_file db))) as (db1 & err & E & Hm1 & Hd1 & Ht1 & Ef1 & He1).
  { split; [done|]. split; [by split|]. by exists 0. }
  { done. }
  assert (err = None) as ->.
  { unfold extendMmap in E. destruct (_ <=? _); [by injection E as _ <-|].
    apply res_bind_Ok in E as (a & _ & E). by injection E as _ <-. }
  rewrite E. step_res.
  rewrite (readRoot_ok db db1 h kvs m r HS Hdur Hroot); [|done|done|done|by apply He1]. step_res.
  eexists. split; [reflexivity|]. split; [|done]. exists kvs, m. split; [|done].
  apply reopened_state; try done. by apply He1.
Qed.

(** A file that [Open] refuses: its size is not a number of pages, or its first
    bytes are not the signature. *)
Lemma Open_refuses file : 0 < len file <= 2 ^ 60 ->
  ~ (BTREE_PAGE_SIZE | len file) \/ take 16 file <> DB_SIG ->
  exists db e, Open file [] = Ok (db, Some e).
Proof.
  intros Hl Hbad. unfold Open.
  destruct (extendMmap_ok (kv_zero file []) (len file)) as (db1 & err & E & _ & (Hm & _) & _ & Ef & He & _); [|lia|].
  { split; [done|]. split; [by split|]. by exists 0. }
  rewrite E. step_res. destruct err as [e|]; [by eexists _, _|]. specialize (He eq_refl). change (kv_file (kv_zero file [])) with file in Ef.
  unfold readRoot. rewrite (proj2 (Z.eqb_neq _ _)) by lia. destruct (Z.eqb_spec (Z.rem (len file) BTREE_PAGE_SIZE) 0) as [Hrem|Hrem].
  2:{ step_res. by eexists _, _. }
  cbn [negb]. assert (BTREE_PAGE_SIZE | len file) as [k Hk] by (apply Z.rem_divide; [done|exact Hrem]).
  destruct Hbad as [Hbad|Hsig]; [destruct Hbad; by exists k|].
  destruct (kv_chunks db1) as [|c chunks] eqn:Ech; [cbn in Hm; lia|]. destruct Hm as (Hoff & _).
  change (index (c :: chunks) 0) with (Ok c). step_res. rewrite Hoff, Ef. unfold BTREE_PAGE_SIZE in Hk.
  assert (slice file 0 (0 + 72) = Ok (read_at file 0 72)) as -> by (rewrite slice_Ok by lia; done). step_res.
  set (data := read_at file 0 72). assert (len data = 72) as Hld by (unfold data, len in *; rewrite length_read_at; lia).
  assert (exists db2, loadMeta db1 data = Ok db2) as [db2 ->].
  { unfold loadMeta. assert (forall i, 0 <= i <= 64 -> exists w, meta_get data i = Ok w) as Hw.
    { intros i Hi. unfold meta_get. change 8 with (Z.of_nat 8) at 1. rewrite le_get_slice by lia. by eexists. }
    repeat match goal with |- context [meta_get data ?i] =>
      let w := fresh "w" in destruct (Hw i ltac:(lia)) as [w ->]; step_res end. by eexists. }
  step_res. rewrite (slice_Ok data) by lia. step_res. unfold bytes_equal.
  rewrite bool_decide_false.
  2:{ intros Heq. apply Hsig. rewrite Heq. unfold data, read_at. by rewrite !drop_0, take_take. }
  cbn [negb orb]. step_res. by eexists _, _.
Qed.
