(* ===== verification/Crash.v ===== *)
(** * What a failed commit leaves in the file

    A write that fails may have changed some of its bytes.  [torn]: whatever
    the outcomes of the system calls, each byte of the file is the one before
    the commit or the one that the commit wrote there.  The pages of the tree
    before are not written, and the nodes of the free list are written only
    where they held nothing, so the state before the commit is still in the
    file: [failed_state]. *)

From S2P Require Import Prelude.
From S2P Require Import GoBytes.
From S2P Require Import BNode.
From S2P Require Import KVSpec.
From S2P Require Import BTree.
From S2P Require Import BTreeRep.
From S2P Require Import BTreeInsert.
From S2P Require Import BTreeMap.
From S2P Require Import Conflict.
From S2P Require Import Pager.
From S2P Require Import PagerFacts.
From S2P Require Import FreeListFacts.
From S2P Require Import FreeListOps.
From S2P Require Import PagerStore.
From S2P Require Import KV.
From S2P Require Import KVFacts.
From S2P Require Import KVCommit.
From S2P Require Import Flush.

(** ** Bytes *)

Lemma file_write_lookup file off data k : (k < length file)%nat ->
  file_write file off data !! k = if decide (off <= k < off + length data)%nat then data !! (k - off)%nat else file !! k.
Proof.
  intros Hk. destruct data as [|b data]; [cbn [file_write length]; rewrite decide_False by lia; done|].
  unfold file_write, write_at. set (d := b :: data). set (f := file ++ _).
  assert (f !! k = file !! k) as <- by by apply lookup_app_l.
  assert (off + length d <= length f)%nat as Hf by (unfold f; rewrite length_app, length_replicate; lia).
  case_decide as Hc.
  - rewrite lookup_app_r by (rewrite length_take; lia). rewrite length_take.
    rewrite lookup_app_l by lia. f_equal. lia.
  - destruct (decide (k < off)%nat) as [Hlt|Hge].
    + rewrite lookup_app_l by (rewrite length_take; lia). by apply lookup_take_lt.
    + rewrite lookup_app_r by (rewrite length_take; lia). rewrite length_take.
      rewrite lookup_app_r by lia. rewrite lookup_drop. f_equal. lia.
Qed.

(** Each byte is an old one or the one of the pending page. *)
Definition torn (u : gmap Z bytes) (f f' : bytes) : Prop :=
  (length f <= length f')%nat /\
  forall p k, 0 <= p -> BTREE_PAGE_SIZE * p <= Z.of_nat k < BTREE_PAGE_SIZE * p + BTREE_PAGE_SIZE -> (k < length f)%nat ->
    f' !! k = f !! k \/ exists c, u !! p = Some c /\ f' !! k = c !! (k - Z.to_nat (BTREE_PAGE_SIZE * p))%nat.

Lemma torn_refl u f : torn u f f.
Proof. split; [done|]. by left. Qed.

Lemma torn_mono u u' f f' : u ⊆ u' -> torn u f f' -> torn u' f f'.
Proof.
  intros Hu [Hl H]. split; [done|]. intros p k Hp Hr Hk. destruct (H p k Hp Hr Hk) as [|(c & Hc & E)]; [by left|right].
  exists c. split; [|done]. by eapply lookup_weaken.
Qed.

(** One more write, which may be cut short. *)
Lemma torn_write u f f' q c n : torn u f f' -> u !! q = Some c -> 0 <= q -> len c <= BTREE_PAGE_SIZE ->
  torn u f (file_write f' (Z.to_nat (BTREE_PAGE_SIZE * q)) (take n c)).
Proof.
  intros [Hl H] Hq Hq0 Hlc. pose proof (file_write_grows f' (Z.to_nat (BTREE_PAGE_SIZE * q)) (take n c)) as Hg.
  split; [lia|]. intros p k Hp Hr Hk. rewrite file_write_lookup by lia. case_decide as Hc; [|by apply H].
  right. exists c. rewrite length_take in Hc. unfold BTREE_PAGE_SIZE, len in *.
  assert (p = q) as -> by lia. split; [done|]. apply lookup_take_lt. lia.
Qed.

(** ** System calls *)

(** A sector reaches the disk as a whole: what a failed write has written is a
    multiple of 512 bytes. *)
Definition whole_sectors (o : outcome) : Prop :=
  match o with IoOk => True | IoErr n | IoShort n => (512 | Z.of_nat n) end.

Abbreviation sectors db := (Forall whole_sectors (kv_io db)).

Lemma next_io_sectors db db' o : next_io db = (db', o) -> sectors db -> sectors db' /\ whole_sectors o.
Proof.
  unfold next_io. destruct (kv_io db) as [|o' io] eqn:E; intros [= <- <-] Hs; [by rewrite E|].
  apply Forall_cons in Hs as [? ?]. by split.
Qed.

Lemma Pwrite_shape db data off db' err : 0 <= off -> Pwrite db data off = (db', err) ->
  exists n, kv_file db' = file_write (kv_file db) (Z.to_nat off) (take n data) /\
    (sectors db -> sectors db' /\ (n = 0%nat \/ (512 <= n)%nat \/ (length data <= n)%nat)).
Proof.
  intros Ho. unfold Pwrite. rewrite (proj2 (Z.ltb_ge _ _)) by done. destruct (next_io db) as [db1 o] eqn:E.
  assert (kv_file db1 = kv_file db) as Ef by (unfold next_io in E; destruct (kv_io db); by injection E as <- _).
  destruct o as [|n|n]; intros [= <- <-]; cbn; rewrite Ef.
  1: exists (length data); rewrite take_ge by lia; split; [done|]; intros Hs;
    destruct (next_io_sectors _ _ _ E Hs); split; [done|lia].
  all: exists n; split; [done|]; intros Hs; destruct (next_io_sectors _ _ _ E Hs) as [Hs' [k Hk]]; split; [done|lia].
Qed.

Lemma Fsync_shape db db' err : Fsync db = (db', err) -> kv_file db' = kv_file db /\ (sectors db -> sectors db').
Proof.
  unfold Fsync. destruct (next_io db) as [db1 o] eqn:E. intros [= <- _].
  split; [unfold next_io in E; destruct (kv_io db); by injection E as <- _|]. intros Hs. by destruct (next_io_sectors _ _ _ E Hs).
Qed.

Lemma extendMmap_shape db size db' err : extendMmap db size = Ok (db', err) -> sectors db -> sectors db'.
Proof.
  unfold extendMmap. destruct (_ <=? _); [by intros [= <- _]|]. intros (a & _ & E)%res_bind_Ok.
  destruct (next_io db) as [db1 o] eqn:En. intros Hs. destruct (next_io_sectors _ _ _ En Hs).
  destruct o; by injection E as <- _.
Qed.

(** ** Writing the pages *)

Lemma write_pages_torn u f db l db' err : write_pages_loop db l = (db', err) -> Forall page_ok l ->
  (forall p c, (p, c) ∈ l -> u !! p = Some c) -> torn u f (kv_file db) -> torn u f (kv_file db') /\ (sectors db -> sectors db').
Proof.
  intros E Hl. revert db E. induction Hl as [|[p c] l [Hp Hc] _ IH]; intros db E Hu Ht; cbn [write_pages_loop] in E.
  { by injection E as <- _. }
  cbn [fst snd] in Hp, Hc.
  assert (i64 (u64 (p * BTREE_PAGE_SIZE)) = BTREE_PAGE_SIZE * p) as Eo.
  { unfold BTREE_PAGE_SIZE in *. rewrite u64_small, i64_small by lia. lia. }
  rewrite Eo in E. destruct (Pwrite db c (BTREE_PAGE_SIZE * p)) as [db1 e1] eqn:Ew.
  apply Pwrite_shape in Ew as (n & Ef & Hs); [|unfold BTREE_PAGE_SIZE; lia].
  assert (torn u f (kv_file db1)) as Ht1.
  { rewrite Ef. apply torn_write; [done|apply Hu; left|lia|lia]. }
  destruct e1 as [e|]; [injection E as <- _; split; [done|]; intros H; by apply Hs|].
  destruct (IH db1 E) as [H1 H2]; [intros q cq Hq; apply Hu; by right|done|]. split; [done|].
  intros H. by apply H2, Hs.
Qed.

Section order.
Context (order : gmap Z bytes -> list (Z * bytes)) (Horder : forall m, order m ≡ₚ map_to_list m).

Lemma writePages_torn db db' err : kv_ok db -> writePages order db = Ok (db', err) ->
  torn (kv_updates db) (kv_file db) (kv_file db') /\ (sectors db -> sectors db').
Proof using Horder.
  intros Hok. unfold writePages. intros ([db1 e1] & Ee & E)%res_bind_Ok.
  pose proof (extendMmap_shape _ _ _ _ Ee) as Hs1. destruct (extendMmap_file _ _ _ _ Ee) as (Ef & Hu & _).
  destruct e1 as [e|]; [injection E as <- _; rewrite Ef; split; [apply torn_refl|done]|].
  destruct (write_pages_loop db1 _) as [db2 e2] eqn:Ew.
  destruct (write_pages_torn (kv_updates db) (kv_file db) _ _ _ _ Ew) as [Ht Hs2].
  - apply Forall_forall. intros [p c]. rewrite Horder, elem_of_map_to_list, Hu. intros Hp.
    destruct (ko_updates _ Hok p c Hp) as [Hpb Hlc]. destruct (ko_num _ Hok) as (_ & _ & Hb). split; cbn; [lia|done].
  - intros p c. by rewrite Horder, elem_of_map_to_list, Hu.
  - rewrite Ef. apply torn_refl.
  - destruct e2; injection E as <- _; (split; [exact Ht|]); intros H; by apply Hs2, Hs1.
Qed.

(** The state of the pages and the meta page of a commit, all in the file. *)
Definition all_written (db dbN : KV) : Prop :=
  pages_flushed db dbN /\ meta_saved dbN /\ disk_ok dbN /\ kv_total db <= kv_total dbN /\
  file_keeps (touched db) (kv_file db) (kv_file dbN).

(** The page of the new meta data. *)
Definition new_meta (db : KV) : gmap Z bytes := <[0 := DB_SIG ++ words (meta_words (mkKV (kv_root db)
  (mkPager [] [] (bound (kv_pages db)) 0 ∅ (pg_free (kv_pages db))) 0 false (kv_vers db) []))]> (kv_updates db).

(** The file after [updateFile]: torn pages; but the meta page is the old one
    as long as not everything else has been written. *)
Lemma updateFile_torn db db' err : kv_ok db -> full_writes db -> updateFile order db = Ok (db', err) ->
  torn (new_meta db) (kv_file db) (kv_file db') /\
  (sectors db -> torn (kv_updates db) (kv_file db) (kv_file db') \/
     exists dbN, kv_file dbN = kv_file db' /\ all_written db dbN).
Proof using Horder.
  intros Hok Hfull. unfold updateFile. intros ([dw ew] & Ew & E)%res_bind_Ok.
  destruct (writePages_torn _ _ _ Hok Ew) as [Htw Hsw].
  assert (kv_updates db ⊆ new_meta db) as Hsub.
  { apply insert_subseteq. destruct (kv_updates db !! 0) as [c|] eqn:E0; [|done]. apply (ko_updates _ Hok) in E0. lia. }
  assert (forall dbX, kv_file dbX = kv_file dw -> torn (new_meta db) (kv_file db) (kv_file dbX) /\
    (sectors db -> torn (kv_updates db) (kv_file db) (kv_file dbX) \/ exists dbN, kv_file dbN = kv_file dbX /\ all_written db dbN)) as Hold.
  { intros dbX ->. split; [by eapply torn_mono|]. intros _. by left. }
  destruct ew as [e|]; [injection E as <- _; by apply Hold|].
  unfold and_then in E at 1. cbn [snd fst] in E. destruct (Fsync dw) as [ds es] eqn:Es.
  destruct (Fsync_shape _ _ _ Es) as [Efs Hss].
  destruct es as [e|]; unfold and_then in E at 1; cbn [snd fst] in E; [injection E as <- _; by apply Hold|].
  destruct (writePages_ok order Horder db Hok) as (dw' & ew' & Ew' & Hdw & Htw' & _ & _ & _ & Hkw & Hfl).
  rewrite Ew in Ew'. injection Ew' as <- <-. destruct (Hfl Hfull) as [_ Hfl']. clear Hfl. pose proof (Hfl' eq_refl) as Hfl.
  destruct (Fsync_ok dw Hdw) as (ds' & es' & Es' & Hms & Hds & Hts & Hcs & _ & _). rewrite Es in Es'. injection Es' as <- <-.
  unfold updateRoot in E. rewrite saveMeta_layout, bind_Ok in E.
  set (meta := DB_SIG ++ words (meta_words ds)) in *.
  assert (len meta = 72) as Hlm by (unfold meta; rewrite len_app, len_words; reflexivity).
  destruct (Pwrite ds meta 0) as [dp ep] eqn:Ep.
  assert (new_meta db !! 0 = Some meta) as Hnm.
  { unfold new_meta. rewrite lookup_insert_eq. f_equal. unfold meta. do 2 f_equal.
    destruct Hfl as (H1 & H2 & H3 & H4 & _). destruct Hms as (M1 & _ & M3 & M4 & _ & _ & M7).
    unfold meta_words. cbn. by rewrite M1, M3, M4, M7, H1, H2, H3, H4. }
  pose proof (Pwrite_shape ds meta 0 dp ep ltac:(done) Ep) as (n & Efp & Hsp).
  assert (torn (new_meta db) (kv_file db) (kv_file dp)) as Htp.
  { rewrite Efp. apply (torn_write (new_meta db) (kv_file db) (kv_file ds) 0 meta n); [|done|done|unfold BTREE_PAGE_SIZE; lia].
    rewrite Efs. by eapply torn_mono. }
  destruct (Pwrite_meta ds meta Hds Hlm) as (dp' & ep' & Ep' & Hmp & Hdp & Htp' & Hkp & _). rewrite Ep in Ep'. injection Ep' as <- <-.
  assert (forall dbX, kv_file dbX = kv_file dp -> torn (new_meta db) (kv_file db) (kv_file dbX) /\
    (sectors db -> torn (kv_updates db) (kv_file db) (kv_file dbX) \/ exists dbN, kv_file dbN = kv_file dbX /\ all_written db dbN)) as Hnew.
  { intros dbX EX. rewrite EX. split; [done|]. intros Hs. destruct (Hsp (Hss (Hsw Hs))) as [_ Hn].
    destruct (decide (n = 0%nat)) as [->|Hn0].
    - left. rewrite Efp, take_0. cbn. by rewrite Efs.
    - right. exists dp. split; [done|]. assert (same_mem dw dp) as Hm by by eapply same_mem_trans.
      assert (forall p c, kv_updates db !! p = Some c -> 1 <= p) as Hpos.
      { intros p c Hpc. apply (ko_updates _ Hok) in Hpc as [? _]. lia. }
      assert (take n meta = meta) as Etk by (apply take_ge; unfold len in Hlm; lia).
      rewrite Etk in Efp. split_and!.
      + apply (flushed_same db dw dp (eq 0)); auto; [|lia|].
        * intros p c Hpc%Hpos. split; lia.
        * by rewrite <- Efs.
      + unfold meta_saved. rewrite (saveMeta_same ds dp) by done. rewrite saveMeta_layout. fold meta. rewrite Efp.
        pose proof (file_write_eq (kv_file ds) 0 meta) as Eq. replace (length meta) with 72%nat in Eq by (unfold len in Hlm; lia). change (Z.to_nat 0) with 0%nat. by rewrite Eq.
      + done.
      + lia.
      + eapply keeps_mono; [|rewrite <- Efs in Hkw; exact (keeps_trans _ _ _ _ _ Hkw Hkp)].
        intros p [Hp|<-]; [by right|by left]. }
  destruct ep as [e|]; rewrite bind_Ok in E; unfold and_then in E at 1; cbn [snd fst] in E; [injection E as <- _; by apply Hnew|].
  destruct (Fsync dp) as [df ef] eqn:Ef. destruct (Fsync_shape _ _ _ Ef) as [Eff _].
  destruct ef as [e|]; unfold and_then in E; cbn [snd fst] in E; injection E as <- _; by apply Hnew.
Qed.

End order.

(** ** The free list after a torn commit *)

Lemma read_at_lookup (s : bytes) pos n i : (i < n)%nat -> read_at s pos n !! i = s !! (pos + i)%nat.
Proof. intros Hi. unfold read_at. rewrite lookup_take_lt by done. apply lookup_drop. Qed.

(** Bytes from two pages that agree on a field have the field. *)
Lemma mixed_field (c0 c c3 : bytes) pos n : length c0 = 4096%nat -> length c = 4096%nat -> length c3 = 4096%nat ->
  (pos + n <= 4096)%nat -> (forall i, (i < 4096)%nat -> c3 !! i = c0 !! i \/ c3 !! i = c !! i) ->
  read_at c pos n = read_at c0 pos n -> read_at c3 pos n = read_at c0 pos n.
Proof.
  intros Hl0 Hl Hl3 Hp Hmix Heq. apply list_eq. intros i. destruct (decide (i < n)%nat) as [Hi|Hi].
  - apply (f_equal (.!! i)) in Heq. rewrite !read_at_lookup in Heq |- * by done.
    destruct (Hmix (pos + i)%nat) as [E|E]; [lia|done|congruence].
  - rewrite !lookup_ge_None_2 by (rewrite length_read_at; lia). done.
Qed.

Lemma mixed_word (c0 c c3 : bytes) pos : length c0 = 4096%nat -> length c = 4096%nat -> length c3 = 4096%nat ->
  (pos + 8 <= 4096)%nat -> (forall i, (i < 4096)%nat -> c3 !! i = c0 !! i \/ c3 !! i = c !! i) ->
  le_combine (read_at c pos 8) = le_combine (read_at c0 pos 8) ->
  le_combine (read_at c3 pos 8) = le_combine (read_at c0 pos 8).
Proof.
  intros Hl0 Hl Hl3 Hp Hmix Heq. f_equal. apply (mixed_field c0 c c3); try done.
  apply le_combine_inj; [rewrite !length_read_at; lia|done].
Qed.

(** A page in the file, byte by byte. *)
Lemma mapped_page f p chunks total c : mapped 0 chunks total -> 0 <= p -> mmapRead f p chunks = Ok c ->
  BTREE_PAGE_SIZE * p + BTREE_PAGE_SIZE <= len f /\ length c = 4096%nat /\
  forall i, (i < 4096)%nat -> c !! i = f !! (Z.to_nat (BTREE_PAGE_SIZE * p) + i)%nat.
Proof.
  intros Hm Hp Hr. pose proof (mmapRead_unmapped _ _ _ _ _ Hm Hr) as Hpt.
  rewrite (mmapRead_mapped f p chunks total) in Hr by done.
  assert (BTREE_PAGE_SIZE * p + BTREE_PAGE_SIZE <= len f) as Hf.
  { unfold slice in Hr. case_bool_decide; [lia|done]. }
  split; [done|]. unfold BTREE_PAGE_SIZE in *. rewrite slice_Ok in Hr by lia. injection Hr as <-.
  replace (Z.to_nat (4096 * p + 4096 - 4096 * p)) with 4096%nat by lia.
  split; [apply length_read_at; unfold len in Hf; lia|]. intros i Hi. by apply read_at_lookup.
Qed.

(** The front of the meta page is not torn if no page is written there. *)
Lemma torn_front u f f' n : torn u f f' -> u !! 0 = None -> (n <= 4096)%nat -> (n <= length f)%nat ->
  read_at f' 0 n = read_at f 0 n.
Proof.
  intros [Hl Ht] Hu Hn Hf. apply list_eq. intros i. destruct (decide (i < n)%nat) as [Hi|Hi].
  - rewrite !read_at_lookup by done. destruct (Ht 0 (0 + i)%nat) as [|(c & Hc & _)]; [lia|unfold BTREE_PAGE_SIZE; lia|lia|done|congruence].
  - rewrite !lookup_ge_None_2 by (rewrite length_read_at; lia). done.
Qed.

Section failed.
Context (db db3 : KV) (pgN : Pager) (u : gmap Z bytes) (o0 : nat) (chain0 : list Z) (items0 : list item).
Context (I0 : fl_inv (kv_pages db) o0 chain0 items0) (Hset0 : settled o0 chain0 items0).
Context (Hidle : kv_updates db = ∅ /\ pg_nappend (kv_pages db) = 0).
Context (Hd : disk_ok db) (Hd3 : disk_ok db3) (Htot : kv_total db <= kv_total db3).
Context (Hcov : pg_flushed (kv_pages db) = 2 \/
  BTREE_PAGE_SIZE * pg_flushed (kv_pages db) <= len (kv_file db) /\
  BTREE_PAGE_SIZE * pg_flushed (kv_pages db) <= kv_total db).
Context (Hsf : same_file (kv_pages db) pgN) (HupdN : forall p c, pg_updates pgN !! p = Some c -> len c = BTREE_PAGE_SIZE).
Context (o : nat) (chain : list Z) (items : list item) (HT : traced o0 chain0 items0 [] pgN o chain items).
Context (Htorn : torn u (kv_file db) (kv_file db3)) (Hu : forall p, 1 <= p -> u !! p = pg_updates pgN !! p).
Context (Hw : meta_words db3 = meta_words db) (Hn3 : pg_nappend (kv_pages db3) = 0) (Hu3 : kv_updates db3 = ∅).
Context (Hlim : fl_limits (pg_free (kv_pages db3)) = fl_limits (pg_free pgN)).

Lemma failed_bound : bound (kv_pages db3) = bound (kv_pages db).
Proof using Hidle Hw Hn3. destruct Hidle as [_ E]. unfold bound. injection Hw as _ -> _. lia. Qed.

Lemma failed_covered p : 0 < p < bound (kv_pages db) -> pg_flushed (kv_pages db) <> 2 ->
  exists c0 c3, mmapRead (kv_file db) p (kv_chunks db) = Ok c0 /\ mmapRead (kv_file db3) p (kv_chunks db3) = Ok c3 /\
    length c0 = 4096%nat /\ length c3 = 4096%nat /\
    forall i, (i < 4096)%nat -> c3 !! i = c0 !! i \/ exists c, pg_updates pgN !! p = Some c /\ c3 !! i = c !! i.
Proof using Hidle Hd Hd3 Htot Hcov Htorn Hu.
  intros Hp H2. destruct Hidle as [_ E]. destruct Hcov as [|[Hc1 Hc2]]; [done|]. destruct Htorn as [Hl Ht].
  unfold bound in Hp. unfold BTREE_PAGE_SIZE in Hc1, Hc2.
  destruct (covered_read db p Hd) as [c0 H0]; [lia|unfold BTREE_PAGE_SIZE, len in *; lia..|].
  destruct (covered_read db3 p Hd3) as [c3 H3]; [lia|unfold BTREE_PAGE_SIZE, len in *; lia..|].
  exists c0, c3. split; [done|]. split; [done|].
  destruct (mapped_page _ p _ _ c0 (proj1 Hd) ltac:(lia) H0) as (Hf0 & Hl0 & B0).
  destruct (mapped_page _ p _ _ c3 (proj1 Hd3) ltac:(lia) H3) as (_ & Hl3 & B3). split; [done|]. split; [done|].
  intros i Hi. rewrite B0, B3 by done. unfold BTREE_PAGE_SIZE, len in *.
  destruct (Ht p (Z.to_nat (4096 * p) + i)%nat) as [|(c & Hc & ->)]; [lia|unfold BTREE_PAGE_SIZE; lia|lia|by left|].
  right. exists c. rewrite <- Hu by lia. split; [done|]. f_equal. unfold BTREE_PAGE_SIZE. lia.
Qed.

(** A node of the list as it was: the fields that it still had when the commit
    wrote it. *)
Lemma failed_node n c0 cN : n ∈ chain0 -> view (kv_pages db) n = Some c0 -> view pgN n = Some cN ->
  exists c3, view (kv_pages db3) n = Some c3 /\
    (forall pos, (pos + 8 <= 4096)%nat -> le_combine (read_at cN pos 8) = le_combine (read_at c0 pos 8) ->
       le_combine (read_at c3 pos 8) = le_combine (read_at c0 pos 8)).
Proof using All.
  intros Hn H0 HN. pose proof (chain_bound _ _ _ _ I0 _ Hn) as Hb. pose proof Hidle as [Ei _].
  assert (pg_flushed (kv_pages db3) = pg_flushed (kv_pages db)) as Ef by (by injection Hw as _ -> _).
  destruct (decide (pg_flushed (kv_pages db) = 2)) as [E2|E2].
  - destruct (two_pages _ _ _ _ I0) as [-> _]; [unfold bound; destruct Hidle; lia|]. apply list_elem_of_singleton in Hn as ->.
    unfold view in H0 |- *. rewrite Ei, lookup_empty, E2 in H0. rewrite Hu3, lookup_empty, Ef, E2. exists c0. by split.
  - destruct (failed_covered n Hb E2) as (c0' & c3 & R0 & R3 & Hl0 & Hl3 & Hmix).
    unfold view in H0. rewrite Ei, lookup_empty, (proj2 (Z.eqb_neq _ _)), R0 in H0 by done. injection H0 as <-.
    exists c3. unfold view at 1. rewrite Hu3, lookup_empty, Ef, (proj2 (Z.eqb_neq _ _)), R3 by done. split; [done|].
    intros pos Hpos Hw8. destruct (pg_updates pgN !! n) as [c|] eqn:Eu.
    + unfold view in HN. rewrite Eu in HN. injection HN as <-. pose proof (HupdN n c Eu) as Hlc. apply page_length in Hlc.
      apply (mixed_word c0' c c3); try done. intros i Hi. destruct (Hmix i Hi) as [|(c' & Hc' & E)]; [by left|right; congruence].
    + assert (c3 = c0') as ->; [|done]. apply list_eq. intros i. destruct (decide (i < 4096)%nat) as [Hi|Hi].
      * destruct (Hmix i Hi) as [|(c' & Hc' & _)]; [done|congruence].
      * rewrite !lookup_ge_None_2 by lia. done.
Qed.

Lemma failed_list : fl_inv (kv_pages db3) o0 chain0 items0.
Proof using All.
  pose proof failed_bound as Hbd. pose proof Hw as Hw'. injection Hw' as Er Ef Ehp Ehs Etp Ets Ev.
  pose proof Hsf as (_ & _ & _ & M1 & M2 & M3). pose proof Hlim as Hl. injection Hl as L1 L2 L3. rewrite M1 in L1. rewrite M3 in L3.
  pose proof (fi_bound _ _ _ _ I0) as Hib. destruct Hidle as [Ei En].
  assert (forall k e, items0 !! k = Some e -> 0 < e.1 < bound (kv_pages db)) as Hit.
  { intros k e He. apply Hib, elem_of_app. right. apply list_elem_of_fmap_2. by eapply list_elem_of_lookup_2. }
  assert (forall k e, items0 !! k = Some e -> pg_flushed (kv_pages db) <> 2) as Hno2.
  { intros k e He E2. destruct (two_pages _ _ _ _ I0) as [_ E]; [unfold bound; lia|]. by rewrite E in He. }
  constructor; rewrite ?Ehp, ?Ehs, ?Etp, ?Ets, ?L1, ?L3, ?Hbd, ?Hu3; try apply I0.
  - intros k e j i Hk Hj Hi. destruct (fi_items _ _ _ _ I0 k e j i Hk Hj Hi) as (n & c0 & Hn & H0 & He).
    destruct (tr_items _ _ _ _ _ _ _ _ HT k e j i Hk Hj Hi) as (n' & cN & Hn' & HN & HeN).
    assert (n' = n) as -> by congruence.
    destruct (failed_node n c0 cN) as (c3 & H3 & Hf); [by eapply list_elem_of_lookup_2|done|done|].
    exists n, c3. split; [done|]. split; [done|]. unfold lnode_item in *.
    rewrite <- He in HeN |- *. pose proof (f_equal fst HeN) as E1. pose proof (f_equal snd HeN) as E2. cbn [fst snd] in E1, E2.
    by rewrite (Hf (8 + 16 * i)%nat ltac:(lia) E1), (Hf (16 + 16 * i)%nat ltac:(lia) E2).
  - intros j n n' Hn Hn'. destruct (fi_links _ _ _ _ I0 j n n' Hn Hn') as (c0 & H0 & He).
    destruct (tr_links _ _ _ _ _ _ _ _ HT j n n' Hn Hn') as (cN & HN & HeN).
    destruct (failed_node n c0 cN) as (c3 & H3 & Hf); [by eapply list_elem_of_lookup_2|done|done|].
    exists c3. split; [done|]. unfold lnode_next in *. rewrite <- He. apply Hf; [lia|congruence].
  - intros n Hn. destruct (decide (pg_flushed (kv_pages db) = 2)) as [E2|E2].
    + destruct (two_pages _ _ _ _ I0) as [Ec _]; [unfold bound; lia|]. rewrite Ec in Hn. apply list_elem_of_singleton in Hn as ->.
      exists (make BTREE_PAGE_SIZE). unfold view. rewrite Hu3, lookup_empty, Ef, E2. split; [done|]. apply page_length, length_replicate.
    + destruct (failed_covered n (chain_bound _ _ _ _ I0 _ Hn) E2) as (c0 & c3 & _ & R3 & _ & Hl3 & _). exists c3.
      unfold view. rewrite Hu3, lookup_empty, Ef, (proj2 (Z.eqb_neq _ _)), R3 by done. by rewrite page_length.
  - intros k p v Hk _. split; [apply lookup_empty|]. pose proof (Hno2 k _ Hk) as E2.
    destruct (failed_covered p (Hit k _ Hk) E2) as (c0 & c3 & _ & R3 & _ & Hl3 & _). exists c3.
    unfold view. rewrite Hu3, lookup_empty, Ef, (proj2 (Z.eqb_neq _ _)), R3 by done. by rewrite page_length.
  - rewrite Ef. apply I0.
  - intros p c. by rewrite lookup_empty.
  - rewrite Ef, Hn3. destruct (fi_num _ _ _ _ I0). lia.
  - rewrite Ef. unfold bound. rewrite En. lia.
Qed.

(** The database as it was. *)
Lemma failed_state h kvs m r : db_state db h kvs m r -> live_ok (kv_pages db) (owned chain0 items0) m ->
  fl_room (kv_pages db) (2 * Z.of_nat r) (3 * Z.of_nat r) ->
  (forall p c, m !! p = Some c -> mmapRead (kv_file db3) p (kv_chunks db3) = Ok c) -> db_state db3 h kvs m r.
Proof using All.
  intros [S1 S2 S3 S4 S5 S6 S7 S8 S9] Hl Hroom Hread. pose proof failed_list as I3. pose proof failed_bound as Hbd.
  pose proof Hw as Hw'. injection Hw' as Er Ef Ehp Ehs Etp Ets Ev.
  constructor; [done|by split|by rewrite Ev|by rewrite Er|done|done| |by rewrite Hbd|].
  - exists o0, chain0, items0. split; [exact I3|]. split; [exact Hset0|]. split.
    + intros p c Hp. destruct (Hl p c Hp) as (_ & Hno & Hb). rewrite Hbd. split; [|done]. unfold view.
      rewrite Hu3, lookup_empty, Ef, (Hread p c Hp).
      destruct (Z.eqb_spec (pg_flushed (kv_pages db)) 2) as [E|E], (Z.eqb_spec p 1) as [->|E1]; try done. exfalso. apply Hno, elem_of_app. left.
      by destruct (fi_new _ _ _ _ I0 E).
    + unfold fl_room in *. by rewrite Hbd, Ets.
  - rewrite Ef. pose proof (proj1 Htorn) as Hgrow. destruct S9 as [|[? ?]]; [by left|right]. unfold len in *. lia.
Qed.

End failed.

(** ** Commits that fail *)

Section order_failed.
Context (order : gmap Z bytes -> list (Z * bytes)) (Horder : forall m, order m ≡ₚ map_to_list m).

Lemma revert_same db meta db' : revert db meta = Ok db' -> kv_file db' = kv_file db /\ kv_io db' = kv_io db.
Proof using.
  unfold revert. intros (d & E & [= <-])%res_bind_Ok. cbn. unfold loadMeta in E.
  repeat (apply res_bind_Ok in E as (? & _ & E)). by injection E as <-.
Qed.

(** The file that a failed commit leaves. *)
Lemma updateOrRevert_torn db meta db' e : kv_ok db -> full_writes db -> kv_failed db = false ->
  updateOrRevert order db meta = Ok (db', Some e) ->
  torn (new_meta db) (kv_file db) (kv_file db') /\
  (sectors db -> torn (kv_updates db) (kv_file db) (kv_file db') \/
     exists dbN, kv_file dbN = kv_file db' /\ all_written db dbN).
Proof using Horder.
  intros Hok Hfull Hf. unfold updateOrRevert, update_revert. rewrite Hf. intros ([d [e'|]] & E & H)%res_bind_Ok; [|done].
  apply res_bind_Ok in H as (d' & [Hr _]%revert_same & [= <- _]). rewrite Hr. by eapply updateFile_torn.
Qed.

(** The first system call of a commit fails. *)
Lemma updateFile_first_fails db db' err n io : kv_ok db -> kv_io db = IoErr n :: io ->
  updateFile order db = Ok (db', err) ->
  err <> None /\ kv_io db' = io /\ (n = 0%nat -> kv_file db' = kv_file db).
Proof using Horder.
  intros Hok Hio. unfold updateFile. intros ([dw ew] & Ew & E)%res_bind_Ok. unfold writePages in Ew.
  apply res_bind_Ok in Ew as ([d1 e1] & Ee & Ew).
  assert (match e1 with None => d1 = db | Some _ => kv_io d1 = io /\ kv_file d1 = kv_file db end) as H1.
  { unfold extendMmap in Ee. destruct (_ <=? _); [by injection Ee as <- <-|].
    apply res_bind_Ok in Ee as (a & _ & Ee). unfold next_io in Ee. rewrite Hio in Ee. by injection Ee as <- <-. }
  destruct e1 as [e|]; [injection Ew as <- <-; injection E as <- <-; by destruct H1|]. subst d1.
  assert (match ew with
    | None => kv_io dw = IoErr n :: io /\ kv_file dw = kv_file db
    | Some _ => kv_io dw = io /\ (n = 0%nat -> kv_file dw = kv_file db) end) as Hw.
  { destruct (order (kv_updates db)) as [|[p c] l] eqn:El; cbn [write_pages_loop] in Ew; [by injection Ew as <- <-|].
    assert (0 <= i64 (u64 (p * BTREE_PAGE_SIZE))) as Hoff.
    { assert (kv_updates db !! p = Some c) as Hp by (rewrite <- elem_of_map_to_list, <- Horder, El; left).
      destruct (ko_updates _ Hok p c Hp) as [Hpb _]. destruct (ko_num _ Hok) as (_ & _ & Hb).
      unfold BTREE_PAGE_SIZE. rewrite u64_small, i64_small by lia. lia. }
    unfold Pwrite, next_io in Ew. rewrite (proj2 (Z.ltb_ge _ _) Hoff), Hio in Ew. injection Ew as <- <-. cbn. by split; [|intros ->]. }
  destruct ew as [e|]; [injection E as <- <-; by destruct Hw|]. destruct Hw as [Hiow Hfw].
  unfold and_then in E at 1. cbn [snd fst] in E. unfold Fsync at 1, next_io at 1 in E. rewrite Hiow in E.
  unfold and_then in E. cbn [snd fst] in E. injection E as <- <-. by split; [|split].
Qed.

Lemma updateOrRevert_first_fails db meta db' err n io : kv_ok db -> kv_failed db = false -> kv_io db = IoErr n :: io ->
  updateOrRevert order db meta = Ok (db', err) ->
  err <> None /\ kv_io db' = io /\ (n = 0%nat -> kv_file db' = kv_file db).
Proof using Horder.
  intros Hok Hf Hio. unfold updateOrRevert, update_revert. rewrite Hf. intros ([d e] & E & H)%res_bind_Ok.
  destruct (updateFile_first_fails _ _ _ _ _ Hok Hio E) as (He & Hio' & Hf'). destruct e as [e|]; [|done].
  apply res_bind_Ok in H as (d' & [Hr1 Hr2]%revert_same & [= <- <-]). by rewrite Hr1, Hr2.
Qed.

End order_failed.
