(* ===== verification/Replay.v ===== *)
(** * Replaying the pending updates into the tree of the file

    The loop of [Commit]: it walks over the pairs of the pending tree in
    order and applies each one to the tree of the file.  The map of the file
    becomes the overlay that the transaction saw. *)

From S2P Require Import Prelude.
From S2P Require Import GoBytes.
From S2P Require Import BNode.
From S2P Require Import KVSpec.
From S2P Require Import BNodeFacts.
From S2P Require Import BSplitFacts.
From S2P Require Import BTree.
From S2P Require Import BTreeRep.
From S2P Require Import MemStore.
From S2P Require Import BTreeInsert.
From S2P Require Import BTreeMap.
From S2P Require Import BTreeDelete.
From S2P Require Import BTreeMapDelete.
From S2P Require Import BIter.
From S2P Require Import BIterProps.
From S2P Require Import Conflict.
From S2P Require Import Pager.
From S2P Require Import PagerFacts.
From S2P Require Import FreeListFacts.
From S2P Require Import FreeListOps.
From S2P Require Import PagerStore.
From S2P Require Import CowStore.
From S2P Require Import KV.
From S2P Require Import KVTX.
From S2P Require Import KVTXFacts.

(** ** Pages determine the pairs *)

Lemma node_repr_inj page ty ty' es es' : node_repr page ty es -> node_repr page ty' es' -> es = es'.
Proof.
  intros H H'. apply list_eq_same_length with (length es); [|done|].
  { pose proof (nkeys_filled _ _ _ _ H) as E. rewrite (nkeys_filled _ _ _ _ H') in E. injection E as E. lia. }
  intros i [p k v] [p' k' v'] _ He He'.
  pose proof (getPtr_filled _ _ _ _ H _ _ He) as E1. rewrite (getPtr_filled _ _ _ _ H' _ _ He') in E1.
  pose proof (getKey_filled _ _ _ _ H _ _ He) as E2. rewrite (getKey_filled _ _ _ _ H' _ _ He') in E2.
  pose proof (getVal_filled _ _ _ _ H _ _ He) as E3. rewrite (getVal_filled _ _ _ _ H' _ _ He') in E3.
  cbn in *. congruence.
Qed.

(** Two trees of pages under one slot, with the same page wherever both have
    one, hold the same pairs. *)
Lemma item_rep_agree h h' m m' e kvs kvs' :
  item_rep h m e kvs -> item_rep h' m' e kvs' ->
  (forall p c c', m !! p = Some c -> m' !! p = Some c' -> c = c') -> kvs = kvs'.
Proof.
  revert h' m m' e kvs kvs'. induction h as [|h IH]; intros [|h'] m m' e kvs kvs'; cbn.
  - by intros (_ & _ & ->) (_ & _ & ->).
  - by intros (_ & Hp & _) (_ & _ & Hp' & _).
  - by intros (_ & _ & Hp & _) (_ & Hp' & _).
  - intros (_ & _ & _ & page & mk & es & -> & Hmk & _ & Hr & _ & Hf)
      (_ & _ & _ & page' & mk' & es' & -> & Hmk' & _ & Hr' & _ & Hf') Hag.
    pose proof (Hag (e_ptr e) page page' (lookup_insert_eq _ _ _) (lookup_insert_eq _ _ _)) as <-.
    pose proof (node_repr_inj _ _ _ _ _ Hr Hr') as <-.
    assert (forall p c c', mk !! p = Some c -> mk' !! p = Some c' -> c = c') as Hag'.
    { intros p c c' Hp Hp'. apply (Hag p); rewrite lookup_insert_ne; congruence. }
    clear Hag Hr Hr' Hmk Hmk'. revert mk mk' kvs kvs' Hf Hf' Hag'.
    induction es as [|e1 es IHes]; intros mk mk' kvs kvs'; cbn; [by intros [_ ->] [_ ->]|].
    intros (m1 & m2 & k1 & k2 & -> & D & -> & H1 & H2) (m1' & m2' & k1' & k2' & -> & D' & -> & H1' & H2') Hag.
    f_equal; [eapply IH; [exact H1|exact H1'|]|eapply IHes; [exact H2|exact H2'|]]; intros p c c' Hp Hp';
      apply (Hag p); first [by apply lookup_union_Some_l|by apply lookup_union_Some_r].
Qed.

Lemma tree_shape_agree h h' m m' root kvs kvs' :
  tree_shape h m root kvs -> tree_shape h' m' root kvs' ->
  (forall p c c', m !! p = Some c -> m' !! p = Some c' -> c = c') -> kvs = kvs'.
Proof.
  unfold tree_shape. destruct (decide (root = 0)); [by intros [_ ->] [_ ->]|]. intros H H' Hag.
  pose proof (item_rep_agree _ _ _ _ _ _ _ H H' Hag) as E. by injection E.
Qed.

(** ** Updates as a list *)

(** One pending pair applied to a map. *)
Definition apply_pending (M : gmap bytes bytes) (p : kv) : gmap bytes bytes :=
  match p.2 with
  | flag :: v => if decide (flag = FLAG_UPDATED) then <[p.1 := v]> M else delete p.1 M
  | [] => delete p.1 M
  end.

Definition replay (M : gmap bytes bytes) (pending : list kv) : gmap bytes bytes := foldl apply_pending M pending.

Definition flagged_val (v : bytes) : Prop := (exists w, v = FLAG_UPDATED :: w) \/ v = [FLAG_DELETED].

Lemma apply_ne M p k : k <> p.1 -> apply_pending M p !! k = M !! k.
Proof.
  unfold apply_pending. intros Hk. destruct p.2; [by rewrite lookup_delete_ne|]. case_decide; [by rewrite lookup_insert_ne|by rewrite lookup_delete_ne].
Qed.

Lemma replay_ne M l k : k ∉ l.*1 -> replay M l !! k = M !! k.
Proof.
  revert M. induction l as [|p l IH]; intros M Hk; [done|]. cbn in *. apply not_elem_of_cons in Hk as [Hk Hl].
  fold (replay (apply_pending M p) l). rewrite IH by done. by apply apply_ne.
Qed.

(** Replaying the pairs of the pending tree gives what the transaction sees. *)
Lemma replay_overlay M l : NoDup l.*1 -> replay M l = overlay M (kv_map l).
Proof.
  revert M. induction l as [|[k v] l IH]; intros M Hn; [symmetry; apply overlay_empty|].
  cbn in Hn. apply NoDup_cons in Hn as [Hk Hn]. change (replay M ((k, v) :: l)) with (replay (apply_pending M (k, v)) l).
  apply map_eq. intros q. change (kv_map ((k, v) :: l)) with (<[k := v]> (kv_map l)).
  rewrite IH, !lookup_overlay by done. rewrite lookup_insert. case_decide as E.
  - subst q. rewrite kv_get_map, kv_get_notin by done. cbn. unfold apply_pending. cbn.
    destruct v as [|flag v]; [by rewrite lookup_delete_eq|].
    case_decide; by rewrite ?lookup_insert_eq, ?lookup_delete_eq.
  - by rewrite apply_ne.
Qed.

Lemma apply_some M p k : is_Some (apply_pending M p !! k) -> is_Some (M !! k) \/ k = p.1.
Proof. destruct (decide (k = p.1)) as [|Hne]; [by right|]. rewrite apply_ne by done. by left. Qed.

(** A replay that changes nothing changes nothing at its first pair. *)
Lemma replay_fixed M p l : NoDup (p :: l).*1 -> replay M (p :: l) = M -> apply_pending M p = M.
Proof.
  cbn. intros [Hp _]%NoDup_cons E. apply map_eq. intros k. destruct (decide (k = p.1)) as [->|Hne]; [|by apply apply_ne].
  rewrite <- (replay_ne (apply_pending M p) l) by done. by rewrite <- E at 2.
Qed.

(** A key that is deleted is at least as long as every key after it that may be
    in the tree at that moment. *)
Definition deletes_fit (M : gmap bytes bytes) (pending : list kv) : Prop :=
  forall k k', (k, [FLAG_DELETED]) ∈ pending -> is_Some (M !! k') \/ k' ∈ pending.*1 -> blt k k' ->
    (length k' <= length k)%nat.

Lemma deletes_fit_apply M l p : p ∈ l -> deletes_fit M l -> deletes_fit (apply_pending M p) l.
Proof.
  intros Hp Hf k k' Hk [Hk'|Hk'] Hlt; apply (Hf k k' Hk); auto.
  apply apply_some in Hk' as [?| ->]; [by left|right]. by apply list_elem_of_fmap_2.
Qed.

(** ** One update *)

Lemma set_tree_id db : set_tree db (kv_tree db) = db.
Proof. by destruct db. Qed.

Lemma small_tail key flag w : small_kv (key, flag :: w) -> small_kv (key, w).
Proof. unfold small_kv. cbn. lia. Qed.

Lemma small_key key v : small_kv (key, v) -> len key <= BTREE_MAX_KEY_SIZE.
Proof. unfold small_kv, SMALL_COST, BTREE_MAX_KEY_SIZE, len. cbn. lia. Qed.

Section transfer.
Context (base : Pager) (K : gset Z) (o0 : nat) (chain0 : list Z) (items0 : list item) (depth : nat).
Context (tx : KVTX) (h0 : nat) (kvs0 : list kv).
Context (Hsnap : tree_reads h0 (snapshot (pg_file base) tx) kvs0) (Hd0 : (h0 < depth)%nat).

(** The tree of the file during the commit. *)
Definition cow_models (h : nat) (t : BTree Pager) (M : gmap bytes bytes) (r : nat) : Prop :=
  @tree_models Pager pager_store (cow_store_ok base K o0 chain0 items0) h ∅ t M r.

Lemma cow_models_weaken h t M r r' : cow_models h t M r -> (r' <= r)%nat -> cow_models h t M r'.
Proof using.
  intros (kvs & Ht & HM) Hr. exists kvs. split; [|done].
  by apply (@stores_weaken Pager pager_store (cow_store_ok base K o0 chain0 items0) h ∅ t kvs r).
Qed.

Lemma cow_same_file h t M r : cow_models h t M r -> pg_file (bt_store t) = pg_file base.
Proof using. intros (kvs & (m & _ & _ & (o & chain & items & _ & (E & _) & _) & _) & _). done. Qed.

Lemma transfer_one_ok db key val M h H r :
  cow_models h (kv_tree db) M (4 * H + 5 + r) -> (h <= H)%nat -> (H < depth)%nat ->
  key <> [] -> small_kv (key, val) -> flagged_val val -> kv_get key kvs0 = M !! key ->
  (val = [FLAG_DELETED] -> forall k, next_key M key k -> (length k <= length key)%nat) ->
  exists t' modified h', transfer_one depth db tx key val = Ok (set_tree db t', modified, None) /\
    (h' <= S h)%nat /\ cow_models h' t' (apply_pending M (key, val)) r /\
    (apply_pending M (key, val) = M -> t' = kv_tree db).
Proof using Hsnap Hd0.
  intros Ht Hh HH Hk Hsm Hfl Hag Hdel. unfold transfer_one.
  pose proof (cow_same_file _ _ _ _ Ht) as Ef. cbn in Ef. rewrite Ef.
  rewrite (Get_reads h0 depth _ key kvs0 Hsnap Hk Hd0), Hag. step_res.
  unfold apply_pending. cbn [fst snd]. destruct Hfl as [[w ->]| ->].
  - change (index (FLAG_UPDATED :: w) 0) with (Ok FLAG_UPDATED). step_res.
    rewrite (decide_False (P := FLAG_UPDATED = FLAG_DELETED)), !(decide_True (P := FLAG_UPDATED = FLAG_UPDATED)) by done.
    rewrite slice_from_Ok by (rewrite len_cons; pose proof (len_nonneg w); lia).
    step_res. change (drop (Z.to_nat 1) (FLAG_UPDATED :: w)) with w.
    destruct (@Update_models Pager pager_store (cow_store_ok base K o0 chain0 items0) h depth (kv_tree db) (updateReq key w MODE_UPSERT) ∅ M r)
      as (t' & h' & E & Hh' & Ht' & Hsame); [|done|by eapply small_tail|lia|].
    { eapply cow_models_weaken; [exact Ht|lia]. }
    cbn [updateReq uq_Key uq_Val uq_Mode] in *.
    assert ((bt_root (kv_tree db) =? 0) || upd_changes MODE_UPSERT w (M !! key) =
      match M !! key with Some v => negb (bytes_equal v w) | None => true end) as Ech.
    { destruct (Z.eqb_spec (bt_root (kv_tree db)) 0) as [Hr|Hr].
      - destruct Ht as (kvs & (m & Hsh & _) & <-). unfold tree_shape in Hsh. rewrite decide_True in Hsh by done.
        by destruct Hsh as [_ ->].
      - cbn. destruct (M !! key) as [v|]; [|done]. cbn. unfold bytes_equal. do 2 case_bool_decide; congruence. }
    rewrite Ech in *. rewrite E. step_res. rewrite Bool.eqb_reflx. step_res.
    eexists t', _, h'. split; [reflexivity|]. split; [done|]. split.
    + destruct (M !! key) as [v|] eqn:EM; [|exact Ht']. unfold bytes_equal in *. case_bool_decide; cbn [negb] in *; [|exact Ht'].
      subst v. by rewrite insert_id.
    + intros Eq. apply Hsame. assert (M !! key = Some w) as -> by (rewrite <- Eq; apply lookup_insert_eq).
      unfold bytes_equal. by rewrite bool_decide_true.
  - change (index [FLAG_DELETED] 0) with (Ok FLAG_DELETED). step_res.
    rewrite (decide_True (P := FLAG_DELETED = FLAG_DELETED)), (decide_False (P := FLAG_DELETED = FLAG_UPDATED)) by done.
    destruct (@Delete_models Pager pager_store (cow_store_ok base K o0 chain0 items0) h depth (kv_tree db) ∅ M r (mkDeleteReq key []))
      as (t' & h' & E & Hh' & Ht' & Hsame); [|done|by eapply small_key|by apply Hdel|lia|].
    { eapply cow_models_weaken; [exact Ht|lia]. }
    cbn [dq_Key] in *. rewrite E. step_res.
    assert (bool_decide (is_Some (M !! key)) = match M !! key with Some _ => true | None => false end) as ->.
    { destruct (M !! key); [by rewrite bool_decide_true by eauto|by rewrite bool_decide_false by (intros [? ?]; done)]. }
    rewrite Bool.eqb_reflx. step_res. eexists t', _, h'. split; [reflexivity|]. split; [lia|]. split; [exact Ht'|].
    intros Eq. apply Hsame. rewrite <- Eq. apply lookup_delete_eq.
Qed.

(** ** The loop *)

Context (hp : nat) (pend : BTree mem_pages) (pkvs : list kv) (Hhp : (hp <= 1)%nat).
Context (Hkeys : Forall (fun p : kv => p.1 <> [] /\ small_kv p /\ flagged_val p.2) pkvs) (Hnd : NoDup pkvs.*1).

(** What is left from the pair number [n] on. *)
Abbreviation left_from n := (length pkvs + 1 - n)%nat.

Lemma transfer_loop_ok fuel db M h H r it n writes :
  iter_at hp pend pkvs it n -> (1 <= n)%nat -> (left_from n <= fuel)%nat ->
  cow_models h (kv_tree db) M (left_from n * (4 * H + 5) + r) -> (h + left_from n <= H)%nat -> (H < depth)%nat ->
  (forall p, p ∈ drop (n - 1) pkvs -> kv_get p.1 kvs0 = M !! p.1) -> deletes_fit M pkvs ->
  exists t' writes' h', transfer_loop depth fuel db tx it writes = Ok (set_tree db t', writes', None) /\
    (h' <= H)%nat /\ cow_models h' t' (replay M (drop (n - 1) pkvs)) r /\
    (replay M (drop (n - 1) pkvs) = M -> t' = kv_tree db).
Proof using All.
  revert db M h it n writes. induction fuel as [|fuel IH]; intros db M h it n writes Hit Hn Hf Ht Hh HH Hag Hdel;
    cbn [transfer_loop]; rewrite (Valid_ok _ _ _ _ _ Hit); step_res; (case_bool_decide as Hv; cbn [negb];
      [|rewrite drop_ge by lia; exists (kv_tree db), writes, h; rewrite set_tree_id; split; [done|]; split; [lia|];
        split; [eapply cow_models_weaken; [exact Ht|lia]|done]]); [lia|].
  destruct (lookup_lt_is_Some_2 pkvs (n - 1) ltac:(lia)) as [[key val] Hp].
  rewrite (Deref_ok _ _ _ _ _ _ Hit Hn Hp). step_res.
  assert ((key, val) ∈ pkvs) as Hin by by eapply list_elem_of_lookup_2.
  rewrite Forall_forall in Hkeys. destruct (Hkeys _ Hin) as (Hk & Hsm & Hfl). cbn in Hk, Hfl.
  rewrite (drop_S _ _ _ Hp) in *. replace (S (n - 1)) with (S n - 1)%nat in * by lia.
  destruct (transfer_one_ok db key val M h H (left_from (S n) * (4 * H + 5) + r)) as
    (t1 & modified & h1 & E1 & Hh1 & Ht1 & Hsame1); try done; [|lia|by apply (Hag (key, val)); left| |].
  { eapply cow_models_weaken; [exact Ht|]. replace (left_from n) with (S (left_from (S n))) by lia. lia. }
  { intros -> k (Hk1 & Hk2 & _). by apply (Hdel key k Hin); [left|]. }
  rewrite E1. step_res. destruct (Next_ok _ _ _ _ _ Hit ltac:(by left)) as (it' & -> & Hit'). step_res.
  rewrite Nat.min_l in Hit' by lia.
  assert (NoDup ((key, val) :: drop (S n - 1) pkvs).*1) as Hnd'.
  { replace (S n - 1)%nat with (S (n - 1)) by lia. rewrite <- (drop_S _ _ _ Hp).
    pose proof Hnd as Hnd'. rewrite <- (take_drop (n - 1) pkvs), fmap_app in Hnd'. by apply NoDup_app in Hnd' as (_ & _ & ?). }
  destruct (IH (set_tree db t1) (apply_pending M (key, val)) h1 it' (S n)
    (if modified && (1 <? len (vs_ongoing (kv_vers (set_tree db t1)))) then writes ++ [mkKeyRange key key] else writes)
    Hit') as (t2 & writes2 & h2 & E2 & Hh2 & Ht2 & Hsame2); [lia|lia|by destruct t1|lia|done| |by apply deletes_fit_apply|].
  { intros p Hpd. rewrite apply_ne; [apply Hag; by right|]. cbn. intros Eq. cbn in Hnd'.
    apply NoDup_cons in Hnd' as [Hno _]. apply Hno. rewrite <- Eq. by apply list_elem_of_fmap_2. }
  exists t2, writes2, h2. split; [by rewrite E2|]. split; [done|]. split; [exact Ht2|].
  intros Eq. pose proof (replay_fixed _ _ _ Hnd' Eq) as Eq1. rewrite Hsame2, <- (Hsame1 Eq1); [by destruct t1|].
  change (replay M ((key, val) :: drop (S n - 1) pkvs)) with (replay (apply_pending M (key, val)) (drop (S n - 1) pkvs)) in Eq.
  congruence.
Qed.

End transfer.
