(* ===== verification/CommitFacts.v ===== *)
(** * The steps of [Commit]

    Ending a transaction, the check for conflicts, the replay of the pending
    updates, and the two-phase commit, each with what it does to the
    database; CommitProps.v puts them together. *)

From S2P Require Import Prelude.
From S2P Require Import GoBytes.
From S2P Require Import BNode.
From S2P Require Import KVSpec.
From S2P Require Import BSplitFacts.
From S2P Require Import BTree.
From S2P Require Import BTreeRep.
From S2P Require Import BTreeInsert.
From S2P Require Import MemStore.
From S2P Require Import BTreeMap.
From S2P Require Import BIter.
From S2P Require Import BIterProps.
From S2P Require Import Conflict.
From S2P Require Import ConflictFacts.
From S2P Require Import ConflictProps.
From S2P Require Import Pager.
From S2P Require Import PagerFacts.
From S2P Require Import FreeListFacts.
From S2P Require Import FreeListOps.
From S2P Require Import PagerStore.
From S2P Require Import CowStore.
From S2P Require Import KV.
From S2P Require Import KVFacts.
From S2P Require Import KVCommit.
From S2P Require Import KVTX.
From S2P Require Import KVTXFacts.
From S2P Require Import Flush.
From S2P Require Import Reopen.
From S2P Require Import Crash.
From S2P Require Import Replay.

(** ** Ending a transaction *)

(** What a transaction that ends without writing leaves alone. *)
Definition same_data (kv kv' : KV) : Prop :=
  kv_root kv' = kv_root kv /\ kv_failed kv' = kv_failed kv /\ pg_file (kv_pages kv') = pg_file (kv_pages kv) /\
  pg_chunks (kv_pages kv') = pg_chunks (kv_pages kv) /\ pg_flushed (kv_pages kv') = pg_flushed (kv_pages kv) /\
  pg_nappend (kv_pages kv') = pg_nappend (kv_pages kv) /\ pg_updates (kv_pages kv') = pg_updates (kv_pages kv).

(** The transaction is off the list of running ones, and nothing else. *)
Definition ended (v : Z) (kv kv' : KV) : Prop :=
  vs_version (kv_vers kv') = vs_version (kv_vers kv) /\
  exists l1 l2, vs_ongoing (kv_vers kv) = l1 ++ v :: l2 /\ vs_ongoing (kv_vers kv') = l1 ++ l2.

Lemma tx_finalize_eq kv tx : tx_version tx ∈ vs_ongoing (kv_vers kv) ->
  exists vers v, tx_finalize kv tx = Ok (set_pages (set_vers kv vers) (SetMaxVer (kv_pages kv) v)) /\
    ended (tx_version tx) kv (set_vers kv vers) /\ vs_history vers = trim_history v (vs_history (kv_vers kv)).
Proof.
  intros Hv. unfold tx_finalize.
  assert (exists vers m, txFinalize (kv_vers kv) (tx_version tx) = Ok (vers, m)) as (vers & m & E).
  { unfold txFinalize. destruct (index_of_spec (tx_version tx) (vs_ongoing (kv_vers kv))) as [[_ Hn]|(l1 & l2 & _ & ->)]; [done|].
    pose proof (len_nonneg l1). rewrite (proj2 (Z.eqb_neq (len l1) (-1))) by lia. step_res. by eexists _, _. }
  rewrite E. step_res. exists vers, m. split; [reflexivity|].
  apply (txFinalize_inv (kv_vers kv)) in E as (l1 & l2 & E1 & E2 & E3 & -> & E4). split; [|exact E4]. split; [exact E3|]. by exists l1, l2.
Qed.

Lemma tx_finalize_ok kv tx : tx_version tx ∈ vs_ongoing (kv_vers kv) ->
  exists kv', tx_finalize kv tx = Ok kv' /\ same_data kv kv' /\ ended (tx_version tx) kv kv'.
Proof.
  intros (vers & v & E & He & _)%tx_finalize_eq. eexists. split; [exact E|]. split; [by repeat split|exact He].
Qed.

(** Ending a transaction and keeping the version leave nothing to write. *)
Lemma durable_same db db' : meta_words db' = meta_words db -> kv_file db' = kv_file db -> kv_failed db' = kv_failed db ->
  durable db -> durable db'.
Proof.
  intros Hw Ef Hf (H1 & H2 & H3). unfold durable, meta_saved in *. rewrite saveMeta_layout in *. rewrite Hw, Ef, Hf.
  split; [exact H1|]. split; [exact H2|]. injection Hw as -> _. exact H3.
Qed.

(** The free list is told the version of the commit. *)
Definition with_curVer (kv : KV) : KV :=
  let fl := pg_free (kv_pages kv) in
  set_pages kv (set_free (kv_pages kv)
    (mkFreeList (fl_headPage fl) (fl_headSeq fl) (fl_tailPage fl) (fl_tailSeq fl) (fl_maxSeq fl) (fl_maxVer fl)
       (u64 (vs_version (kv_vers kv) + 1)))).

Lemma state_curVer kv h kvs m r : db_state kv h kvs m r -> db_state (with_curVer kv) h kvs m r.
Proof.
  intros [S1 S2 S3 S4 S5 S6 (o & chain & items & (I & Hset & Hl & Hr)) S8 S9]. constructor; auto.
  exists o, chain, items. split; [|by split_and!].
  destruct I. constructor; auto. cbn. pose proof (Z.mod_pos_bound (vs_version (kv_vers kv) + 1) (2 ^ 64) ltac:(lia)).
  exact H.
Qed.

(** ** Replaying all pending updates *)

(** [deletes_fit], on maps. *)
Definition deletes_short (M P : gmap bytes bytes) : Prop :=
  forall k k', P !! k = Some [FLAG_DELETED] -> is_Some (M !! k') \/ is_Some (P !! k') -> blt k k' ->
    (length k' <= length k)%nat.

Lemma map_in (l : list kv) k v : NoDup l.*1 -> (k, v) ∈ l -> kv_map l !! k = Some v.
Proof. intros Hn Hin. by apply elem_of_list_to_map_1. Qed.

Lemma key_in (l : list kv) k : k ∈ l.*1 -> NoDup l.*1 -> is_Some (kv_map l !! k).
Proof. intros ([k' v] & -> & Hin)%list_elem_of_fmap Hn. exists v. by apply map_in. Qed.

(** A transaction that can be committed: the database holds [M] in a tree of
    height [h] and has room, the transaction reads the snapshot that it began
    with and has the pending updates [P]; no write to come is cut short without
    an error; no other transaction has changed
    what it wrote, nor (if it wrote at all) read, since. *)
Record commit_ready (depth : nat) (db : KV) (tx : KVTX) (h : nat) (M : gmap bytes bytes) (r h0 : nat) (kvs0 : list kv)
    (hp : nat) (P : gmap bytes bytes) (H : nat) : Prop := {
  cr_holds : db_holds db h M (size P * (4 * H + 5) + r);
  cr_writes : full_writes db;
  cr_height : (h + size P <= H < depth)%nat;
  cr_snapshot : tree_reads h0 (snapshot (kv_file db) tx) kvs0;
  cr_snap_height : (h0 < depth)%nat;
  cr_pending : tree_models hp ∅ (tx_pending tx) P 0;
  cr_flagged : flagged P;
  cr_levels : (hp <= 1)%nat /\ (hp < depth)%nat;
  cr_agree k : is_Some (P !! k) -> kv_map kvs0 !! k = M !! k;
  cr_deletes : deletes_short M P;
  cr_history : history_ok (vs_history (kv_vers db));
  cr_conflict : tx_updateAttempted tx = true ->
    ~ Exists (conflicting (tx_version tx) (tx_reads tx)) (vs_history (kv_vers db))
}.

Section replay.
Context (depth : nat) (db : KV) (tx : KVTX) (h : nat) (kvs : list kv) (m : heap) (P : gmap bytes bytes).
Context (h0 : nat) (kvs0 : list kv) (hp H r : nat).
Context (Hstate : db_state db h kvs m (size P * (4 * H + 5) + r)) (HH : (h + size P <= H < depth)%nat).
Context (Hsnap : tree_reads h0 (snapshot (kv_file db) tx) kvs0) (Hd0 : (h0 < depth)%nat).
Context (o0 : nat) (chain0 : list Z) (items0 : list item).
Context (Hst0 : pager_state (kv_pages db) o0 chain0 items0 m (size P * (4 * H + 5) + r)).
Context (Hpend : tree_models hp ∅ (tx_pending tx) P 0) (Hfl : flagged P) (Hhp : (hp <= 1)%nat) (Hdp : (hp < depth)%nat).
Context (Hag : forall k, is_Some (P !! k) -> kv_map kvs0 !! k = kv_map kvs !! k).
Context (Hdel : deletes_short (kv_map kvs) P).

(** The same pages under the same root hold the same pairs. *)
Lemma same_root_same t' h' kvs' :
  @tree_stores Pager pager_store (cow_store_ok (kv_pages db) (dom m) o0 chain0 items0) h' ∅ t' kvs' r ->
  bt_root t' = kv_root db -> kvs' = kvs.
Proof using Hstate.
  intros (m' & Hsh & _ & (o & chain & items & (I & _ & Hl & _) & Hsf & _ & _ & HK & _) & _) Hroot.
  rewrite (right_id_L ∅ (∪)) in Hl, HK.
  destruct Hstate as [_ _ _ Hsh0 _ _ (o1 & chain1 & items1 & (_ & _ & Hl0 & _)) _ _].
  rewrite Hroot in Hsh. eapply tree_shape_agree; [exact Hsh|exact Hsh0|].
  intros p c c' Hp Hp'. destruct (Hl p c Hp) as (Hv & _). destruct (Hl0 p c' Hp') as (Hv' & _).
  destruct (HK p) as [Hu _]; [by apply elem_of_dom; eexists|].
  rewrite (view_frame (kv_pages db) _ p Hsf Hu) in Hv. congruence.
Qed.

Lemma replay_ok fuel : (size P <= fuel)%nat ->
  exists it t' writes h' kvs', BTree_Seek depth (tx_pending tx) [] CMP_GT = Ok it /\
    transfer_loop depth fuel db tx it [] = Ok (set_tree db t', writes, None) /\
    @tree_stores Pager pager_store (cow_store_ok (kv_pages db) (dom m) o0 chain0 items0) h' ∅ t' kvs' r /\
    kv_map kvs' = overlay (kv_map kvs) P /\ (h' <= H)%nat /\
    (bt_root t' = kv_root db -> t' = kv_tree db).
Proof using All.
  intros Hfuel. destruct Hpend as (pkvs & Hps & HP). pose proof Hps as (mp & _ & _ & _ & Hsort & Hsmall).
  pose proof (sorted_nodup _ (sorted_user _ Hsort)) as Hnd.
  assert (size P = length pkvs) as Hsz.
  { rewrite <- HP. unfold kv_map. by rewrite map_size_list_to_map. }
  destruct (Seek_ok hp depth (tx_pending tx) pkvs [] CMP_GT (stores_reads _ _ _ _ _ Hps) Hdp ltac:(right; by left)
    ltac:(by right) ltac:(by left)) as (it & Eit & Hit).
  rewrite (seek_index_first _ Hsort) in Hit.
  assert (Forall (fun p : kv => p.1 <> [] /\ small_kv p /\ flagged_val p.2) pkvs) as Hkeys.
  { apply Forall_forall. intros [k v] Hin. rewrite Forall_forall in Hsmall. split; [|split; [by apply Hsmall|]].
    - apply StronglySorted_inv in Hsort as [_ Hs]. rewrite Forall_forall in Hs. intros Hk. cbn in Hk. subst k.
      apply (irreflexivity blt []), Hs. by apply (list_elem_of_fmap_2 fst) in Hin.
    - apply (Hfl k). rewrite <- HP. by apply map_in. }
  destruct Hstate as [_ _ _ Hsh Hs Hsm Hpg Hb _].
  destruct (transfer_loop_ok (kv_pages db) (dom m) o0 chain0 items0 depth tx h0 kvs0 Hsnap Hd0 hp (tx_pending tx) pkvs Hhp Hkeys Hnd
    fuel db (kv_map kvs) h H r it 1 [] Hit) as (t' & writes & h' & E & Hh' & Ht' & Hsame); [lia|lia| |lia|lia| | |].
  - exists kvs. split; [|done]. exists m. split; [exact Hsh|]. split; [apply map_disjoint_empty_r|].
    rewrite (right_id_L ∅ (∪)). split; [|by split]. apply cow_begin; rewrite Nat.add_sub, <- Hsz; done.
  - cbn [Nat.sub drop]. intros p Hp. rewrite <- kv_get_map. apply Hag. rewrite <- HP. apply key_in; [|done].
    by apply list_elem_of_fmap_2.
  - intros k k' Hk Hk' Hlt. apply (Hdel k k'); [|destruct Hk' as [|Hk']; [by left|right]|done]; rewrite <- HP.
    + by apply map_in.
    + by apply key_in.
  - cbn [Nat.sub drop] in *. change (drop 0 pkvs) with pkvs in Ht', Hsame. rewrite replay_overlay in Ht', Hsame by done. rewrite HP in Ht', Hsame. destruct Ht' as (kvs' & Ht' & HM).
    exists it, t', writes, h', kvs'. split; [exact Eit|]. split; [exact E|]. split; [exact Ht'|]. split; [exact HM|].
    split; [exact Hh'|]. intros Hroot. apply Hsame. rewrite <- HM. by rewrite (same_root_same t' h' kvs' Ht' Hroot).
Qed.
End replay.

(** ** Writing the new tree *)

Section write.
Context (order : gmap Z bytes -> list (Z * bytes)) (Horder : forall m, order m ≡ₚ map_to_list m).
Context (db : KV) (h : nat) (kvs : list kv) (m : heap) (r0 r : nat) (Hstate : db_state db h kvs m r0) (Hfull : full_writes db).
Context (o0 : nat) (chain0 : list Z) (items0 : list item) (Hst0 : pager_state (kv_pages db) o0 chain0 items0 m r0).
Context (t' : BTree Pager) (h' : nat) (kvs' : list kv).
Context (Ht' : @tree_stores Pager pager_store (cow_store_ok (kv_pages db) (dom m) o0 chain0 items0) h' ∅ t' kvs' r).

(** The state that the commit writes. *)
Abbreviation new_db := (set_version (set_tree db t') (u64 (vs_version (kv_vers db) + 1))).

Lemma new_kv_ok : kv_ok new_db.
Proof using Hst0 Hstate Ht'.
  destruct Ht' as (m' & _ & _ & (o & chain & items & (I & _) & (E1 & E2 & _) & _ & Hb & _) & _).
  destruct Hstate as [Hd _ _ _ _ _ _ _ _]. constructor.
  - unfold disk_ok in *. cbn. by rewrite E2.
  - cbn. pose proof (fi_num _ _ _ _ I). split; [lia|]. split; lia.
  - intros p c Hp. destruct (fi_upd _ _ _ _ I p c Hp) as [? ?]. split; [|done]. cbn. lia.
Qed.

(** The pages of the tree before have no pending update. *)
Lemma old_pages p c : m !! p = Some c ->
  0 < p /\ mmapRead (kv_file db) p (kv_chunks db) = Ok c /\ kv_updates new_db !! p = None.
Proof using Hst0 Hstate Ht'.
  intros Hp. destruct (state_read _ _ _ _ _ Hstate p c Hp) as [H0 Hr]. split; [done|]. split; [done|].
  destruct Ht' as (m' & _ & _ & (o & chain & items & _ & _ & _ & _ & HK & _) & _).
  destruct (HK p) as [Hu _]; [by apply elem_of_dom; eexists|].
  destruct Hstate as [_ [Hi _] _ _ _ _ _ _ _]. cbn. by rewrite Hu, Hi, lookup_empty.
Qed.

Lemma new_cover : pg_flushed (kv_pages new_db) = 2 \/
  BTREE_PAGE_SIZE * pg_flushed (kv_pages new_db) <= len (kv_file new_db) /\
  BTREE_PAGE_SIZE * pg_flushed (kv_pages new_db) <= kv_total new_db.
Proof using Hst0 Hstate Ht'.
  destruct Ht' as (m' & _ & _ & (o & chain & items & _ & (E1 & E2 & E3 & _) & _) & _).
  pose proof (ds_file _ _ _ _ _ Hstate) as Hc. cbn. by rewrite E1, E3.
Qed.

(** A new root has been written, or there is a file already. *)
Lemma root_written : bt_root t' <> kv_root db ->
  (exists p, is_Some (kv_updates new_db !! p)) \/ BTREE_PAGE_SIZE <= len (kv_file new_db).
Proof using Hst0 Hstate Ht'.
  intros Hne. pose proof new_cover as [Ef|[Hc _]].
  2:{ right. pose proof new_kv_ok as [_ (Hf & _) _]. unfold BTREE_PAGE_SIZE in *. lia. }
  destruct Ht' as (m' & Hsh & _ & (o & chain & items & (I & _ & Hl & _) & Hsf & Hbd & _) & _).
  rewrite (right_id_L ∅ (∪)) in Hl. change (kv_pages new_db) with (bt_store t') in *. left.
  destruct (decide (bound (bt_store t') = 2)) as [Hb|Hb].
  2:{ exists (bound (bt_store t') - 1). pose proof (fi_num _ _ _ _ I). apply (fi_app _ _ _ _ I). unfold bound in *. lia. }
  exfalso. apply Hne. destruct Hstate as [_ _ _ Hsh0 _ _ (o1 & chain1 & items1 & (I0 & _ & Hl0 & _)) _ _].
  destruct (two_pages _ _ _ _ I Hb) as [-> _].
  assert (pg_flushed (kv_pages db) = 2) as Ef0 by (destruct Hsf as (_ & _ & E & _); congruence).
  destruct (fi_new _ _ _ _ I0 Ef0) as [_ H10].
  destruct (decide (bt_root t' = 0)) as [->|Hr].
  - destruct (decide (kv_root db = 0)) as [->|Hr0]; [done|]. exfalso.
    destruct (shape_root _ _ _ _ Hr0 Hsh0) as (pg & mk & es & -> & _).
    destruct (Hl0 (kv_root db) pg (lookup_insert_eq _ _ _)) as (_ & Hn & Hb0). apply Hn, elem_of_app. left.
    by assert (kv_root db = 1) as -> by lia.
  - exfalso. destruct (shape_root _ _ _ _ Hr Hsh) as (pg & mk & es & -> & _).
    destruct (Hl (bt_root t') pg (lookup_insert_eq _ _ _)) as (_ & Hn & Hb0). apply Hn, elem_of_app. left.
    assert (bt_root t' = 1) as -> by lia. left.
Qed.

(** A commit that fails leaves the database as it was, to be repaired; and what
    it leaves in the file is the state before, or the new one. *)
Lemma write_failed db3 e : kv_failed db = false -> updateOrRevert order new_db (DB_SIG ++ words (meta_words db)) = Ok (db3, Some e) ->
  meta_words db3 = meta_words db /\ db_state db3 h kvs m r0 /\ kv_failed db3 = true /\
  vs_ongoing (kv_vers db3) = vs_ongoing (kv_vers db) /\ vs_history (kv_vers db3) = vs_history (kv_vers db) /\
  (durable db -> kv_root db <> 0 -> sectors db -> file_fine (kv_file db3) ->
     durable (set_failed db3 false) \/
     exists dbN m', kv_file dbN = kv_file db3 /\ durable dbN /\ db_state dbN h' kvs' m' r).
Proof using All.
  intros Hf E. pose proof new_kv_ok as Hok. pose proof (state_words _ _ _ _ _ Hstate) as Hw.
  destruct (updateOrRevert_ok order Horder new_db (DB_SIG ++ words (meta_words db)) (meta_words db) Hok Hw eq_refl eq_refl)
    as (db3' & err & E' & Hd3 & Htot & Hk & Hres). rewrite E in E'. injection E' as <- <-.
  destruct Hres as [(Hlim & Hmw & Hn3 & Hu3 & Hf3 & Hon & Hhi)|[Hf' _]]; [|cbn in Hf'; congruence].
  destruct (updateOrRevert_torn order Horder new_db _ _ _ Hok Hfull Hf E) as [Htorn Hcrash].
  pose proof Ht' as (m' & Hsh & _ & (o & chain & items & Hst & Hsf & _ & Hb & _ & HT) & Hs & Hsm).
  assert (kv_file new_db = kv_file db /\ kv_chunks new_db = kv_chunks db) as [Ef Ec] by (destruct Hsf as (E1 & E2 & _); by split).
  assert (db_state db3 h kvs m r0) as Hst3.
  { destruct Hst0 as (I0 & Hset0 & Hl0 & Hroom0). rewrite Ef in Htorn.
    apply (failed_state db db3 (bt_store t') (new_meta new_db) o0 chain0 items0 I0 Hset0 (ds_idle _ _ _ _ _ Hstate)
      (ds_disk _ _ _ _ _ Hstate) Hd3 Htot (ds_file _ _ _ _ _ Hstate) Hsf (fun p c Hp => proj2 (ko_updates _ Hok p c Hp)) o chain items HT
      Htorn); try done.
    - intros p Hp. unfold new_meta. by rewrite lookup_insert_ne by lia.
    - intros p c Hp. destruct (old_pages p c Hp) as (H0 & Hr & Hu). rewrite <- Ef, <- Ec in Hr.
      eapply keeps_read; [exact Hk|apply (ko_disk _ Hok)|apply Hd3|exact Htot|lia| |exact Hr]. intros [->|[u Hu']]; [lia|congruence]. }
  split; [exact Hmw|]. split; [exact Hst3|]. split; [exact Hf3|]. split; [exact Hon|]. split; [exact Hhi|].
  intros (_ & Hfine & Hmeta) Hroot Hsec Hfine3. destruct (Hcrash Hsec) as [Ht|(dbN & EN & Hfl & Hms & HdN & HtN & HkN)].
  - left. split; [done|]. split; [done|]. intros _. specialize (Hmeta Hroot). unfold meta_saved in *. rewrite saveMeta_layout in *.
    change (meta_words (set_failed db3 false)) with (meta_words db3). rewrite Hmw, Hmeta. f_equal. symmetry. rewrite Ef in Ht.
    destruct (state_numbers _ _ _ _ _ Hstate Hroot) as (_ & _ & _ & Hf2 & Hc & _).
    apply (torn_front _ _ _ _ Ht); [|lia|unfold BTREE_PAGE_SIZE, len in *; lia].
    apply eq_None_not_Some. intros [c Hc0]. apply (ko_updates _ Hok) in Hc0 as [? _]. lia.
  - right. rewrite (right_id_L ∅ (∪)) in Hst.
    exists (set_failed (set_pages (set_vers dbN (kv_vers dbN)) (SetMaxVer (kv_pages dbN) 0)) false), m'.
    split; [exact EN|]. split.
    + split; [done|]. split; [by rewrite <- EN in Hfine3|]. intros _. exact Hms.
    + assert (db_state (set_pages (set_vers dbN (kv_vers dbN)) (SetMaxVer (kv_pages dbN) 0)) h' kvs' m' r) as [H1 H2 H3 H4 H5 H6 H7 H8 H9].
      { apply (flushed_state new_db dbN o chain items m' r Hst new_cover (ko_disk _ Hok) HdN HtN HkN Hfl); try done.
        destruct Hfl as (_ & -> & _). cbn. apply Z.mod_pos_bound. lia. }
      by constructor.
Qed.

Lemma write_ok : bt_root t' <> kv_root db -> exists db3 err, updateOrRevert order new_db (DB_SIG ++ words (meta_words db)) = Ok (db3, err) /\
  vs_ongoing (kv_vers db3) = vs_ongoing (kv_vers db) /\ (kv_io db = [] -> err = None) /\
  match err with
  | None => 0 <= vs_version (kv_vers db3) < 2 ^ 64 /\ kv_failed db3 = false /\ (durable db -> durable db3) /\
      forall vers v, 0 <= vs_version vers < 2 ^ 64 ->
        exists m', db_state (set_pages (set_vers db3 vers) (SetMaxVer (kv_pages db3) v)) h' kvs' m' r
  | Some _ => True
  end.
Proof using All.
  intros Hne. pose proof new_kv_ok as Hok. pose proof (state_words _ _ _ _ _ Hstate) as Hw.
  destruct (updateOrRevert_ok order Horder new_db (DB_SIG ++ words (meta_words db)) (meta_words db) Hok Hw eq_refl eq_refl)
    as (db3 & err & E & Hd3 & Htot & Hk & Hres).
  exists db3, err. split; [exact E|].
  assert (kv_io db = [] -> err = None) as Hq.
  { intros Hio. by eapply (updateOrRevert_quiet order Horder new_db _ _ _ Hok (len_meta _ _ (saveMeta_layout db))). }
  destruct err as [e|].
  - split; [by destruct Hres as [(_ & _ & _ & _ & _ & Hon & _)|[_ (_ & _ & Hv & _)]]; [|rewrite Hv]|]. by split.
  - destruct (Hres Hfull) as (Hfl & Hms & Hnf). pose proof Hfl as (_ & Hv & _). split; [by rewrite Hv|]. split; [exact Hq|].
    assert (0 <= vs_version (kv_vers db3) < 2 ^ 64) as Hver.
    { rewrite Hv. cbn. apply Z.mod_pos_bound. lia. }
    split; [exact Hver|]. split; [exact Hnf|]. split.
    { intros (Hf & Hfine & _). split; [exact Hnf|]. split; [|done]. eapply (updateOrRevert_fine order Horder new_db); [exact Hok|exact Hfull|exact Hf|exact E| |by apply root_written].
      destruct Ht' as (m' & _ & _ & (o & chain & items & _ & (E1 & _) & _) & _). cbn. by rewrite E1. }
    intros vers v Hvers.
    pose proof new_cover as Hcov. destruct Ht' as (m' & Hsh & _ & (o & chain & items & Hst & _ & _ & Hb & _) & Hs & Hsm).
    rewrite (right_id_L ∅ (∪)) in Hst. exists m'.
    by apply (flushed_state new_db db3 o chain items m' r Hst Hcov (ko_disk _ Hok) Hd3 Htot Hk Hfl).
Qed.

End write.

(** ** After a commit that failed *)

(** The database holds [M] as before, with a meta page to be repaired.  Bytes of
    the new pages may be in the file; if it is in order otherwise, what it has
    is a state with the keys [M], or one with the keys [N]. *)
Record undone (db db' : KV) (h : nat) (M : gmap bytes bytes) (r : nat) (H : nat) (N : gmap bytes bytes) (r' : nat) : Prop := {
  un_meta : meta_words db' = meta_words db;
  un_holds : db_holds db' h M r;
  un_failed : kv_failed db' = true;
  un_file : durable db -> kv_root db <> 0 -> sectors db -> file_fine (kv_file db') ->
    exists dbN hN, kv_file dbN = kv_file db' /\ durable dbN /\ (hN <= H)%nat /\
      (db_holds dbN hN M r /\ kv_root dbN <> 0 \/ db_holds dbN hN N r')
}.

Lemma undone_release db db' h M r H N r' vers v : undone db db' h M r H N r' ->
  vs_version vers = vs_version (kv_vers db') ->
  undone db (set_pages (set_vers db' vers) (SetMaxVer (kv_pages db') v)) h M r H N r'.
Proof.
  intros [Hm Hh Hf Hfile] Hv. split; [|apply holds_release; [done|]|done|exact Hfile].
  - rewrite <- Hm. unfold meta_words. cbn. by rewrite Hv.
  - destruct Hh as (kvs & m & HS & _). rewrite Hv. exact (ds_vers _ _ _ _ _ HS).
Qed.

(** If the first system call of a commit fails, the commit fails. *)
Definition first_fails (db db' : KV) (err : option error) (M N : gmap bytes bytes) : Prop :=
  forall n io, kv_failed db = false -> kv_io db = IoErr n :: io ->
    match err with
    | None => N = M
    | Some _ => kv_io db' = io /\ (n = 0%nat -> kv_file db' = kv_file db)
    end.
