(* ===== verification/CommitProps.v ===== *)
(** * Commits

    What [Commit] does: it is refused after a conflict, atomic and durable, a
    crash leaves the keys before or after it, and the database recovers from a
    commit that failed.  Versions and history are those of Conflict.v, the
    steps those of CommitFacts.v. *)

From S2P Require Import Prelude.
From S2P Require Import GoBytes.
From S2P Require Import KVSpec.
From S2P Require Import BSplitFacts.
From S2P Require Import BTree.
From S2P Require Import BTreeRep.
From S2P Require Import BTreeInsert.
From S2P Require Import MemStore.
From S2P Require Import BTreeMap.
From S2P Require Import BIter.
From S2P Require Import Conflict.
From S2P Require Import ConflictFacts.
From S2P Require Import ConflictProps.
From S2P Require Import Pager.
From S2P Require Import PagerFacts.
From S2P Require Import KV.
From S2P Require Import KVFacts.
From S2P Require Import KVCommit.
From S2P Require Import KVTX.
From S2P Require Import KVTXFacts.
From S2P Require Import KVProps.
From S2P Require Import KVTXProps.
From S2P Require Import PagerProps.
From S2P Require Import Flush.
From S2P Require Import Reopen.
From S2P Require Import Crash.
From S2P Require Import Replay.
From S2P Require Import CommitFacts.

Section commit.
Context (sort : list KeyRange -> list KeyRange).
Context (sort_perm : forall l, sort l ≡ₚ l) (sort_sorted : forall l, StronglySorted starts_le (sort l)).
Context (depth : nat) (order : gmap Z bytes -> list (Z * bytes)) (Horder : forall m, order m ≡ₚ map_to_list m).

(** C40.  First committer wins: in every state that transactions can reach, a
    transaction that attempted an update and read a key range into which
    another transaction has committed since it began is refused by [Commit]
    with [ErrorConflict].  Nothing of it reaches the database: the root, the
    file, the mappings, the pending pages and the version are as before, the
    transaction has ended, and ending it again, by [Commit] or [Abort],
    panics. *)
Theorem conflict_aborts version log kv tx fuel :
  0 <= version -> reachable sort version (kv_vers kv, log) -> tx_version tx ∈ vs_ongoing (kv_vers kv) ->
  tx_done tx = false -> tx_updateAttempted tx = true -> Exists (conflicting (tx_version tx) (tx_reads tx)) log ->
  exists kv' tx', kv_Commit depth sort order fuel kv tx = Ok (kv', tx', Some ErrorConflict) /\
    same_data kv kv' /\ ended (tx_version tx) kv kv' /\
    kv_Commit depth sort order fuel kv' tx' = Panic /\ kv_Abort kv' tx' = Panic.
Proof using sort_perm sort_sorted.
  intros H0 Hr Hv Hd Hu Hcon. destruct (reachable_inv sort sort_perm sort_sorted _ _ H0 Hr) as (_ & Hh & _ & _ & _ & Hall).
  cbn [fst snd] in *. unfold kv_Commit at 1. rewrite Hd. cbn [negb]. step_res. unfold commit_body.
  change (tx_updateAttempted (set_done tx)) with (tx_updateAttempted tx). rewrite Hu.
  change (tx_version (set_done tx)) with (tx_version tx). change (tx_reads (set_done tx)) with (tx_reads tx).
  rewrite (detectConflicts_ok sort sort_perm sort_sorted) by done. step_res.
  rewrite bool_decide_true.
  2:{ rewrite Exists_exists in *. destruct Hcon as (c & Hc & Hx). exists c. split; [|done]. eapply Hall; [done|done|]. apply Hx. }
  step_res.
  destruct (tx_finalize_ok kv (set_reads (set_done tx) (sort (tx_reads tx))) Hv) as (kv' & -> & Hs & He). step_res.
  eexists _, _. split; [reflexivity|]. split; [exact Hs|]. split; [exact He|]. by split.
Qed.

(** The same for a transaction that is rolled back. *)
Lemma Abort_ok kv tx : tx_version tx ∈ vs_ongoing (kv_vers kv) -> tx_done tx = false ->
  exists kv', kv_Abort kv tx = Ok (kv', set_done tx) /\ same_data kv kv' /\ ended (tx_version tx) kv kv'.
Proof using.
  intros Hv Hd. unfold kv_Abort. rewrite Hd. cbn [negb]. step_res.
  destruct (tx_finalize_ok kv (set_done tx) Hv) as (kv' & -> & Hs & He). step_res. by exists kv'.
Qed.

(** ** Commits that go through *)

(** The part of [Commit] before the transaction is ended. *)
Lemma commit_body_ok db tx h M r h0 kvs0 hp P H fuel :
  commit_ready depth db tx h M r h0 kvs0 hp P H -> (size P <= fuel)%nat ->
  exists db3 tx3 err, commit_body depth sort order fuel db tx = Ok (db3, tx3, err) /\
    tx_version tx3 = tx_version tx /\ tx_done tx3 = tx_done tx /\
    vs_ongoing (kv_vers db3) = vs_ongoing (kv_vers db) /\
    (kv_io db = [] -> err = None) /\ first_fails db db3 err M (overlay M P) /\
    match err with
    | None => 0 <= vs_version (kv_vers db3) < 2 ^ 64 /\ (kv_failed db3 = true -> kv_failed db = true /\ overlay M P = M) /\
        (durable db -> durable db3) /\ exists h', (h' <= H)%nat /\
        forall vers v, 0 <= vs_version vers < 2 ^ 64 ->
          db_holds (set_pages (set_vers db3 vers) (SetMaxVer (kv_pages db3) v)) h' (overlay M P) r
    | Some _ => kv_failed db = false -> vs_history (kv_vers db3) = vs_history (kv_vers db) /\
        undone db db3 h M (size P * (4 * H + 5) + r) H (overlay M P) r
    end.
Proof using sort_perm sort_sorted Horder.
  intros [(kvs & m & HS & <-) Hfull HH Hsnap Hd0 Hpend Hfl [Hhp Hdp] Hag Hdel Hh Hcon] Hfuel. unfold commit_body.
  assert (exists tx1, (if tx_updateAttempted tx then
       '(c, reads) ← detectConflicts sort (kv_vers db) (tx_version tx) (tx_reads tx); Ok (c, set_reads tx reads)
     else Ok (false, tx)) = Ok (false, tx1) /\ tx_pending tx1 = tx_pending tx /\ tx_root tx1 = tx_root tx /\
     tx_chunks tx1 = tx_chunks tx /\ tx_version tx1 = tx_version tx /\ tx_done tx1 = tx_done tx)
    as (tx1 & -> & Ep & Er & Ec & Ev & Ed).
  { destruct (tx_updateAttempted tx); [|by exists tx]. rewrite (detectConflicts_ok sort sort_perm sort_sorted) by done.
    step_res. rewrite bool_decide_false by by apply Hcon. by eexists. }
  step_res. rewrite saveMeta_layout. step_res. cbv zeta. fold (with_curVer db). rewrite Ep.
  apply state_curVer in HS as HS1.
  assert (snapshot (kv_file (with_curVer db)) tx1 = snapshot (kv_file db) tx) as Esn.
  { unfold snapshot. by rewrite Er, Ec. }
  rewrite <- Esn in Hsnap. rewrite <- Ep in Hpend |- *.
  pose proof (ds_pages _ _ _ _ _ HS1) as (o0 & chain0 & items0 & Hst0).
  destruct (replay_ok depth (with_curVer db) tx1 h kvs m P h0 kvs0 hp H r HS1 HH Hsnap Hd0 o0 chain0 items0 Hst0 Hpend Hfl Hhp Hdp Hag Hdel
    fuel Hfuel) as (it & t' & writes & h' & kvs' & -> & E2 & Ht' & HM & Hh' & Hsame). step_res.
  rewrite E2. step_res. clear E2. change (kv_root (set_tree (with_curVer db) t')) with (bt_root t').
  destruct (Z.eqb_spec (bt_root t') (kv_root db)) as [Hroot|Hroot]; cbn [negb].
  - step_res. pose proof (same_root_same (with_curVer db) h kvs m P H r HS1 o0 chain0 items0 t' h' kvs' Ht' Hroot) as ->.
    rewrite (Hsame Hroot), set_tree_id. eexists _, tx1, None. split; [reflexivity|]. split; [done|]. split; [done|].
    split; [unfold saveHistory; by destruct (0 <? len writes)|]. split; [done|]. split; [by intros n io _ _|].
    split; [unfold saveHistory; destruct (0 <? len writes); exact (ds_vers _ _ _ _ _ HS)|].
    split; [unfold saveHistory; by destruct (0 <? len writes)|].
    split; [apply durable_same; try done; unfold saveHistory; by destruct (0 <? len writes)|].
    exists h. split; [lia|]. intros vers v Hv. rewrite <- HM.
    apply (holds_release (with_curVer db)); [|done]. exists kvs, m. split; [|done].
    eapply state_weaken_room; [exact HS1|lia].
  - destruct (write_ok order Horder (with_curVer db) h kvs m _ r HS1 Hfull o0 chain0 items0 Hst0 t' h' kvs' Ht' Hroot)
      as (db3 & err & E & Hon & Hq & Hres).
    assert (first_fails db db3 err (kv_map kvs) (overlay (kv_map kvs) P)) as Hff.
    { intros n io Hf Hio. destruct (updateOrRevert_first_fails order Horder _ _ _ _ n io
        (new_kv_ok (with_curVer db) h kvs m _ r HS1 o0 chain0 items0 Hst0 t' h' kvs' Ht') Hf Hio E) as (He & Hio' & Hfile).
      destruct err; [split; [done|]|done]. intros ->. rewrite Hfile by done.
      by destruct Ht' as (m' & _ & _ & (o & chain & items & _ & (E1 & _) & _) & _). }
    change (meta_words (with_curVer db)) with (meta_words db) in *.
    change (kv_vers (with_curVer db)) with (kv_vers db) in *.
    change (kv_vers (set_tree (with_curVer db) t')) with (kv_vers db). rewrite E. step_res.
    destruct err as [e|].
    + eexists db3, tx1, (Some e). split; [reflexivity|]. split; [done|]. split; [done|]. split; [done|].
      split; [exact Hq|]. split; [exact Hff|]. intros Hf.
      destruct (write_failed order Horder (with_curVer db) h kvs m _ r HS1 Hfull o0 chain0 items0 Hst0 t' h' kvs' Ht' db3 e Hf E)
        as (Hw & HS3 & Hf3 & _ & Hhis & Hcrash).
      split; [exact Hhis|]. split; [exact Hw|by exists kvs, m|exact Hf3|]. intros Hdur Hroot0 Hsec Hfine.
      destruct (Hcrash ltac:(by apply (durable_same db)) Hroot0 Hsec Hfine) as [Hdur3|(dbN & mN & EN & HdN & HSN)].
      * exists (set_failed db3 false), h. split; [done|]. split; [exact Hdur3|]. split; [lia|]. left. split.
        { exists kvs, m. split; [|done]. by destruct HS3. }
        injection Hw as Hw _. cbn. congruence.
      * exists dbN, h'. split; [done|]. split; [done|]. split; [done|]. right. by exists kvs', mN.
    + destruct Hres as (Hver & Hnf & Hdur & Hres). eexists _, tx1, None. split; [reflexivity|]. split; [done|]. split; [done|].
      split; [unfold saveHistory; by destruct (0 <? len writes)|]. split; [done|].
      split; [exact Hff|].
      split; [unfold saveHistory; destruct (0 <? len writes); exact Hver|].
      split; [unfold saveHistory; destruct (0 <? len writes); cbn; congruence|].
      split.
      { intros Hd. apply (durable_same db3); try done; [unfold saveHistory; by destruct (0 <? len writes)|].
        apply Hdur. by apply (durable_same db). }
      exists h'. split; [done|]. intros vers v Hv. destruct (Hres vers v Hv) as (m' & Hst). by exists kvs', m'.
Qed.

(** All of [Commit]. *)
Lemma Commit_ok db tx h M r h0 kvs0 hp P H fuel :
  commit_ready depth db tx h M r h0 kvs0 hp P H -> tx_version tx ∈ vs_ongoing (kv_vers db) -> tx_done tx = false ->
  (size P <= fuel)%nat ->
  exists db' tx' err, kv_Commit depth sort order fuel db tx = Ok (db', tx', err) /\ tx_done tx' = true /\
    (exists l1 l2, vs_ongoing (kv_vers db) = l1 ++ tx_version tx :: l2 /\ vs_ongoing (kv_vers db') = l1 ++ l2) /\
    (kv_io db = [] -> err = None) /\ first_fails db db' err M (overlay M P) /\
    match err with
    | None => (kv_failed db' = true -> kv_failed db = true /\ overlay M P = M) /\ (durable db -> durable db') /\
        exists h', (h' <= H)%nat /\ db_holds db' h' (overlay M P) r
    | Some _ => kv_failed db = false -> (exists v, vs_history (kv_vers db') = trim_history v (vs_history (kv_vers db))) /\
        undone db db' h M (size P * (4 * H + 5) + r) H (overlay M P) r
    end.
Proof using sort_perm sort_sorted Horder.
  intros Hready Hv Hd Hfuel. unfold kv_Commit. rewrite Hd. cbn [negb]. step_res.
  destruct (commit_body_ok db (set_done tx) h M r h0 kvs0 hp P H fuel) as (db3 & tx3 & err & E & Ev & Ed & Eon & Hq & Hff & Hres).
  { by destruct Hready. }
  { done. }
  rewrite E. step_res. change (tx_version (set_done tx)) with (tx_version tx) in Ev.
  destruct (tx_finalize_eq db3 tx3) as (vers & v & -> & (Hver & l1 & l2 & El1 & El2) & Hhis); [congruence|]. step_res.
  eexists _, tx3, err. split; [reflexivity|]. split; [done|]. split; [exists l1, l2; split; [congruence|exact El2]|].
  split; [exact Hq|]. split; [exact Hff|]. cbn in Hver. destruct err as [e|].
  - intros Hf. destruct (Hres Hf) as (Hh3 & Hun). split; [exists v; cbn; congruence|]. by apply undone_release.
  - destruct Hres as (Hv3 & Hnf & Hdur & h' & Hh' & Hall). split; [exact Hnf|]. split.
    + intros Hdb. apply (durable_same db3); auto. unfold meta_words. cbn. by rewrite Hver.
    + exists h'. split; [done|]. apply Hall. by rewrite Hver.
Qed.

(** C4.  [Commit] is atomic. A transaction in the state of [commit_ready] (no
    conflict; the tree of pending updates has at most two levels and no deleted
    key is shorter than a key after it; no write is cut short without an error,
    whose count the code ignores) commits without a panic, whatever else the
    system calls answer and in whatever order pages are written, and an error is
    reported only if a system call fails. If it reports success, the database
    holds its map with the updates applied, ready for the next commit: that tree
    is in the file, the free list is well formed, nothing is pending. If it
    reports an error (and no earlier one is still to be repaired), the database
    holds its map as before, with the meta data and room of before: the pages
    taken are free again, although bytes of theirs may have reached the file. A
    transaction that begins next sees all of the updates, or none. The loop over
    the updates ends; the transaction is done and off the list of running ones. *)
Theorem commit_atomic db tx h M r h0 kvs0 hp P H fuel :
  commit_ready depth db tx h M r h0 kvs0 hp P H -> tx_version tx ∈ vs_ongoing (kv_vers db) -> tx_done tx = false ->
  (size P <= fuel)%nat ->
  exists db' tx' err, kv_Commit depth sort order fuel db tx = Ok (db', tx', err) /\ tx_done tx' = true /\
    (exists l1 l2, vs_ongoing (kv_vers db) = l1 ++ tx_version tx :: l2 /\ vs_ongoing (kv_vers db') = l1 ++ l2) /\
    (kv_io db = [] -> err = None) /\
    match err with
    | None => exists h', (h' <= H)%nat /\ db_holds db' h' (overlay M P) r /\
        forall r', Z.of_nat r' < 2 ^ 63 -> tx_sees (kv_file db') h' 0 (snd (kv_Begin db')) (overlay M P) r'
    | Some _ => kv_failed db = false -> meta_words db' = meta_words db /\ db_holds db' h M (size P * (4 * H + 5) + r) /\
        forall r', Z.of_nat r' < 2 ^ 63 -> tx_sees (kv_file db') h 0 (snd (kv_Begin db')) M r'
    end.
Proof using sort_perm sort_sorted Horder.
  intros Hready Hv Hd Hfuel.
  destruct (Commit_ok db tx h M r h0 kvs0 hp P H fuel Hready Hv Hd Hfuel) as (db' & tx' & err & E & Ed & Hon & Hq & _ & Hres).
  exists db', tx', err. split_and!; try done. destruct err.
  - intros Hf. destruct (Hres Hf) as (_ & [Hmw Hh _ _]). split; [done|]. split; [done|]. intros r' Hr'. by eapply holds_begin.
  - destruct Hres as (_ & _ & h' & Hh' & Hdb).
    exists h'. split; [done|]. split; [done|]. intros r' Hr'. by apply (holds_begin _ _ _ r).
Qed.

(** C5.  A commit is durable. When the file of the database is in order (it was
    made by commits, none of which has failed), a [Commit] in the state of
    [commit_ready] (see C4; so no write was cut short without an error) that
    reports success leaves the file in order, and either nothing has ever been
    written and the map is empty, or [Open] on the bytes of the file as they are
    then succeeds and gives a database that holds the map with the updates
    applied, under the same root, page count, free list and version: a
    transaction that begins in it sees all of them. *)
Theorem commit_durable db tx h M r h0 kvs0 hp P H fuel db' tx' :
  commit_ready depth db tx h M r h0 kvs0 hp P H -> tx_version tx ∈ vs_ongoing (kv_vers db) -> tx_done tx = false ->
  (size P <= fuel)%nat -> durable db ->
  kv_Commit depth sort order fuel db tx = Ok (db', tx', None) ->
  durable db' /\
  (kv_root db' = 0 /\ overlay M P = ∅ \/
   exists db'' h', Open (kv_file db') [] = Ok (db'', None) /\ (h' <= H)%nat /\ db_holds db'' h' (overlay M P) r /\
     meta_words db'' = meta_words db' /\
     forall r', Z.of_nat r' < 2 ^ 63 -> tx_sees (kv_file db'') h' 0 (snd (kv_Begin db'')) (overlay M P) r').
Proof using sort_perm sort_sorted Horder.
  intros Hready Hv Hd Hfuel Hdur HE.
  destruct (Commit_ok db tx h M r h0 kvs0 hp P H fuel Hready Hv Hd Hfuel) as (d & x & err & E & _ & _ & _ & _ & Hres).
  rewrite E in HE. injection HE as -> -> ->. destruct Hres as (_ & Hdur' & h' & Hh' & Hdb). specialize (Hdur' Hdur).
  split; [done|]. destruct (decide (kv_root db' = 0)) as [H0|H0].
  - left. split; [done|]. by apply (holds_root _ _ _ _ Hdb).
  - right. destruct (Open_ok db' h' (overlay M P) r [] Hdb Hdur' H0 eq_refl) as (db'' & Eo & Ho & Hm).
    exists db'', h'. split_and!; try done. intros r' Hr'. by apply (holds_begin _ _ _ r).
Qed.

(** C6.  A commit is safe against crashes. When the file of the database is in
    order and has a tree, and a [Commit] in the state of [commit_ready] (see C4)
    fails, at whichever system call (the writes and syncs after it are not made,
    so this is also the file that a crash at that point leaves; a failed write
    may have written any number of sectors), then the file, if it is still a
    number of whole pages, has the map before the commit or the map after it,
    and nothing else: [Open] on its bytes succeeds, the database that it gives
    holds one of the two maps with a well-formed free list and room to go on,
    and a transaction that begins in it sees that map. (A commit that deletes
    the last key is left out.) *)
Theorem commit_crash_safe db tx h M r h0 kvs0 hp P H fuel db' tx' e :
  commit_ready depth db tx h M r h0 kvs0 hp P H -> tx_version tx ∈ vs_ongoing (kv_vers db) -> tx_done tx = false ->
  (size P <= fuel)%nat -> durable db -> kv_root db <> 0 -> sectors db -> overlay M P <> ∅ ->
  kv_Commit depth sort order fuel db tx = Ok (db', tx', Some e) -> file_fine (kv_file db') ->
  exists db'' h' M', Open (kv_file db') [] = Ok (db'', None) /\ (M' = M \/ M' = overlay M P) /\
    (h' <= H)%nat /\ db_holds db'' h' M' r /\
    forall r', Z.of_nat r' < 2 ^ 63 -> tx_sees (kv_file db'') h' 0 (snd (kv_Begin db'')) M' r'.
Proof using sort_perm sort_sorted Horder.
  intros Hready Hv Hd Hfuel Hdur Hroot Hsec Hne HE Hfine.
  destruct (Commit_ok db tx h M r h0 kvs0 hp P H fuel Hready Hv Hd Hfuel) as (d & x & err & E & _ & _ & _ & _ & Hres).
  rewrite E in HE. injection HE as -> -> ->. destruct (Hres (proj1 Hdur)) as (_ & [_ _ _ Hfile]).
  destruct (Hfile Hdur Hroot Hsec Hfine) as (dbN & hN & <- & HdN & HhN & HM).
  assert (exists M', (M' = M \/ M' = overlay M P) /\ db_holds dbN hN M' r /\ kv_root dbN <> 0) as (M' & HM' & Hh & HrN).
  { destruct HM as [[Hh HrN]|Hh].
    - exists M. split; [by left|]. split; [|done]. eapply holds_weaken; [exact Hh|lia].
    - exists (overlay M P). split; [by right|]. split; [done|]. intros H0. by apply Hne, (holds_root _ _ _ _ Hh). }
  destruct (Open_ok dbN hN M' r [] Hh HdN HrN eq_refl) as (db'' & Eo & Ho & _).
  exists db'', hN, M'. split_and!; try done. intros r' Hr'. by apply (holds_begin _ _ _ r).
Qed.


End commit.

(** Two transactions, one of which has committed a key that the other read. *)
Example conflict_aborts_witness :
  exists kv' tx',
    kv_Commit 1 sort_ranges map_to_list 5
      (mkKV 0 (mkPager [] [] 0 0 ∅ (mkFreeList 0 0 0 0 0 0 0)) 0 false
        (mkVersions 6 [5] [mkCommittedTX 6 [at_key Byte.x61]]) [])
      (mkKVTX 0 [] 5 (mkBTree 0 []) [mkKeyRange [] [Byte.x62]] true false) = Ok (kv', tx', Some ErrorConflict).
Proof.
  destruct (conflict_aborts sort_ranges sort_ranges_perm sort_ranges_sorted 1 map_to_list 5
    [mkCommittedTX 6 [at_key Byte.x61]]
    (mkKV 0 (mkPager [] [] 0 0 ∅ (mkFreeList 0 0 0 0 0 0 0)) 0 false
      (mkVersions 6 [5] [mkCommittedTX 6 [at_key Byte.x61]]) [])
    (mkKVTX 0 [] 5 (mkBTree 0 []) [mkKeyRange [] [Byte.x62]] true false) 5) as (kv' & tx' & E & _).
  - lia.
  - exact two_and_a_commit.
  - left.
  - reflexivity.
  - reflexivity.
  - apply (bool_decide_eq_true_1 _). vm_compute. reflexivity.
  - exists kv', tx'. exact E.
Defined.

(** ** Commits of one key *)

(** What [Open] makes of an empty file. *)
Definition db_empty : KV := mkKV 0 new_pager 0 false (mkVersions 0 [] []) [].

Lemma Open_empty : Open [] [] = Ok (db_empty, None).
Proof. vm_compute. reflexivity. Qed.

(** The one pending update. *)
Abbreviation set_a v := ({[key_a := FLAG_UPDATED :: v]} : gmap bytes bytes).

Lemma one_size v : size (set_a v) = 1%nat.
Proof. apply map_size_singleton. Qed.

Lemma one_fuel v : (size (set_a v) <= 1)%nat.
Proof. by rewrite one_size. Qed.

Lemma one_overlay M v : overlay M (set_a v) = <[key_a := v]> M.
Proof. by rewrite <- (insert_empty key_a (FLAG_UPDATED :: v)), overlay_set, overlay_empty. Qed.

Lemma one_pending v : small_kv (key_a, FLAG_UPDATED :: v) ->
  exists t' hp, (hp <= 1)%nat /\ tree_models hp ∅ t' (set_a v) 0.
Proof.
  intros Hs. destruct (pending_empty db_empty ∅ 5 ltac:(lia)) as (Hp & _).
  destruct (pending_Update 1 0 ltac:(lia) tx_new ∅ key_a (FLAG_UPDATED :: v) 0 Hp ltac:(done)
    Hs ltac:(by rewrite lookup_empty)) as (t' & q & hp' & _ & Hh & Ht).
  by exists t', hp'.
Qed.

(** A transaction that has just begun and has set the key can be committed. *)
Lemma one_ready db h M v H r : db_holds db h M (4 * H + 5 + r) -> (h < H)%nat -> vs_history (kv_vers db) = [] -> full_writes db ->
  (forall k v, M !! k = Some v -> k = key_a) -> small_kv (key_a, FLAG_UPDATED :: v) ->
  exists t' hp kvs, commit_ready (S H) (fst (kv_Begin db)) (set_attempted (set_pending (snd (kv_Begin db)) t'))
    h M r h kvs hp (set_a v) H.
Proof.
  intros Hh Hlt Hhis Hfull HM Hs. destruct (one_pending v Hs) as (t' & hp & Hhp & Ht). pose proof Hh as (kvs & m & HS & HM').
  exists t', hp, kvs. constructor; try done; rewrite ?one_size.
  - apply holds_begun. by rewrite Nat.mul_1_l.
  - lia.
  - exact (state_snapshot _ _ _ _ _ HS).
  - lia.
  - intros k w. rewrite lookup_singleton_Some. intros [_ <-]. left. by exists v.
  - lia.
  - intros k _. by rewrite HM'.
  - intros k k'. rewrite lookup_singleton_Some. intros [_ Hv]. discriminate Hv.
  - cbn. rewrite Hhis. split; constructor.
  - intros _ Hex. cbn in Hex. rewrite Hhis in Hex. by apply Exists_nil in Hex.
Qed.

(** No transaction is running, and what the system calls will answer. *)
Definition with_io (db : KV) (io : list outcome) : KV :=
  mkKV (kv_root db) (kv_pages db) (kv_total db) (kv_failed db) (mkVersions (vs_version (kv_vers db)) [] []) io.

Lemma empty_holds io r : Z.of_nat r < 2 ^ 32 -> db_holds (with_io db_empty io) 0 ∅ r.
Proof.
  intros Hr. exists [], ∅. split; [|done]. constructor; try done.
  - split; [done|]. split; [by split|]. by exists 0.
  - by repeat constructor.
  - by apply new_pager_ok.
  - unfold bound. cbn. lia.
  - by left.
Qed.

(** The first commit, and what it leaves. *)
Lemma first_ready io r : Forall complete io -> Z.of_nat r < 2 ^ 31 ->
  exists t' hp kvs, commit_ready 3 (fst (kv_Begin (with_io db_empty io)))
    (set_attempted (set_pending (snd (kv_Begin (with_io db_empty io))) t')) 0 ∅ r 0 kvs hp (set_a val_1) 2.
Proof.
  intros Hio Hr. apply one_ready; [apply empty_holds; lia|lia|done|exact Hio| |apply small_a]. intros k v. by rewrite lookup_empty.
Qed.

(** The first commit, and what it leaves. *)
Lemma first_commit io : exists db h, db_holds (with_io db io) h {[key_a := val_1]} 17 /\ (h <= 2)%nat /\
  durable (with_io db io) /\ kv_root db <> 0.
Proof.
  destruct (first_ready [] 17 ltac:(constructor) ltac:(lia)) as (t' & hp & kvs & Hready).
  destruct (Commit_ok sort_ranges sort_ranges_perm sort_ranges_sorted 3 map_to_list order_id _ _ _ _ _ _ _ _ _ _ 1
    Hready ltac:(left) eq_refl (one_fuel _)) as (db & tx' & err & E & _ & _ & Hq & _ & Hres).
  rewrite (Hq eq_refl), one_overlay in *. destruct Hres as (_ & Hdur & h & Hh & Hdb).
  assert (durable db) as Hd.
  { apply Hdur. split; [done|]. split; [|by intros []]. split; [by exists 0|done]. }
  exists db, h. split_and!; [|done|by apply (durable_same db)|].
  - destruct Hdb as (k & m & HS & HM). exists k, m. split; [by destruct HS|]. by rewrite HM, insert_empty.
  - intros H0%(holds_root _ _ _ _ Hdb). by apply (insert_non_empty ∅ key_a val_1).
Qed.

(** A transaction that sets the key again. *)
Definition val_2 : bytes := bytes_of "2".

Lemma second_ready db h io : Forall complete io -> db_holds (with_io db io) h {[key_a := val_1]} 17 -> (h <= 2)%nat ->
  exists t' hp kvs, commit_ready 4 (fst (kv_Begin (with_io db io)))
    (set_attempted (set_pending (snd (kv_Begin (with_io db io))) t')) h {[key_a := val_1]} 0 h kvs hp (set_a val_2) 3.
Proof.
  intros Hio Hh Hle. apply one_ready; [exact Hh|lia|done|exact Hio| |unfold small_kv, SMALL_COST; cbn; lia].
  intros k v. rewrite lookup_singleton_Some. by intros [<- _].
Qed.

Example commit_atomic_witness :
  exists tx db' tx' h', kv_Commit 3 sort_ranges map_to_list 1 (fst (kv_Begin (with_io db_empty []))) tx = Ok (db', tx', None) /\
    db_holds db' h' {[key_a := val_1]} 0 /\
    tx_sees (kv_file db') h' 0 (snd (kv_Begin db')) {[key_a := val_1]} 0.
Proof.
  destruct (first_ready [] 0 ltac:(constructor) ltac:(lia)) as (t' & hp & kvs & Hready).
  destruct (commit_atomic sort_ranges sort_ranges_perm sort_ranges_sorted 3 map_to_list order_id _ _ _ _ _ _ _ _ _ _ 1
    Hready ltac:(left) eq_refl (one_fuel _)) as (db' & tx' & err & E & _ & _ & Hq & Hres).
  rewrite (Hq eq_refl), one_overlay, insert_empty in *. destruct Hres as (h' & _ & Hh & Hs).
  eexists _, db', tx', h'. split; [exact E|]. split; [exact Hh|]. apply Hs. lia.
Defined.

(** Opening the file that the first commit has written. *)
Example commit_durable_witness :
  exists tx db' tx' db'' h', kv_Commit 3 sort_ranges map_to_list 1 (fst (kv_Begin (with_io db_empty []))) tx = Ok (db', tx', None) /\
    Open (kv_file db') [] = Ok (db'', None) /\ db_holds db'' h' {[key_a := val_1]} 0.
Proof.
  destruct (first_ready [] 0 ltac:(constructor) ltac:(lia)) as (t' & hp & kvs & Hready).
  destruct (Commit_ok sort_ranges sort_ranges_perm sort_ranges_sorted 3 map_to_list order_id _ _ _ _ _ _ _ _ _ _ 1
    Hready ltac:(left) eq_refl (one_fuel _)) as (db' & tx' & err & E & _ & _ & Hq & _).
  rewrite (Hq eq_refl) in E.
  destruct (commit_durable sort_ranges sort_ranges_perm sort_ranges_sorted 3 map_to_list order_id _ _ _ _ _ _ _ _ _ _ 1
    db' tx' Hready ltac:(left) eq_refl (one_fuel _)) as (_ & [[_ Hbad]|(db'' & h' & Eo & _ & Hh & _)]).
  - split; [done|]. split; [|by intros []]. split; [by exists 0|done].
  - exact E.
  - rewrite one_overlay in Hbad. exfalso. by apply (insert_non_empty ∅ key_a val_1).
  - rewrite one_overlay, insert_empty in *. eexists _, db', tx', db'', h'. split; [exact E|]. split; [exact Eo|exact Hh].
Defined.

(** The first system call of the second commit fails: the file is as before. *)
Example commit_crash_safe_witness :
  exists db tx db' tx' e db'' h' v,
    kv_Commit 4 sort_ranges map_to_list 1 (fst (kv_Begin (with_io db [IoErr 0]))) tx = Ok (db', tx', Some e) /\
    Open (kv_file db') [] = Ok (db'', None) /\ db_holds db'' h' {[key_a := v]} 0 /\ (v = val_1 \/ v = val_2).
Proof.
  destruct (first_commit [IoErr 0]) as (db & h & Hh & Hle & Hd & Hr).
  destruct (second_ready db h [IoErr 0] ltac:(by repeat constructor) Hh Hle) as (t' & hp & kvs & Hready).
  destruct (Commit_ok sort_ranges sort_ranges_perm sort_ranges_sorted 4 map_to_list order_id _ _ _ _ _ _ _ _ _ _ 1
    Hready ltac:(left) eq_refl (one_fuel _)) as (db' & tx' & err & E & _ & _ & _ & Hff & _).
  specialize (Hff 0%nat [] (proj1 Hd) eq_refl). rewrite one_overlay, insert_singleton_eq in Hff. destruct err as [e|].
  2:{ apply (f_equal (.!! key_a)) in Hff. rewrite !lookup_singleton_eq in Hff. discriminate Hff. }
  destruct Hff as [_ Hfile]. specialize (Hfile eq_refl).
  destruct (commit_crash_safe sort_ranges sort_ranges_perm sort_ranges_sorted 4 map_to_list order_id _ _ _ _ _ _ _ _ _ _ 1
    db' tx' e Hready ltac:(left) eq_refl (one_fuel _)) as (db'' & h' & M' & Eo & HM & _ & Hh' & _).
  - by apply (durable_same (with_io db [IoErr 0])).
  - exact Hr.
  - repeat constructor. by exists 0.
  - rewrite one_overlay. apply insert_non_empty.
  - exact E.
  - rewrite Hfile. exact (proj1 (proj2 Hd)).
  - rewrite one_overlay, insert_singleton_eq in HM. destruct HM as [-> | ->].
    + eexists db, _, db', tx', e, db'', h', val_1. split; [exact E|]. split; [exact Eo|]. split; [exact Hh'|by left].
    + eexists db, _, db', tx', e, db'', h', val_2. split; [exact E|]. split; [exact Eo|]. split; [exact Hh'|by right].
Defined.

