(* ===== verification/RangeFacts.v ===== *)
(** * Range queries of a transaction

    [CombinedIter] merges the pairs of the pending tree with those of the
    snapshot.  An iterator stands for the list of pairs that are still to
    come, in its direction ([rest_at]); the combined iterator for the merge of
    two such lists, as far as they are in the range ([ci_list]). *)

From S2P Require Import Prelude.
From S2P Require Import GoBytes.
From S2P Require Import KVSpec.
From S2P Require Import BTree.
From S2P Require Import BTreeRep.
From S2P Require Import MemStore.
From S2P Require Import BTreeMap.
From S2P Require Import BIter.
From S2P Require Import BIterProps.
From S2P Require Import EncodeFacts.
From S2P Require Import KVTX.

(** ** Sorted lists and filters *)

Lemma filter_Forall_none {A} (P : A -> Prop) `{forall x, Decision (P x)} l : Forall (fun x => ~ P x) l -> filter P l = [].
Proof. induction 1 as [|x l Hx _ IH]; [done|]. by rewrite filter_cons_False. Qed.

Lemma StronglySorted_filter {A} (R : relation A) (P : A -> Prop) `{forall x, Decision (P x)} l :
  StronglySorted R l -> StronglySorted R (filter P l).
Proof.
  induction 1 as [|x l _ IH Hx]; [constructor|]. rewrite filter_cons. destruct (decide (P x)); [|done].
  constructor; [done|]. rewrite Forall_forall in *. intros y [_ Hy]%list_elem_of_filter. by apply Hx.
Qed.

(** A property that is lost once along a sorted list cuts it in two. *)
Lemma filter_cut {A} (R : relation A) (P : A -> Prop) `{forall x, Decision (P x)} l :
  StronglySorted R l -> (forall x y, R x y -> P y -> P x) -> l = filter P l ++ filter (fun x => ~ P x) l.
Proof.
  intros Hs HP. induction Hs as [|x l _ IH Hx]; [done|]. rewrite !filter_cons.
  destruct (decide (P x)) as [Hp|Hp]; [rewrite decide_False by (intros Hn; by apply Hn)|rewrite decide_True by done].
  - cbn. by f_equal.
  - assert (filter P l = []) as E.
    { apply filter_Forall_none. eapply Forall_impl; [exact Hx|]. intros y Hy Hpy. by apply Hp, (HP x y). }
    rewrite E in *. cbn in *. by f_equal.
Qed.

Lemma elem_of_rev {A} (x : A) l : x ∈ rev l <-> x ∈ l.
Proof. by rewrite !list_elem_of_In, <- in_rev. Qed.

Lemma filter_rev {A} (P : A -> Prop) `{forall x, Decision (P x)} l : filter P (rev l) = rev (filter P l).
Proof.
  induction l as [|x l IH]; [done|]. cbn [rev]. rewrite filter_app, IH, !filter_cons. cbn.
  destruct (decide (P x)); [done|]. by rewrite app_nil_r.
Qed.

Lemma StronglySorted_rev {A} (R : relation A) l : StronglySorted R l -> StronglySorted (flip R) (rev l).
Proof.
  induction 1 as [|x l _ IH Hx]; [constructor|]. cbn. apply StronglySorted_app. split_and!; [|done|by repeat constructor].
  intros y z Hy Hz. apply (proj1 (elem_of_rev _ _)) in Hy. apply list_elem_of_singleton in Hz as ->. rewrite Forall_forall in Hx. unfold flip.
  by apply Hx.
Qed.

(** ** Pairs in a direction *)

(** The order of the keys in the direction of a comparison. *)
Definition kv_before (d : Z) (p q : kv) : Prop := if 0 <? d then blt p.1 q.1 else blt q.1 p.1.

#[export] Instance kv_before_trans d : Transitive (kv_before d).
Proof. intros p q r. unfold kv_before. destruct (0 <? d); intros H1 H2; by etransitivity. Qed.

Definition in_direction (d : Z) (kvs : list kv) : list kv := if 0 <? d then kvs else rev kvs.

Lemma in_direction_elem d kvs p : p ∈ in_direction d kvs <-> p ∈ kvs.
Proof. unfold in_direction. destruct (0 <? d); [done|apply elem_of_rev]. Qed.

Lemma in_direction_sorted d kvs : sorted_kvs kvs -> StronglySorted (kv_before d) (in_direction d kvs).
Proof.
  intros Hs. assert (StronglySorted (fun p q : kv => blt p.1 q.1) kvs) as Hs'.
  { unfold sorted_keys in Hs. clear d. induction kvs as [|p kvs IH]; [constructor|]. cbn in Hs.
    apply StronglySorted_inv in Hs as [Hs Hp]. constructor; [auto|]. by rewrite Forall_fmap in Hp. }
  unfold in_direction, kv_before. destruct (0 <? d); [done|]. by apply StronglySorted_rev in Hs'.
Qed.

(** The pairs for which a comparison holds are the last ones in its direction. *)
Lemma seek_index_cut kvs key cmp : sorted_kvs kvs -> is_cmp cmp ->
  (if 0 <? cmp then drop (seek_index kvs key cmp - 1) kvs else rev (take (seek_index kvs key cmp) kvs)) =
  filter (fun p => cmp_holds p.1 cmp key) (in_direction cmp kvs).
Proof.
  intros Hs Hc. pose proof (in_direction_sorted 1 kvs Hs) as Hs'. change (in_direction 1 kvs) with kvs in Hs'.
  assert (forall p q : kv, kv_before 1 p q -> ble q.1 key -> ble p.1 key) as Hle.
  { intros p q Hpq Hq. apply blt_ble. change (blt p.1 q.1) in Hpq. apply ble_lteq in Hq as [Hq|Hq]; [by etransitivity|by rewrite <- Hq]. }
  assert (forall p q : kv, kv_before 1 p q -> blt q.1 key -> blt p.1 key) as Hlt.
  { intros p q Hpq Hq. change (blt p.1 q.1) in Hpq. by etransitivity. }
  pose proof (filter_cut _ _ _ Hs' Hle) as Ele. pose proof (filter_cut _ _ _ Hs' Hlt) as Elt.
  unfold in_direction, seek_index, count_le, count_lt. destruct Hc as [-> |[-> |[-> | ->]]]; cbn -[Nat.sub].
  - rewrite Nat.sub_succ, Nat.sub_0_r. rewrite Elt at 2. rewrite drop_app_length.
    apply list_filter_iff. intros p. unfold cmp_holds. cbn. by rewrite not_blt.
  - rewrite Nat.sub_succ, Nat.sub_0_r. rewrite Ele at 2. rewrite drop_app_length.
    apply list_filter_iff. intros p. unfold cmp_holds. cbn. by rewrite not_ble.
  - rewrite Elt at 2. rewrite take_app_length, filter_rev. done.
  - rewrite Ele at 2. rewrite take_app_length, filter_rev. done.
Qed.

(** ** One iterator *)

Section rest.
Context {PS : Type} `{PageReadOk PS}.

(** [l] is what [it] has still to yield in the direction [d]. *)
Definition rest_at (d : Z) (h : nat) (it : BIter PS) (l : list kv) : Prop :=
  exists t kvs n, iter_at h t kvs it n /\
    if 0 <? d then (1 <= n)%nat /\ l = drop (n - 1) kvs else (n <= length kvs)%nat /\ l = rev (take n kvs).

Lemma rest_Valid d h it l : rest_at d h it l -> BIter_Valid it = Ok (bool_decide (l <> [])).
Proof using.
  intros (t & kvs & n & Hit & Hl). rewrite (Valid_ok _ _ _ _ _ Hit). f_equal. apply bool_decide_ext.
  destruct (0 <? d); destruct Hl as [Hn ->].
  - rewrite <- length_zero_iff_nil, length_drop. lia.
  - rewrite <- length_zero_iff_nil, length_rev, length_take. lia.
Qed.

Lemma rest_Deref d h it p l : rest_at d h it (p :: l) -> BIter_Deref it = Ok p.
Proof using.
  intros (t & kvs & n & Hit & Hl). destruct (0 <? d); destruct Hl as [Hn Hl].
  - apply (Deref_ok _ _ _ _ _ _ Hit Hn). pose proof (lookup_drop kvs (n - 1) 0) as E. rewrite <- Hl, Nat.add_0_r in E. by symmetry.
  - destruct n as [|n]; [done|]. apply (Deref_ok _ _ _ _ _ _ Hit ltac:(lia)). rewrite Nat.sub_succ, Nat.sub_0_r.
    destruct (lookup_lt_is_Some_2 kvs n ltac:(lia)) as [q Hq]. rewrite (take_S_r _ _ _ Hq), rev_app_distr in Hl. by injection Hl as ->.
Qed.

Lemma rest_move d h it p l : rest_at d h it (p :: l) -> (h <= 1)%nat \/ d < 0 \/ l <> [] ->
  exists it', (if 0 <? d then BIter_Next it else BIter_Prev it) = Ok it' /\ rest_at d h it' l.
Proof using.
  intros (t & kvs & n & Hit & Hl) Hm. unfold rest_at. destruct (Z.ltb_spec 0 d) as [Hd|Hd]; destruct Hl as [Hn Hl].
  - pose proof (f_equal length Hl) as Hlen. rewrite length_drop in Hlen. cbn in Hlen.
    destruct (Next_ok _ _ _ _ _ Hit) as (it' & -> & Hit').
    { destruct Hm as [|[|Hm]]; [by left|lia|right]. destruct l; [done|]. cbn in Hlen. lia. }
    exists it'. split; [done|]. eexists t, kvs, _. split; [exact Hit'|]. rewrite Nat.min_l by lia. split; [lia|].
    rewrite Nat.sub_succ, Nat.sub_0_r. replace n with ((n - 1) + 1)%nat by lia.
    rewrite <- drop_drop, <- Hl. done.
  - destruct n as [|n]; [done|]. destruct (Prev_ok _ _ _ _ _ Hit) as (it' & -> & Hit').
    exists it'. split; [done|]. exists t, kvs, n. rewrite Nat.sub_succ, Nat.sub_0_r in Hit'. split; [exact Hit'|]. split; [lia|].
    destruct (lookup_lt_is_Some_2 kvs n ltac:(lia)) as [q Hq]. rewrite (take_S_r _ _ _ Hq), rev_app_distr in Hl. by injection Hl as _ ->.
Qed.

Lemma rest_Seek h depth t kvs key cmp :
  tree_reads h t kvs -> (h < depth)%nat -> is_cmp cmp -> key <> [] \/ cmp <> CMP_GE ->
  (h <= 1)%nat \/ cmp < 0 \/ Exists (fun p : kv => cmp_holds p.1 cmp key) kvs ->
  exists it, BTree_Seek depth t key cmp = Ok it /\
    rest_at cmp h it (filter (fun p => cmp_holds p.1 cmp key) (in_direction cmp kvs)).
Proof using.
  intros Ht Hd Hc Hk Hm. pose proof Ht as (_ & _ & _ & _ & _ & Hs%sorted_user).
  pose proof (count_le_length kvs key) as Hcle. pose proof (count_lt_length kvs key) as Hclt.
  pose proof (seek_index_cut kvs key cmp Hs Hc) as Hcut.
  destruct (Seek_ok h depth t kvs key cmp Ht Hd Hc Hk) as (it & E & Hit).
  { destruct Hm as [|[Hneg|Hex]]; [by left|right..].
    - destruct Hc as [-> |[-> |[-> | ->]]]; (done || (unfold seek_index; cbn; lia)).
    - apply Exists_exists in Hex as (p & Hp & Hh).
      assert (p ∈ filter (fun p => cmp_holds p.1 cmp key) (in_direction cmp kvs)) as Hin.
      { apply list_elem_of_filter. split; [done|by apply in_direction_elem]. }
      destruct (Nat.le_gt_cases (seek_index kvs key cmp) (length kvs)) as [|Hgt]; [done|]. exfalso. rewrite <- Hcut in Hin.
      assert (0 <? cmp = true) as Hpos.
      { destruct Hc as [-> |[-> |[-> | ->]]]; try done; unfold seek_index in Hgt; cbn in Hgt; lia. }
      rewrite Hpos, drop_ge in Hin by lia. by apply elem_of_nil in Hin. }
  exists it. split; [done|]. eexists t, kvs, _. split; [exact Hit|]. rewrite <- Hcut.
  unfold seek_index. destruct Hc as [-> |[-> |[-> | ->]]]; cbn -[Nat.sub]; (split; [lia|done]).
Qed.

End rest.

(** ** Two iterators *)

(** The merge of the pending pairs [lt], whose values carry a flag, and of the
    pairs [lb] of the snapshot, which they hide. *)
Inductive merges (d : Z) : list kv -> list kv -> list kv -> Prop :=
| merges_nil : merges d [] [] []
| merges_top p lt lb l : (forall q, head lb = Some q -> kv_before d p q) -> merges d lt lb l ->
    merges d (p :: lt) lb ((p.1, tail p.2) :: l)
| merges_bottom q lt lb l : (forall p, head lt = Some p -> kv_before d q p) -> merges d lt lb l ->
    merges d lt (q :: lb) (q :: l)
| merges_both p q lt lb l : p.1 = q.1 -> merges d lt lb l -> merges d (p :: lt) (q :: lb) ((p.1, tail p.2) :: l).

Lemma kv_order d (p q : kv) : kv_before d p q \/ kv_before d q p \/ p.1 = q.1.
Proof.
  unfold kv_before. pose proof (bytes_compare_antisym p.1 q.1) as Ha. rewrite <- bytes_compare_eq.
  unfold blt. destruct (0 <? d); lia.
Qed.

Lemma merges_total d lt lb : exists l, merges d lt lb l.
Proof.
  remember (length lt + length lb)%nat as n eqn:Hn. revert lt lb Hn. induction n as [n IH] using lt_wf_ind. intros lt lb ->.
  destruct lt as [|p lt].
  - destruct lb as [|q lb]; [exists []; constructor|]. destruct (IH (length lb) ltac:(cbn; lia) [] lb) as [l Hl]; [done|].
    exists (q :: l). by constructor.
  - destruct lb as [|q lb].
    { destruct (IH (length lt) ltac:(cbn; lia) lt []) as [l Hl]; [cbn; lia|]. eexists. by constructor. }
    destruct (kv_order d p q) as [Hpq|[Hqp|Heq]].
    + destruct (IH (length lt + length (q :: lb))%nat ltac:(cbn; lia) lt (q :: lb)) as [l Hl]; [done|].
      eexists. constructor; [|exact Hl]. by intros ? [= <-].
    + destruct (IH (length (p :: lt) + length lb)%nat ltac:(cbn; lia) (p :: lt) lb) as [l Hl]; [done|].
      eexists. constructor; [|exact Hl]. by intros ? [= <-].
    + destruct (IH (length lt + length lb)%nat ltac:(cbn; lia) lt lb) as [l Hl]; [done|].
      eexists. by constructor.
Qed.

(** Keys that come after both heads. *)
Lemma merges_bound d lt lb l x : merges d lt lb l -> Forall (kv_before d x) lt -> Forall (kv_before d x) lb ->
  Forall (kv_before d x) l.
Proof.
  induction 1 as [|p lt lb l _ _ IH|q lt lb l _ _ IH|p q lt lb l _ _ IH]; intros Ht Hb; [done|..].
  - apply Forall_cons in Ht as [Hp Ht]. constructor; [exact Hp|auto].
  - apply Forall_cons in Hb as [Hq Hb]. constructor; auto.
  - apply Forall_cons in Ht as [Hp Ht], Hb as [_ Hb]. constructor; [exact Hp|auto].
Qed.

Lemma before_head d x (l : list kv) : StronglySorted (kv_before d) l -> (forall q, head l = Some q -> kv_before d x q) ->
  Forall (kv_before d x) l.
Proof.
  destruct 1 as [|q l _ Hq]; intros Hx; [done|]. specialize (Hx q eq_refl). constructor; [done|].
  eapply Forall_impl; [exact Hq|]. intros y Hy. by etransitivity.
Qed.

Lemma merges_sorted d lt lb l : merges d lt lb l -> StronglySorted (kv_before d) lt -> StronglySorted (kv_before d) lb ->
  StronglySorted (kv_before d) l.
Proof.
  induction 1 as [|p lt lb l Hp Hm IH|q lt lb l Hq Hm IH|p q lt lb l E Hm IH]; intros Ht Hb; [constructor|..].
  - apply StronglySorted_inv in Ht as [Ht Hpt]. constructor; [auto|].
    eapply (merges_bound _ _ _ _ p); [exact Hm|exact Hpt|by apply before_head].
  - apply StronglySorted_inv in Hb as [Hb Hqb]. constructor; [auto|].
    eapply merges_bound; [exact Hm|by apply before_head|exact Hqb].
  - apply StronglySorted_inv in Ht as [Ht Hpt], Hb as [Hb Hqb]. constructor; [auto|].
    eapply (merges_bound _ _ _ _ p); [exact Hm|exact Hpt|]. unfold kv_before in *. by rewrite E.
Qed.

Lemma before_ne d (p q : kv) : kv_before d p q -> p.1 <> q.1.
Proof. unfold kv_before. destruct (0 <? d); intros Hb; [|symmetry]; by apply blt_ne. Qed.

(** What is in the merge. *)
Lemma merges_elem d lt lb l k v : merges d lt lb l -> StronglySorted (kv_before d) lt -> StronglySorted (kv_before d) lb ->
  (k, v) ∈ l <-> (exists w, (k, w) ∈ lt /\ v = tail w) \/ ((k, v) ∈ lb /\ k ∉ lt.*1).
Proof.
  assert (forall x (l : list kv) w, Forall (kv_before d x) l -> (x.1, w) ∉ l) as Hno.
  { intros x l' w Hx Hin. rewrite Forall_forall in Hx. by apply (before_ne _ _ _ (Hx _ Hin)). }
  assert (forall x (l : list kv), Forall (kv_before d x) l -> x.1 ∉ l.*1) as Hno1.
  { intros x l' Hx ([k' w] & E & Hin)%list_elem_of_fmap. cbn in E. subst k'. by apply (Hno x l' w). }
  induction 1 as [|p lt lb l Hp Hm IH|q lt lb l Hq Hm IH|p q lt lb l E Hm IH]; intros Ht Hb.
  - set_solver.
  - pose proof (before_head _ _ _ Hb Hp) as Hpb. apply StronglySorted_inv in Ht as [Ht Hpt]. specialize (IH Ht Hb).
    rewrite elem_of_cons, IH. destruct p as [kp vp]. cbn. split.
    + intros [[= -> ->]|[(w & Hw & ->)|[Hin Hn]]].
      * left. exists vp. split; [left|done].
      * left. exists w. split; [by right|done].
      * right. split; [done|]. apply not_elem_of_cons. split; [|done]. intros ->. by apply (Hno (kp, vp) lb v).
    + intros [(w & [[= -> ->]|Hw]%elem_of_cons & ->)|[Hin [_ Hn]%not_elem_of_cons]]; eauto.
  - pose proof (before_head _ _ _ Ht Hq) as Hqt. apply StronglySorted_inv in Hb as [Hb Hqb]. specialize (IH Ht Hb).
    rewrite !elem_of_cons, IH. split.
    + intros [<-|[?|[? ?]]]; eauto. right. split; [by left|]. by apply (Hno1 (k, v)).
    + intros [?|[[<-|?] ?]]; eauto.
  - apply StronglySorted_inv in Ht as [Ht Hpt], Hb as [Hb Hqb]. specialize (IH Ht Hb).
    rewrite elem_of_cons, IH. destruct p as [kp vp], q as [kq vq]. cbn in E. subst kq. cbn. split.
    + intros [[= -> ->]|[(w & Hw & ->)|[Hin Hn]]].
      * left. exists vp. split; [left|done].
      * left. exists w. split; [by right|done].
      * right. split; [by right|]. apply not_elem_of_cons. split; [|done]. intros ->. by apply (Hno (kp, vq) lb v).
    + intros [(w & [[= -> ->]|Hw]%elem_of_cons & ->)|[[[= -> ->]|Hin]%elem_of_cons [? Hn]%not_elem_of_cons]]; eauto; done.
Qed.

(** The comparison of two keys, as [CombinedIter] looks at it. *)
Lemma compare_before d p q : d = 1 \/ d = -1 -> kv_before d p q -> bytes_compare p.1 q.1 = - d.
Proof.
  unfold kv_before, blt. pose proof (bytes_compare_range p.1 q.1). pose proof (bytes_compare_antisym p.1 q.1).
  intros [-> | ->]; cbn; lia.
Qed.

Lemma compare_after d p q : d = 1 \/ d = -1 -> kv_before d q p -> bytes_compare p.1 q.1 = d.
Proof. intros Hd Hb%compare_before; [|done]. rewrite bytes_compare_antisym, Hb. lia. Qed.

(** The end of a range is a comparison in the other direction. *)
Definition opposite_cmps (cmp1 cmp2 : Z) : Prop := is_cmp cmp1 /\ is_cmp cmp2 /\ (0 < cmp1 /\ cmp2 < 0 \/ cmp1 < 0 /\ 0 < cmp2).

Lemma in_range_down d cmp key p q : is_cmp cmp -> (0 < d <-> cmp < 0) ->
  kv_before d p q -> cmp_holds q.1 cmp key -> cmp_holds p.1 cmp key.
Proof.
  intros Hc Hs. unfold kv_before, cmp_holds. destruct (Z.ltb_spec 0 d); destruct Hc as [-> |[-> |[-> | ->]]];
    try (exfalso; unfold CMP_GE, CMP_GT, CMP_LT, CMP_LE in Hs; lia); cbn; intros Hpq Hq; try (by etransitivity); apply blt_ble;
    apply ble_lteq in Hq as [Hq|Hq]; [by etransitivity|by rewrite <- Hq|by etransitivity|by rewrite Hq].
Qed.

Section combined.
Context (hp h : nat) (d endCmp : Z) (endKey : bytes).
Context (Hd : d = 1 \/ d = -1) (Hend : is_cmp endCmp).

(** The end of a tree of more than two levels is not reached. *)
Definition can_move (h : nat) (l : list kv) : Prop :=
  (h <= 1)%nat \/ d < 0 \/ Exists (fun p : kv => ~ cmp_holds p.1 endCmp endKey) l.

Lemma can_move_next h' p l : cmp_holds p.1 endCmp endKey -> can_move h' (p :: l) ->
  can_move h' l /\ ((h' <= 1)%nat \/ d < 0 \/ l <> []).
Proof using.
  intros Hp [Hm|[Hm|Hm]]; [by split; left|by split; right; left|]. apply Exists_cons in Hm as [Hm|Hm]; [done|].
  split; [by right; right|]. right; right. intros ->. by apply Exists_nil in Hm.
Qed.

(** The iterators stand for the lists [lt] and [lb]. *)
Record ci_at (it : CombinedIter) (lt lb : list kv) : Prop := {
  ca_dir : ci_direction it = d;
  ca_end : ci_endKey it = endKey /\ ci_endCmp it = endCmp;
  ca_top : rest_at d hp (ci_top it) lt;
  ca_bottom : rest_at d h (ci_bottom it) lb;
  ca_sorted : StronglySorted (kv_before d) lt /\ StronglySorted (kv_before d) lb;
  ca_flags : Forall (fun p : kv => p.2 <> []) lt;
  ca_move : can_move hp lt /\ can_move h lb
}.

Lemma CI_Deref_ok it lt lb p l : ci_at it lt lb -> merges d lt lb (p :: l) -> CI_Deref it = Ok p.
Proof using Hd.
  destruct it as [top bot d' ek ec]. intros [Edir [Ek Ec] Htop Hbot _ Hfl _] Hm. cbn in Edir, Ek, Ec, Htop, Hbot. subst d' ek ec.
  unfold CI_Deref. cbn [ci_top ci_bottom ci_direction].
  rewrite (rest_Valid _ _ _ _ Htop), (rest_Valid _ _ _ _ Hbot). step_res.
  assert (forall a : kv, a ∈ lt -> slice_from a.2 1 = Ok (tail a.2)) as Hcut.
  { intros [k v] Hin. rewrite Forall_forall in Hfl. pose proof (Hfl _ Hin) as Hv. destruct v as [|c v]; [done|]. apply slice_from_cons. }
  inversion Hm as [|a lt' lb' l' Hb Hm'|b lt' lb' l' Hb Hm'|a b lt' lb' l' Heq Hm']; subst; clear Hm.
  - rewrite bool_decide_true by done. step_res. rewrite (rest_Deref _ _ _ _ _ Htop). step_res.
    destruct lb as [|b lb].
    + step_res. rewrite (Hcut a) by left. by step_res.
    + rewrite bool_decide_true by done. cbn. rewrite (rest_Deref _ _ _ _ _ Hbot). step_res.
      rewrite (compare_before d a b Hd (Hb b eq_refl)). rewrite (proj2 (Z.eqb_neq _ _)) by lia.
      cbn. rewrite (Hcut a) by left. by step_res.
  - destruct lt as [|a lt].
    + rewrite (bool_decide_true (_ :: _ <> [])) by done. cbn. by rewrite (rest_Deref _ _ _ _ _ Hbot).
    + rewrite !bool_decide_true by done. cbn. rewrite (rest_Deref _ _ _ _ _ Htop), (rest_Deref _ _ _ _ _ Hbot). step_res.
      rewrite (compare_after _ a p Hd (Hb a eq_refl)). by rewrite Z.eqb_refl.
  - rewrite !bool_decide_true by done. cbn. rewrite (rest_Deref _ _ _ _ _ Htop), (rest_Deref _ _ _ _ _ Hbot). step_res.
    rewrite (proj2 (bytes_compare_eq _ _) Heq). rewrite (proj2 (Z.eqb_neq _ _)) by lia. cbn.
    rewrite (Hcut a) by left. by step_res.
Qed.

Lemma CI_Valid_ok it lt lb l : ci_at it lt lb -> merges d lt lb l ->
  CI_Valid it = Ok (match l with p :: _ => bool_decide (cmp_holds p.1 endCmp endKey) | [] => false end).
Proof using Hd Hend.
  intros Hit Hm. pose proof Hit as [Edir [Ek Ec] Htop Hbot _ _ _]. unfold CI_Valid.
  rewrite (rest_Valid _ _ _ _ Htop), (rest_Valid _ _ _ _ Hbot). step_res. destruct l as [|p l].
  - inversion Hm; subst. done.
  - rewrite (CI_Deref_ok it lt lb p l Hit Hm), Ek, Ec. cbn. rewrite cmpOK_ok by done.
    inversion Hm; subst; repeat (rewrite bool_decide_true by done); repeat case_bool_decide; try done.
Qed.

Lemma CI_Next_ok it lt lb p l : ci_at it lt lb -> merges d lt lb (p :: l) -> cmp_holds p.1 endCmp endKey ->
  exists it' lt' lb', CI_Next it = Ok it' /\ ci_at it' lt' lb' /\ merges d lt' lb' l.
Proof using Hd.
  destruct it as [top0 bot0 d' ek ec]. intros [Edir [Ek Ec] Htop Hbot [Hst Hsb] Hfl [Hmt Hmb]] Hm Hin.
  cbn in Edir, Ek, Ec, Htop, Hbot. subst d' ek ec. unfold CI_Next. cbn [ci_top ci_bottom ci_direction ci_endKey ci_endCmp].
  rewrite (rest_Valid _ _ _ _ Htop), (rest_Valid _ _ _ _ Hbot). step_res.
  inversion Hm as [|a lt' lb' l' Hb Hm'|b lt' lb' l' Hb Hm'|a b lt' lb' l' Heq Hm']; subst; clear Hm; cbn in Hin.
  - apply StronglySorted_inv in Hst as [Hst _]. apply Forall_cons in Hfl as [_ Hfl].
    destruct (can_move_next _ _ _ Hin Hmt) as [Hmt' Hne].
    destruct (rest_move _ _ _ _ _ Htop Hne) as (top & Et & Htop').
    exists (mkCombinedIter top bot0 d endKey endCmp), lt', lb.
    split; [|split; [by constructor|done]]. rewrite bool_decide_true by done. step_res.
    destruct lb as [|b lb].
    + rewrite bool_decide_false by tauto. step_res. rewrite Et. by step_res.
    + rewrite bool_decide_true by done. cbn. rewrite (rest_Deref _ _ _ _ _ Htop), (rest_Deref _ _ _ _ _ Hbot). step_res.
      rewrite (compare_before d a b Hd (Hb b eq_refl)). rewrite Z.eqb_refl. cbn. rewrite Et. by step_res.
  - apply StronglySorted_inv in Hsb as [Hsb _].
    destruct (can_move_next _ _ _ Hin Hmb) as [Hmb' Hne].
    destruct (rest_move _ _ _ _ _ Hbot Hne) as (bot & Eb & Hbot').
    exists (mkCombinedIter top0 bot d endKey endCmp), lt, lb'.
    split; [|split; [by constructor|done]]. rewrite (bool_decide_true (_ :: _ <> [])) by done.
    destruct lt as [|a lt].
    + rewrite bool_decide_false by tauto. cbn. rewrite Eb. by step_res.
    + rewrite bool_decide_true by done. cbn. rewrite (rest_Deref _ _ _ _ _ Htop), (rest_Deref _ _ _ _ _ Hbot). step_res.
      rewrite (compare_after d a p Hd (Hb a eq_refl)). rewrite Z.eqb_refl, (proj2 (Z.eqb_neq _ _)) by lia. cbn. rewrite Eb. by step_res.
  - apply StronglySorted_inv in Hst as [Hst _], Hsb as [Hsb _]. apply Forall_cons in Hfl as [_ Hfl].
    destruct (can_move_next _ _ _ Hin Hmt) as [Hmt' Hnt]. rewrite Heq in Hin. destruct (can_move_next _ _ _ Hin Hmb) as [Hmb' Hnb].
    destruct (rest_move _ _ _ _ _ Htop Hnt) as (top & Et & Htop'). destruct (rest_move _ _ _ _ _ Hbot Hnb) as (bot & Eb & Hbot').
    exists (mkCombinedIter top bot d endKey endCmp), lt', lb'.
    split; [|split; [by constructor|done]]. rewrite !bool_decide_true by done. cbn.
    rewrite (rest_Deref _ _ _ _ _ Htop), (rest_Deref _ _ _ _ _ Hbot). step_res.
    rewrite (proj2 (bytes_compare_eq _ _) Heq). rewrite !(proj2 (Z.eqb_neq _ _)) by lia. cbn. rewrite Et, Eb. by step_res.
Qed.

End combined.
