(* ===== verification/RangeProps.v ===== *)
(** * What a range query yields

    [Seek] on a transaction, and moving its iterator to the end of the range. *)

From S2P Require Import Prelude.
From S2P Require Import GoBytes.
From S2P Require Import KVSpec.
From S2P Require Import BTree.
From S2P Require Import BTreeRep.
From S2P Require Import BSplitFacts.
From S2P Require Import BTreeInsert.
From S2P Require Import MemStore.
From S2P Require Import BTreeMap.
From S2P Require Import BIter.
From S2P Require Import BIterProps.
From S2P Require Import Conflict.
From S2P Require Import Pager.
From S2P Require Import KVTX.
From S2P Require Import KVTXFacts.
From S2P Require Import KVTXProps.
From S2P Require Import RangeFacts.

(** ** The list that a combined iterator stands for *)

Definition ci_list (it : CombinedIter) (l : list kv) : Prop :=
  exists hp h d endCmp endKey lt lb l', (d = 1 \/ d = -1) /\ is_cmp endCmp /\ (0 < d <-> endCmp < 0) /\
    ci_at hp h d endCmp endKey it lt lb /\ merges d lt lb l' /\
    l = filter (fun p => cmp_holds p.1 endCmp endKey) l'.

Lemma list_Valid it l : ci_list it l -> CI_Valid it = Ok (bool_decide (l <> [])).
Proof.
  intros (hp & h & d & ec & ek & lt & lb & l' & Hd & Hc & Hs & Hit & Hm & ->). rewrite (CI_Valid_ok _ _ _ _ _ Hd Hc _ _ _ _ Hit Hm).
  f_equal. symmetry. destruct l' as [|p l']; [done|]. rewrite filter_cons.
  destruct (decide (cmp_holds p.1 ec ek)) as [Hp|Hp]; [by rewrite !bool_decide_true|]. rewrite (bool_decide_false (cmp_holds _ _ _)) by done.
  apply bool_decide_false. intros Hne. apply Hne. apply filter_Forall_none.
  destruct (ca_sorted _ _ _ _ _ _ _ _ Hit) as [Hst Hsb]. apply (merges_sorted _ _ _ _ Hm Hst) in Hsb.
  apply StronglySorted_inv in Hsb as [_ Hp']. eapply Forall_impl; [exact Hp'|]. intros q Hq Hh. apply Hp. by eapply in_range_down.
Qed.

Lemma list_first it p l : ci_list it (p :: l) -> exists hp h d endCmp endKey lt lb l',
  (d = 1 \/ d = -1) /\ is_cmp endCmp /\ (0 < d <-> endCmp < 0) /\
  ci_at hp h d endCmp endKey it lt lb /\ merges d lt lb (p :: l') /\ cmp_holds p.1 endCmp endKey /\
  l = filter (fun p => cmp_holds p.1 endCmp endKey) l'.
Proof.
  intros Hit. pose proof (list_Valid _ _ Hit) as HV. rewrite bool_decide_true in HV by done.
  destruct Hit as (hp & h & d & ec & ek & lt & lb & l' & Hd & Hc & Hs & Hit & Hm & E).
  rewrite (CI_Valid_ok _ _ _ _ _ Hd Hc _ _ _ _ Hit Hm) in HV. injection HV as HV. destruct l' as [|q l']; [done|].
  apply bool_decide_eq_true in HV. rewrite filter_cons_True in E by done. injection E as -> ->.
  by eexists hp, h, d, ec, ek, lt, lb, l'.
Qed.

Lemma list_Deref it p l : ci_list it (p :: l) -> CI_Deref it = Ok p.
Proof. intros (hp & h & d & ec & ek & lt & lb & l' & Hd & _ & _ & Hit & Hm & _)%list_first. by eapply CI_Deref_ok. Qed.

Lemma list_Next it p l : ci_list it (p :: l) -> exists it', CI_Next it = Ok it' /\ ci_list it' l.
Proof.
  intros (hp & h & d & ec & ek & lt & lb & l' & Hd & Hc & Hs & Hit & Hm & Hp & ->)%list_first.
  destruct (CI_Next_ok _ _ _ _ _ Hd _ _ _ _ _ Hit Hm Hp) as (it' & lt' & lb' & E & Hit' & Hm').
  exists it'. split; [done|]. by exists hp, h, d, ec, ek, lt', lb', l'.
Qed.

(** Reading to the end of the range. *)
Fixpoint ci_walk (n : nat) (it : CombinedIter) : res (list (bytes * bytes)) :=
  valid ← CI_Valid it;
  if negb valid then Ok [] else
  match n with
  | O => NoFuel
  | S n => kv ← CI_Deref it; it ← CI_Next it; rest ← ci_walk n it; Ok (kv :: rest)
  end.

Lemma list_walk n it l : ci_list it l -> (length l <= n)%nat -> ci_walk n it = Ok l.
Proof.
  revert it l. induction n as [|n IH]; intros it l Hit Hn; cbn [ci_walk]; rewrite (list_Valid _ _ Hit); step_res.
  - destruct l; [done|cbn in Hn; lia].
  - destruct l as [|p l]; [done|]. rewrite bool_decide_true by done. cbn [negb]. rewrite (list_Deref _ _ _ Hit). step_res.
    destruct (list_Next _ _ _ Hit) as (it' & -> & Hit'). step_res. rewrite (IH it' l Hit') by (cbn in Hn; lia). by step_res.
Qed.

(** ** [Seek] *)

(** What a range query shows of a key: the value without its flag. *)
Definition visible (M P : gmap bytes bytes) : gmap bytes bytes := (tail <$> P) ∪ M.

Lemma lookup_visible M P k : visible M P !! k = match P !! k with Some v => Some (tail v) | None => M !! k end.
Proof.
  unfold visible. rewrite lookup_union, lookup_fmap. by destruct (P !! k), (M !! k).
Qed.

(** Where nothing is deleted, that is what the transaction sees. *)
Lemma visible_overlay M P k : flagged P -> P !! k <> Some [FLAG_DELETED] -> visible M P !! k = overlay M P !! k.
Proof.
  intros HP Hn. rewrite lookup_visible, lookup_overlay. destruct (P !! k) as [v|] eqn:E; [|done].
  apply HP in E as [[w ->]| ->]; [|done]. done.
Qed.

Definition in_range (key1 : bytes) (cmp1 : Z) (key2 : bytes) (cmp2 : Z) (k : bytes) : Prop :=
  cmp_holds k cmp1 key1 /\ cmp_holds k cmp2 key2.

(** Trees of more than two levels are fine as long as an iterator that goes up
    stops at a key of the tree. *)
Definition stops (h : nat) (key1 : bytes) (cmp1 : Z) (key2 : bytes) (cmp2 : Z) (M : gmap bytes bytes) : Prop :=
  (h <= 1)%nat \/ cmp1 < 0 \/ exists k, is_Some (M !! k) /\ cmp_holds k cmp1 key1 /\ ~ cmp_holds k cmp2 key2.

Lemma cmp2dir_ok cmp : is_cmp cmp -> cmp2dir cmp = Ok (if 0 <? cmp then 1 else -1).
Proof. by intros [-> |[-> |[-> | ->]]]. Qed.

Section seek.
Context (depth : nat) (file : bytes) (tx : KVTX) (h hp : nat) (kvs : list kv) (P : gmap bytes bytes) (r : nat).
Context (Hsnap : tree_reads h (snapshot file tx) kvs) (Hh : (h < depth)%nat).
Context (Hpend : tree_models hp ∅ (tx_pending tx) P r) (Hhp : (hp < depth)%nat) (Hfl : flagged P).
Context (key1 : bytes) (cmp1 : Z) (key2 : bytes) (cmp2 : Z) (Hcmps : opposite_cmps cmp1 cmp2).
Context (Hkey : key1 <> [] \/ cmp1 <> CMP_GE).
Context (Hstop : stops h key1 cmp1 key2 cmp2 (kv_map kvs)) (Hstopp : stops hp key1 cmp1 key2 cmp2 P).

(** The dependency that a range query records. *)
Definition range_read : KeyRange := if cmp1 <? 0 then mkKeyRange key2 key1 else mkKeyRange key1 key2.

Lemma stops_exists h' l M : kv_map l = M -> stops h' key1 cmp1 key2 cmp2 M ->
  (h' <= 1)%nat \/ cmp1 < 0 \/ Exists (fun p : kv => cmp_holds p.1 cmp1 key1 /\ ~ cmp_holds p.1 cmp2 key2) l.
Proof using.
  intros <- [?|[?|(k & [v Hv] & H1 & H2)]]; [by left|by right; left|]. right; right. apply Exists_exists.
  exists (k, v). split; [by apply elem_of_list_to_map_2|done].
Qed.

Lemma rest_sign {PS} `{PageReadOk PS} d d' h' (it : BIter PS) l : (0 <? d) = (0 <? d') -> rest_at d h' it l -> rest_at d' h' it l.
Proof using. unfold rest_at. by intros ->. Qed.

Lemma seek_one {PS} `{PageReadOk PS} h' (t : BTree PS) l M d : tree_reads h' t l -> kv_map l = M -> (h' < depth)%nat ->
  stops h' key1 cmp1 key2 cmp2 M -> d = (if 0 <? cmp1 then 1 else -1) ->
  exists it, BTree_Seek depth t key1 cmp1 = Ok it /\
    let l' := filter (fun p => cmp_holds p.1 cmp1 key1) (in_direction cmp1 l) in
    rest_at d h' it l' /\ can_move d cmp2 key2 h' l' /\ StronglySorted (kv_before d) l'.
Proof using All.
  intros Ht HM Hd Hst ->. destruct Hcmps as (Hc1 & Hc2 & Hopp). apply (stops_exists _ _ _ HM) in Hst.
  assert ((0 <? cmp1) = (0 <? (if 0 <? cmp1 then 1 else -1))) as Hsg by by destruct (0 <? cmp1).
  destruct (rest_Seek h' depth t l key1 cmp1 Ht Hd Hc1 Hkey) as (it & E & Hit).
  { destruct Hst as [?|[?|Hex]]; [by left|by right; left|right; right]. eapply Exists_impl; [exact Hex|]. by intros p [? _]. }
  exists it. split; [exact E|]. split; [by eapply rest_sign|]. split.
  - destruct Hst as [?|[?|Hex]]; [by left|right; left; destruct (Z.ltb_spec 0 cmp1); lia|right; right].
    apply Exists_exists in Hex as (p & Hp & Hp1 & Hp2). apply Exists_exists. exists p. split; [|exact Hp2].
    apply list_elem_of_filter. split; [exact Hp1|by apply in_direction_elem].
  - pose proof Ht as (_ & _ & _ & _ & _ & Hs%sorted_user).
    pose proof (StronglySorted_filter _ (fun p => cmp_holds p.1 cmp1 key1) _ (in_direction_sorted cmp1 l Hs)) as Hf.
    unfold kv_before in *. by rewrite Hsg in Hf.
Qed.

Lemma tx_Seek_ok : exists it l,
  tx_Seek depth file tx key1 cmp1 key2 cmp2 = Ok (set_reads tx (tx_reads tx ++ [range_read]), it) /\
  ci_list it l /\ StronglySorted (kv_before cmp1) l /\
  forall k v, (k, v) ∈ l <-> visible (kv_map kvs) P !! k = Some v /\ in_range key1 cmp1 key2 cmp2 k.
Proof using All.
  destruct Hpend as (pk & Hps & HP). pose proof Hps as (mp & _ & _ & _ & Hsort%sorted_user & _).
  pose proof Hsnap as (_ & _ & _ & _ & _ & Hsort0%sorted_user).
  set (d := if 0 <? cmp1 then 1 else -1).
  destruct (seek_one hp (tx_pending tx) pk P d (stores_reads _ _ _ _ _ Hps) HP Hhp Hstopp eq_refl) as (top & Et & Htop & Hmt & Hst).
  destruct (seek_one h (snapshot file tx) kvs _ d Hsnap eq_refl Hh Hstop eq_refl) as (bot & Eb & Hbot & Hmb & Hsb).
  destruct Hcmps as (Hc1 & Hc2 & Hopp).
  assert (d = 1 \/ d = -1) as Hd by (unfold d; destruct (0 <? cmp1); auto).
  assert (0 < d <-> cmp2 < 0) as Hsg by (unfold d; destruct (Z.ltb_spec 0 cmp1); lia).
  set (lt := filter _ (in_direction cmp1 pk)) in *. set (lb := filter _ (in_direction cmp1 kvs)) in *.
  destruct (merges_total d lt lb) as [l' Hm].
  exists (mkCombinedIter top bot d key2 cmp2), (filter (fun p => cmp_holds p.1 cmp2 key2) l'). split; [|split; [|split]].
  - unfold tx_Seek. rewrite !cmp2dir_ok by done. step_res. fold d.
    assert (negb (d =? (if 0 <? cmp2 then 1 else -1)) = true) as ->.
    { unfold d. destruct (Z.ltb_spec 0 cmp1), (Z.ltb_spec 0 cmp2); (done || lia). }
    step_res. assert ((d <? 0) = (cmp1 <? 0)) as ->.
    { unfold d. destruct (Z.ltb_spec 0 cmp1), (Z.ltb_spec cmp1 0); (done || lia). }
    unfold range_read. destruct (cmp1 <? 0).
    + change (tx_pending (set_reads _ _)) with (tx_pending tx). rewrite Et. step_res.
      change (snapshot file (set_reads _ _)) with (snapshot file tx). rewrite Eb. by step_res.
    + change (tx_pending (set_reads _ _)) with (tx_pending tx). rewrite Et. step_res.
      change (snapshot file (set_reads _ _)) with (snapshot file tx). rewrite Eb. by step_res.
  - exists hp, h, d, cmp2, key2, lt, lb, l'. split_and!; try done. constructor; try done.
    apply Forall_forall. intros [k v] [_ Hin]%list_elem_of_filter. apply in_direction_elem in Hin. cbn.
    assert (P !! k = Some v) as Hk.
    { rewrite <- HP. apply elem_of_list_to_map_1; [|done]. by apply sorted_nodup. }
    apply Hfl in Hk as [[w ->]| ->]; done.
  - apply StronglySorted_filter. pose proof (merges_sorted _ _ _ _ Hm Hst Hsb) as Hs. unfold kv_before in *.
    assert ((0 <? cmp1) = (0 <? d)) as ->; [|exact Hs]. unfold d. by destruct (0 <? cmp1).
  - intros k v. rewrite list_elem_of_filter, (merges_elem _ _ _ _ k v Hm Hst Hsb). cbn [fst]. unfold in_range.
    assert (forall (l : list kv) M x, sorted_kvs l -> kv_map l = M ->
      (k, x) ∈ filter (fun p => cmp_holds p.1 cmp1 key1) (in_direction cmp1 l) <-> M !! k = Some x /\ cmp_holds k cmp1 key1) as Hin.
    { intros l M x Hl <-. rewrite list_elem_of_filter, in_direction_elem. cbn. unfold kv_map.
      rewrite <- elem_of_list_to_map by by apply sorted_nodup. tauto. }
    assert (k ∉ lt.*1 <-> P !! k = None \/ ~ cmp_holds k cmp1 key1) as Hnot.
    { rewrite list_elem_of_fmap. split.
      - intros Hn. destruct (decide (cmp_holds k cmp1 key1)) as [Hk|]; [left|by right]. destruct (P !! k) as [x|] eqn:E; [|done].
        exfalso. apply Hn. exists (k, x). split; [done|]. by apply (Hin pk P).
      - intros Hn ([k' x] & E & Hx). cbn in E. subst k'. apply (Hin pk P) in Hx as [Hx Hk]; [|done..]. destruct Hn; congruence. }
    pose proof (Hin kvs _ v Hsort0 eq_refl : (k, v) ∈ lb <-> _) as Elb.
    pose proof (fun w => Hin pk P w Hsort HP : (k, w) ∈ lt <-> _) as Elt.
    rewrite Hnot, Elb, lookup_visible. setoid_rewrite Elt.
    destruct (P !! k) as [x|] eqn:E; split.
    + intros [H2 [(w & [[= <-] H1] & ->)|[[_ H1] [Hn|Hn]]]]; [by split|done|by destruct Hn].
    + intros [[= <-] [H1 H2]]. split; [done|]. left. by exists x.
    + intros [H2 [(w & [Hw _] & _)|[[Hv H1] _]]]; [done|by split].
    + intros [Hv [H1 H2]]. split; [done|]. right. split; [by split|by left].
Qed.

End seek.

(** The recorded dependency covers the range. *)
Lemma range_read_covers key1 cmp1 key2 cmp2 k : opposite_cmps cmp1 cmp2 -> in_range key1 cmp1 key2 cmp2 k ->
  ble (kr_start (range_read key1 cmp1 key2)) k /\ ble k (kr_stop (range_read key1 cmp1 key2)).
Proof.
  unfold range_read, in_range, cmp_holds. intros ([-> |[-> |[-> | ->]]] & [-> |[-> |[-> | ->]]] & Hopp) [H1 H2];
    try (exfalso; unfold CMP_GE, CMP_GT, CMP_LT, CMP_LE in Hopp; lia); cbn in *; split; try done; by apply blt_ble.
Qed.

(** A range that starts at the empty key, included: both iterators stay at the
    sentinel of their tree, which is not valid. *)
Lemma tx_Seek_sentinel depth file tx h hp kvs P r key2 cmp2 :
  tree_reads h (snapshot file tx) kvs -> (h < depth)%nat ->
  tree_models hp ∅ (tx_pending tx) P r -> (hp < depth)%nat -> opposite_cmps CMP_GE cmp2 ->
  exists it, tx_Seek depth file tx [] CMP_GE key2 cmp2 = Ok (set_reads tx (tx_reads tx ++ [mkKeyRange [] key2]), it) /\
    forall n, ci_walk n it = Ok [].
Proof.
  intros Hs Hh (pk & Hp & _) Hhp (Hc1 & Hc2 & Hopp).
  destruct (Seek_sentinel hp depth (tx_pending tx) pk (stores_reads _ _ _ _ _ Hp) Hhp) as (top & Et & Vt).
  destruct (Seek_sentinel h depth (snapshot file tx) kvs Hs Hh) as (bot & Eb & Vb).
  assert (cmp2 < 0) as Hneg by (unfold CMP_GE in Hopp; lia).
  unfold tx_Seek. rewrite !cmp2dir_ok by done. rewrite (proj2 (Z.ltb_ge 0 cmp2)) by lia.
  change (0 <? CMP_GE) with true. step_res. change (1 <? 0) with false. cbv iota.
  change (tx_pending (set_reads _ _)) with (tx_pending tx). rewrite Et. step_res.
  change (snapshot file (set_reads _ _)) with (snapshot file tx). rewrite Eb. step_res.
  eexists. split; [reflexivity|]. intros n.
  destruct n; cbn [ci_walk]; unfold CI_Valid; cbn [ci_top ci_bottom]; rewrite Vt; step_res; rewrite Vb; by step_res.
Qed.

(** C16.  A range query of a transaction yields each key of the range once, in
    the order of its direction, and ends.  For a key with a pending update it
    shows the pending value, for any other key the value of the snapshot; where
    the transaction has deleted nothing that is exactly what [Get] would answer
    for the keys of the range.  (A key that the transaction has deleted is
    shown too, with an empty value: [visible].)  The recorded dependency covers
    the range.  This is for ranges whose two comparisons point in opposite
    directions and that do not start with [>=] at the empty key; a range that
    does yields nothing at all, whatever the keys are.  The trees have at most
    two levels, or an iterator that goes up stops at a key of the tree beyond
    the range. *)
Theorem range_query_exact depth file tx h hp kvs P r key1 cmp1 key2 cmp2 :
  tree_reads h (snapshot file tx) kvs -> (h < depth)%nat ->
  tree_models hp ∅ (tx_pending tx) P r -> (hp < depth)%nat -> flagged P ->
  opposite_cmps cmp1 cmp2 ->
  stops h key1 cmp1 key2 cmp2 (kv_map kvs) -> stops hp key1 cmp1 key2 cmp2 P ->
  exists it l, tx_Seek depth file tx key1 cmp1 key2 cmp2 =
      Ok (set_reads tx (tx_reads tx ++ [range_read key1 cmp1 key2]), it) /\
    (forall n, (length l <= n)%nat -> ci_walk n it = Ok l) /\
    StronglySorted (kv_before cmp1) l /\
    (key1 = [] -> cmp1 = CMP_GE -> l = []) /\
    (key1 <> [] \/ cmp1 <> CMP_GE ->
     (forall k v, (k, v) ∈ l <-> visible (kv_map kvs) P !! k = Some v /\ in_range key1 cmp1 key2 cmp2 k) /\
     (forall k v, P !! k <> Some [FLAG_DELETED] -> in_range key1 cmp1 key2 cmp2 k ->
        (k, v) ∈ l <-> overlay (kv_map kvs) P !! k = Some v)) /\
    (forall k, in_range key1 cmp1 key2 cmp2 k ->
       ble (kr_start (range_read key1 cmp1 key2)) k /\ ble k (kr_stop (range_read key1 cmp1 key2))).
Proof.
  intros Hs Hh Hp Hhp Hfl Hc Hst Hstp. pose proof (fun k => range_read_covers key1 cmp1 key2 cmp2 k Hc) as Hcover.
  destruct (decide (key1 = [] /\ cmp1 = CMP_GE)) as [[-> ->]|Hne].
  - destruct (tx_Seek_sentinel depth file tx h hp kvs P r key2 cmp2 Hs Hh Hp Hhp Hc) as (it & E & Hw).
    exists it, []. split; [exact E|]. split; [by intros n _|]. split; [constructor|]. split; [done|]. split; [by intros []|done].
  - assert (key1 <> [] \/ cmp1 <> CMP_GE) as Hk by (destruct (decide (key1 = [])); [right; naive_solver|by left]).
    destruct (tx_Seek_ok depth file tx h hp kvs P r Hs Hh Hp Hhp Hfl key1 cmp1 key2 cmp2 Hc Hk Hst Hstp) as (it & l & E & Hl & Hsort & Hel).
    exists it, l. split; [exact E|]. split; [intros n; by apply list_walk|]. split; [exact Hsort|]. split; [naive_solver|].
    split; [|done]. intros _. split; [exact Hel|]. intros k v Hn Hr. rewrite Hel, visible_overlay by done. naive_solver.
Qed.

Example range_query_exact_witness :
  exists tx tx' it l, tx_Seek 2 [] tx key_a CMP_GE key_a CMP_LE = Ok (tx', it) /\
    ci_walk (length l) it = Ok l /\ (key_a, val_1) ∈ l.
Proof.
  destruct (tx_one_sees 0 ltac:(lia)) as (tx & hp & Hhp & kvs & P & Hs & Hp & HP & HN).
  assert (in_range key_a CMP_GE key_a CMP_LE key_a) as Hr by (split; change (ble key_a key_a); apply ble_lteq; by right).
  destruct (range_query_exact 2 [] tx 0 hp kvs P 0 key_a CMP_GE key_a CMP_LE Hs ltac:(lia) Hp ltac:(lia) HP)
    as (it & l & E & Hw & _ & _ & Hel & _).
  - split; [by left|]. split; [by right; right; right|]. left. split; reflexivity.
  - left. lia.
  - by left.
  - destruct (Hel ltac:(by left)) as [_ Hin].
    exists tx. eexists. exists it, l. split; [exact E|]. split; [by apply Hw|]. apply Hin; [|exact Hr|].
    + intros Hd. assert (overlay (kv_map kvs) P !! key_a = None) as H0 by (rewrite lookup_overlay, Hd; reflexivity).
      by rewrite HN, lookup_singleton_eq in H0.
    + by rewrite HN, lookup_singleton_eq.
Defined.
