(* ===== verification/KVView.v ===== *)
(** * The contract of a transaction, for the layers above it

    [KVPromise]: a transaction sees a map of keys; updates and deletions change
    that map, and a statement can be undone.  The number that goes with the map
    is how many more updates are sure to succeed: each may deepen the tree of
    pending updates by a level, which costs depth and pages. *)

From S2P Require Import Prelude.
From S2P Require Import GoBytes.
From S2P Require Import BNode.
From S2P Require Import KVSpec.
From S2P Require Import BSplitFacts.
From S2P Require Import BTree.
From S2P Require Import BTreeRep.
From S2P Require Import MemStore.
From S2P Require Import BTreeInsert.
From S2P Require Import BTreeMap.
From S2P Require Import KVTX.
From S2P Require Import KVTXFacts.

(** ** Insertion reaches the store only through its callbacks *)

(** Runs through a computation that returned, one case at a time. *)
Ltac inv_run :=
  repeat first [progress inv_res | match goal with
  | H : (let '(_, _) := ?x in _) = Ok _ |- _ => destruct x as [? ?]
  | H : context [match ?x with _ => _ end] |- _ =>
      match type of H with _ = Ok _ => destruct x eqn:? end
  | H : (_, _) = (_, _) |- _ => injection H as ? ?
  end]; subst.

Section mono.
Context {PS : Type} `{PageStore PS} (R : PS -> PS -> Prop) `{!PreOrder R}.
Context (Hnew : forall s node s' p, page_new s node = Ok (s', p) -> R s s').
Context (Hdel : forall s p s', page_del s p = Ok s' -> R s s').

Lemma appendKids_mono s new idx i kids s' new' : appendKids s new idx i kids = Ok (s', new') -> R s s'.
Proof using Hnew PreOrder0.
  revert s new i. induction kids as [|node kids IH]; intros s new i; cbn [appendKids].
  - by intros [= <- <-].
  - intros E. inv_run. etransitivity; [by eapply Hnew|]. by eapply IH.
Qed.

Lemma nodeReplaceKidN_mono s new old idx kids s' new' :
  nodeReplaceKidN s new old idx kids = Ok (s', new') -> R s s'.
Proof using Hnew PreOrder0. unfold nodeReplaceKidN. intros E. inv_run. by eapply appendKids_mono. Qed.

Lemma treeUpdate_mono depth s req node s' req' new :
  treeUpdate depth s req node = Ok (s', req', new) -> R s s'.
Proof using Hnew Hdel PreOrder0.
  revert s req node s' req' new. induction depth as [|depth IH]; intros s req node s' req' new; [done|].
  cbn [treeUpdate]. cbv zeta. intros E. unfold nodeUpdate in E. inv_run; try reflexivity; try by eapply IH.
  etransitivity; [by eapply IH|]. etransitivity; [by eapply Hdel|]. by eapply nodeReplaceKidN_mono.
Qed.

Lemma Update_mono depth t req t' req' r : Update depth t req = Ok (t', req', r) -> R (bt_store t) (bt_store t').
Proof using Hnew Hdel PreOrder0.
  unfold Update. intros E. inv_run; cbn [bt_store]; try reflexivity; eauto using treeUpdate_mono.
  - etransitivity; [by eapply treeUpdate_mono|]. etransitivity; [by eapply Hdel|].
    etransitivity; [by eapply appendKids_mono|by eapply Hnew].
  - etransitivity; [by eapply treeUpdate_mono|]. etransitivity; [by eapply Hdel|by eapply Hnew].
Qed.
End mono.

(** How [Update] answers for a key with the value [old]. *)
Definition upd_duplicate (mode : Z) (old : option bytes) : bool :=
  (mode =? MODE_INSERT_ONLY) && bool_decide (is_Some old).
Definition upd_changed (mode : Z) (val : bytes) (old : option bytes) : bool :=
  negb (upd_duplicate mode old) && negb ((mode =? MODE_UPDATE_ONLY) && bool_decide (old = None)) &&
  bool_decide (old <> Some val).

Class KVPromise (depth : nat) (file : bytes) := {
  kv_sees : KVTX -> gmap bytes bytes -> nat -> Prop;
  kv_later : KVTX -> KVTX -> Prop;
  kv_later_preorder :: PreOrder kv_later;
  kv_sees_weaken tx N b b' : kv_sees tx N b -> (b' <= b)%nat -> kv_sees tx N b';
  kv_Update tx N b req :
    kv_sees tx N (S b) -> uq_Key req <> [] -> small_kv (uq_Key req, FLAG_UPDATED :: uq_Val req) ->
    let old := N !! uq_Key req in
    let changed := upd_changed (uq_Mode req) (uq_Val req) old in
    exists tx' req', tx_Update depth file tx req =
        Ok (tx', req', (changed, if upd_duplicate (uq_Mode req) old then Some "insert duplicate key"%string else None)) /\
      (if changed then uq_Old req' = default [] old /\ uq_Updated req' = true /\ uq_Added req' = bool_decide (old = None)
     else req' = req) /\
      kv_later tx tx' /\ kv_sees tx' (if changed then <[uq_Key req := uq_Val req]> N else N) b;
  kv_Del tx N b req :
    kv_sees tx N (S b) -> dq_Key req <> [] -> small_kv (dq_Key req, [FLAG_DELETED]) ->
    let old := N !! dq_Key req in
    exists tx', tx_Del depth file tx req =
        Ok (tx', match old with Some v => mkDeleteReq (dq_Key req) v | None => req end, (bool_decide (is_Some old), None)) /\
      kv_later tx tx' /\ kv_sees tx' (delete (dq_Key req) N) b;
  kv_Revert tx N b tx' N' b' :
    kv_sees tx N b -> kv_later tx tx' -> kv_sees tx' N' b' -> kv_sees (tx_Revert tx' (tx_Save tx)) N 0
}.

(** ** Transactions keep the promise *)

(** The pages of pending updates only grow; the snapshot stays. *)
Definition grows (tx tx' : KVTX) : Prop :=
  bt_store (tx_pending tx) `prefix_of` bt_store (tx_pending tx') /\
  tx_root tx' = tx_root tx /\ tx_chunks tx' = tx_chunks tx.

#[export] Instance grows_preorder : PreOrder grows.
Proof.
  split; [by intros tx|]. intros a b c (Hp & Hr & Hc) (Hp' & Hr' & Hc').
  split; [by etransitivity|]. split; congruence.
Qed.

Lemma pending_grows depth t req t' req' r :
  Update (PS := mem_pages) depth t req = Ok (t', req', r) -> bt_store t `prefix_of` bt_store t'.
Proof.
  apply (Update_mono prefix).
  - intros s node s' p [= <- <-]. by apply prefix_app_r.
  - intros s p s' [= <-]. done.
Qed.

Lemma set_pending_grows tx t' : bt_store (tx_pending tx) `prefix_of` bt_store t' -> grows tx (set_pending tx t').
Proof. by split. Qed.

Lemma tx_Get_grows depth file tx key tx' v : tx_Get depth file tx key = Ok (tx', v) -> grows tx tx'.
Proof. unfold tx_Get. intros E. inv_run; by split. Qed.

Lemma tx_Update_grows depth file tx req tx' req' r : tx_Update depth file tx req = Ok (tx', req', r) -> grows tx tx'.
Proof.
  unfold tx_Update. cbv zeta. intros E. apply res_bind_Ok in E as ([tx1 curr] & Hg & E).
  apply tx_Get_grows in Hg. change (grows tx tx1) in Hg.
  destruct (_ && _); [by inv_run|]. destruct (_ || _); [by inv_run|].
  apply res_bind_Ok in E as ([[t' q] [u err]] & Hu & E). apply pending_grows in Hu.
  etransitivity; [exact Hg|]. inv_run; by apply set_pending_grows.
Qed.

Lemma tx_Del_grows depth file tx req tx' req' r : tx_Del depth file tx req = Ok (tx', req', r) -> grows tx tx'.
Proof.
  unfold tx_Del. cbv zeta. intros E. apply res_bind_Ok in E as ([tx1 curr] & Hg & E).
  apply tx_Get_grows in Hg. change (grows tx tx1) in Hg. destruct curr as [v|]; [|by inv_run].
  apply res_bind_Ok in E as ([[t' q] [u err]] & Hu & E). apply pending_grows in Hu.
  etransitivity; [exact Hg|]. inv_run; by apply set_pending_grows.
Qed.

Lemma tx_Seek_grows depth file tx k1 c1 k2 c2 tx' it : tx_Seek depth file tx k1 c1 k2 c2 = Ok (tx', it) -> grows tx tx'.
Proof. unfold tx_Seek. intros E. inv_run; by split. Qed.

(** Pages that stay where they are. *)
Lemma mem_get_prefix pages pages' p page :
  pages `prefix_of` pages' -> mem_get pages p = Ok page -> mem_get pages' p = Ok page.
Proof.
  intros [tl ->]. unfold mem_get, index. destruct (0 <=? _); [|done].
  destruct (pages !! _) as [x|] eqn:E; [|done]. intros [= <-]. by rewrite (lookup_app_l_Some _ _ _ _ E).
Qed.

Lemma revert_sees file h hp tx tx' N r :
  tx_sees file h hp tx N r -> grows tx tx' -> len (bt_store (tx_pending tx')) < 2 ^ 63 ->
  tx_sees file h hp (tx_Revert tx' (tx_Save tx)) N 0.
Proof.
  intros (kvs & P & Hs & (pk & Hp & HpP) & HP & HN) (Hpre & Hroot & Hch) Hl. exists kvs, P.
  split; [|split; [|by split]].
  - unfold snapshot in *. cbn. by rewrite Hroot, Hch.
  - exists pk. split; [|done]. destruct Hp as (m & Hsh & Hd & Hok & Hrest). exists m. cbn [tx_pending tx_Revert set_reads set_pending].
    split; [exact Hsh|]. split; [exact Hd|]. split; [|exact Hrest]. destruct Hok as [Hpages Hroom]. cbn [bt_store].
    split; [|lia]. intros p page Hm. destruct (Hpages p page Hm) as [Hr Hg]. split; [|by eapply mem_get_prefix].
    apply prefix_length in Hpre. unfold len in *. lia.
Qed.

(** Pages for [b] updates from height [hp]. *)
Fixpoint room (hp b : nat) : nat := match b with O => O | S b => 4 * hp + 5 + room (S hp) b end.

Lemma room_mono hp hp' b b' : (hp' <= hp)%nat -> (b' <= b)%nat -> (room hp' b' <= room hp b)%nat.
Proof.
  revert hp hp' b'. induction b as [|b IH]; intros hp hp' [|b'] Hh Hb; cbn [room]; try lia.
  specialize (IH (S hp) (S hp') b' ltac:(lia) ltac:(lia)). lia.
Qed.

Section promise.
Context (depth : nat) (file : bytes).

Definition tx_view (tx : KVTX) (N : gmap bytes bytes) (b : nat) : Prop :=
  exists h hp, (h < depth)%nat /\ (hp + b < depth)%nat /\ tx_sees file h hp tx N (room hp b).

Lemma view_weaken tx N b b' : tx_view tx N b -> (b' <= b)%nat -> tx_view tx N b'.
Proof using.
  intros (h & hp & Hh & Hp & Hs) Hb. exists h, hp. split; [done|]. split; [lia|].
  eapply tx_sees_weaken; [exact Hs|]. by apply room_mono.
Qed.

Lemma view_step h hp' hp tx N b : (h < depth)%nat -> (hp + S b < depth)%nat -> (hp' <= S hp)%nat ->
  tx_sees file h hp' tx N (room (S hp) b) -> tx_view tx N b.
Proof using.
  intros Hh Hb Hp Hs. exists h, hp'. split; [done|]. split; [lia|].
  eapply tx_sees_weaken; [exact Hs|]. by apply room_mono.
Qed.

#[export] Program Instance tx_promise : KVPromise depth file := {| kv_sees := tx_view; kv_later := grows |}.
Next Obligation. exact view_weaken. Qed.
Next Obligation.
  intros tx N b req (h & hp & Hh & Hb & Hs) Hk Hsm old changed.
  destruct (tx_Update_ok depth file h hp Hh ltac:(lia) tx N (room (S hp) b) req Hs Hk Hsm) as
    (tx' & req' & hp' & E & Hreq & Hh' & _ & _ & Hs').
  exists tx', req'. split; [exact E|]. split; [exact Hreq|].
  split; [by eapply tx_Update_grows|]. apply (view_step h hp' hp); [done..|exact Hs'].
Qed.
Next Obligation.
  intros tx N b req (h & hp & Hh & Hb & Hs) Hk Hsm old.
  destruct (tx_Del_ok depth file h hp Hh ltac:(lia) tx N (room (S hp) b) req Hs Hk Hsm) as
    (tx' & hp' & E & Hh' & _ & _ & Hs').
  exists tx'. split; [exact E|]. split; [by eapply tx_Del_grows|]. apply (view_step h hp' hp); [done..|exact Hs'].
Qed.
Next Obligation.
  intros tx N b tx' N' b' (h & hp & Hh & Hb & Hs) Hg (h' & hp' & _ & _ & Hs'). exists h, hp.
  split; [done|]. split; [lia|]. eapply revert_sees; [exact Hs|exact Hg|].
  destruct Hs' as (kvs & P & _ & (pk & Hp & _) & _). destruct Hp as (m & _ & _ & [_ Hroom] & _). lia.
Qed.
End promise.
