(* ===== verification/Parser.v ===== *)
(** * The parser of the query language (src/db/ql_parse.go)

    [Parser] is the input, the position and the first error.  A parsing
    function takes the parser and gives the new one with its result; the
    nodes that the code fills through a pointer are results here, since every
    such node is new.  [depth] bounds the nesting of expressions and each loop
    is bounded by the length of the input: ParserFacts.v shows that this is
    always enough. *)

From S2P Require Import Prelude.
From S2P Require Import GoBytes.
From S2P Require Import Encode.
From S2P Require Import StmtScanner.
From S2P Require Import BTree.
From S2P Require Import QLNode.

(** ** Statements *)

(** The schema part of [TableDef] (src/db/table.go). *)
Record TableDef := mkTableDef {
  td_Name : bytes; td_Types : list Z; td_Cols : list bytes;
  td_Indexes : list (list bytes); td_Prefixes : list Z
}.

Record QLScan := mkQLScan {
  qs_Table : bytes; qs_Key1 : QLNode; qs_Key2 : QLNode; qs_Filter : QLNode; qs_Offset : Z; qs_Limit : Z
}.

Record QLSelect := mkQLSelect { sel_scan : QLScan; sel_Names : list bytes; sel_Output : list QLNode }.
Record QLUpdate := mkQLUpdate { upd_scan : QLScan; upd_Names : list bytes; upd_Values : list QLNode }.
Record QLInsert := mkQLInsert {
  ins_Table : bytes; ins_Mode : Z; ins_Names : list bytes; ins_Values : list (list QLNode)
}.

Inductive QLStmt :=
| StBegin | StCommit | StRollback
| StCreateTable (def : TableDef)
| StSelect (stmt : QLSelect)
| StInsert (stmt : QLInsert)
| StDelete (scan : QLScan)
| StUpdate (stmt : QLUpdate).

(** ** Tokens *)

Record Parser := mkParser { ps_input : bytes; ps_idx : Z; ps_err : option gerror }.

Definition NewParser (input : bytes) : Parser := mkParser input 0 None.

Definition set_idx (p : Parser) (idx : Z) : Parser := mkParser (ps_input p) idx (ps_err p).

(** The input from the position. *)
Definition ps_rest (p : Parser) : bytes := drop (Z.to_nat (ps_idx p)) (ps_input p).

Fixpoint span_len (P : byte -> bool) (rest : bytes) : Z :=
  match rest with
  | [] => 0
  | ch :: rest => if P ch then 1 + span_len P rest else 0
  end.

Definition skipSpaces (p : Parser) : Parser := set_idx p (ps_idx p + span_len isSpace (ps_rest p)).

(** [strings.ToLower] and [strings.EqualFold] where one side is an ASCII word
    of the same number of bytes: only ASCII letters can match. *)
Definition lower (ch : byte) : byte := if between 65 90 ch then byte.of_Z (byte.unsigned ch + 32) else ch.
Definition ToLower (s : bytes) : bytes := map lower s.
Definition EqualFold (s tok : bytes) : bool := bytes_equal (ToLower s) (ToLower tok).

Definition keywords : list bytes := map bytes_of
  ["create"; "table"; "primary"; "key"; "insert"; "replace"; "upsert"; "into"; "values"; "update"; "set";
   "delete"; "select"; "as"; "from"; "index"; "by"; "filter"; "limit"; "begin"; "commit"; "rollback"]%string.

Definition keywordSet (name : bytes) : bool := existsb (bytes_equal name) keywords.

Fixpoint match_loop (p : Parser) (start : Z) (tokens : list string) : res (Parser * bool) :=
  match tokens with
  | [] => Ok (p, true)
  | tok :: tokens =>
      let tok := bytes_of tok in
      let p := skipSpaces p in
      let end_ := ps_idx p + len tok in
      if len (ps_input p) <? end_ then Ok (set_idx p start, false) else
      s ← slice (ps_input p) (ps_idx p) end_;
      let m := EqualFold s tok in
      m ← (if m && keywordSet tok && (end_ <? len (ps_input p)) then
             ch ← index (ps_input p) end_; Ok (negb (isSym ch))
           else Ok m);
      if (m : bool) then match_loop (set_idx p end_) start tokens
      else Ok (set_idx p start, false)
  end.

(** [p.match(tokens...)] *)
Definition p_match (p : Parser) (tokens : list string) : res (Parser * bool) :=
  match_loop p (ps_idx p) tokens.

Definition pErr (p : Parser) (fmt : string) (args : list bytes) : Parser :=
  match ps_err p with
  | None => mkParser (ps_input p) (ps_idx p) (Some (fmt, args))
  | Some _ => p
  end.

Definition consume (p : Parser) (tok fmt : string) : res Parser :=
  '(p, ok) ← p_match p [tok];
  Ok (if (ok : bool) then p else pErr p fmt []).

(** Bounds the loops over the input. *)
Definition loop_fuel (p : Parser) : nat := S (length (ps_input p)).

Section lists.
Context {A : Type} (pItem : A -> Parser -> res (Parser * A)).

Fixpoint comma_loop (fuel : nat) (acc : A) (p : Parser) : res (Parser * A) :=
  '(p, more) ← p_match p [","%string];
  if (more : bool) then
    match fuel with
    | O => NoFuel
    | S fuel => '(p, acc) ← pItem acc p; comma_loop fuel acc p
    end
  else Ok (p, acc).

Definition pCommaList (acc : A) (p : Parser) : res (Parser * A) :=
  '(p, acc) ← pItem acc p; comma_loop (loop_fuel p) acc p.

Fixpoint grouped_loop (fuel : nat) (needComma : bool) (acc : A) (p : Parser) : res (Parser * A) :=
  match ps_err p with
  | Some _ => Ok (p, acc)
  | None =>
      '(p, close) ← p_match p [")"%string];
      if (close : bool) then Ok (p, acc) else
      match fuel with
      | O => NoFuel
      | S fuel =>
          p ← (if needComma then consume p "," "expect ','" else Ok p);
          '(p, acc) ← pItem acc p;
          grouped_loop fuel true acc p
      end
  end.

Definition pGroupedCommaList (acc : A) (p : Parser) : res (Parser * A) :=
  grouped_loop (loop_fuel p) false acc p.

End lists.

(** ** Names, numbers and strings *)

Definition trySym (p : Parser) : res (Parser * option QLNode) :=
  let p := skipSpaces p in
  match ps_rest p with
  | ch :: rest =>
      if isSymStart ch then
        let curr := ps_idx p + 1 + span_len isSym rest in
        nameBytes ← slice (ps_input p) (ps_idx p) curr;
        if keywordSet (ToLower nameBytes) then Ok (p, None)
        else Ok (set_idx p curr, Some (mkQLNode QL_SYM 0 nameBytes []))
      else Ok (p, None)
  | [] => Ok (p, None)
  end.

Definition pSym (p : Parser) : res (Parser * bytes) :=
  '(p, name) ← trySym p;
  match name with
  | Some n => Ok (p, ql_Str n)
  | None => Ok (pErr p "expect name" [], [])
  end.

(** [strconv.ParseInt(s, 10, 64)] for a string without a sign; [None] is an
    error (no digit string, or out of range). *)
Fixpoint parse_digits (acc : Z) (s : bytes) : option Z :=
  match s with
  | [] => Some acc
  | ch :: s => if is_digit ch then parse_digits (acc * 10 + (byte.unsigned ch - 48)) s else None
  end.

Definition ParseInt (s : bytes) : option Z :=
  match s with
  | [] => None
  | _ => n ← parse_digits 0 s; if n <? 2 ^ 63 then Some n else None
  end.

Definition tryNum (p : Parser) : res (Parser * option QLNode) :=
  let p := skipSpaces p in
  let n := span_len IsNumber (ps_rest p) in
  let curr := ps_idx p + n in
  if curr =? ps_idx p then Ok (p, None) else
  sym ← (if curr <? len (ps_input p) then ch ← index (ps_input p) curr; Ok (isSym ch) else Ok false);
  if (sym : bool) then Ok (p, None) else
  s ← slice (ps_input p) (ps_idx p) curr;
  match ParseInt s with
  | None => Ok (p, None)
  | Some n => Ok (set_idx p curr, Some (mkQLNode TYPE_INT64 n [] []))
  end.

(** The loop of [tryStr] over the input from [curr]: the string and the
    position of the closing quote, or the error. *)
Fixpoint str_loop (rest : bytes) (curr : Z) (quote : byte) (s : bytes) : string + (Z * bytes) :=
  match rest with
  | [] => inl "string not terminated"%string
  | ch :: rest =>
      if decide (ch = quote) then inr (curr, s)
      else if is_byte 92 ch then
        match rest with
        | [] => inl "string not terminated"%string
        | ch :: rest =>
            if is_byte 34 ch || is_byte 39 ch || is_byte 92 ch then str_loop rest (curr + 2) quote (s ++ [ch])
            else inl "unknown escape"%string
        end
      else str_loop rest (curr + 1) quote (s ++ [ch])
  end.

Definition tryStr (p : Parser) : res (Parser * option QLNode) :=
  let p := skipSpaces p in
  match ps_rest p with
  | quote :: rest =>
      if is_byte 34 quote || is_byte 39 quote then
        match str_loop rest (ps_idx p + 1) quote [] with
        | inl fmt => Ok (pErr p fmt [], None)
        | inr (curr, s) => Ok (set_idx p (curr + 1), Some (mkQLNode QL_STR 0 s []))
        end
      else Ok (p, None)
  | [] => Ok (p, None)
  end.

(** ** Expressions

    From the lowest to the highest precedence: OR, AND, NOT, comparisons, sums,
    products, negation, atoms. *)

Abbreviation node_parser := (Parser -> res (Parser * QLNode)).

(** The first operator that matches. *)
Fixpoint match_op (p : Parser) (ops : list (string * Z)) : res (Parser * option Z) :=
  match ops with
  | [] => Ok (p, None)
  | (op, ty) :: ops =>
      '(p, ok) ← p_match p [op];
      if (ok : bool) then Ok (p, Some ty) else match_op p ops
  end.

Section binop.
Context (ops : list (string * Z)) (next : node_parser).

Fixpoint binop_loop (fuel : nat) (lhs : QLNode) (p : Parser) : res (Parser * QLNode) :=
  '(p, op) ← match_op p ops;
  match op with
  | None => Ok (p, lhs)
  | Some ty =>
      match fuel with
      | O => NoFuel
      | S fuel => '(p, rhs) ← next p; binop_loop fuel (mkQLNode ty 0 [] [lhs; rhs]) p
      end
  end.

Definition pExprBinOp (p : Parser) : res (Parser * QLNode) :=
  '(p, lhs) ← next p; binop_loop (loop_fuel p) lhs p.

End binop.

Definition pExprUnOp (op : string) (ty : Z) (next : node_parser) (p : Parser) : res (Parser * QLNode) :=
  '(p, ok) ← p_match p [op];
  if (ok : bool) then '(p, kid) ← next p; Ok (p, mkQLNode ty 0 [] [kid]) else next p.

Section expr.
(** The parser of nested expressions. *)
Context (pOr : node_parser).

Definition pExprTuple (p : Parser) : res (Parser * QLNode) :=
  '(p, kids) ← pGroupedCommaList (fun kids p => '(p, kid) ← pOr p; Ok (p, kids ++ [kid])) [] p;
  if len kids =? 1 then kid ← index kids 0; Ok (p, kid)
  else Ok (p, mkQLNode QL_TUP 0 [] kids).

Definition pExprAtom (p : Parser) : res (Parser * QLNode) :=
  '(p, open) ← p_match p ["("%string];
  if (open : bool) then pExprTuple p else
  '(p, sym) ← trySym p;
  match sym with
  | Some n => Ok (p, n)
  | None =>
      '(p, num) ← tryNum p;
      match num with
      | Some n => Ok (p, n)
      | None =>
          '(p, str) ← tryStr p;
          match str with
          | Some n => Ok (p, n)
          | None => Ok (pErr p "expect symbol/number/string/tuple" [], ql_zero)
          end
      end
  end.

Definition pExprNeg : node_parser := pExprUnOp "-" QL_NEG pExprAtom.
Definition pExprMul : node_parser := pExprBinOp [("*", QL_MUL); ("/", QL_DIV); ("%", QL_MOD)]%string pExprNeg.
Definition pExprAdd : node_parser := pExprBinOp [("+", QL_ADD); ("-", QL_SUB)]%string pExprMul.
Definition pExprCmp : node_parser :=
  pExprBinOp [("=", QL_CMP_EQ); ("!=", QL_CMP_NE); (">=", QL_CMP_GE); ("<=", QL_CMP_LE);
              (">", QL_CMP_GT); ("<", QL_CMP_LT)]%string pExprAdd.
Definition pExprNot : node_parser := pExprUnOp "not" QL_NOT pExprCmp.
Definition pExprAnd_step : node_parser := pExprBinOp [("and", QL_AND)]%string pExprNot.
Definition pExprOr_step : node_parser := pExprBinOp [("or", QL_OR)]%string pExprAnd_step.

End expr.

Fixpoint pExprOr (depth : nat) : node_parser :=
  match depth with
  | O => fun _ => NoFuel
  | S depth => pExprOr_step (pExprOr depth)
  end.

(** [p.pExprAnd], outside of an OR. *)
Definition pExprAnd (depth : nat) : node_parser := pExprAnd_step (pExprOr depth).

(** ** Statements *)

Definition no_scan : QLScan := mkQLScan [] ql_zero ql_zero ql_zero 0 0.

Definition pNameList (p : Parser) : res (Parser * list bytes) :=
  p ← consume p "(" "expect '(' before names list";
  pGroupedCommaList (fun names p => '(p, name) ← pSym p; Ok (p, names ++ [name])) [] p.

Definition pColType (p : Parser) : res (Parser * Z) :=
  '(p, type_) ← pSym p;
  let t := ToLower type_ in
  if bytes_equal t (bytes_of "string") || bytes_equal t (bytes_of "bytes") then Ok (p, TYPE_BYTES)
  else if bytes_equal t (bytes_of "int") || bytes_equal t (bytes_of "int64") then Ok (p, TYPE_INT64)
  else Ok (pErr p "bad column type: %s" [type_], 0).

(** One item of the column list; a primary key without columns is nil. *)
Definition pCreateItem (def : TableDef) (p : Parser) : res (Parser * TableDef) :=
  '(p, ok) ← p_match p ["index"%string];
  if (ok : bool) then
    '(p, names) ← pNameList p;
    Ok (p, mkTableDef (td_Name def) (td_Types def) (td_Cols def) (td_Indexes def ++ [names]) (td_Prefixes def))
  else
  '(p, ok) ← p_match p ["primary"; "key"]%string;
  if (ok : bool) then
    first ← index (td_Indexes def) 0;
    if negb (len first =? 0) then Ok (pErr p "duplicate primary key" [], def) else
    '(p, names) ← pNameList p;
    Ok (p, mkTableDef (td_Name def) (td_Types def) (td_Cols def) (<[0%nat := names]> (td_Indexes def))
             (td_Prefixes def))
  else
    '(p, col) ← pSym p;
    '(p, ty) ← pColType p;
    Ok (p, mkTableDef (td_Name def) (td_Types def ++ [ty]) (td_Cols def ++ [col]) (td_Indexes def)
             (td_Prefixes def)).

Definition pCreateTable (p : Parser) : res (Parser * QLStmt) :=
  '(p, name) ← pSym p;
  p ← consume p "(" "expect '(' after 'create table <name>'";
  '(p, def) ← pGroupedCommaList pCreateItem (mkTableDef name [] [] [[]] []) p;
  Ok (p, StCreateTable def).

(** [p.verifyScanKey(node)]: the node with both sides as tuples. *)
Definition verifyScanKey (p : Parser) (node : QLNode) : res (Parser * QLNode) :=
  let ty := ql_Type node in
  if ty =? QL_CMP_NE then Ok (pErr p "bad 'INDEX BY': '!=' not allowed" [], node)
  else if negb (is_cmp_op ty) then Ok (pErr p "bad 'INDEX BY': expect comparison" [], node)
  else
    lhs ← index (ql_Kids node) 0;
    rhs ← index (ql_Kids node) 1;
    let '(lhs, rhs) :=
      if negb (ql_Type lhs =? QL_TUP) && negb (ql_Type rhs =? QL_TUP)
      then (mkQLNode QL_TUP 0 [] [lhs], mkQLNode QL_TUP 0 [] [rhs]) else (lhs, rhs) in
    if negb (ql_Type lhs =? QL_TUP) || negb (ql_Type rhs =? QL_TUP) then
      Ok (pErr p "bad 'INDEX BY': compare tuple and single value" [], node)
    else if negb (len (ql_Kids lhs) =? len (ql_Kids rhs)) then
      Ok (pErr p "bad 'INDEX BY': columns count not match values count" [], node)
    else if negb (forallb (fun name => ql_Type name =? QL_SYM) (ql_Kids lhs)) then
      Ok (pErr p "bad 'INDEX BY': left side of comparison must be column name(s)" [], node)
    else
      Ok (p, mkQLNode ty (ql_I64 node) (ql_Str node) (lhs :: rhs :: drop 2 (ql_Kids node))).

Definition pLimit (node : QLScan) (p : Parser) : res (Parser * QLScan) :=
  '(p, n1) ← tryNum p;
  let count := default ql_zero n1 in
  let ok := match n1 with Some _ => true | None => false end in
  '(p, comma) ← p_match p [","%string];
  '(p, offset, count, ok) ←
    (if (comma : bool) then
       if ok then
         '(p, n2) ← tryNum p;
         Ok (p, count, default count n2, match n2 with Some _ => true | None => false end)
       else Ok (p, count, count, false)
     else Ok (p, ql_zero, count, ok));
  if negb ok then Ok (pErr p "bad 'limit'" [], node)
  else
    Ok (p, mkQLScan (qs_Table node) (qs_Key1 node) (qs_Key2 node) (qs_Filter node) (ql_I64 offset)
             (if negb (ql_Type count =? 0) then ql_I64 count else qs_Limit node)).

Section stmt.
Context (depth : nat).

Definition pIndexBy (node : QLScan) (p : Parser) : res (Parser * QLScan) :=
  '(p, idx) ← pExprAnd depth p;
  '(key1, key2) ←
    (if ql_Type idx =? QL_AND then
       k0 ← index (ql_Kids idx) 0; k1 ← index (ql_Kids idx) 1; Ok (k0, k1)
     else Ok (idx, qs_Key2 node));
  let keys p k1 k2 := (p, mkQLScan (qs_Table node) k1 k2 (qs_Filter node) (qs_Offset node) (qs_Limit node)) in
  if (ql_Type key1 =? QL_CMP_EQ) && negb (ql_Type key2 =? 0) then
    Ok (keys (pErr p "bad 'INDEX BY': expect only 1 '='" []) key1 key2)
  else
    '(p, key1) ← verifyScanKey p key1;
    '(p, key2) ← (if negb (ql_Type key2 =? 0) then verifyScanKey p key2 else Ok (p, key2));
    Ok (keys p key1 key2).

Definition pScan (node : QLScan) (p : Parser) : res (Parser * QLScan) :=
  '(p, ok) ← p_match p ["index"; "by"]%string;
  '(p, node) ← (if (ok : bool) then pIndexBy node p else Ok (p, node));
  '(p, ok) ← p_match p ["filter"%string];
  '(p, filter) ← (if (ok : bool) then pExprOr depth p else Ok (p, qs_Filter node));
  let node := mkQLScan (qs_Table node) (qs_Key1 node) (qs_Key2 node) filter 0 (2 ^ 63 - 1) in
  '(p, ok) ← p_match p ["limit"%string];
  if (ok : bool) then pLimit node p else Ok (p, node).

Definition set_table (scan : QLScan) (table : bytes) : QLScan :=
  mkQLScan table (qs_Key1 scan) (qs_Key2 scan) (qs_Filter scan) (qs_Offset scan) (qs_Limit scan).

Definition pSelectExpr (stmt : QLSelect) (p : Parser) : res (Parser * QLSelect) :=
  let add p name expr :=
    (p, mkQLSelect (sel_scan stmt) (sel_Names stmt ++ [name]) (sel_Output stmt ++ [expr])) in
  '(p, star) ← p_match p ["*"%string];
  if (star : bool) then Ok (add p (bytes_of "*") (mkQLNode QL_STAR 0 [] []))
  else
    '(p, expr) ← pExprOr depth p;
    '(p, as_) ← p_match p ["as"%string];
    '(p, name) ← (if (as_ : bool) then pSym p else Ok (p, []));
    Ok (add p name expr).

Definition pSelect (p : Parser) : res (Parser * QLStmt) :=
  '(p, stmt) ← pCommaList pSelectExpr (mkQLSelect no_scan [] []) p;
  p ← consume p "from" "expect 'from' after 'select ...'";
  '(p, table) ← pSym p;
  '(p, scan) ← pScan (set_table (sel_scan stmt) table) p;
  Ok (p, StSelect (mkQLSelect scan (sel_Names stmt) (sel_Output stmt))).

Definition pValueList (p : Parser) : res (Parser * list QLNode) :=
  p ← consume p "(" "expect '(' before values list";
  pGroupedCommaList (fun vals p => '(p, val) ← pExprOr depth p; Ok (p, vals ++ [val])) [] p.

Definition pInsert (mode : Z) (p : Parser) : res (Parser * QLStmt) :=
  '(p, table) ← pSym p;
  '(p, names) ← pNameList p;
  p ← consume p "values" "expect 'values' after 'insert into <table> ...'";
  '(p, values) ← pCommaList (fun values p => '(p, vals) ← pValueList p; Ok (p, values ++ [vals])) [] p;
  let stmt := StInsert (mkQLInsert table mode names values) in
  if forallb (fun row => len row =? len names) values then Ok (p, stmt)
  else Ok (pErr p "values length not match columns length" [], stmt).

Definition pAssign (stmt : QLUpdate) (p : Parser) : res (Parser * QLUpdate) :=
  '(p, name) ← pSym p;
  p ← consume p "=" "expect '=' in 'set ... col = expr ...'";
  '(p, val) ← pExprOr depth p;
  Ok (p, mkQLUpdate (upd_scan stmt) (upd_Names stmt ++ [name]) (upd_Values stmt ++ [val])).

Definition pUpdate (p : Parser) : res (Parser * QLStmt) :=
  '(p, table) ← pSym p;
  p ← consume p "set" "expect 'set' after 'update <table>'";
  '(p, stmt) ← pCommaList pAssign (mkQLUpdate no_scan [] []) p;
  '(p, scan) ← pScan (set_table (upd_scan stmt) table) p;
  Ok (p, StUpdate (mkQLUpdate scan (upd_Names stmt) (upd_Values stmt))).

Definition pDelete (p : Parser) : res (Parser * QLStmt) :=
  '(p, table) ← pSym p;
  '(p, scan) ← pScan (set_table no_scan table) p;
  Ok (p, StDelete scan).

(** The cases of [pStmt], in order. *)
Definition stmt_cases : list (list string * (Parser -> res (Parser * QLStmt))) :=
  [(["begin"], fun p => Ok (p, StBegin));
   (["commit"], fun p => Ok (p, StCommit));
   (["rollback"], fun p => Ok (p, StRollback));
   (["create"; "table"], pCreateTable);
   (["select"], pSelect);
   (["insert"; "into"], pInsert MODE_INSERT_ONLY);
   (["replace"; "into"], pInsert MODE_UPDATE_ONLY);
   (["upsert"; "into"], pInsert MODE_UPSERT);
   (["delete"; "from"], pDelete);
   (["update"], pUpdate)]%string.

Fixpoint first_case (cases : list (list string * (Parser -> res (Parser * QLStmt)))) (p : Parser)
    : res (Parser * option QLStmt) :=
  match cases with
  | [] => Ok (pErr p "unknown stmt" [], None)
  | (tokens, parse) :: cases =>
      '(p, ok) ← p_match p tokens;
      if (ok : bool) then '(p, stmt) ← parse p; Ok (p, Some stmt) else first_case cases p
  end.

Definition pStmt (p : Parser) : res (Parser * (option QLStmt + gerror)) :=
  '(p, stmt) ← first_case stmt_cases p;
  p ← consume p ";" "expect ';' after statement";
  match ps_err p with
  | Some e => Ok (p, inr e)
  | None => Ok (p, inl stmt)
  end.

End stmt.

(** [NewParser(input).Parse()]: parentheses nest at most as deep as the input
    is long. *)
Definition Parse (input : bytes) : res (Parser * (option QLStmt + gerror)) :=
  pStmt (S (length input)) (NewParser input).
