(* ===== verification/ParserFacts.v ===== *)
(** * The parser makes progress

    Every parsing function returns: it consumes input or reports an error, and
    without an error its result is well formed. *)

From S2P Require Import Prelude.
From S2P Require Import GoBytes.
From S2P Require Import Encode.
From S2P Require Import StmtScanner.
From S2P Require Import BTree.
From S2P Require Import QLNode.
From S2P Require Import Eval.
From S2P Require Import EvalFacts.
From S2P Require Import Parser.

Definition ps_ok (p : Parser) : Prop := 0 <= ps_idx p <= len (ps_input p).

(** What is left of the input. *)
Definition rem (p : Parser) : Z := len (ps_input p) - ps_idx p.

(** Parsing moves forward, and an error stays. *)
Definition step (p p' : Parser) : Prop :=
  ps_input p' = ps_input p /\ ps_idx p <= ps_idx p' <= len (ps_input p) /\
  (ps_err p' = None -> ps_err p = None).

(** [f] returns on inputs with less than [d] bytes left: its result satisfies
    [R], and [Q] unless there is an error; then it consumed [k] bytes. *)
Definition parses {A} (d k : Z) (f : Parser -> res (Parser * A)) (R Q : A -> Prop) : Prop :=
  forall p, ps_ok p -> rem p < d -> exists p' a, f p = Ok (p', a) /\ step p p' /\ R a /\
    (ps_err p' = None -> ps_idx p + k <= ps_idx p' /\ Q a).

Lemma step_refl p : ps_ok p -> step p p.
Proof. unfold ps_ok, step. intros. split_and!; auto; lia. Qed.

Lemma step_trans a b c : step a b -> step b c -> step a c.
Proof.
  intros (Hi & Hx & He) (Hi' & Hx' & He'). rewrite Hi in *. unfold step. rewrite Hi'. split_and!; auto; lia.
Qed.

Lemma step_ok p p' : ps_ok p -> step p p' -> ps_ok p'.
Proof. unfold ps_ok, step. intros Hp (-> & Hx & _). lia. Qed.

Lemma step_rem p p' : step p p' -> rem p' = rem p - (ps_idx p' - ps_idx p).
Proof. unfold rem. intros (-> & Hx & _). lia. Qed.

Lemma step_rem_lt p p' d : step p p' -> rem p < d -> rem p' < d.
Proof. intros Hs Hd. pose proof (step_rem _ _ Hs). destruct Hs as (_ & Hx & _). lia. Qed.

Lemma pErr_step p fmt args : ps_ok p -> step p (pErr p fmt args) /\ ps_err (pErr p fmt args) <> None.
Proof.
  intros Hp. unfold pErr. destruct (ps_err p) as [e|] eqn:E.
  - split; [by apply step_refl|congruence].
  - split; [|done]. unfold ps_ok, step in *. cbn. split_and!; auto; lia.
Qed.

Lemma parses_weaken {A} d k k' f (R Q Q' : A -> Prop) :
  parses d k f R Q -> k' <= k -> (forall a, Q a -> Q' a) -> parses d k' f R Q'.
Proof.
  intros H Hk HQ p Hp Hd. destruct (H p Hp Hd) as (p' & a & E & Hs & HR & H').
  exists p', a. split_and!; auto. intros Hn. destruct (H' Hn). split; [lia|auto].
Qed.

(** ** Tokens *)

Lemma span_len_range P rest : 0 <= span_len P rest <= len rest.
Proof.
  induction rest as [|ch rest IH]; cbn; [done|]. rewrite len_cons. destruct (P ch); lia.
Qed.

Lemma len_rest p : ps_ok p -> len (ps_rest p) = rem p.
Proof. unfold ps_ok, rem, ps_rest, len. intros. rewrite length_drop. lia. Qed.

Lemma skipSpaces_step p : ps_ok p -> step p (skipSpaces p) /\ ps_err (skipSpaces p) = ps_err p.
Proof.
  intros Hp. split; [|done]. pose proof (span_len_range isSpace (ps_rest p)) as H. rewrite len_rest in H by done.
  unfold step, skipSpaces, rem, ps_ok in *. cbn. split_and!; auto; lia.
Qed.

Definition tok_len (toks : list string) : Z := foldr (fun t n => len (bytes_of t) + n) 0 toks.

Lemma match_loop_ok toks p start :
  ps_ok p -> 0 <= start <= ps_idx p ->
  exists p' b, match_loop p start toks = Ok (p', b) /\ ps_input p' = ps_input p /\ ps_err p' = ps_err p /\
    (if b : bool then ps_idx p + tok_len toks <= ps_idx p' <= len (ps_input p) else ps_idx p' = start).
Proof.
  revert p. induction toks as [|tok toks IH]; intros p Hp Hst; cbn [match_loop].
  { exists p, true. unfold ps_ok in Hp. cbn. split_and!; auto; lia. }
  destruct (skipSpaces_step p Hp) as [Hs He]. pose proof (step_ok _ _ Hp Hs) as Hp1. destruct Hs as (Hi & Hx & _).
  set (p1 := skipSpaces p) in *. clearbody p1. unfold ps_ok in Hp1. rewrite Hi in *. pose proof (len_nonneg (bytes_of tok)) as Ht.
  destruct (Z.ltb_spec (len (ps_input p)) (ps_idx p1 + len (bytes_of tok))) as [Hlt|Hge].
  { exists (set_idx p1 start), false. by split_and!. }
  rewrite slice_Ok by lia. step_res. set (m := EqualFold _ _).
  assert (exists m', (if m && keywordSet (bytes_of tok) && (ps_idx p1 + len (bytes_of tok) <? len (ps_input p)) then
     ch ← index (ps_input p) (ps_idx p1 + len (bytes_of tok)); Ok (negb (isSym ch)) else Ok m) = Ok m') as [m' ->].
  { destruct (_ && _ && _) eqn:E; [|by eexists]. apply andb_true_iff in E as [_ E%Z.ltb_lt].
    unfold index. rewrite (proj2 (Z.leb_le _ _)) by lia.
    destruct (lookup_lt_is_Some_2 (ps_input p) (Z.to_nat (ps_idx p1 + len (bytes_of tok)))) as [ch ->].
    - unfold len in *. lia.
    - by eexists. }
  step_res. destruct m'; [|by exists (set_idx p1 start), false].
  destruct (IH (set_idx p1 (ps_idx p1 + len (bytes_of tok)))) as (p' & b & E & Hi' & He' & Hb).
  { unfold ps_ok. cbn. rewrite Hi. lia. }
  { cbn. lia. }
  exists p', b. rewrite E. cbn in Hi', He', Hb. rewrite Hi in *. split; [done|]. split; [done|]. split; [congruence|].
  destruct b; [|done]. cbn [tok_len foldr]. fold (tok_len toks). lia.
Qed.

Lemma p_match_ok p toks :
  ps_ok p -> exists p' b, p_match p toks = Ok (p', b) /\ step p p' /\ ps_err p' = ps_err p /\
    (if b : bool then ps_idx p + tok_len toks <= ps_idx p' else p' = p).
Proof.
  intros Hp. unfold p_match. destruct (match_loop_ok toks p (ps_idx p) Hp) as (p' & b & E & Hi & He & Hb).
  { unfold ps_ok in Hp. lia. }
  exists p', b. split; [done|]. unfold ps_ok in Hp. assert (0 <= tok_len toks) as Ht.
  { clear. induction toks as [|t toks IH]; cbn; [done|]. fold (tok_len toks). pose proof (len_nonneg (bytes_of t)). lia. }
  split; [|split; [done|]].
  - unfold step. rewrite Hi, He. split_and!; auto; destruct b; lia.
  - destruct b; [lia|]. destruct p, p'; cbn in *. by subst.
Qed.

Lemma consume_ok p tok fmt :
  ps_ok p -> exists p', consume p tok fmt = Ok p' /\ step p p' /\
    (ps_err p' = None -> ps_idx p + len (bytes_of tok) <= ps_idx p').
Proof.
  intros Hp. unfold consume. destruct (p_match_ok p [tok] Hp) as (p1 & b & -> & Hs & He & Hb). step_res.
  cbn [tok_len foldr] in Hb. destruct b; eexists; (split; [reflexivity|]).
  - split; [done|]. lia.
  - subst p1. destruct (pErr_step p fmt [] Hp) as [H1 H2]. split; [done|]. by intros.
Qed.

(** ** Names, numbers and strings *)

(** A name, a number or a string. *)
Definition leaf (n : QLNode) : Prop :=
  (ql_Type n = QL_SYM \/ ql_Type n = QL_I64 \/ ql_Type n = QL_STR) /\ ql_Kids n = [].

(** An attempt: the parser and perhaps a node, which costs a byte. *)
Definition tries (f : Parser -> res (Parser * option QLNode)) : Prop :=
  forall p, ps_ok p -> exists p' n, f p = Ok (p', n) /\ step p p' /\
    match n with
    | Some n => ps_idx p + 1 <= ps_idx p' /\ leaf n
    | None => True
    end.

Lemma skip_rest p : ps_ok p -> ps_ok (skipSpaces p) /\ step p (skipSpaces p).
Proof. intros Hp. destruct (skipSpaces_step p Hp) as [Hs _]. split; [by eapply step_ok|done]. Qed.

Lemma advance p p1 idx :
  step p p1 -> ps_idx p1 <= idx <= len (ps_input p1) -> step p (set_idx p1 idx).
Proof. intros (Hi & Hx & He) Hidx. unfold step. cbn. rewrite <- Hi. split_and!; auto; lia. Qed.

Lemma trySym_ok : tries trySym.
Proof.
  intros p Hp. unfold trySym. destruct (skip_rest p Hp) as [Hp1 Hs1]. set (p1 := skipSpaces p) in *. clearbody p1.
  pose proof (len_rest p1 Hp1) as Hl. destruct (ps_rest p1) as [|ch rest] eqn:E; [by exists p1, None|].
  destruct (isSymStart ch); [|by exists p1, None]. rewrite len_cons in Hl.
  pose proof (span_len_range isSym rest) as Hsp. unfold rem, ps_ok in *.
  rewrite slice_Ok by lia. step_res. destruct (keywordSet _); [by exists p1, None|].
  eexists _, _. split; [reflexivity|]. split; [apply advance; [done|lia]|].
  split; [cbn; destruct Hs1 as (_ & Hx & _); lia|]. split; [by left|done].
Qed.

Lemma tryNum_ok : tries tryNum.
Proof.
  intros p Hp. unfold tryNum. destruct (skip_rest p Hp) as [Hp1 Hs1]. set (p1 := skipSpaces p) in *. clearbody p1.
  pose proof (span_len_range IsNumber (ps_rest p1)) as Hsp. rewrite len_rest in Hsp by done.
  set (n := span_len IsNumber (ps_rest p1)) in *. unfold rem, ps_ok in *.
  destruct (Z.eqb_spec (ps_idx p1 + n) (ps_idx p1)); [by exists p1, None|].
  assert (exists b, (if ps_idx p1 + n <? len (ps_input p1) then ch ← index (ps_input p1) (ps_idx p1 + n); Ok (isSym ch)
     else Ok false) = Ok b) as [b ->].
  { destruct (Z.ltb_spec (ps_idx p1 + n) (len (ps_input p1))); [|by eexists].
    unfold index. rewrite (proj2 (Z.leb_le _ _)) by lia.
    destruct (lookup_lt_is_Some_2 (ps_input p1) (Z.to_nat (ps_idx p1 + n))) as [ch ->]; [unfold len in *; lia|].
    by eexists. }
  step_res. destruct b; [by exists p1, None|]. rewrite slice_Ok by lia. step_res.
  destruct (ParseInt _); [|by exists p1, None]. eexists _, _. split; [reflexivity|].
  split; [apply advance; [done|lia]|].
  split; [cbn; destruct Hs1 as (_ & Hx & _); lia|]. split; [by right; left|done].
Qed.

Lemma str_loop_range n rest curr quote s c s' :
  (length rest <= n)%nat -> str_loop rest curr quote s = inr (c, s') -> curr <= c < curr + len rest.
Proof.
  revert rest curr s. induction n as [|n IH]; intros rest curr s Hn; (destruct rest as [|ch rest]; [done|]);
    [cbn in Hn; lia|]. cbn [str_loop]. rewrite len_cons. cbn in Hn. pose proof (len_nonneg rest).
  destruct (decide (ch = quote)); [intros [= <- <-]; lia|]. destruct (is_byte 92 ch).
  - destruct rest as [|ch2 rest]; [done|]. rewrite len_cons in *. destruct (_ || _ || _); [|done].
    intros Hl%IH; [lia|cbn in Hn; lia].
  - intros Hl%IH; lia.
Qed.

Lemma tryStr_ok : tries tryStr.
Proof.
  intros p Hp. unfold tryStr. destruct (skip_rest p Hp) as [Hp1 Hs1]. set (p1 := skipSpaces p) in *. clearbody p1.
  pose proof (len_rest p1 Hp1) as Hl. destruct (ps_rest p1) as [|q rest] eqn:E; [by exists p1, None|].
  destruct (is_byte 34 q || is_byte 39 q); [|by exists p1, None]. rewrite len_cons in Hl.
  destruct (str_loop rest (ps_idx p1 + 1) q []) as [fmt|[c s]] eqn:El.
  - eexists _, _. split; [reflexivity|]. split; [|done]. eapply step_trans; [exact Hs1|]. by apply pErr_step.
  - apply (str_loop_range (length rest)) in El; [|done]. unfold rem, ps_ok in *.
    eexists _, _. split; [reflexivity|]. split; [apply advance; [done|lia]|].
    split; [cbn; destruct Hs1 as (_ & Hx & _); lia|]. split; [by right; right|done].
Qed.
