(* ===== verification/ParserExpr.v ===== *)
(** * Lists and expressions parse

    The loops of the parser are bounded by the input: each iteration consumes
    a separator, an operator or an item.  Expressions nest as deep as there are
    bytes left. *)

From S2P Require Import Prelude.
From S2P Require Import GoBytes.
From S2P Require Import Encode.
From S2P Require Import StmtScanner.
From S2P Require Import BTree.
From S2P Require Import QLNode.
From S2P Require Import Eval.
From S2P Require Import EvalFacts.
From S2P Require Import Parser.
From S2P Require Import ParserFacts.

(** ** Composing parsers *)

(** One token matched or not, at the head of a function. *)
Ltac match_tok p Hp b Hs He Hb :=
  let p1 := fresh "p" in
  match goal with |- context [p_match p ?toks] =>
    destruct (p_match_ok p toks Hp) as (p1 & b & -> & Hs & He & Hb); step_res; cbn [tok_len foldr] in Hb
  end.

(** Without errors an operator node needs as many operands as it has; a node
    left over after an error is the zero node. *)
Fixpoint ql_shape (node : QLNode) : bool :=
  let 'mkQLNode ty _ _ kids := node in
  forallb ql_shape kids && (if is_cmp_op ty || is_logic_op ty then (length kids =? 2)%nat else true).

Abbreviation shape n := (ql_shape n = true).
Abbreviation wf n := (ql_wf n = true).

(** The result of a parser of expressions. *)
Abbreviation parses_expr d k f := (parses d k f (fun n => shape n) (fun n => wf n)).

Lemma leaf_node n : leaf n -> wf n /\ shape n.
Proof. destruct n as [ty i s kids]. cbn. intros [Hty Hk]. cbn in *. subst kids. by destruct Hty as [-> | [-> | ->]]. Qed.

(** ** Lists *)

Section lists.
Context {A : Type} (pItem : A -> Parser -> res (Parser * A)) (R Q : A -> Prop) (d : Z).
(** An item consumes input, and keeps what holds of the list. *)
Context (Hitem : forall acc, R acc -> parses d 1 (pItem acc) R (fun acc' => Q acc -> Q acc')).

Lemma comma_loop_ok fuel acc p :
  ps_ok p -> rem p < d -> rem p <= Z.of_nat fuel -> R acc ->
  exists p' acc', comma_loop pItem fuel acc p = Ok (p', acc') /\ step p p' /\ R acc' /\
    (ps_err p' = None -> Q acc -> Q acc').
Proof using Hitem.
  revert acc p. induction fuel as [|fuel IH]; intros acc p Hp Hd Hf Hacc; cbn [comma_loop];
    match_tok p Hp b Hs He Hb; (destruct b; [|subst; exists p, acc; by split_and!]).
  - pose proof (step_rem _ _ Hs). pose proof (step_ok _ _ Hp Hs) as Hp0. rewrite <- (len_rest p0) in * by done.
    pose proof (len_nonneg (ps_rest p0)). change (len (bytes_of ",")) with 1 in Hb. lia.
  - pose proof (step_rem _ _ Hs) as Hr. pose proof (step_ok _ _ Hp Hs) as Hp0.
    change (len (bytes_of ",")) with 1 in Hb.
    destruct (Hitem acc Hacc p0 Hp0 ltac:(lia)) as (p1 & acc1 & -> & Hs1 & Hacc1 & HQ1). step_res.
    pose proof (step_rem _ _ Hs1). destruct Hs1 as (Hi1 & Hx1 & He1) eqn:Es1. clear Es1.
    destruct (IH acc1 p1) as (p2 & acc2 & -> & Hs2 & Hacc2 & HQ2); [by eapply step_ok|lia|lia|done|].
    exists p2, acc2. split; [done|]. split; [by eapply step_trans, step_trans|]. split; [done|].
    intros Hn HQ. apply HQ2; [done|]. destruct Hs2 as (_ & _ & Hs2). by apply HQ1; [apply Hs2|].
Qed.

Lemma pCommaList_ok acc :
  R acc -> parses d 1 (pCommaList pItem acc) R (fun acc' => Q acc -> Q acc').
Proof using Hitem.
  intros Hacc p Hp Hd. unfold pCommaList.
  destruct (Hitem acc Hacc p Hp Hd) as (p1 & acc1 & -> & Hs1 & Hacc1 & HQ1). step_res.
  pose proof (step_ok _ _ Hp Hs1) as Hp1. pose proof (step_rem_lt _ _ _ Hs1 Hd).
  destruct (comma_loop_ok (loop_fuel p1) acc1 p1 Hp1) as (p2 & acc2 & -> & Hs2 & Hacc2 & HQ2); [done| |done|].
  { unfold loop_fuel, rem, ps_ok, len in *. lia. }
  exists p2, acc2. split; [done|]. split; [by eapply step_trans|]. split; [done|]. intros Hn.
  destruct Hs2 as (_ & Hx2 & He2). destruct (HQ1 (He2 Hn)) as [Hk HQ]. split; [lia|]. auto.
Qed.

(** Each iteration but the first needs a comma, and an item. *)
Lemma grouped_loop_ok fuel needComma acc p :
  ps_ok p -> rem p < d -> rem p < Z.of_nat fuel -> R acc ->
  exists p' acc', grouped_loop pItem fuel needComma acc p = Ok (p', acc') /\ step p p' /\ R acc' /\
    (ps_err p' = None -> ps_idx p + 1 <= ps_idx p' /\ (Q acc -> Q acc')).
Proof using Hitem.
  revert needComma acc p. induction fuel as [|fuel IH]; intros needComma acc p Hp Hd Hf Hacc.
  { rewrite <- len_rest in Hf by done. pose proof (len_nonneg (ps_rest p)). lia. }
  cbn [grouped_loop]. destruct (ps_err p) as [e|] eqn:Eerr.
  { exists p, acc. split; [done|]. split; [by apply step_refl|]. split; [done|]. congruence. }
  match_tok p Hp b Hs He Hb. destruct b.
  { exists p0, acc. split; [done|]. split; [done|]. split; [done|]. intros _.
    change (len (bytes_of ")")) with 1 in Hb. split; [lia|done]. }
  subst p0.
  assert (exists p1, (if needComma then consume p "," "expect ','" else Ok p) = Ok p1 /\ step p p1) as (p1 & -> & Hs1).
  { destruct needComma; [|exists p; split; [done|by apply step_refl]].
    destruct (consume_ok p "," "expect ','" Hp) as (p1 & E & Hs1 & _). by exists p1. }
  step_res. pose proof (step_ok _ _ Hp Hs1) as Hp1. pose proof (step_rem_lt _ _ _ Hs1 Hd) as Hd1.
  destruct (Hitem acc Hacc p1 Hp1 Hd1) as (p2 & acc2 & -> & Hs2 & Hacc2 & HQ2). step_res.
  assert (step p p2) as Hs02 by by eapply step_trans. pose proof (step_ok _ _ Hp Hs02) as Hp2.
  destruct (ps_err p2) as [e|] eqn:E2.
  { exists p2, acc2. destruct fuel; cbn [grouped_loop]; rewrite E2; (split; [done|]); split_and!; try done; congruence. }
  destruct (HQ2 eq_refl) as [Hk HQ]. pose proof (step_rem _ _ Hs1). pose proof (step_rem _ _ Hs2).
  pose proof Hs1 as (_ & Hx1 & _).
  destruct (IH true acc2 p2 Hp2) as (p3 & acc3 & -> & Hs3 & Hacc3 & HQ3); [lia|lia|done|].
  exists p3, acc3. split; [done|]. split; [by eapply step_trans|]. split; [done|]. intros Hn.
  destruct (HQ3 Hn) as [Hk3 HQ3']. split; [lia|auto].
Qed.

Lemma pGroupedCommaList_ok acc :
  R acc -> parses d 1 (pGroupedCommaList pItem acc) R (fun acc' => Q acc -> Q acc').
Proof using Hitem.
  intros Hacc p Hp Hd. apply grouped_loop_ok; auto. unfold loop_fuel, rem, ps_ok, len in *. lia.
Qed.

End lists.

(** ** Operators *)

Lemma match_op_ok ops p :
  ps_ok p -> Forall (fun o => 1 <= len (bytes_of (fst o))) ops ->
  exists p' op, match_op p ops = Ok (p', op) /\ step p p' /\ ps_err p' = ps_err p /\
    match op with
    | Some ty => ps_idx p + 1 <= ps_idx p' /\ ty ∈ ops.*2
    | None => p' = p
    end.
Proof.
  intros Hp Hops. induction Hops as [|[op ty] ops Hop Hops IH]; cbn [match_op].
  { exists p, None. split; [done|]. split; [by apply step_refl|done]. }
  match_tok p Hp b Hs He Hb. cbn [fst] in Hop. destruct b.
  - exists p0, (Some ty). split_and!; try done; [lia|]. cbn. set_solver.
  - subst p0. destruct IH as (p' & o & E & Hs' & He' & Ho). exists p', o. split_and!; try done.
    destruct o as [t|]; [|done]. destruct Ho. split; [done|]. cbn. set_solver.
Qed.

(** Operators that the reference semantics knows. *)
Definition binary (ty : Z) : Prop :=
  (is_cmp_op ty || is_arith_op ty || is_logic_op ty) = true.

Lemma wf_binary ty a b : binary ty -> wf a -> wf b -> wf (mkQLNode ty 0 [] [a; b]).
Proof.
  unfold binary. intros Hty Ha Hb. cbn [ql_wf].
  assert ((ty =? QL_SYM) || (ty =? QL_I64) || (ty =? QL_STR) = false /\ (ty =? QL_TUP) = false /\
    (ty =? QL_NEG) || (ty =? QL_NOT) = false) as (-> & -> & ->).
  { split_and!; apply not_true_iff_false; intros H; rewrite ?orb_true_iff, ?Z.eqb_eq in H;
      (destruct H as [[-> | ->]| ->] || destruct H as [-> | ->] || subst ty); done. }
  cbn [forallb andb length]. by rewrite Ha, Hb, Hty.
Qed.

Lemma shape_binary ty a b : shape a -> shape b -> shape (mkQLNode ty 0 [] [a; b]).
Proof. intros Ha Hb. cbn. rewrite Ha, Hb. by destruct (_ || _). Qed.

Section binop.
Context (ops : list (string * Z)) (next : node_parser) (d : Z).
Context (Hops : Forall (fun o => 1 <= len (bytes_of (fst o))) ops) (Htys : Forall binary ops.*2).
Context (Hnext : parses_expr d 1 next).

Lemma binop_loop_ok fuel lhs p :
  ps_ok p -> rem p < d -> rem p <= Z.of_nat fuel -> shape lhs ->
  exists p' n, binop_loop ops next fuel lhs p = Ok (p', n) /\ step p p' /\ shape n /\
    (ps_err p' = None -> wf lhs -> wf n).
Proof using All.
  revert lhs p. induction fuel as [|fuel IH]; intros lhs p Hp Hd Hf Hl; cbn [binop_loop];
    destruct (match_op_ok ops p Hp Hops) as (p0 & op & -> & Hs & He & Hop); step_res;
    (destruct op as [ty|]; [destruct Hop as [Hx Hty]|subst p0; by exists p, lhs]).
  - pose proof (step_rem _ _ Hs). pose proof (step_ok _ _ Hp Hs) as Hp0. rewrite <- (len_rest p0) in * by done.
    pose proof (len_nonneg (ps_rest p0)). lia.
  - pose proof (step_rem _ _ Hs). pose proof (step_ok _ _ Hp Hs) as Hp0.
    destruct (Hnext p0 Hp0 ltac:(lia)) as (p1 & rhs & -> & Hs1 & Hsh & HQ). step_res.
    pose proof (step_rem _ _ Hs1). pose proof Hs1 as (_ & Hx1 & _).
    destruct (IH (mkQLNode ty 0 [] [lhs; rhs]) p1) as (p2 & n & -> & Hs2 & Hn & HQ2);
      [by eapply step_ok|lia|lia|by apply shape_binary|].
    exists p2, n. split; [done|]. split; [by eapply step_trans, step_trans|]. split; [done|].
    intros Herr Hw. apply HQ2; [done|]. pose proof Hs2 as (_ & _ & He2). destruct (HQ (He2 Herr)) as [_ Hr].
    rewrite Forall_forall in Htys. apply wf_binary; auto.
Qed.

Lemma pExprBinOp_ok : parses_expr d 1 (pExprBinOp ops next).
Proof using All.
  intros p Hp Hd. unfold pExprBinOp. destruct (Hnext p Hp Hd) as (p1 & lhs & -> & Hs1 & Hsh & HQ). step_res.
  pose proof (step_ok _ _ Hp Hs1) as Hp1. pose proof (step_rem_lt _ _ _ Hs1 Hd).
  destruct (binop_loop_ok (loop_fuel p1) lhs p1 Hp1) as (p2 & n & -> & Hs2 & Hn & HQ2); [done| |done|].
  { unfold loop_fuel, rem, ps_ok, len in *. lia. }
  exists p2, n. split; [done|]. split; [by eapply step_trans|]. split; [done|]. intros Herr.
  pose proof Hs2 as (_ & Hx2 & He2). destruct (HQ (He2 Herr)) as [Hk Hw]. split; [lia|auto].
Qed.

End binop.

Lemma pExprUnOp_ok op ty next d :
  ty = QL_NOT \/ ty = QL_NEG -> parses_expr d 1 next -> parses_expr d 1 (pExprUnOp op ty next).
Proof.
  intros Hty Hnext p Hp Hd. unfold pExprUnOp. match_tok p Hp b Hs He Hb. destruct b; [|subst p0; by apply Hnext].
  pose proof (step_ok _ _ Hp Hs) as Hp0. pose proof (step_rem_lt _ _ _ Hs Hd) as Hd0.
  destruct (Hnext p0 Hp0 Hd0) as (p1 & kid & -> & Hs1 & Hsh & HQ). step_res.
  exists p1, (mkQLNode ty 0 [] [kid]). split; [done|]. split; [by eapply step_trans|]. split.
  - cbn. rewrite Hsh. by destruct Hty as [-> | ->].
  - intros Herr. destruct (HQ Herr) as [Hk Hw]. pose proof Hs as (_ & Hx & _). split; [lia|].
    cbn. rewrite Hw. by destruct Hty as [-> | ->].
Qed.

(** ** Atoms and the whole expression *)

Abbreviation kids_shape kids := (forallb ql_shape kids = true).
Abbreviation kids_wf kids := (forallb ql_wf kids = true).

Section expr.
Context (pOr : node_parser) (d : Z) (Hor : parses_expr d 1 pOr).

Lemma expr_list_ok (kids : list QLNode) :
  kids_shape kids ->
  parses d 1 (fun p => '(p, kid) ← pOr p; Ok (p, kids ++ [kid])) (fun ks => kids_shape ks)
    (fun ks => kids_wf kids -> kids_wf ks).
Proof using Hor.
  intros Hk p Hp Hd. destruct (Hor p Hp Hd) as (p1 & kid & -> & Hs & Hsh & HQ). step_res.
  exists p1, (kids ++ [kid]). split; [done|]. split; [done|].
  rewrite !forallb_app, Hk. cbn. rewrite Hsh. split; [done|]. intros Herr. destruct (HQ Herr) as [Hx ->].
  split; [done|]. by intros ->.
Qed.

Lemma pExprTuple_ok : parses_expr d 1 (pExprTuple pOr).
Proof using Hor.
  intros p Hp Hd. unfold pExprTuple.
  destruct (pGroupedCommaList_ok (fun kids p => '(p, kid) ← pOr p; Ok (p, kids ++ [kid])) (fun ks => kids_shape ks)
    (fun ks => kids_wf ks) d expr_list_ok [] eq_refl p Hp Hd) as (p1 & kids & -> & Hs & Hsh & HQ). step_res.
  destruct (Z.eqb_spec (len kids) 1) as [Hl|Hl].
  - destruct kids as [|kid [|kid2 kids]]; [done| |rewrite !len_cons in Hl; pose proof (len_nonneg kids); lia].
    change (index [kid] 0) with (Ok kid). step_res. cbn in Hsh, HQ. rewrite andb_true_r in Hsh.
    exists p1, kid. split_and!; try done. intros Herr. destruct (HQ Herr) as [Hx Hw]. split; [done|].
    specialize (Hw eq_refl). by rewrite andb_true_r in Hw.
  - exists p1, (mkQLNode QL_TUP 0 [] kids). split; [done|]. split; [done|]. split; [cbn; by rewrite Hsh|].
    intros Herr. destruct (HQ Herr) as [Hx Hw]. split; [done|]. cbn. by rewrite Hw.
Qed.

End expr.

(** A node, or the next attempt. *)
Lemma try_or f (k : Parser -> res (Parser * QLNode)) d :
  tries f -> parses_expr d 1 k ->
  parses_expr d 1 (fun p => '(p, n) ← f p; match n with Some n => Ok (p, n) | None => k p end).
Proof.
  intros Hf Hk p Hp Hd. destruct (Hf p Hp) as (p1 & n & -> & Hs & Hn). step_res. destruct n as [n|].
  - destruct Hn as [Hx [Hw Hsh]%leaf_node]. by exists p1, n.
  - pose proof (step_ok _ _ Hp Hs) as Hp1. pose proof (step_rem_lt _ _ _ Hs Hd) as Hd1.
    destruct (Hk p1 Hp1 Hd1) as (p2 & n & -> & Hs2 & Hsh & HQ). exists p2, n. split; [done|].
    split; [by eapply step_trans|]. split; [done|]. intros Herr. destruct (HQ Herr). pose proof Hs as (_ & Hx & _).
    split; [lia|done].
Qed.

(** Inside parentheses there is less to parse. *)
Lemma pExprAtom_ok pOr d : parses_expr d 1 pOr -> parses_expr (d + 1) 1 (pExprAtom pOr).
Proof.
  intros Hor p Hp Hd. unfold pExprAtom. match_tok p Hp b Hs He Hb.
  change (len (bytes_of "(")) with 1 in Hb. pose proof (step_ok _ _ Hp Hs) as Hp0. pose proof (step_rem _ _ Hs).
  destruct b.
  - destruct (pExprTuple_ok pOr d Hor p0 Hp0 ltac:(lia)) as (p1 & n & -> & Hs1 & Hsh & HQ).
    exists p1, n. split; [done|]. split; [by eapply step_trans|]. split; [done|]. intros Herr.
    destruct (HQ Herr). split; [lia|done].
  - subst p0. revert p Hp Hd Hs He Hp0 H. intros p Hp Hd _ _ _ _.
    assert (parses_expr (d + 1) 1 (fun p => Ok (pErr p "expect symbol/number/string/tuple" [], ql_zero))) as Hlast.
    { intros q Hq _. destruct (pErr_step q "expect symbol/number/string/tuple" [] Hq) as [H1 H2].
      eexists _, _. split; [reflexivity|]. split; [done|]. split; [done|]. congruence. }
    exact (try_or _ _ _ trySym_ok (try_or _ _ _ tryNum_ok (try_or _ _ _ tryStr_ok Hlast)) p Hp Hd).
Qed.

Ltac ops_ok := repeat (apply Forall_cons; split; [first [done|by vm_compute]|]); apply Forall_nil; done.

Lemma levels_ok pOr d : parses_expr d 1 pOr ->
  parses_expr (d + 1) 1 (pExprAnd_step pOr) /\ parses_expr (d + 1) 1 (pExprOr_step pOr).
Proof.
  intros Hor. assert (parses_expr (d + 1) 1 (pExprAnd_step pOr)) as Hand.
  { apply pExprBinOp_ok; [ops_ok..|]. apply pExprUnOp_ok; [by left|].
    apply pExprBinOp_ok; [ops_ok..|]. apply pExprBinOp_ok; [ops_ok..|]. apply pExprBinOp_ok; [ops_ok..|].
    apply pExprUnOp_ok; [by right|]. by apply pExprAtom_ok. }
  split; [exact Hand|]. by apply pExprBinOp_ok; [ops_ok..|].
Qed.

Lemma pExprOr_ok depth : parses_expr (Z.of_nat depth) 1 (pExprOr depth).
Proof.
  induction depth as [|depth IH].
  - intros p Hp Hd. rewrite <- len_rest in Hd by done. pose proof (len_nonneg (ps_rest p)). lia.
  - cbn [pExprOr]. replace (Z.of_nat (S depth)) with (Z.of_nat depth + 1) by lia. by apply levels_ok.
Qed.

Lemma pExprAnd_ok depth : parses_expr (Z.of_nat depth + 1) 1 (pExprAnd depth).
Proof. apply levels_ok, pExprOr_ok. Qed.
