(* ===== verification/ParserProps.v ===== *)
(** * Parsing a statement

    [Parse] is total: on every input it returns a statement or an error, and
    what it returns as a statement is fit for execution. *)

From S2P Require Import Prelude.
From S2P Require Import GoBytes.
From S2P Require Import Encode.
From S2P Require Import StmtScanner.
From S2P Require Import BTree.
From S2P Require Import QLNode.
From S2P Require Import Eval.
From S2P Require Import EvalFacts.
From S2P Require Import Parser.
From S2P Require Import ParserFacts.
From S2P Require Import ParserExpr.

(** ** Statements fit for execution *)

(** A condition of INDEX BY: a comparison, not [!=], of as many columns as
    values. *)
Definition key_ok (n : QLNode) : bool :=
  match n with
  | mkQLNode ty _ _ [mkQLNode lt _ _ names; mkQLNode rt _ _ vals] =>
      is_cmp_op ty && negb (ty =? QL_CMP_NE) && (lt =? QL_TUP) && (rt =? QL_TUP) &&
      (length names =? length vals)%nat &&
      forallb (fun c => ql_Type c =? QL_SYM) names && forallb ql_wf vals
  | _ => false
  end.

Definition absent (n : QLNode) : bool := ql_Type n =? 0.

Lemma key_ok_present n : key_ok n = true -> absent n = false.
Proof.
  unfold absent. destruct n as [ty i s kids]. cbn [ql_Type]. destruct (Z.eqb_spec ty 0) as [->|]; [|done].
  destruct kids as [|[] [|[] []]]; done.
Qed.

Definition scan_ok (s : QLScan) : bool :=
  (absent (qs_Key1 s) || key_ok (qs_Key1 s)) && (absent (qs_Key2 s) || key_ok (qs_Key2 s)) &&
  (negb (absent (qs_Key1 s)) || absent (qs_Key2 s)) && (absent (qs_Filter s) || ql_wf (qs_Filter s)).

Definition stmt_ok (stmt : QLStmt) : bool :=
  match stmt with
  | StBegin | StCommit | StRollback => true
  | StCreateTable def =>
      (length (td_Cols def) =? length (td_Types def))%nat && (1 <=? length (td_Indexes def))%nat
  | StSelect s =>
      scan_ok (sel_scan s) && (length (sel_Names s) =? length (sel_Output s))%nat &&
      forallb (fun '(name, n) => ((ql_Type n =? QL_STAR) && bytes_equal name (bytes_of "*")) || ql_wf n)
        (zip (sel_Names s) (sel_Output s))
  | StInsert s =>
      forallb (fun row => (length row =? length (ins_Names s))%nat && forallb ql_wf row) (ins_Values s)
  | StDelete s => scan_ok s
  | StUpdate s =>
      scan_ok (upd_scan s) && (length (upd_Names s) =? length (upd_Values s))%nat && forallb ql_wf (upd_Values s)
  end.

(** ** Composition *)

Abbreviation anything := (fun _ => True).

(** After [f], with its result. *)
Lemma parses_bind {A B} d k k' (f : Parser -> res (Parser * A)) (g : A -> Parser -> res (Parser * B)) R Q R' Q' :
  parses d k f R Q -> 0 <= k -> 0 <= k' -> (forall a, R a -> parses d k' (g a) R' (fun b => Q a -> Q' b)) ->
  parses d (k + k') (fun p => '(p, a) ← f p; g a p) R' Q'.
Proof.
  intros Hf Hk Hk' Hg p Hp Hd. destruct (Hf p Hp Hd) as (p1 & a & -> & Hs & HR & HQ). step_res.
  destruct (Hg a HR p1 (step_ok _ _ Hp Hs) (step_rem_lt _ _ _ Hs Hd)) as (p2 & b & -> & Hs2 & HR2 & HQ2).
  exists p2, b. split; [done|]. split; [by eapply step_trans|]. split; [done|]. intros Herr.
  pose proof Hs2 as (_ & _ & He2). destruct (HQ (He2 Herr)) as [Hx HQa]. destruct (HQ2 Herr) as [Hx2 HQb].
  split; [lia|auto].
Qed.

Lemma parses_ret {A} d (a : A) (R Q : A -> Prop) : R a -> Q a -> parses d 0 (fun p => Ok (p, a)) R Q.
Proof. intros HR HQ p Hp Hd. exists p, a. split; [done|]. split; [by apply step_refl|]. split; [done|]. split; [lia|done]. Qed.

Lemma parses_err {A} d (a : A) fmt args (R Q : A -> Prop) : R a -> parses d 0 (fun p => Ok (pErr p fmt args, a)) R Q.
Proof.
  intros HR p Hp Hd. destruct (pErr_step p fmt args Hp) as [Hs He]. eexists _, a. split; [done|]. split; [done|].
  split; [done|]. done.
Qed.

(** After a token that has to be there. *)
Lemma parses_consume {A} d k tok fmt (g : Parser -> res (Parser * A)) R Q :
  0 <= k -> parses d k g R Q -> parses d (len (bytes_of tok) + k) (fun p => p ← consume p tok fmt; g p) R Q.
Proof.
  intros Hk Hg p Hp Hd. destruct (consume_ok p tok fmt Hp) as (p1 & -> & Hs & Hx). step_res.
  destruct (Hg p1 (step_ok _ _ Hp Hs) (step_rem_lt _ _ _ Hs Hd)) as (p2 & a & -> & Hs2 & HR & HQ).
  exists p2, a. split; [done|]. split; [by eapply step_trans|]. split; [done|]. intros Herr.
  pose proof Hs2 as (_ & _ & He2). destruct (HQ Herr). specialize (Hx (He2 Herr)). split; [lia|done].
Qed.

(** One of two ways, by whether tokens match. *)
Lemma parses_match {A} d k toks (f g : Parser -> res (Parser * A)) R Q :
  parses d k f R Q -> parses d k g R Q ->
  parses d k (fun p => '(p, ok) ← p_match p toks; if ok : bool then f p else g p) R Q.
Proof.
  intros Hf Hg p Hp Hd. match_tok p Hp b Hs He Hb. destruct b; [|subst p0; by apply Hg].
  destruct (Hf p0 (step_ok _ _ Hp Hs) (step_rem_lt _ _ _ Hs Hd)) as (p2 & a & -> & Hs2 & HR & HQ).
  exists p2, a. split; [done|]. split; [by eapply step_trans|]. split; [done|]. intros Herr.
  destruct (HQ Herr). pose proof Hs as (_ & Hx & _). split; [lia|done].
Qed.

Lemma parses_sub {A} d k k' f (R R' Q Q' : A -> Prop) :
  parses d k f R Q -> k' <= k -> (forall a, R a -> R' a) -> (forall a, R a -> Q a -> Q' a) -> parses d k' f R' Q'.
Proof.
  intros H Hk HR HQ p Hp Hd. destruct (H p Hp Hd) as (p' & a & E & Hs & HRa & H').
  exists p', a. split; [done|]. split; [done|]. split; [auto|]. intros Hn. destruct (H' Hn). split; [lia|auto].
Qed.

Lemma parses_ext {A} d k (f g : Parser -> res (Parser * A)) R Q :
  (forall p, f p = g p) -> parses d k f R Q -> parses d k g R Q.
Proof. intros E H p Hp Hd. rewrite <- E. by apply H. Qed.

(** A part that may be left out, then [g]. *)
Lemma parses_opt {A B} d toks f (a : A) (g : A -> Parser -> res (Parser * B)) R Q R' Q' :
  parses d 0 f R Q -> R a -> Q a -> (forall a, R a -> parses d 0 (g a) R' (fun b => Q a -> Q' b)) ->
  parses d 0 (fun p => '(p, ok) ← p_match p toks;
                       '(p, a) ← (if ok : bool then f p else Ok (p, a)); g a p) R' Q'.
Proof.
  intros Hf HR HQ Hg p Hp Hd. match_tok p Hp b Hs He Hb.
  pose proof (step_ok _ _ Hp Hs) as Hp0. pose proof (step_rem_lt _ _ _ Hs Hd) as Hd0.
  destruct (parses_bind d 0 0 (fun p => if b then f p else Ok (p, a)) g R Q R' Q') with (p := p0)
    as (p2 & c & -> & Hs2 & HR2 & HQ2); try done.
  { destruct b; [done|]. by apply parses_ret. }
  exists p2, c. split; [done|]. split; [by eapply step_trans|]. split; [done|]. intros Herr.
  destruct (HQ2 Herr). pose proof Hs as (_ & Hx & _). split; [lia|done].
Qed.

(** ** Names and types *)

Lemma pSym_ok d : parses d 1 pSym anything anything.
Proof.
  intros p Hp Hd. unfold pSym. destruct (trySym_ok p Hp) as (p1 & n & -> & Hs & Hn). step_res.
  destruct n as [n|]; [destruct Hn; by exists p1, (ql_Str n)|].
  destruct (pErr_step p1 "expect name" [] (step_ok _ _ Hp Hs)) as [Hs1 He1]. eexists _, _. split; [reflexivity|].
  split; [by eapply step_trans|]. done.
Qed.

Lemma pNameList_ok d : parses d 2 pNameList anything anything.
Proof.
  change 2 with (len (bytes_of "(") + 1). unfold pNameList. apply (parses_consume d 1); [lia|].
  apply (parses_sub d 1 1 _ anything anything (fun _ => True -> True)); [|done..].
  apply (pGroupedCommaList_ok _ anything anything); [|done]. intros names _.
  apply (parses_bind d 1 0 _ _ _ _ _ _ (pSym_ok d)); [done..|]. intros a _. by apply parses_ret.
Qed.

Lemma pColType_ok d : parses d 1 pColType anything anything.
Proof.
  apply (parses_bind d 1 0 _ _ _ _ _ _ (pSym_ok d)); [done..|]. intros a _. cbv zeta.
  destruct (_ || _); [by apply parses_ret|]. destruct (_ || _); [by apply parses_ret|by apply parses_err].
Qed.

(** A schema under construction. *)
Definition def_ok (def : TableDef) : Prop :=
  length (td_Cols def) = length (td_Types def) /\ (1 <= length (td_Indexes def))%nat.

Lemma pCreateItem_ok d def : def_ok def -> parses d 1 (pCreateItem def) def_ok anything.
Proof.
  intros [Hc Hi]. unfold pCreateItem.
  assert (forall d, parses d 2 pNameList anything anything) as Hnames by apply pNameList_ok.
  apply (parses_match d 1 ["index"%string]).
  { apply (parses_sub d 2 1 _ def_ok _ anything _); [|lia|done|done].
    apply (parses_bind d 2 0 _ _ _ _ _ _ (pNameList_ok d)); [lia..|]. intros names _.
    apply parses_ret; [split; cbn; [done|rewrite length_app; cbn; lia]|done]. }
  intros p Hp Hd. match_tok p Hp b Hs He Hb. destruct b.
  - destruct (td_Indexes def) as [|first rest] eqn:Ei; [cbn in Hi; lia|].
    change (index (first :: rest) 0) with (Ok first). step_res.
    pose proof (step_ok _ _ Hp Hs) as Hp0. pose proof (step_rem_lt _ _ _ Hs Hd) as Hd0.
    destruct (negb (len first =? 0)).
    + destruct (pErr_step p0 "duplicate primary key" [] Hp0) as [Hs1 He1]. eexists _, _. split; [reflexivity|].
      split; [by eapply step_trans|]. split; [by split; [|rewrite Ei]|done].
    + destruct (Hnames d p0 Hp0 Hd0) as (p1 & names & -> & Hs1 & _ & HQ). step_res. eexists _, _.
      split; [reflexivity|]. split; [by eapply step_trans|]. split; [split; cbn; [done|lia]|].
      intros Herr. destruct (HQ Herr). pose proof Hs as (_ & Hx & _). split; [lia|done].
  - subst p0. revert p Hp Hd Hs He. intros p Hp Hd _ _.
    destruct (pSym_ok d p Hp Hd) as (p1 & col & -> & Hs1 & _ & HQ). step_res.
    destruct (pColType_ok d p1 (step_ok _ _ Hp Hs1) (step_rem_lt _ _ _ Hs1 Hd)) as (p2 & ty & -> & Hs2 & _ & HQ2).
    step_res. eexists _, _. split; [reflexivity|]. split; [by eapply step_trans|].
    split; [split; cbn; [rewrite !length_app; cbn; lia|done]|]. intros Herr. pose proof Hs1 as (_ & Hx & _).
    destruct (HQ2 Herr). split; [lia|done].
Qed.

(** The statement that a parser returns. *)
Abbreviation parses_stmt d f := (parses d 0 f anything (fun s => stmt_ok s = true)).

Lemma pCreateTable_ok d : parses_stmt d pCreateTable.
Proof.
  apply (parses_sub d 3 0 _ anything _ (fun s => True -> stmt_ok s = true) _); [|lia|done|auto].
  unfold pCreateTable. apply (parses_bind d 1 2 _ _ _ _ _ _ (pSym_ok d)); [lia..|]. intros name _.
  apply (parses_consume d 1 "("); [lia|].
  eapply (parses_bind d 1 0 _ _ def_ok); [apply (pGroupedCommaList_ok _ def_ok anything)|lia|lia|].
  - intros acc Hacc. eapply parses_sub; [by apply pCreateItem_ok|lia|done|done].
  - by split; cbn; [|lia].
  - intros def [Hc Hi]. apply parses_ret; [done|]. intros _ _ _. unfold stmt_ok.
    by rewrite andb_true_iff, Nat.eqb_eq, Nat.leb_le.
Qed.

(** ** Conditions of a scan *)

Lemma ql_zero_shape : shape ql_zero.
Proof. done. Qed.

Lemma shape_kids ty i s kids : shape (mkQLNode ty i s kids) -> forallb ql_shape kids = true.
Proof. cbn. by intros [? _]%andb_true_iff. Qed.

Lemma shape_two ty i s kids :
  shape (mkQLNode ty i s kids) -> (is_cmp_op ty || is_logic_op ty) = true ->
  exists a b, kids = [a; b] /\ shape a /\ shape b.
Proof.
  cbn. intros [Hk Hl]%andb_true_iff Hop. rewrite Hop in Hl. apply Nat.eqb_eq in Hl.
  destruct kids as [|a [|b [|]]]; try done. exists a, b. cbn in Hk. rewrite !andb_true_iff in Hk.
  naive_solver.
Qed.

Lemma wf_tuple i s kids : wf (mkQLNode QL_TUP i s kids) -> forallb ql_wf kids = true.
Proof. cbn. by intros [? _]%andb_true_iff. Qed.

Lemma cmp_not_leaf ty : is_cmp_op ty = true -> (ty =? QL_SYM) || (ty =? QL_I64) || (ty =? QL_STR) = false.
Proof.
  intros H. apply not_true_iff_false. intros H'. rewrite !orb_true_iff, !Z.eqb_eq in H'.
  by destruct H' as [[-> | ->]| ->].
Qed.

(** A condition is accepted, or an error is left. *)
Lemma verifyScanKey_ok p node :
  ps_ok p -> shape node -> exists p' node', verifyScanKey p node = Ok (p', node') /\ step p p' /\
    (ps_err p' = None -> wf node -> key_ok node' = true).
Proof.
  intros Hp Hn. destruct node as [ty i s kids]. unfold verifyScanKey. cbn [ql_Type ql_I64 ql_Str ql_Kids].
  assert (forall fmt n, exists p' node', Ok (pErr p fmt [], n) = Ok (p', node') /\ step p p' /\
    (ps_err p' = None -> wf (mkQLNode ty i s kids) -> key_ok node' = true)) as Herr.
  { intros fmt n. destruct (pErr_step p fmt [] Hp) as [Hs He]. by exists (pErr p fmt []), n. }
  destruct (ty =? QL_CMP_NE) eqn:Hne; [apply Herr|].
  destruct (is_cmp_op ty) eqn:Hop; cbn [negb]; [|apply Herr].
  destruct (shape_two _ _ _ _ Hn) as (a & b & -> & Ha & Hb); [by rewrite Hop|].
  change (index [a; b] 0) with (Ok a). change (index [a; b] 1) with (Ok b). step_res.
  assert (forall kids1 kids2 a' b', a' = mkQLNode QL_TUP (ql_I64 a') (ql_Str a') kids1 ->
    b' = mkQLNode QL_TUP (ql_I64 b') (ql_Str b') kids2 -> (wf (mkQLNode ty i s [a; b]) -> forallb ql_wf kids2 = true) ->
    exists p' node', (if negb (len kids1 =? len kids2) then
      Ok (pErr p "bad 'INDEX BY': columns count not match values count" [], mkQLNode ty i s [a; b])
    else if negb (forallb (fun name => ql_Type name =? QL_SYM) kids1) then
      Ok (pErr p "bad 'INDEX BY': left side of comparison must be column name(s)" [], mkQLNode ty i s [a; b])
    else Ok (p, mkQLNode ty i s (a' :: b' :: drop 2 [a; b]))) = Ok (p', node') /\ step p p' /\
    (ps_err p' = None -> wf (mkQLNode ty i s [a; b]) -> key_ok node' = true)) as Hgo.
  { intros kids1 kids2 a' b' -> -> Hwf. destruct (len kids1 =? len kids2) eqn:Hlen; [|apply Herr].
    destruct (forallb _ kids1) eqn:Hsym; [|apply Herr].
    eexists _, _. split; [reflexivity|]. split; [by apply step_refl|]. intros _ Hn'. cbn [drop negb key_ok].
    rewrite Hop, Hne, Hsym, Hwf by done. cbn. rewrite !andb_true_r. apply Nat.eqb_eq. unfold len in Hlen. lia. }
  destruct a as [aty ai as_ akids], b as [bty bi bs bkids]. cbn [ql_Type ql_Kids].
  assert (wf (mkQLNode ty i s [mkQLNode aty ai as_ akids; mkQLNode bty bi bs bkids]) -> wf (mkQLNode bty bi bs bkids)) as Hwb.
  { cbn [ql_wf]. rewrite cmp_not_leaf by done. intros [Hw _]%andb_true_iff. cbn [forallb] in Hw.
    rewrite !andb_true_iff in Hw. tauto. }
  destruct (aty =? QL_TUP) eqn:Eat, (bty =? QL_TUP) eqn:Ebt; cbn [andb orb negb ql_Type ql_Kids];
    rewrite ?Eat, ?Ebt; cbn [negb orb]; [|apply Herr..|].
  - apply Z.eqb_eq in Eat, Ebt. subst aty bty. apply Hgo; try done. intros Hw. eapply wf_tuple. by apply Hwb.
  - apply (Hgo [mkQLNode aty ai as_ akids] [mkQLNode bty bi bs bkids] (mkQLNode QL_TUP 0 [] _) (mkQLNode QL_TUP 0 [] _));
      try done. intros Hw. cbn [forallb]. by rewrite (Hwb Hw).
Qed.

(** What [pScan] fills in: each condition is left out, or is fit. *)
Lemma pLimit_ok d node :
  parses d 0 (pLimit node) anything (fun s => scan_ok node = true -> scan_ok s = true).
Proof.
  intros p Hp Hd. unfold pLimit.
  destruct (tryNum_ok p Hp) as (p1 & n1 & -> & Hs1 & _). step_res.
  pose proof (step_ok _ _ Hp Hs1) as Hp1. match_tok p1 Hp1 b Hs2 He2 Hb.
  assert (step p p0) as Hs02 by by eapply step_trans. pose proof (step_ok _ _ Hp Hs02) as Hp0.
  assert (forall p3 offset count ok, step p p3 -> exists p' a,
    (if negb ok then Ok (pErr p3 "bad 'limit'" [], node)
     else Ok (p3, mkQLScan (qs_Table node) (qs_Key1 node) (qs_Key2 node) (qs_Filter node) (ql_I64 offset)
             (if negb (ql_Type count =? 0) then ql_I64 count else qs_Limit node))) = Ok (p', a) /\
    step p p' /\ anything a /\ (ps_err p' = None -> ps_idx p + 0 <= ps_idx p' /\ (scan_ok node = true -> scan_ok a = true))) as Hend.
  { intros p3 offset count ok Hs3. pose proof Hs3 as (_ & Hx & _). destruct ok; cbn [negb].
    - eexists _, _. split; [reflexivity|]. split; [done|]. split; [done|]. intros _. split; [lia|]. done.
    - destruct (pErr_step p3 "bad 'limit'" [] (step_ok _ _ Hp Hs3)) as [Hs4 He4]. eexists _, _.
      split; [reflexivity|]. split; [by eapply step_trans|]. split; [done|]. done. }
  destruct b; [|by step_res; apply Hend]. destruct n1 as [n1|]; [|by step_res; apply Hend].
  destruct (tryNum_ok p0 Hp0) as (p3 & n2 & -> & Hs3 & _). step_res. apply Hend. by eapply step_trans.
Qed.

Lemma shape_and idx : shape idx -> ql_Type idx = QL_AND ->
  exists a b, ql_Kids idx = [a; b] /\ shape a /\ shape b /\ (wf idx -> wf a /\ wf b).
Proof.
  destruct idx as [ty i s kids]. cbn [ql_Type ql_Kids]. intros Hs ->.
  destruct (shape_two _ _ _ _ Hs eq_refl) as (a & b & -> & Ha & Hb). exists a, b. split_and!; try done.
  cbn. rewrite !andb_true_iff. tauto.
Qed.

Section statements.
Context (depth : nat).
Let d := Z.of_nat depth.

Lemma pIndexBy_ok node :
  qs_Key2 node = ql_zero -> scan_ok node = true ->
  parses d 0 (pIndexBy depth node) (fun _ => True) (fun s => scan_ok s = true).
Proof.
  intros Hk2 Hn p Hp Hd. unfold pIndexBy.
  destruct (pExprAnd_ok depth p Hp ltac:(unfold d in *; lia)) as (p1 & idx & -> & Hs1 & Hsh & HQ1). step_res.
  pose proof (step_ok _ _ Hp Hs1) as Hp1.
  assert (exists key1 key2, (if ql_Type idx =? QL_AND then
      k0 ← index (ql_Kids idx) 0; k1 ← index (ql_Kids idx) 1; Ok (k0, k1) else Ok (idx, qs_Key2 node)) = Ok (key1, key2) /\
    shape key1 /\ (ql_Type key2 = 0 \/ shape key2) /\ (wf idx -> wf key1 /\ (ql_Type key2 = 0 \/ wf key2)))
    as (key1 & key2 & -> & Hsh1 & Hsh2 & Hwf).
  { destruct (ql_Type idx =? QL_AND) eqn:E.
    - apply Z.eqb_eq in E. destruct (shape_and idx Hsh E) as (a & b & -> & Ha & Hb & Hw).
      exists a, b. change (index [a; b] 0) with (Ok a). change (index [a; b] 1) with (Ok b). step_res.
      split_and!; auto. intros H. destruct (Hw H). auto.
    - exists idx, (qs_Key2 node). rewrite Hk2. split; [done|]. split; [done|]. split; [by left|]. intros Hw. by split; [|left]. }
  step_res. destruct (_ && _).
  { eexists _, _. split; [reflexivity|].
    destruct (pErr_step p1 "bad 'INDEX BY': expect only 1 '='" [] Hp1) as [Hs2 He2].
    split; [by eapply step_trans|]. done. }
  destruct (verifyScanKey_ok p1 key1 Hp1 Hsh1) as (p2 & key1' & -> & Hs2 & Hok1). step_res.
  pose proof (step_ok _ _ Hp1 Hs2) as Hp2.
  assert (exists p3 key2', (if negb (ql_Type key2 =? 0) then verifyScanKey p2 key2 else Ok (p2, key2)) = Ok (p3, key2') /\
    step p2 p3 /\ (ps_err p3 = None -> ql_Type key2 = 0 \/ wf key2 -> absent key2' || key_ok key2' = true))
    as (p3 & key2' & -> & Hs3 & Hok2).
  { destruct (ql_Type key2 =? 0) eqn:E; cbn [negb].
    - exists p2, key2. split; [done|]. split; [by apply step_refl|]. intros _ _. unfold absent. by rewrite E.
    - apply Z.eqb_neq in E. destruct Hsh2 as [|Hsh2]; [done|].
      destruct (verifyScanKey_ok p2 key2 Hp2 Hsh2) as (p3 & key2' & E3 & Hs3 & Hok2). exists p3, key2'.
      split; [done|]. split; [done|]. intros Herr [|Hw]; [done|]. rewrite Hok2 by done. apply orb_true_r. }
  step_res. assert (step p p3) as Hs by (do 2 (eapply step_trans; [eassumption|]); done).
  eexists _, _. split; [reflexivity|]. split; [done|]. split; [done|]. intros Herr.
  pose proof Hs as (_ & Hx & _). split; [lia|]. pose proof Hs3 as (_ & _ & He3). pose proof Hs2 as (_ & _ & He2).
  destruct (HQ1 (He2 (He3 Herr))) as [_ Hw]. destruct (Hwf Hw) as [Hw1 Hw2].
  unfold scan_ok in *. cbn [qs_Key1 qs_Key2 qs_Filter]. rewrite Hok1, Hok2, key_ok_present by auto.
  rewrite !andb_true_iff in Hn. destruct Hn as [_ ->]. done.
Qed.

Lemma pOr_ok : parses d 0 (pExprOr depth) (fun _ => True) (fun n => wf n).
Proof. eapply parses_sub; [apply pExprOr_ok|lia|done|done]. Qed.

Lemma pScan_ok node :
  qs_Key1 node = ql_zero -> qs_Key2 node = ql_zero -> qs_Filter node = ql_zero ->
  parses d 0 (pScan depth node) (fun _ => True) (fun s => scan_ok s = true).
Proof.
  intros Hk1 Hk2 Hf. assert (scan_ok node = true) as Hn by (unfold scan_ok; by rewrite Hk1, Hk2, Hf).
  apply (parses_opt d _ (pIndexBy depth node) node _ (fun s => True) (fun s => scan_ok s = true)); try done.
  { by apply pIndexBy_ok. }
  intros s _. apply (parses_opt d _ (pExprOr depth) (qs_Filter s) _ (fun _ => True)
    (fun f => scan_ok s = true -> absent f || ql_wf f = true)); [|done| |].
  { eapply parses_sub; [apply pOr_ok|lia|done|]. cbn. intros a _ ->. by rewrite orb_true_r. }
  { unfold scan_ok. rewrite !andb_true_iff. tauto. }
  intros f _. cbv zeta.
  set (s' := mkQLScan _ _ _ _ _ _).
  assert ((scan_ok s = true -> absent f || ql_wf f = true) -> scan_ok s = true -> scan_ok s' = true) as Hs'.
  { intros Hw Hs. specialize (Hw Hs). unfold scan_ok in *. rewrite !andb_true_iff in *. tauto. }
  apply parses_match.
  - apply (parses_sub d 0 0 _ _ _ _ _ (pLimit_ok d s')); [lia|done|auto].
  - apply parses_ret; [done|]. auto.
Qed.

(** Rows of expressions. *)
Lemma pValueList_ok :
  parses d 2 (pValueList depth) (fun ks => kids_shape ks) (fun ks => kids_wf ks).
Proof.
  change 2 with (len (bytes_of "(") + 1). unfold pValueList. apply (parses_consume d 1); [lia|].
  apply (parses_sub d 1 1 _ (fun ks => kids_shape ks) _ (fun vals => kids_wf [] -> kids_wf vals)); [|done|done|auto].
  apply (pGroupedCommaList_ok _ (fun ks => kids_shape ks) (fun ks => kids_wf ks)); [|done].
  apply expr_list_ok, pExprOr_ok.
Qed.

Abbreviation sel_ok s := (stmt_ok (StSelect s) = true).

Lemma pSelectExpr_ok stmt :
  parses d 1 (pSelectExpr depth stmt) (fun s => sel_scan s = sel_scan stmt) (fun s => sel_ok stmt -> sel_ok s).
Proof.
  assert (forall name expr, ((ql_Type expr = QL_STAR /\ name = bytes_of "*") \/ wf expr) -> sel_ok stmt ->
    sel_ok (mkQLSelect (sel_scan stmt) (sel_Names stmt ++ [name]) (sel_Output stmt ++ [expr]))) as Hadd.
  { intros name expr He. unfold stmt_ok. cbn [sel_scan sel_Names sel_Output].
    rewrite !andb_true_iff, !Nat.eqb_eq, !length_app. intros [[-> Hl] Ho]. rewrite Hl. split; [done|].
    rewrite zip_with_app, forallb_app, Ho by done. cbn. destruct He as [[-> ->] | ->]; [done|]. by rewrite orb_true_r. }
  intros p Hp Hd. unfold pSelectExpr. match_tok p Hp b Hs He Hb.
  pose proof (step_ok _ _ Hp Hs) as Hp0. pose proof (step_rem_lt _ _ _ Hs Hd) as Hd0. destruct b.
  - eexists _, _. split; [reflexivity|]. split; [done|]. split; [done|]. intros _.
    change (len (bytes_of "*")) with 1 in Hb. split; [lia|]. apply Hadd. by left.
  - subst p0. clear Hs He Hp0 Hd0.
    assert (parses d 1 (fun p => '(p, expr) ← pExprOr depth p; '(p, as_) ← p_match p ["as"%string];
      '(p, name) ← (if (as_ : bool) then pSym p else Ok (p, []));
      Ok (p, mkQLSelect (sel_scan stmt) (sel_Names stmt ++ [name]) (sel_Output stmt ++ [expr])))
      (fun s => sel_scan s = sel_scan stmt) (fun s => sel_ok stmt -> sel_ok s)) as H; [|by apply H].
    eapply (parses_bind d 1 0); [apply pExprOr_ok|lia|lia|]. intros expr _.
    apply (parses_opt d _ pSym [] _ anything anything); [|done..|].
    { apply (parses_sub _ _ _ _ _ _ _ _ (pSym_ok d)); [lia|done|done]. }
    intros name _. apply parses_ret; [done|]. intros _ Hw. apply Hadd. by right.
Qed.

Lemma pSelect_ok : parses_stmt d (pSelect depth).
Proof.
  apply (parses_sub d (1 + (4 + (1 + 0))) 0 _ anything anything (fun s => stmt_ok s = true)); [|lia|done..].
  unfold pSelect.
  apply (parses_bind d 1 _ _ _ (fun s => sel_scan s = no_scan)
    (fun s => sel_ok (mkQLSelect no_scan [] []) -> sel_ok s)); [|lia|lia|].
  { apply (pCommaList_ok _ (fun s => sel_scan s = no_scan) (fun s => sel_ok s)); [|done]. intros acc Hacc.
    apply (parses_sub _ _ _ _ _ _ _ _ (pSelectExpr_ok acc)); [done|cbn; congruence|done]. }
  intros stmt Hs. apply (parses_consume d _ "from"); [lia|].
  apply (parses_bind d 1 0 _ _ _ _ _ _ (pSym_ok d)); [lia..|]. intros table _. rewrite Hs.
  apply (parses_bind d 0 0 _ _ _ _ _ _ (pScan_ok (set_table no_scan table) eq_refl eq_refl eq_refl)); [lia..|].
  intros scan _. apply parses_ret; [done|]. intros Hscan _ Hsel. specialize (Hsel eq_refl).
  unfold stmt_ok in *. cbn [sel_scan sel_Names sel_Output]. rewrite Hscan.
  rewrite <- !andb_assoc in *. apply andb_true_iff in Hsel. tauto.
Qed.

Lemma pInsert_ok mode : parses_stmt d (pInsert depth mode).
Proof.
  apply (parses_sub d (1 + (2 + (6 + (1 + 0)))) 0 _ anything anything (fun s => stmt_ok s = true)); [|lia|done..].
  unfold pInsert. apply (parses_bind d 1 _ _ _ _ _ _ _ (pSym_ok d)); [lia..|]. intros table _.
  apply (parses_bind d 2 _ _ _ _ _ _ _ (pNameList_ok d)); [lia..|]. intros names _.
  apply (parses_consume d _ "values"); [lia|].
  apply (parses_bind d 1 0 _ _ anything
    (fun vs => forallb (forallb ql_wf) [] = true -> forallb (forallb ql_wf) vs = true)); [|lia|lia|].
  { apply (pCommaList_ok _ anything (fun vs => forallb (forallb ql_wf) vs = true)); [|done]. intros vs _.
    apply (parses_sub d (2 + 0) 1 _ anything anything
      (fun vs' => forallb (forallb ql_wf) vs = true -> forallb (forallb ql_wf) vs' = true)); [|lia|done..].
    apply (parses_bind d 2 0 _ _ _ _ _ _ pValueList_ok); [lia..|]. intros vals _. apply parses_ret; [done|].
    intros Hv Hvs. rewrite forallb_app, Hvs. cbn. by rewrite Hv. }
  intros values _. cbv zeta. destruct (forallb _ values) eqn:Hl; [|by apply parses_err].
  apply parses_ret; [done|]. intros Hv _ _. specialize (Hv eq_refl). unfold stmt_ok. cbn [ins_Values ins_Names].
  rewrite forallb_forall in *. intros row Hrow. rewrite (Hv row Hrow), andb_true_r.
  specialize (Hl row Hrow). apply Nat.eqb_eq. unfold len in Hl. lia.
Qed.

Abbreviation upd_ok s := (stmt_ok (StUpdate s) = true).

Lemma pAssign_ok stmt :
  parses d 1 (pAssign depth stmt) (fun s => upd_scan s = upd_scan stmt) (fun s => upd_ok stmt -> upd_ok s).
Proof.
  apply (parses_sub d (1 + (1 + (1 + 0))) 1 _ (fun s => upd_scan s = upd_scan stmt) _
    (fun s => upd_ok stmt -> upd_ok s)); [|lia|done..].
  unfold pAssign. apply (parses_bind d 1 _ _ _ _ _ _ _ (pSym_ok d)); [lia..|]. intros name _.
  apply (parses_consume d _ "="); [lia|].
  eapply (parses_bind d 1 0); [apply pExprOr_ok|lia|lia|]. intros val _. apply parses_ret; [done|].
  intros Hv _. unfold stmt_ok. cbn [upd_scan upd_Names upd_Values].
  rewrite !andb_true_iff, !Nat.eqb_eq, !length_app, forallb_app. intros [[-> ->] ->]. cbn. by rewrite Hv.
Qed.

Lemma pUpdate_ok : parses_stmt d (pUpdate depth).
Proof.
  apply (parses_sub d (1 + (3 + (1 + 0))) 0 _ anything anything (fun s => stmt_ok s = true)); [|lia|done..].
  unfold pUpdate. apply (parses_bind d 1 _ _ _ _ _ _ _ (pSym_ok d)); [lia..|]. intros table _.
  apply (parses_consume d _ "set"); [lia|].
  apply (parses_bind d 1 0 _ _ (fun s => upd_scan s = no_scan)
    (fun s => upd_ok (mkQLUpdate no_scan [] []) -> upd_ok s)); [|lia|lia|].
  { apply (pCommaList_ok _ (fun s => upd_scan s = no_scan) (fun s => upd_ok s)); [|done]. intros acc Hacc.
    apply (parses_sub _ _ _ _ _ _ _ _ (pAssign_ok acc)); [done|cbn; congruence|done]. }
  intros stmt Hs. rewrite Hs.
  apply (parses_bind d 0 0 _ _ _ _ _ _ (pScan_ok (set_table no_scan table) eq_refl eq_refl eq_refl)); [lia..|].
  intros scan _. apply parses_ret; [done|]. intros Hscan Hupd _. specialize (Hupd eq_refl).
  unfold stmt_ok in *. cbn [upd_scan upd_Names upd_Values]. rewrite Hscan.
  rewrite <- !andb_assoc in *. apply andb_true_iff in Hupd. tauto.
Qed.

Lemma pDelete_ok : parses_stmt d (pDelete depth).
Proof.
  apply (parses_sub d (1 + 0) 0 _ anything anything (fun s => stmt_ok s = true)); [|lia|done..].
  unfold pDelete. apply (parses_bind d 1 0 _ _ _ _ _ _ (pSym_ok d)); [lia..|]. intros table _.
  apply (parses_bind d 0 0 _ _ _ _ _ _ (pScan_ok (set_table no_scan table) eq_refl eq_refl eq_refl)); [lia..|].
  intros scan _. by apply parses_ret.
Qed.

Lemma first_case_ok cases p :
  Forall (fun c => parses_stmt d (snd c)) cases -> ps_ok p -> rem p < d ->
  exists p' stmt, first_case cases p = Ok (p', stmt) /\ step p p' /\
    (ps_err p' = None -> exists s, stmt = Some s /\ stmt_ok s = true).
Proof.
  intros Hc Hp Hd. induction Hc as [|[toks parse] cases Hparse Hc IH]; cbn [first_case].
  { destruct (pErr_step p "unknown stmt" [] Hp) as [Hs He]. by exists (pErr p "unknown stmt" []), None. }
  cbn [snd] in Hparse. match_tok p Hp b Hs He Hb. destruct b; [|by subst p0].
  destruct (Hparse p0 (step_ok _ _ Hp Hs) (step_rem_lt _ _ _ Hs Hd)) as (p1 & s & -> & Hs1 & _ & HQ). step_res.
  exists p1, (Some s). split; [done|]. split; [by eapply step_trans|]. intros Herr. exists s. by destruct (HQ Herr).
Qed.

Lemma stmt_cases_ok : Forall (fun c => parses_stmt d (snd c)) (stmt_cases depth).
Proof.
  repeat constructor; cbn [snd]; try by apply parses_ret.
  - apply pCreateTable_ok.
  - apply pSelect_ok.
  - apply pInsert_ok.
  - apply pInsert_ok.
  - apply pInsert_ok.
  - apply pDelete_ok.
  - apply pUpdate_ok.
Qed.

End statements.

(** ** Parsing is total *)

(** C33. [Parse] terminates without a panic on every input, with a statement
    or an error; a statement it returns is fit for execution: every operator
    has its operands, the INDEX BY conditions compare as many column names as
    values, each row of an INSERT is as long as its column list, and a new
    table has a type for each column. *)
Theorem Parse_total input :
  exists p r, Parse input = Ok (p, r) /\
    match r with
    | inl (Some stmt) => stmt_ok stmt = true
    | inl None => False
    | inr _ => ps_err p <> None
    end.
Proof.
  unfold Parse, pStmt. set (p := NewParser input).
  assert (ps_ok p) as Hp by (unfold ps_ok; cbn; pose proof (len_nonneg input); lia).
  assert (rem p < Z.of_nat (S (length input))) as Hd by (unfold rem, len; cbn; lia).
  destruct (first_case_ok _ _ p (stmt_cases_ok _) Hp Hd) as (p1 & stmt & -> & Hs1 & HQ). step_res.
  destruct (consume_ok p1 ";" "expect ';' after statement" (step_ok _ _ Hp Hs1)) as (p2 & -> & Hs2 & _). step_res.
  destruct (ps_err p2) as [e|] eqn:E; (eexists _, _; split; [reflexivity|]); [congruence|].
  pose proof Hs2 as (_ & _ & He2). destruct (HQ (He2 E)) as (s & -> & Hok). done.
Qed.
