(* ===== verification/Schema.v ===== *)
(** * Table schemas (src/db/table.go)

    Checking a schema and completing its indexes, the values of a row in the
    order of some columns, and the stored form of a schema. *)

From S2P Require Import Prelude.
From S2P Require Import GoBytes.
From S2P Require Import KVSpec.
From S2P Require Import StmtScanner.
From S2P Require Import Encode.
From S2P Require Import QLNode.
From S2P Require Import Json.
From S2P Require Import Parser.

(** [slices.Index] *)
Fixpoint slices_Index (l : list bytes) (c : bytes) : Z :=
  match l with
  | [] => -1
  | x :: l => if decide (x = c) then 0 else let i := slices_Index l c in if i <? 0 then -1 else i + 1
  end.

(** ** Rows of a table *)

Fixpoint getValues (tdef : TableDef) (rec : Row) (cols : list bytes) : res (list Value + gerror) :=
  match cols with
  | [] => Ok (inl [])
  | c :: cols =>
      v ← row_Get rec c;
      match v with
      | None => Ok (inr ("missing column: %s"%string, [c]))
      | Some v =>
          t ← index (td_Types tdef) (slices_Index (td_Cols tdef) c);
          if negb (v_Type v =? t) then Ok (inr ("bad column type: %s"%string, [c])) else
          vals ← getValues tdef rec cols;
          Ok (match vals with inl vals => inl (v :: vals) | inr e => inr e end)
      end
  end.

Definition nonPrimaryKeyCols (tdef : TableDef) : res (list bytes) :=
  match td_Cols tdef with
  | [] => Ok []
  | _ => pk ← index (td_Indexes tdef) 0; Ok (filter (fun c => slices_Index pk c < 0) (td_Cols tdef))
  end.

(** [slices.Concat(tdef.Indexes[0], nonPrimaryKeyCols(tdef))] *)
Definition row_cols (tdef : TableDef) : res (list bytes) :=
  pk ← index (td_Indexes tdef) 0;
  rest ← nonPrimaryKeyCols tdef;
  Ok (pk ++ rest).

(** Values of the types of some columns, to decode into. *)
Fixpoint blank_values (tdef : TableDef) (cols : list bytes) : res (list Value) :=
  match cols with
  | [] => Ok []
  | c :: cols =>
      t ← index (td_Types tdef) (slices_Index (td_Cols tdef) c);
      vals ← blank_values tdef cols;
      Ok (mkValue t 0 [] :: vals)
  end.

Fixpoint checkTypes_loop (tdef : TableDef) (cols : list bytes) (vals : list Value) : res (option gerror) :=
  match cols, vals with
  | c :: cols, v :: vals =>
      let j := slices_Index (td_Cols tdef) c in
      bad ← (if j <? 0 then Ok true else t ← index (td_Types tdef) j; Ok (negb (t =? v_Type v)));
      if (bad : bool) then Ok (Some ("bad column: %s"%string, [c])) else checkTypes_loop tdef cols vals
  | _, _ => Ok None
  end.

Definition checkTypes (tdef : TableDef) (rec : Row) : res (option gerror) :=
  if negb (len (rec_Cols rec) =? len (rec_Vals rec)) then Ok (Some ("bad record"%string, []))
  else checkTypes_loop tdef (rec_Cols rec) (rec_Vals rec).

(** ** Checking a schema *)

(** The first loop of [checkIndexCols]: the columns seen, or the error. *)
Fixpoint index_cols_loop (cols index : list bytes) (seen : gset bytes) : gset bytes + gerror :=
  match index with
  | [] => inl seen
  | c :: index =>
      if slices_Index cols c <? 0 then inr ("unknown index column: %s"%string, [c])
      else if decide (c ∈ seen) then inr ("duplicate column in index: %s"%string, [c])
      else index_cols_loop cols index ({[c]} ∪ seen)
  end.

Definition checkIndexCols (tdef : TableDef) (idx : list bytes) : res (list bytes + gerror) :=
  if len idx =? 0 then Ok (inr ("empty index"%string, [])) else
  match index_cols_loop (td_Cols tdef) idx ∅ with
  | inr e => Ok (inr e)
  | inl seen =>
      pk ← index (td_Indexes tdef) 0;
      let idx := idx ++ filter (fun c => c ∉ seen) pk in
      _ ← assert (len idx <=? len (td_Cols tdef));
      Ok (inl idx)
  end.

Definition set_Indexes (tdef : TableDef) (indexes : list (list bytes)) : TableDef :=
  mkTableDef (td_Name tdef) (td_Types tdef) (td_Cols tdef) indexes (td_Prefixes tdef).

(** [tdef.Indexes[i] = index] for the [n] indexes from [i]. *)
Fixpoint check_indexes (n : nat) (i : Z) (tdef : TableDef) : res (TableDef * option gerror) :=
  match n with
  | O => Ok (tdef, None)
  | S n =>
      idx ← index (td_Indexes tdef) i;
      r ← checkIndexCols tdef idx;
      match r with
      | inr e => Ok (tdef, Some e)
      | inl idx => check_indexes n (i + 1) (set_Indexes tdef (<[Z.to_nat i := idx]> (td_Indexes tdef)))
      end
  end.

Definition tableDefChecK (tdef : TableDef) : res (TableDef * option gerror) :=
  let bad := bytes_equal (td_Name tdef) [] || (len (td_Cols tdef) =? 0) || (len (td_Indexes tdef) =? 0) in
  let bad := bad || negb (len (td_Cols tdef) =? len (td_Types tdef)) in
  if bad then Ok (tdef, Some ("bad table schema: %s"%string, [td_Name tdef]))
  else check_indexes (length (td_Indexes tdef)) 0 tdef.

(** ** Internal tables *)

Definition TDEF_META : TableDef :=
  mkTableDef (bytes_of "@meta") [TYPE_BYTES; TYPE_BYTES] [bytes_of "key"; bytes_of "val"] [[bytes_of "key"]] [1].
Definition TDEF_TABLE : TableDef :=
  mkTableDef (bytes_of "@table") [TYPE_BYTES; TYPE_BYTES] [bytes_of "name"; bytes_of "def"] [[bytes_of "name"]] [2].

Definition INTERNAL_TABLES : gmap bytes TableDef :=
  <[td_Name TDEF_META := TDEF_META]> {[td_Name TDEF_TABLE := TDEF_TABLE]}.

Definition TABLE_PREFIX_MIN : Z := 100.

(** ** The stored form *)

(** A nil slice is [null]; no list of a stored schema is empty but nil. *)
Definition to_slice {A} (f : A -> json) (l : list A) : json :=
  match l with [] => JNull | _ => JArr (map f l) end.

Definition schema_json (tdef : TableDef) : json :=
  let num n := JNum (print_uint n) in
  JObj [(bytes_of "Name", JStr (td_Name tdef));
        (bytes_of "Types", to_slice num (td_Types tdef));
        (bytes_of "Cols", to_slice JStr (td_Cols tdef));
        (bytes_of "Indexes", to_slice (to_slice JStr) (td_Indexes tdef));
        (bytes_of "Prefixes", to_slice num (td_Prefixes tdef))].

(** [json.Marshal(tdef)] *)
Definition Marshal (tdef : TableDef) : bytes := print (schema_json tdef).

(** Values of a field: [None] is a document of another type. *)
Definition from_str (j : json) : option bytes :=
  match j with JStr s => Some s | JNull => Some [] | _ => None end.
Definition from_uint32 (j : json) : option Z :=
  match j with
  | JNum text => n ← parse_digits 0 text; if n <? 2 ^ 32 then Some n else None
  | JNull => Some 0
  | _ => None
  end.
Definition from_slice {A} (f : json -> option A) (j : json) : option (list A) :=
  match j with JArr items => mapM f items | JNull => Some [] | _ => None end.

Definition set_field (tdef : TableDef) (name : bytes) (j : json) : option TableDef :=
  let '(mkTableDef n t c i p) := tdef in
  if bytes_equal name (bytes_of "Name") then
    match j with JNull => Some tdef | _ => n ← from_str j; Some (mkTableDef n t c i p) end
  else if bytes_equal name (bytes_of "Types") then t ← from_slice from_uint32 j; Some (mkTableDef n t c i p)
  else if bytes_equal name (bytes_of "Cols") then c ← from_slice from_str j; Some (mkTableDef n t c i p)
  else if bytes_equal name (bytes_of "Indexes") then
    i ← from_slice (from_slice from_str) j; Some (mkTableDef n t c i p)
  else if bytes_equal name (bytes_of "Prefixes") then p ← from_slice from_uint32 j; Some (mkTableDef n t c i p)
  else Some tdef.

Fixpoint set_fields (tdef : TableDef) (fields : list (bytes * json)) : option TableDef :=
  match fields with
  | [] => Some tdef
  | (name, j) :: fields => tdef ← set_field tdef name j; set_fields tdef fields
  end.

(** [json.Unmarshal(data, &TableDef{})]; [None] is an error. *)
Definition Unmarshal (data : bytes) : option TableDef :=
  j ← parse data;
  match j with
  | JObj fields => set_fields (mkTableDef [] [] [] [] []) fields
  | JNull => Some (mkTableDef [] [] [] [] [])
  | _ => None
  end.

Example Unmarshal_Marshal_meta : Unmarshal (Marshal TDEF_META) = Some TDEF_META.
Proof. vm_compute. reflexivity. Qed.
