(* ===== verification/JsonFacts.v ===== *)
(** * What is written can be read *)

From S2P Require Import Prelude.
From S2P Require Import GoBytes.
From S2P Require Import StmtScanner.
From S2P Require Import Parser.
From S2P Require Import Json.

(** ** Strings *)

Definition is_ascii (c : byte) : bool := byte.unsigned c <? 128.
Definition ascii (s : bytes) : Prop := Forall (fun c => is_ascii c = true) s.

#[export] Instance ascii_dec s : Decision (ascii s).
Proof. unfold ascii. apply _. Defined.

Lemma read_quoted c fuel rest :
  is_ascii c = true ->
  read_string (S fuel) (quote_ascii c ++ rest) = '(str, rest') ← read_string fuel rest; Some (c :: str, rest').
Proof. intros H. destruct c; first [discriminate H | reflexivity]. Qed.

Lemma quote_loop_ascii c s : is_ascii c = true -> quote_loop (c :: s) 0 = quote_ascii c ++ quote_loop s 0.
Proof. intros H. cbn [quote_loop]. unfold is_ascii in H. by rewrite H. Qed.

Lemma quote_ascii_length c : (1 <= length (quote_ascii c))%nat.
Proof. destruct c; cbn; lia. Qed.

Lemma quote_length s : ascii s -> (length s <= length (quote_loop s 0))%nat.
Proof.
  induction 1 as [|c s Hc Hs IH]; [done|]. rewrite quote_loop_ascii, length_app by done.
  pose proof (quote_ascii_length c). cbn [length]. lia.
Qed.

Lemma read_string_ok s fuel rest :
  ascii s -> (length s < fuel)%nat -> read_string fuel (quote_loop s 0 ++ b_ 34 :: rest) = Some (s, rest).
Proof.
  intros Hs. revert fuel. induction Hs as [|c s Hc Hs IH]; intros [|fuel] Hf; cbn [length] in Hf; try lia; [done|].
  rewrite quote_loop_ascii, <- app_assoc, read_quoted, IH by (done || lia). done.
Qed.

(** ** Numbers *)

Lemma digit_byte n : 0 <= n < 10 -> byte.unsigned (b_ (48 + n)) = 48 + n.
Proof. intros. unfold b_. rewrite byte.unsigned_of_Z. unfold byte.wrap. apply Z.mod_small. lia. Qed.

Lemma is_digit_digit n : 0 <= n < 10 -> is_digit (b_ (48 + n)) = true.
Proof. intros. unfold is_digit, between. rewrite digit_byte by done. bool_lia. Qed.

(** The digits written before [acc]. *)
Lemma digits_ok fuel n acc :
  0 <= n < 10 ^ Z.of_nat fuel -> (0 < fuel)%nat ->
  exists d ds, digits fuel n acc = (d :: ds) ++ acc /\ Forall (fun c => is_digit c = true) (d :: ds) /\
    (n < 10 -> ds = []) /\ (10 <= n -> is_byte 48 d = false) /\
    (forall a rest, parse_digits a ((d :: ds) ++ rest) = parse_digits (a * 10 ^ len (d :: ds) + n) rest).
Proof.
  revert n acc. induction fuel as [|fuel IH]; intros n acc Hn Hf; [lia|]. cbn [digits]. cbv zeta.
  assert (0 <= n mod 10 < 10) as Hm by (apply Z.mod_pos_bound; lia).
  destruct (Z.ltb_spec n 10) as [Hs|Hs].
  - exists (b_ (48 + n mod 10)), []. rewrite Z.mod_small by lia. split; [done|].
    split; [constructor; [apply is_digit_digit; lia|constructor]|]. split; [done|]. split; [lia|].
    intros a rest. cbn [app parse_digits]. rewrite is_digit_digit, digit_byte by lia. f_equal.
    change (len [b_ (48 + n)]) with 1. lia.
  - assert (0 <= n / 10 < 10 ^ Z.of_nat fuel) as Hq.
    { split; [apply Z.div_pos; lia|]. apply Z.div_lt_upper_bound; [lia|].
      replace (Z.of_nat (S fuel)) with (1 + Z.of_nat fuel) in Hn by lia. rewrite Z.pow_add_r in Hn by lia. lia. }
    destruct fuel as [|fuel]; [cbn in Hq; pose proof (Z.div_le_lower_bound n 10 1); lia|].
    destruct (IH (n / 10) (b_ (48 + n mod 10) :: acc) Hq ltac:(lia)) as (d & ds & -> & Hall & Hone & Hd & Hp).
    exists d, (ds ++ [b_ (48 + n mod 10)]). split; [by cbn; rewrite <- app_assoc|]. split.
    { change (d :: ds ++ ?x) with ((d :: ds) ++ x). apply Forall_app_2; [done|]. constructor; [by apply is_digit_digit|constructor]. }
    split; [lia|]. split.
    { intros _. destruct (Z_lt_le_dec (n / 10) 10) as [Hlt|Hle]; [|by apply Hd].
      pose proof (Hone Hlt) as ->. specialize (Hp 0 []). cbn [app parse_digits] in Hp.
      apply Forall_cons in Hall as [Hdig _]. rewrite Hdig in Hp. injection Hp as Hp. unfold is_byte. apply Z.eqb_neq.
      change (len [d]) with 1 in Hp. pose proof (Z.div_le_lower_bound n 10 1). lia. }
    intros a rest. change (d :: ds ++ ?x) with ((d :: ds) ++ x). rewrite <- app_assoc, Hp. cbn [app parse_digits].
    rewrite is_digit_digit, digit_byte by done. f_equal. change (d :: ds ++ ?x) with ((d :: ds) ++ x).
    rewrite len_app. change (len [?x]) with 1. rewrite Z.pow_add_r by (pose proof (len_nonneg (d :: ds)); lia).
    pose proof (Z_div_mod_eq_full n 10). lia.
Qed.

(** What may follow a number. *)
Definition ends (rest : bytes) : Prop :=
  match rest with
  | [] => True
  | c :: _ => is_digit c = false /\ is_byte 46 c = false /\ is_byte 101 c = false /\ is_byte 69 c = false
  end.

Lemma span_digits ds rest : Forall (fun c => is_digit c = true) ds -> ends rest -> span is_digit (ds ++ rest) = (ds, rest).
Proof.
  induction 1 as [|d ds Hd Hds IH]; intros Hr.
  - destruct rest as [|c rest]; [done|]. destruct Hr as [Hc _]. cbn. by rewrite Hc.
  - cbn [app span]. rewrite Hd, IH by done. done.
Qed.

Lemma read_uint n rest :
  0 <= n < 2 ^ 32 -> ends rest ->
  read_number (print_uint n ++ rest) = Some (print_uint n, rest) /\ parse_digits 0 (print_uint n) = Some n /\
  exists d ds, print_uint n = d :: ds /\ is_digit d = true.
Proof.
  intros Hn Hr. unfold print_uint. destruct (digits_ok 20 n [] ltac:(lia) ltac:(lia)) as (d & ds & -> & Hall & Hone & Hd & Hp).
  rewrite app_nil_r. apply Forall_cons in Hall as Hall'. destruct Hall' as [Hdig _]. split; [|split].
  - unfold read_number.
    assert (is_byte 45 d = false) as Hneg.
    { unfold is_digit, between in Hdig. unfold is_byte. apply andb_true_iff in Hdig as [Hdig%Z.leb_le _]. apply Z.eqb_neq. lia. }
    cbn [app]. rewrite Hneg. change (d :: ds ++ rest) with ((d :: ds) ++ rest). rewrite span_digits by done.
    assert ((match d :: ds with [] => None | [_] => Some tt | d :: _ => if is_byte 48 d then None else Some tt end) = Some tt) as ->.
    { destruct ds as [|d2 ds]; [done|]. destruct (Z_lt_le_dec n 10) as [Hlt|Hle]; [by specialize (Hone Hlt)|].
      by rewrite (Hd Hle). }
    cbn [mbind option_bind]. destruct rest as [|c rest]; cbn; [by rewrite !app_nil_r|].
    destruct Hr as (_ & Hdot & He & HE). rewrite Hdot. cbn. rewrite He, HE. cbn. by rewrite !app_nil_r.
  - specialize (Hp 0 []). rewrite app_nil_r in Hp. rewrite Hp. cbn [parse_digits]. f_equal; lia.
  - by exists d, ds.
Qed.

(** ** Documents *)

(** A document that the program stores: ASCII strings, 32-bit numbers. *)
Inductive stored : json -> Prop :=
| stored_null : stored JNull
| stored_num n : 0 <= n < 2 ^ 32 -> stored (JNum (print_uint n))
| stored_str s : ascii s -> stored (JStr s)
| stored_arr items : Forall stored items -> stored (JArr items)
| stored_obj fields : Forall (fun f => ascii (fst f) /\ stored (snd f)) fields -> stored (JObj fields).

(** Induction that reaches the items. *)
Lemma stored_items_ind (P : json -> Prop) :
  P JNull -> (forall n, 0 <= n < 2 ^ 32 -> P (JNum (print_uint n))) -> (forall s, ascii s -> P (JStr s)) ->
  (forall items, Forall P items -> P (JArr items)) ->
  (forall fields, Forall (fun f => ascii (fst f) /\ P (snd f)) fields -> P (JObj fields)) ->
  forall j, stored j -> P j.
Proof.
  intros Hnull Hnum Hstr Harr Hobj. fix IH 2. intros j [|n Hn|s Hs|items Hi|fields Hf]; auto.
  - apply Harr. induction Hi as [|x items Hx Hi IHi]; constructor; [by apply IH|exact IHi].
  - apply Hobj. induction Hf as [|x fields [Hxa Hxs] Hf IHf]; constructor; [|exact IHf]. split; [exact Hxa|]. apply IH. exact Hxs.
Qed.

Definition print_field (f : bytes * json) : bytes := print_string (fst f) ++ b_ 58 :: print (snd f).

(** A document starts with a character that is not a space and does not close
    a list. *)
Lemma print_first j : stored j -> exists c tl, print j = c :: tl /\
  is_json_space c = false /\ is_byte 93 c = false /\ is_byte 125 c = false.
Proof.
  intros [|n Hn|s Hs|items Hi|fields Hf]; try by eexists _, _.
  destruct (read_uint n [] Hn I) as (_ & _ & d & ds & E & Hd). exists d, ds. cbn [print]. split; [done|].
  clear -Hd. revert Hd. destruct d; vm_compute; first [done | intros; discriminate].
Qed.

Lemma commas_cons x items : items <> [] -> commas (x :: items) = x ++ b_ 44 :: commas items.
Proof. destruct items as [|y items]; [done|]. intros _. by cbn. Qed.

(** [read] is the inverse of [print] in front of [rest]. *)
Definition reads_back (j : json) : Prop :=
  forall fuel rest, (2 * length (print j) <= fuel)%nat -> ends rest -> read fuel (print j ++ rest) = Some (j, rest).

Lemma skip_space_char c s : is_json_space c = false -> skip_space (c :: s) = c :: s.
Proof. intros H. cbn. by rewrite H. Qed.

Lemma read_items_ok items fuel rest :
  Forall (fun j => stored j /\ reads_back j) items -> items <> [] ->
  (2 * length (commas (map print items)) + 1 <= fuel)%nat ->
  read_items fuel (commas (map print items) ++ b_ 93 :: rest) = Some (items, rest).
Proof.
  intros Hi. revert fuel. induction Hi as [|j items [Hst Hj] Hi IH]; intros [|fuel] Hne Hf; try done; [lia|].
  destruct items as [|j2 items]; cbn [map] in *.
  - unfold commas in *. cbn [mbind list_bind] in *. rewrite app_nil_r in *. cbn [read_items].
    rewrite Hj by (try lia; done). done.
  - rewrite commas_cons in * by done. rewrite length_app in Hf. cbn [length] in Hf.
    rewrite <- app_assoc. cbn [app read_items]. rewrite Hj by (try lia; done). cbn [mbind option_bind].
    rewrite skip_space_char by done. change (is_byte 93 (b_ 44)) with false. change (is_byte 44 (b_ 44)) with true.
    cbn [mbind option_bind]. rewrite IH by (try lia; done). done.
Qed.

Lemma print_string_length s : ascii s -> (length s + 2 <= length (print_string s))%nat.
Proof. intros Hs. unfold print_string. cbn [length]. rewrite length_app. cbn. pose proof (quote_length s Hs). lia. Qed.

Lemma read_fields_ok fields fuel rest :
  Forall (fun f => ascii (fst f) /\ stored (snd f) /\ reads_back (snd f)) fields -> fields <> [] ->
  (2 * length (commas (map print_field fields)) + 1 <= fuel)%nat ->
  read_fields fuel (commas (map print_field fields) ++ b_ 125 :: rest) = Some (fields, rest).
Proof.
  intros Hi. revert fuel. induction Hi as [|[name j] fields (Hn & Hst & Hj) Hi IH]; intros [|fuel] Hne Hf; try done; [lia|].
  cbn [fst snd] in *.
  assert (forall tl, ends tl -> (2 * length (print_field (name, j)) <= fuel + 1)%nat ->
    read_fields (S fuel) (print_field (name, j) ++ tl) =
      match skip_space tl with
      | c :: rest =>
          if is_byte 125 c then Some ([(name, j)], rest)
          else if is_byte 44 c then '(fields, rest) ← read_fields fuel rest; Some ((name, j) :: fields, rest)
          else None
      | [] => None
      end) as Hone.
  { intros tl Htl Hl. unfold print_field, print_string in *. cbn [fst snd] in *. rewrite <- !app_assoc. cbn [app read_fields].
    rewrite skip_space_char by done. change (is_byte 34 (b_ 34)) with true. cbn [negb].
    pose proof (print_string_length name Hn) as Hpl. unfold print_string in Hpl. rewrite !length_app in *. cbn [length] in *.
    rewrite <- app_assoc. cbn [app]. rewrite read_string_ok by (done || lia). cbn [mbind option_bind].
    rewrite skip_space_char by done. change (is_byte 58 (b_ 58)) with true. cbn [negb].
    rewrite Hj by (try lia; done). done. }
  destruct fields as [|f2 fields]; cbn [map] in *.
  - unfold commas in *. cbn [mbind list_bind] in *. rewrite app_nil_r in *. by rewrite Hone by (try lia; done).
  - rewrite commas_cons in * by done. rewrite length_app in Hf. cbn [length] in Hf.
    rewrite <- app_assoc. cbn [app]. rewrite Hone by (try lia; done). cbn [app]. rewrite skip_space_char by done.
    change (is_byte 125 (b_ 44)) with false. change (is_byte 44 (b_ 44)) with true.
    cbn [mbind option_bind]. rewrite IH by (try lia; done). done.
Qed.

Lemma read_print j : stored j -> reads_back j.
Proof.
  intros Hj. apply (stored_items_ind (fun j => stored j /\ reads_back j)); try done.
  - split; [constructor|]. intros fuel rest Hf Hr. destruct fuel as [|fuel]; [cbn in Hf; lia|]. reflexivity.
  - intros n Hn. split; [by constructor|]. intros fuel rest Hf Hr. cbn [print] in *.
    destruct (read_uint n rest Hn Hr) as (Hread & _ & d & ds & E & Hd).
    destruct fuel as [|fuel]; [rewrite E in Hf; cbn in Hf; lia|]. cbn [read]. rewrite E in Hread |- *. cbn [app] in *.
    assert (is_json_space d = false) as Hsp by (clear -Hd; revert Hd; destruct d; vm_compute; done).
    rewrite skip_space_char by done.
    assert ((byte.unsigned d =? 34) = false /\ (byte.unsigned d =? 91) = false /\ (byte.unsigned d =? 123) = false /\
      (byte.unsigned d =? 110) = false /\ (byte.unsigned d =? 116) = false /\ (byte.unsigned d =? 102) = false)
      as (-> & -> & -> & -> & -> & ->) by (clear -Hd; revert Hd; destruct d; vm_compute; done).
    by rewrite Hread.
  - intros s Hs. split; [by constructor|]. intros fuel rest Hf Hr. cbn [print] in *.
    pose proof (print_string_length s Hs). destruct fuel as [|fuel]; [lia|]. cbn [read]. unfold print_string in *.
    cbn [app]. rewrite skip_space_char by done. change (byte.unsigned (b_ 34) =? 34) with true. cbv iota zeta.
    rewrite <- app_assoc. cbn [app]. by rewrite read_string_ok by (done || lia).
  - intros items Hi. split; [constructor; by eapply Forall_impl; [exact Hi|intros ? []]|].
    intros fuel rest Hf Hr. cbn [print length] in Hf. rewrite length_app in Hf.
    destruct fuel as [|fuel]; [lia|]. cbn [print app read length] in *. rewrite skip_space_char by done.
    change (byte.unsigned (b_ 91) =? 34) with false. change (byte.unsigned (b_ 91) =? 91) with true. cbv iota zeta.
    rewrite <- app_assoc. cbn [app]. destruct items as [|j1 items]; [done|].
    assert (exists c tl, commas (map print (j1 :: items)) ++ b_ 93 :: rest = c :: tl /\
      is_json_space c = false /\ is_byte 93 c = false) as (c & tl & E & Hsp & Hcl).
    { apply Forall_cons in Hi as [[Hst _] _]. destruct (print_first j1 Hst) as (c & tl & E & ? & ? & _).
      cbn [map commas]. rewrite E. by eexists _, _. }
    rewrite E, skip_space_char by done. cbv iota. rewrite Hcl, <- E. by rewrite read_items_ok by (done || lia).
  - intros fields Hi.
    split; [constructor; eapply Forall_impl; [exact Hi|]; intros f (? & ? & _); done|].
    intros fuel rest Hf Hr. change (map _ fields) with (map print_field fields) in *.
    change (print (JObj fields)) with (b_ 123 :: commas (map print_field fields) ++ [b_ 125]) in *.
    cbn [length] in Hf. rewrite length_app in Hf. destruct fuel as [|fuel]; [lia|]. cbn [app read length] in *.
    rewrite skip_space_char by done. change (byte.unsigned (b_ 123) =? 34) with false.
    change (byte.unsigned (b_ 123) =? 91) with false. change (byte.unsigned (b_ 123) =? 123) with true. cbv iota zeta.
    rewrite <- app_assoc. cbn [app]. destruct fields as [|f1 fields]; [done|].
    assert (exists tl, commas (map print_field (f1 :: fields)) ++ b_ 125 :: rest = b_ 34 :: tl) as (tl & E) by
      (eexists; reflexivity).
    rewrite E, skip_space_char by done. change (is_byte 125 (b_ 34)) with false. cbv iota. rewrite <- E.
    by rewrite read_fields_ok by (done || lia).
Qed.

Lemma parse_print j : stored j -> parse (print j) = Some j.
Proof.
  intros Hj. unfold parse. rewrite <- (app_nil_r (print j)) at 2. rewrite read_print by (done || lia). done.
Qed.
