(* ===== verification/SchemaFacts.v ===== *)
(** * Well-formed schemas

    [tableDefChecK] accepts exactly the schemas whose indexes name columns,
    and completes the secondary indexes with the primary key. *)

From S2P Require Import Prelude.
From S2P Require Import GoBytes.
From S2P Require Import KVSpec.
From S2P Require Import Encode.
From S2P Require Import QLNode.
From S2P Require Import Parser.
From S2P Require Import Schema.

(** ** Positions of columns *)

Lemma slices_Index_range l c : -1 <= slices_Index l c < len l.
Proof.
  induction l as [|x l IH]; cbn [slices_Index]; [done|]. rewrite len_cons. case_decide; [lia|].
  cbv zeta. destruct (Z.ltb_spec (slices_Index l c) 0); lia.
Qed.

Lemma slices_Index_in l c : 0 <= slices_Index l c <-> c ∈ l.
Proof.
  induction l as [|x l IH]; cbn [slices_Index]; [by rewrite elem_of_nil|]. rewrite elem_of_cons.
  case_decide as Hx; [subst; intuition lia|]. cbv zeta. destruct (Z.ltb_spec (slices_Index l c) 0); naive_solver lia.
Qed.

Lemma slices_Index_neg l c : slices_Index l c < 0 <-> c ∉ l.
Proof. rewrite <- slices_Index_in. pose proof (slices_Index_range l c). lia. Qed.

Lemma slices_Index_lookup l c : c ∈ l -> l !! Z.to_nat (slices_Index l c) = Some c.
Proof.
  induction l as [|x l IH]; cbn [slices_Index]; [by intros ?%elem_of_nil|].
  case_decide as Hx; [by subst|]. intros [->|Hc]%elem_of_cons; [done|]. cbv zeta.
  apply slices_Index_in in Hc as Hi. destruct (Z.ltb_spec (slices_Index l c) 0); [lia|].
  replace (Z.to_nat (slices_Index l c + 1)) with (S (Z.to_nat (slices_Index l c))) by lia. by apply IH.
Qed.

(** ** Indexes *)

(** An index names distinct columns. *)
Definition index_ok (cols idx : list bytes) : Prop := idx <> [] /\ NoDup idx /\ idx ⊆ cols.

#[export] Instance subseteq_bytes_dec (a b : list bytes) : Decision (a ⊆ b).
Proof.
  refine (cast_if (decide (Forall (.∈ b) a))); [by intros x Hx; rewrite Forall_forall in *; auto|].
  intros H. apply n. apply Forall_forall. auto.
Defined.

#[export] Instance index_ok_dec cols idx : Decision (index_ok cols idx).
Proof. unfold index_ok. apply _. Defined.

(** An index with the columns of the primary key that it lacks. *)
Definition complete (pk idx : list bytes) : list bytes := idx ++ filter (fun c => c ∉ idx) pk.

Lemma filter_none {A} (P : A -> Prop) `{forall x, Decision (P x)} l : (forall x, x ∈ l -> ~ P x) -> filter P l = [].
Proof.
  intros Hl. apply elem_of_nil_inv. intros x [Hp Hx]%list_elem_of_filter. by eapply Hl.
Qed.

Lemma complete_self pk : complete pk pk = pk.
Proof.
  unfold complete. rewrite filter_none; [apply app_nil_r|]. naive_solver.
Qed.

Lemma elem_of_complete pk idx c : c ∈ complete pk idx <-> c ∈ idx \/ c ∈ pk.
Proof.
  unfold complete. rewrite elem_of_app, list_elem_of_filter. destruct (decide (c ∈ idx)); naive_solver.
Qed.

Lemma complete_ok cols pk idx : index_ok cols pk -> index_ok cols idx -> index_ok cols (complete pk idx).
Proof.
  intros (_ & Hpk & Hpc) (Hne & Hi & Hic). split_and!.
  - unfold complete. by destruct idx.
  - unfold complete. apply NoDup_app. split_and!; [done| |by apply NoDup_filter].
    intros c Hc. rewrite list_elem_of_filter. naive_solver.
  - intros c [Hc|Hc]%elem_of_complete; auto.
Qed.

Lemma index_ok_length cols idx : index_ok cols idx -> len idx <= len cols.
Proof.
  intros (_ & Hi & Hc). unfold len. apply inj_le. apply submseteq_length, NoDup_submseteq; [done|]. apply Hc.
Qed.

Lemma index_cols_loop_ok cols idx seen :
  match index_cols_loop cols idx seen with
  | inl seen' => NoDup idx /\ idx ⊆ cols /\ (forall c, c ∈ idx -> c ∉ seen) /\ (forall c, c ∈ seen' <-> c ∈ idx \/ c ∈ seen)
  | inr _ => ~ (NoDup idx /\ idx ⊆ cols /\ (forall c, c ∈ idx -> c ∉ seen))
  end.
Proof.
  revert seen. induction idx as [|c idx IH]; intros seen; cbn [index_cols_loop].
  { split_and!; [constructor|set_solver|set_solver|set_solver]. }
  destruct (Z.ltb_spec (slices_Index cols c) 0) as [Hc|Hc].
  { apply slices_Index_neg in Hc. intros (_ & Hs & _). apply Hc, Hs. set_solver. }
  apply slices_Index_in in Hc. case_decide as Hseen.
  { intros (_ & _ & Hd). by apply (Hd c); [set_solver|]. }
  specialize (IH ({[c]} ∪ seen)). destruct (index_cols_loop cols idx ({[c]} ∪ seen)) as [seen'|e].
  - destruct IH as (Hn & Hs & Hd & Hi). split_and!; [constructor; set_solver|set_solver|set_solver|set_solver].
  - intros ([Hci Hn]%NoDup_cons & Hs & Hd). apply IH. split_and!; [done|set_solver|set_solver].
Qed.

(** One index, given the primary key. *)
Lemma checkIndexCols_ok tdef pk idx :
  index (td_Indexes tdef) 0 = Ok pk -> (pk = idx \/ index_ok (td_Cols tdef) pk) ->
  if decide (index_ok (td_Cols tdef) idx) then checkIndexCols tdef idx = Ok (inl (complete pk idx))
  else exists e, checkIndexCols tdef idx = Ok (inr e).
Proof.
  intros Hpk Hp. unfold checkIndexCols. destruct (Z.eqb_spec (len idx) 0) as [Hl|Hl].
  { rewrite decide_False; [by eexists|]. intros [Hne _]. by apply len_0_inv in Hl. }
  pose proof (index_cols_loop_ok (td_Cols tdef) idx ∅) as Hloop.
  destruct (index_cols_loop (td_Cols tdef) idx ∅) as [seen|e].
  - destruct Hloop as (Hn & Hs & _ & Hi). assert (index_ok (td_Cols tdef) idx) as Hok.
    { split_and!; [|done|done]. intros ->. by rewrite len_nil in Hl. }
    rewrite decide_True by done. rewrite Hpk. step_res. cbv zeta.
    assert (idx ++ filter (fun c => c ∉ seen) pk = complete pk idx) as ->.
    { unfold complete. f_equal. apply list_filter_iff. intros c. set_solver. }
    rewrite assert_true; [done|]. apply Z.leb_le, index_ok_length, complete_ok; [|done].
    by destruct Hp as [->|].
  - rewrite decide_False; [by eexists|]. intros (_ & Hn & Hs). apply Hloop. set_solver.
Qed.

(** ** The whole schema *)

(** What the statement that creates a table must satisfy. *)
Definition declared_ok (tdef : TableDef) : Prop :=
  td_Name tdef <> [] /\ td_Cols tdef <> [] /\ td_Indexes tdef <> [] /\
  length (td_Cols tdef) = length (td_Types tdef) /\ Forall (index_ok (td_Cols tdef)) (td_Indexes tdef).

#[export] Instance declared_ok_dec tdef : Decision (declared_ok tdef).
Proof. unfold declared_ok. apply _. Defined.

(** The schema with its indexes completed. *)
Definition completed (tdef : TableDef) : TableDef :=
  set_Indexes tdef (complete (default [] (head (td_Indexes tdef))) <$> td_Indexes tdef).

(** The schema of a table: every index names distinct columns and contains the
    primary key, which is the first. *)
Definition schema_ok (tdef : TableDef) : Prop :=
  declared_ok tdef /\
  exists pk rest, td_Indexes tdef = pk :: rest /\ Forall (fun idx => pk ⊆ idx) (pk :: rest).

Lemma check_indexes_ok n tdef pk done todo orig :
  td_Indexes tdef = (complete pk <$> done) ++ todo -> length todo = n -> orig = done ++ todo ->
  head orig = Some pk -> Forall (index_ok (td_Cols tdef)) done ->
  if decide (Forall (index_ok (td_Cols tdef)) todo)
  then check_indexes n (Z.of_nat (length done)) tdef = Ok (set_Indexes tdef (complete pk <$> orig), None)
  else exists tdef' e, check_indexes n (Z.of_nat (length done)) tdef = Ok (tdef', Some e).
Proof.
  revert tdef done todo. induction n as [|n IH]; intros tdef done todo Hi Hn Ho Hpk Hd.
  { destruct todo; [|done]. rewrite decide_True by constructor. cbn. rewrite app_nil_r in *. subst orig.
    rewrite <- Hi. by destruct tdef. }
  destruct todo as [|idx todo]; [done|]. cbn [length] in Hn. cbn [check_indexes].
  assert (index (td_Indexes tdef) (Z.of_nat (length done)) = Ok idx) as ->.
  { unfold index. rewrite (proj2 (Z.leb_le _ _)) by lia. rewrite Nat2Z.id, Hi.
    rewrite lookup_app_r by (rewrite length_fmap; lia). by rewrite length_fmap, Nat.sub_diag. }
  step_res.
  assert (index (td_Indexes tdef) 0 = Ok pk /\ (pk = idx \/ index_ok (td_Cols tdef) pk)) as [Hpk0 Hp].
  { rewrite Hi. destruct done as [|d done]; cbn in Ho |- *.
    - subst orig. cbn in Hpk. injection Hpk as ->. by split; [|left].
    - subst orig. cbn in Hpk. injection Hpk as ->. rewrite complete_self. split; [done|]. right. by inversion Hd. }
  pose proof (checkIndexCols_ok tdef pk idx Hpk0 Hp) as Hc. case_decide as Hok.
  2:{ destruct Hc as (e & ->). step_res. rewrite decide_False by (by intros [? _]%Forall_cons). by exists tdef, e. }
  rewrite Hc. step_res. specialize (IH (set_Indexes tdef (<[length done := complete pk idx]> (td_Indexes tdef)))
    (done ++ [idx]) todo). cbn [td_Indexes set_Indexes td_Cols td_Name td_Types td_Prefixes] in IH.
  rewrite Nat2Z.id. replace (Z.of_nat (length done) + 1) with (Z.of_nat (length (done ++ [idx])))
    by (rewrite length_app; cbn; lia).
  unfold set_Indexes in IH |- *. cbn [td_Name td_Types td_Cols td_Prefixes td_Indexes] in IH.
  specialize (IH ltac:(rewrite Hi, insert_app_r_alt, length_fmap, Nat.sub_diag, fmap_app, <- app_assoc by
    (rewrite length_fmap; lia); done) ltac:(lia) ltac:(by rewrite Ho, <- app_assoc) Hpk
    ltac:(by apply Forall_app_2, Forall_singleton)).
  destruct (decide (Forall (index_ok (td_Cols tdef)) todo)) as [Ht|Ht].
  - rewrite decide_True by by constructor. exact IH.
  - rewrite decide_False by by intros [_ ?]%Forall_cons. exact IH.
Qed.

Lemma tableDefChecK_ok tdef :
  if decide (declared_ok tdef) then tableDefChecK tdef = Ok (completed tdef, None)
  else exists tdef' e, tableDefChecK tdef = Ok (tdef', Some e).
Proof.
  unfold tableDefChecK. cbv zeta. match goal with |- context [if ?b then Ok (tdef, _) else _] => destruct b eqn:Hb end.
  { rewrite decide_False; [by eexists _, _|]. intros (Hn & Hc & Hi & Hl & _).
    rewrite !orb_true_iff, negb_true_iff in Hb. unfold bytes_equal in Hb. rewrite bool_decide_eq_true in Hb.
    destruct Hb as [[[?|Hb%Z.eqb_eq]|Hb%Z.eqb_eq]|Hb%Z.eqb_neq]; [done|by apply len_0_inv in Hb..|].
    unfold len in Hb. lia. }
  rewrite !orb_false_iff, negb_false_iff in Hb. unfold bytes_equal in Hb. rewrite bool_decide_eq_false in Hb.
  destruct Hb as (((Hn & Hc%Z.eqb_neq) & Hi%Z.eqb_neq) & Hl%Z.eqb_eq).
  destruct (td_Indexes tdef) as [|pk rest] eqn:Ei; [done|].
  pose proof (check_indexes_ok (length (pk :: rest)) tdef pk [] (pk :: rest) (pk :: rest) Ei eq_refl eq_refl eq_refl
    ltac:(constructor)) as H. change (Z.of_nat (length [])) with 0 in H.
  destruct (decide (Forall (index_ok (td_Cols tdef)) (pk :: rest))) as [Ha|Ha].
  - rewrite decide_True; [rewrite H; unfold completed; by rewrite Ei|]. unfold declared_ok. rewrite Ei.
    split_and!; try done; [by intros E; rewrite E in Hc|unfold len in Hl; lia].
  - rewrite decide_False; [exact H|]. unfold declared_ok. rewrite Ei. tauto.
Qed.

Lemma completed_ok tdef : declared_ok tdef -> schema_ok (completed tdef).
Proof.
  intros (Hn & Hc & Hi & Hl & Hf). destruct (td_Indexes tdef) as [|pk rest] eqn:Ei; [done|].
  assert (td_Indexes (completed tdef) = complete pk <$> pk :: rest) as Ec by (unfold completed; by rewrite Ei).
  split.
  - unfold declared_ok. rewrite Ec. split_and!; try done. apply Forall_fmap. rewrite Forall_forall in *.
    intros idx Hidx. apply complete_ok; apply Hf; set_solver.
  - rewrite Ec. cbn [fmap list_fmap]. rewrite complete_self. eexists pk, _. split; [done|].
    constructor; [done|]. apply Forall_fmap, Forall_forall. intros idx _ c Hcpk. apply elem_of_complete. by right.
Qed.
