(* ===== verification/SchemaProps.v ===== *)
(** * Schemas: what is accepted, and that it is read back *)

From S2P Require Import Prelude.
From S2P Require Import GoBytes.
From S2P Require Import KVSpec.
From S2P Require Import Encode.
From S2P Require Import QLNode.
From S2P Require Import Json.
From S2P Require Import JsonFacts.
From S2P Require Import Parser.
From S2P Require Import Schema.
From S2P Require Import SchemaFacts.

(** C34.  Checking a schema never panics.  It accepts exactly the schemas with
    a name, columns with a type each, and indexes that are not empty and name
    distinct columns; the schema it then gives differs only in its indexes,
    each followed by the columns of the primary key that it lacks, so that
    every index is well formed and determines the primary key. *)
Theorem tableDefChecK_exact tdef :
  exists tdef' err, tableDefChecK tdef = Ok (tdef', err) /\
    (err = None <-> declared_ok tdef) /\
    (err = None -> tdef' = completed tdef /\ schema_ok tdef').
Proof.
  pose proof (tableDefChecK_ok tdef) as H. destruct (decide (declared_ok tdef)) as [Hd|Hd].
  - exists (completed tdef), None. split; [done|]. split; [done|]. intros _. split; [done|by apply completed_ok].
  - destruct H as (tdef' & e & ->). by exists tdef', (Some e).
Qed.

(** ** The stored form *)

(** Names in ASCII and numbers of 32 bits. *)
Definition plain_schema (tdef : TableDef) : Prop :=
  ascii (td_Name tdef) /\ Forall (fun t => 0 <= t < 2 ^ 32) (td_Types tdef) /\ Forall ascii (td_Cols tdef) /\
  Forall (Forall ascii) (td_Indexes tdef) /\ Forall (fun t => 0 <= t < 2 ^ 32) (td_Prefixes tdef).

Section slices.
Context {A : Type} (write : A -> json) (read : json -> option A) (P : A -> Prop).
Context (Hstored : forall a, P a -> stored (write a)) (Hread : forall a, P a -> read (write a) = Some a).

Lemma stored_slice l : Forall P l -> stored (to_slice write l).
Proof using Hstored.
  intros Hl. destruct l as [|x l]; [constructor|]. constructor. apply Forall_fmap. by eapply Forall_impl.
Qed.

Lemma from_to_slice l : Forall P l -> from_slice read (to_slice write l) = Some l.
Proof using Hread.
  intros Hl. destruct l as [|x l]; [done|]. cbn [to_slice from_slice].
  induction Hl as [|y k Hy Hk IH]; [done|]. cbn [map mapM]. rewrite Hread by done. cbn. by rewrite IH.
Qed.
End slices.

Lemma from_write_uint n : 0 <= n < 2 ^ 32 -> from_uint32 (JNum (print_uint n)) = Some n.
Proof.
  intros Hn. destruct (read_uint n [] Hn I) as (_ & Hp & _). cbn [from_uint32]. rewrite Hp. cbn.
  by rewrite (proj2 (Z.ltb_lt n _)) by lia.
Qed.

Lemma stored_schema tdef : plain_schema tdef -> stored (schema_json tdef).
Proof.
  intros (Hn & Ht & Hc & Hi & Hp). unfold schema_json. constructor.
  repeat (apply Forall_cons; split); [..|constructor]; (split; [by vm_compute; repeat constructor|]); cbn [snd].
  - by constructor.
  - by eapply stored_slice; [|exact Ht]; constructor.
  - by eapply stored_slice; [|exact Hc]; constructor.
  - eapply stored_slice; [|exact Hi]. intros l Hl. by eapply stored_slice; [|exact Hl]; constructor.
  - by eapply stored_slice; [|exact Hp]; constructor.
Qed.

(** The fields, set one by one. *)
Section fields.
Context (n : bytes) (t : list Z) (c : list bytes) (i : list (list bytes)) (p : list Z).
Let d := mkTableDef n t c i p.

Lemma set_Name s : set_field d (bytes_of "Name") (JStr s) = Some (mkTableDef s t c i p).
Proof. reflexivity. Qed.
Lemma set_Types j x : from_slice from_uint32 j = Some x -> set_field d (bytes_of "Types") j = Some (mkTableDef n x c i p).
Proof. intros E. change (set_field d _ j) with (x ← from_slice from_uint32 j; Some (mkTableDef n x c i p)). by rewrite E. Qed.
Lemma set_Cols j x : from_slice from_str j = Some x -> set_field d (bytes_of "Cols") j = Some (mkTableDef n t x i p).
Proof. intros E. change (set_field d _ j) with (x ← from_slice from_str j; Some (mkTableDef n t x i p)). by rewrite E. Qed.
Lemma set_Idx j x :
  from_slice (from_slice from_str) j = Some x -> set_field d (bytes_of "Indexes") j = Some (mkTableDef n t c x p).
Proof.
  intros E. change (set_field d _ j) with (x ← from_slice (from_slice from_str) j; Some (mkTableDef n t c x p)).
  by rewrite E.
Qed.
Lemma set_Pref j x : from_slice from_uint32 j = Some x -> set_field d (bytes_of "Prefixes") j = Some (mkTableDef n t c i x).
Proof. intros E. change (set_field d _ j) with (x ← from_slice from_uint32 j; Some (mkTableDef n t c i x)). by rewrite E. Qed.
End fields.

(** C35.  A schema with ASCII names is read back from its stored form: the
    decoder gives the schema that the encoder wrote, whatever its columns,
    indexes and prefixes, escaped characters included. *)
Theorem Unmarshal_Marshal tdef : plain_schema tdef -> Unmarshal (Marshal tdef) = Some tdef.
Proof.
  intros Hs. unfold Unmarshal, Marshal. rewrite parse_print by by apply stored_schema.
  destruct Hs as (Hn & Ht & Hc & Hi & Hp). cbn [mbind option_bind schema_json].
  set (types := to_slice _ (td_Types tdef)). set (cols := to_slice _ (td_Cols tdef)).
  set (indexes := to_slice _ (td_Indexes tdef)). set (prefixes := to_slice _ (td_Prefixes tdef)).
  assert (from_slice from_uint32 types = Some (td_Types tdef)) as Et by
    (eapply from_to_slice; [apply from_write_uint|exact Ht]).
  assert (from_slice from_str cols = Some (td_Cols tdef)) as Ec by
    (by eapply (from_to_slice _ _ ascii)).
  assert (from_slice (from_slice from_str) indexes = Some (td_Indexes tdef)) as Ei.
  { eapply from_to_slice; [|exact Hi]. intros l Hl. by eapply (from_to_slice _ _ ascii). }
  assert (from_slice from_uint32 prefixes = Some (td_Prefixes tdef)) as Ep by
    (eapply from_to_slice; [apply from_write_uint|exact Hp]).
  unfold set_fields. rewrite set_Name. cbn [mbind option_bind]. rewrite (set_Types _ _ _ _ _ _ _ Et).
  cbn [mbind option_bind]. rewrite (set_Cols _ _ _ _ _ _ _ Ec). cbn [mbind option_bind].
  rewrite (set_Idx _ _ _ _ _ _ _ Ei). cbn [mbind option_bind]. rewrite (set_Pref _ _ _ _ _ _ _ Ep). by destruct tdef.
Qed.

(** A name that is not UTF-8 is not preserved: U+FFFD takes the place of its
    bytes. *)
Lemma latin1_name_changes :
  exists tdef tdef', declared_ok tdef /\ Unmarshal (Marshal tdef) = Some tdef' /\ td_Name tdef' <> td_Name tdef.
Proof.
  exists (mkTableDef [Byte.xe9] [1] [bytes_of "a"] [[bytes_of "a"]] [100]). eexists. split; [|split; [vm_compute; reflexivity|done]].
  apply (bool_decide_eq_true_1 _). vm_compute. reflexivity.
Qed.

(** ** A concrete schema *)

Definition users : TableDef :=
  mkTableDef (bytes_of "users<1>") [TYPE_INT64; TYPE_BYTES] [bytes_of "id"; bytes_of "na\me"]
    [[bytes_of "id"]; [bytes_of "na\me"; bytes_of "id"]] [4294967295; 100].

Example Unmarshal_Marshal_witness : plain_schema users /\ Unmarshal (Marshal users) = Some users.
Proof.
  assert (plain_schema users) as Hp.
  { unfold plain_schema, ascii. split_and!; repeat (constructor; try done). }
  split; [exact Hp|exact (Unmarshal_Marshal users Hp)].
Defined.
