(* ===== verification/RowFacts.v ===== *)
(** * Rows of a table, and the keys that stand for them

    The values of a row in the order of [row_cols], in a canonical form; the
    key of the row and the keys of its secondary indexes; and that encoding
    loses nothing. *)

From S2P Require Import Prelude.
From S2P Require Import GoBytes.
From S2P Require Import KVSpec.
From S2P Require Import Encode.
From S2P Require Import EncodeFacts.
From S2P Require Import QLNode.
From S2P Require Import EvalFacts.
From S2P Require Import Parser.
From S2P Require Import Schema.
From S2P Require Import SchemaFacts.

(** ** Canonical values *)

#[export] Instance Value_countable : Countable Value :=
  inj_countable' (fun v => (v_Type v, v_I64 v, v_Str v)) (fun '(t, i, s) => mkValue t i s) ltac:(by intros []).

(** A value that can be stored; the field of the other type may hold
    anything. *)
Definition cell_ok (v : Value) : Prop :=
  (v_Type v = TYPE_INT64 /\ - 2 ^ 63 <= v_I64 v < 2 ^ 63) \/ v_Type v = TYPE_BYTES.

Definition norm (v : Value) : Value :=
  if v_Type v =? TYPE_INT64 then mkValue (v_Type v) (v_I64 v) [] else mkValue (v_Type v) 0 (v_Str v).

Lemma norm_type v : v_Type (norm v) = v_Type v.
Proof. unfold norm. by destruct (_ =? _). Qed.

Lemma norm_ok v : cell_ok v -> value_ok (norm v).
Proof.
  intros [[Ht Hi]|Ht]; unfold norm, value_ok; rewrite Ht; [left|right]; cbn; auto.
Qed.

Lemma norm_value_ok v : value_ok v -> norm v = v.
Proof.
  destruct v as [t i s]. intros [(Ht & _ & Hs)|[Ht Hi]]; cbn in *; subst; done.
Qed.

Lemma value_ok_cell v : value_ok v -> cell_ok v.
Proof. intros [(Ht & Hi & _)|[Ht _]]; [by left|by right]. Qed.

Lemma encodeValues_norm out vs : encodeValues out vs = encodeValues out (norm <$> vs).
Proof.
  revert out. induction vs as [|v vs IH]; intros out; [done|]. cbn [fmap list_fmap encodeValues]. cbv zeta.
  rewrite norm_type. unfold norm. destruct (v_Type v =? TYPE_INT64) eqn:E; cbn [v_I64 v_Str].
  - step_res. apply IH.
  - destruct (_ =? TYPE_BYTES); [|done]. rewrite escapeString_ok. step_res. apply IH.
Qed.

Lemma Forall_norm_ok vs : Forall cell_ok vs -> Forall value_ok (norm <$> vs).
Proof. intros H. apply Forall_fmap. eapply Forall_impl; [exact H|]. apply norm_ok. Qed.

Lemma encodeValues_cells vs : Forall cell_ok vs -> encodeValues [] vs = Ok (enc (norm <$> vs)).
Proof. intros H. by rewrite encodeValues_norm, encodeValues_ok by by apply Forall_norm_ok. Qed.

Definition key_of (prefix : Z) (vals : list Value) : bytes := be_split 4 prefix ++ enc vals.

Lemma encodeKey_cells prefix vs : Forall cell_ok vs -> encodeKey [] prefix vs = Ok (key_of prefix (norm <$> vs)).
Proof.
  intros H. unfold encodeKey. by rewrite encodeValues_norm, encodeValues_ok by by apply Forall_norm_ok.
Qed.

(** Decoding into values of the right types. *)
Lemma decode_blank in_ os rs :
  decodeValues in_ (blank <$> os) = Ok rs ->
  exists rs', decodeValues in_ os = Ok rs' /\ norm <$> rs' = norm <$> rs /\ Forall2 (fun r o => v_Type r = v_Type o) rs' os.
Proof.
  revert in_ rs. induction os as [|o os IH]; intros in_ rs; cbn [fmap list_fmap decodeValues blank v_Type v_I64 v_Str].
  { intros E. exists rs. assert (rs = []) as -> by by inv_res. split; [done|]. by split. }
  intros E. apply res_bind_Ok in E as (t & -> & E); step_res. apply res_bind_Ok in E as (u & -> & E); step_res.
  apply res_bind_Ok in E as (tl & -> & E); step_res. step_res. destruct (v_Type o =? TYPE_INT64) eqn:Et.
  - apply res_bind_Ok in E as (b & -> & E); step_res. apply res_bind_Ok in E as (n & Hn & E).
    apply res_bind_Ok in E as (tl2 & -> & E); step_res. apply res_bind_Ok in E as (out & Hout & [= <-]).
    step_res. rewrite Hn. step_res. destruct (IH _ _ Hout) as (rs' & -> & Hnorm & Hty). step_res.
    eexists. split; [reflexivity|]. cbn [fmap list_fmap]. split; [|by constructor].
    f_equal; [|done]. unfold norm. cbn [v_Type v_I64 v_Str]. by rewrite Et.
  - destruct (v_Type o =? TYPE_BYTES); [|done]. cbv zeta in *.
    apply res_bind_Ok in E as (u2 & -> & E); step_res. apply res_bind_Ok in E as (b & -> & E); step_res.
    apply res_bind_Ok in E as (s & Hstr & E). apply res_bind_Ok in E as (tl2 & -> & E); step_res.
    apply res_bind_Ok in E as (out & Hout & [= <-]).
    step_res. rewrite Hstr. step_res. destruct (IH _ _ Hout) as (rs' & -> & Hnorm & Hty). step_res.
    eexists. split; [reflexivity|]. cbn [fmap list_fmap]. split; [|by constructor].
    f_equal; [|done]. unfold norm. cbn [v_Type v_I64 v_Str]. by rewrite Et.
Qed.

Lemma blank_types vs os : Forall2 (fun v o : Value => v_Type v = v_Type o) vs os -> blank <$> vs = blank <$> os.
Proof. induction 1 as [|v o vs os H _ IH]; [done|]. cbn. unfold blank at 1 3. by rewrite H, IH. Qed.

Lemma decodeValues_types vs os :
  Forall value_ok vs -> Forall2 (fun v o => v_Type v = v_Type o) vs os ->
  exists rs, decodeValues (enc vs) os = Ok rs /\ norm <$> rs = vs /\ Forall2 (fun r o => v_Type r = v_Type o) rs os.
Proof.
  intros Hvs Ht. pose proof (decodeValues_ok vs Hvs) as E. rewrite (blank_types vs os Ht) in E.
  destruct (decode_blank _ _ _ E) as (rs & -> & Hn & Hty). exists rs. split; [done|]. split; [|done].
  rewrite Hn. clear -Hvs. induction Hvs as [|v vs Hv _ IH]; [done|]. cbn. by rewrite norm_value_ok, IH.
Qed.

Lemma enc_inj vs ws :
  Forall value_ok vs -> Forall value_ok ws -> Forall2 (fun v w => v_Type v = v_Type w) vs ws -> enc vs = enc ws -> vs = ws.
Proof.
  intros Hv Hw Ht E. pose proof (decodeValues_ok vs Hv) as Ev. pose proof (decodeValues_ok ws Hw) as Ew.
  rewrite (blank_types vs ws Ht), E, Ew in Ev. congruence.
Qed.

Lemma key_of_inj p q vs ws :
  0 <= p < 2 ^ 32 -> 0 <= q < 2 ^ 32 -> key_of p vs = key_of q ws -> p = q /\ enc vs = enc ws.
Proof.
  intros Hp Hq E. apply app_inj_1 in E as [E1 E2]; [|by rewrite !length_be_split]. split; [|done].
  rewrite <- (be_split_value 4 p), <- (be_split_value 4 q), E1 by done. done.
Qed.

Lemma key_of_ne p vs : key_of p vs <> [].
Proof. intros E. apply (f_equal length) in E. unfold key_of in E. rewrite length_app, length_be_split in E. done. Qed.

(** ** Tables *)

(** A schema as it is stored: complete indexes, distinct columns, a prefix
    for each index. *)
Record table_ok (tdef : TableDef) : Prop := {
  to_schema : schema_ok tdef;
  to_cols : NoDup (td_Cols tdef);
  to_types : Forall (fun t => t = TYPE_INT64 \/ t = TYPE_BYTES) (td_Types tdef);
  to_prefixes : length (td_Prefixes tdef) = length (td_Indexes tdef);
  to_distinct : NoDup (td_Prefixes tdef);
  to_range : Forall (fun p => 0 <= p < 2 ^ 32) (td_Prefixes tdef)
}.

Definition pk_cols (tdef : TableDef) : list bytes := default [] (head (td_Indexes tdef)).
Definition all_cols (tdef : TableDef) : list bytes :=
  pk_cols tdef ++ filter (fun c => slices_Index (pk_cols tdef) c < 0) (td_Cols tdef).
Definition npk (tdef : TableDef) : nat := length (pk_cols tdef).

Definition col_type (tdef : TableDef) (c : bytes) : option Z :=
  td_Types tdef !! Z.to_nat (slices_Index (td_Cols tdef) c).

(** The values [vals] of the columns [cols]. *)
Definition typed (tdef : TableDef) (cols : list bytes) (vals : list Value) : Prop :=
  Forall2 (fun c v => value_ok v /\ col_type tdef c = Some (v_Type v)) cols vals.

(** The values of some columns of a row. *)
Definition project (tdef : TableDef) (vals : list Value) (idx : list bytes) : list Value :=
  omap (assoc (all_cols tdef) vals) idx.

Section table.
Context (tdef : TableDef) (Hok : table_ok tdef).

Lemma td_split : exists pk rest, td_Indexes tdef = pk :: rest /\ pk_cols tdef = pk /\ index_ok (td_Cols tdef) pk /\
  Forall (fun idx => index_ok (td_Cols tdef) idx /\ pk ⊆ idx) rest.
Proof using Hok.
  destruct (to_schema _ Hok) as ((_ & _ & _ & _ & Hf) & pk & rest & E & Hs). exists pk, rest.
  rewrite E in Hf. apply Forall_cons in Hf as [Hpk Hrest]. apply Forall_cons in Hs as [_ Hs].
  split; [done|]. split; [unfold pk_cols; by rewrite E|]. split; [done|].
  rewrite Forall_forall in *. auto.
Qed.

Lemma row_cols_ok : row_cols tdef = Ok (all_cols tdef).
Proof using Hok.
  destruct td_split as (pk & rest & E & Epk & _). unfold row_cols, nonPrimaryKeyCols, all_cols. rewrite Epk, E.
  change (index (pk :: rest) 0) with (Ok pk). step_res. by destruct (td_Cols tdef).
Qed.

Lemma all_cols_in c : c ∈ all_cols tdef <-> c ∈ td_Cols tdef.
Proof using Hok.
  destruct td_split as (pk & rest & _ & Epk & (_ & _ & Hc) & _). unfold all_cols. rewrite Epk.
  rewrite elem_of_app, list_elem_of_filter, slices_Index_neg. destruct (decide (c ∈ pk)) as [Hin|]; [|naive_solver].
  specialize (Hc c Hin). naive_solver.
Qed.

Lemma all_cols_nodup : NoDup (all_cols tdef).
Proof using Hok.
  destruct td_split as (pk & rest & _ & Epk & (_ & Hn & _) & _). unfold all_cols. rewrite Epk. apply NoDup_app.
  split; [done|]. split; [|apply NoDup_filter, Hok]. intros c Hc. rewrite list_elem_of_filter, slices_Index_neg. naive_solver.
Qed.

Lemma col_type_some c : c ∈ td_Cols tdef -> exists t, col_type tdef c = Some t /\ (t = TYPE_INT64 \/ t = TYPE_BYTES) /\
  index (td_Types tdef) (slices_Index (td_Cols tdef) c) = Ok t.
Proof using Hok.
  intros Hc. unfold col_type, index. destruct (to_schema _ Hok) as ((_ & _ & _ & Hl & _) & _).
  pose proof (slices_Index_range (td_Cols tdef) c). apply slices_Index_in in Hc. rewrite (proj2 (Z.leb_le _ _)) by done.
  destruct (lookup_lt_is_Some_2 (td_Types tdef) (Z.to_nat (slices_Index (td_Cols tdef) c))) as [t Ht];
    [unfold len in *; lia|]. rewrite Ht. exists t. split; [done|]. split; [|done].
  pose proof (to_types _ Hok) as Hty. rewrite Forall_forall in Hty. apply Hty. by eapply list_elem_of_lookup_2.
Qed.

(** ** Records *)

(** The record [rec] gives each column the value of the row [vals]. *)
Definition rec_is (rec : Row) (vals : list Value) : Prop :=
  length (rec_Cols rec) = length (rec_Vals rec) /\ length vals = length (all_cols tdef) /\
  forall c, c ∈ td_Cols tdef -> exists v, assoc (rec_Cols rec) (rec_Vals rec) c = Some v /\ cell_ok v /\
    col_type tdef c = Some (v_Type v) /\ assoc (all_cols tdef) vals c = Some (norm v).

Lemma row_Get_assoc rec c :
  length (rec_Cols rec) = length (rec_Vals rec) -> row_Get rec c = Ok (assoc (rec_Cols rec) (rec_Vals rec) c).
Proof using. intros Hl. unfold row_Get. exact (row_get_loop_ok _ [] _ c Hl). Qed.

Lemma getValues_rec rec vals idx :
  rec_is rec vals -> idx ⊆ td_Cols tdef ->
  exists vs, getValues tdef rec idx = Ok (inl vs) /\ norm <$> vs = project tdef vals idx /\ Forall cell_ok vs /\
    Forall2 (fun c v => col_type tdef c = Some (v_Type v)) idx vs.
Proof using Hok.
  intros (Hl & _ & Hrec). induction idx as [|c idx IH]; intros Hs; cbn [getValues].
  { exists []. split; [done|]. by repeat split. }
  destruct (Hrec c) as (v & Ev & Hcell & Ht & Hn); [apply Hs; set_solver|].
  destruct (col_type_some c) as (t & Ht' & _ & ->); [apply Hs; set_solver|].
  rewrite row_Get_assoc, Ev by done. step_res. rewrite Ht in Ht'. injection Ht' as <-. rewrite Z.eqb_refl. cbn [negb].
  destruct IH as (vs & -> & Hp & Hcells & Hty); [set_solver|]. step_res. exists (v :: vs). split; [done|].
  split; [unfold project; cbn; rewrite Hn; by f_equal|]. split; by constructor.
Qed.

Lemma assoc_self cols vals : NoDup cols -> length vals = length cols -> omap (assoc cols vals) cols = vals.
Proof using.
  revert vals. induction cols as [|c cols IH]; intros [|v vals] Hn Hl; try done. apply NoDup_cons in Hn as [Hc Hn].
  cbn. rewrite decide_True by done. f_equal. transitivity (omap (assoc cols vals) cols); [|by apply IH; [|cbn in Hl; lia]].
  clear -Hc. revert Hc. generalize cols at 1 3 5. intros l. induction l as [|x l IHl]; intros Hc; [done|].
  apply not_elem_of_cons in Hc as [Hx Hl]. cbn. rewrite decide_False by congruence. by rewrite IHl.
Qed.

Lemma project_all vals : length vals = length (all_cols tdef) -> project tdef vals (all_cols tdef) = vals.
Proof using Hok. intros Hl. apply assoc_self; [apply all_cols_nodup|done]. Qed.

Lemma all_cols_take : take (npk tdef) (all_cols tdef) = pk_cols tdef.
Proof using. unfold all_cols, npk. apply take_app_length. Qed.

End table.
