(* ===== verification/TableSpec.v ===== *)
(** * What a table is: a map from primary keys to rows

    [stored T N]: the keys of the table in [N] are the rows of [T], one pair
    for each row and one for each of its secondary indexes. *)

From S2P Require Import Prelude.
From S2P Require Import GoBytes.
From S2P Require Import KVSpec.
From S2P Require Import Encode.
From S2P Require Import EncodeFacts.
From S2P Require Import BTreeInsert.
From S2P Require Import QLNode.
From S2P Require Import EvalFacts.
From S2P Require Import Parser.
From S2P Require Import Schema.
From S2P Require Import SchemaFacts.
From S2P Require Import KVTX.
From S2P Require Import RowFacts.

(** From the values of the primary key to those of the other columns. *)
Abbreviation table := (gmap (list Value) (list Value)).

Section spec.
Context (tdef : TableDef).

Definition row_prefix : Z := default 0 (head (td_Prefixes tdef)).

(** The pair of a row, and the keys of its secondary indexes. *)
Definition row_key (vals : list Value) : bytes := key_of row_prefix (take (npk tdef) vals).
Definition row_val (vals : list Value) : bytes := enc (drop (npk tdef) vals).
Definition index_keys (vals : list Value) : list bytes :=
  zip_with (fun idx p => key_of p (project tdef vals idx)) (tail (td_Indexes tdef)) (tail (td_Prefixes tdef)).

(** Pairs that the trees can always take. *)
Definition row_small (vals : list Value) : Prop :=
  small_kv (row_key vals, FLAG_UPDATED :: row_val vals) /\
  Forall (fun key => small_kv (key, [FLAG_UPDATED])) (index_keys vals).

Definition row_ok (vals : list Value) : Prop := typed tdef (all_cols tdef) vals /\ row_small vals.


Inductive entry (T : table) : bytes -> bytes -> Prop :=
| entry_row pk rest : T !! pk = Some rest -> entry T (row_key (pk ++ rest)) (row_val (pk ++ rest))
| entry_index pk rest key : T !! pk = Some rest -> key ∈ index_keys (pk ++ rest) -> entry T key [].

Definition rows_ok (T : table) : Prop :=
  map_Forall (fun pk rest => length pk = npk tdef /\ row_ok (pk ++ rest)) T.

(** A key with a prefix of the table. *)
Definition table_key (key : bytes) : Prop := Exists (fun p => take 4 key = be_split 4 p) (td_Prefixes tdef).

Definition stored (T : table) (N : gmap bytes bytes) : Prop :=
  rows_ok T /\ forall key v, table_key key -> (N !! key = Some v <-> entry T key v).

(** ** Keys determine rows *)

Context (Hok : table_ok tdef).

Lemma prefix_split : exists p rest, td_Prefixes tdef = p :: rest /\ row_prefix = p /\ 0 <= p < 2 ^ 32 /\
  NoDup (p :: rest) /\ Forall (fun q => 0 <= q < 2 ^ 32) rest /\ length rest = length (tail (td_Indexes tdef)).
Proof using Hok.
  destruct (td_split tdef Hok) as (pk & idxs & E & _). pose proof (to_prefixes _ Hok) as Hl. rewrite E in Hl.
  destruct (td_Prefixes tdef) as [|p rest] eqn:Ep; [done|]. exists p, rest. unfold row_prefix. rewrite Ep.
  pose proof (to_range _ Hok) as Hr. rewrite Ep in Hr. apply Forall_cons in Hr as [Hp Hr].
  pose proof (to_distinct _ Hok) as Hd. rewrite Ep in Hd. rewrite E. cbn in Hl. split_and!; try done; cbn; lia.
Qed.

Lemma typed_assoc cols vals c :
  typed tdef cols vals -> c ∈ cols ->
  exists v, assoc cols vals c = Some v /\ value_ok v /\ col_type tdef c = Some (v_Type v).
Proof using.
  induction 1 as [|c' v cols vals [Hv Ht] _ IH]; [by intros ?%elem_of_nil|]. cbn.
  intros Hc. destruct (decide (c' = c)) as [->|Hne]; [by exists v|]. apply IH. by apply elem_of_cons in Hc as [->|].
Qed.

Lemma typed_project vals idx :
  typed tdef (all_cols tdef) vals -> idx ⊆ td_Cols tdef -> typed tdef idx (project tdef vals idx).
Proof using Hok.
  intros Ht. induction idx as [|c idx IH]; intros Hs; [constructor|].
  destruct (typed_assoc _ _ c Ht) as (v & E & Hv); [apply (all_cols_in tdef Hok), Hs; set_solver|].
  unfold project. cbn. rewrite E. constructor; [done|]. apply IH. set_solver.
Qed.

Lemma typed_values cols vals : typed tdef cols vals -> Forall value_ok vals.
Proof using. induction 1 as [|c v cols vals [Hv _] _ IH]; by constructor. Qed.

Lemma typed_enc_inj cols vs ws : typed tdef cols vs -> typed tdef cols ws -> enc vs = enc ws -> vs = ws.
Proof using.
  intros Hv Hw. apply enc_inj; [by eapply typed_values..|]. revert ws Hw.
  induction Hv as [|c v cols vs [_ Ht] _ IH]; intros ws Hw; inversion Hw as [|? w ? ws' [_ Ht'] Hw']; subst; constructor;
    [congruence|by apply IH].
Qed.

Lemma typed_app cols1 cols2 vals :
  typed tdef (cols1 ++ cols2) vals -> typed tdef cols1 (take (length cols1) vals) /\ typed tdef cols2 (drop (length cols1) vals).
Proof using.
  intros Ht. apply Forall2_app_inv_l in Ht as (v1 & v2 & H1 & H2 & ->).
  rewrite (Forall2_length _ _ _ H1), take_app_length, drop_app_length. done.
Qed.

Lemma project_pk vals : typed tdef (all_cols tdef) vals -> project tdef vals (pk_cols tdef) = take (npk tdef) vals.
Proof using Hok.
  intros Ht. pose proof (project_all tdef Hok vals (eq_sym (Forall2_length _ _ _ Ht))) as E.
  unfold all_cols in E at 1. unfold project in E. rewrite omap_app in E. fold (project tdef vals (pk_cols tdef)) in E.
  rewrite <- E at 2. unfold npk.
  destruct (td_split tdef Hok) as (pk & rest & _ & Epk & (_ & _ & Hc) & _). rewrite <- Epk in Hc.
  rewrite (Forall2_length _ _ _ (typed_project vals (pk_cols tdef) Ht Hc)). by rewrite take_app_length.
Qed.

(** Equal keys of an index that contains the primary key. *)
Lemma project_inj vals vals' idx :
  typed tdef (all_cols tdef) vals -> typed tdef (all_cols tdef) vals' ->
  idx ⊆ td_Cols tdef -> pk_cols tdef ⊆ idx -> enc (project tdef vals idx) = enc (project tdef vals' idx) ->
  take (npk tdef) vals = take (npk tdef) vals'.
Proof using Hok.
  intros Ht Ht' Hs Hpk E. apply (typed_enc_inj idx) in E; [|by apply typed_project..].
  rewrite <- !project_pk by done.
  assert (forall c, c ∈ idx -> assoc (all_cols tdef) vals c = assoc (all_cols tdef) vals' c) as H.
  { clear Hpk. induction idx as [|c idx IH]; [by intros ? ?%elem_of_nil|].
    destruct (typed_assoc _ _ c Ht) as (v & Ev & _); [apply (all_cols_in tdef Hok), Hs; set_solver|].
    destruct (typed_assoc _ _ c Ht') as (v' & Ev' & _); [apply (all_cols_in tdef Hok), Hs; set_solver|].
    unfold project in E. cbn in E. rewrite Ev, Ev' in E. injection E as -> E.
    intros c' [->|Hc']%elem_of_cons; [congruence|]. apply IH; [set_solver|exact E|done]. }
  unfold project. clear -H Hpk. induction (pk_cols tdef) as [|c pk IH]; [done|]. cbn.
  rewrite H by set_solver. destruct (assoc _ _ c); [f_equal|]; apply IH; set_solver.
Qed.

(** An index key, with its index and prefix. *)
Lemma index_key_lookup vals i key : index_keys vals !! i = Some key <->
  exists idx p, td_Indexes tdef !! S i = Some idx /\ td_Prefixes tdef !! S i = Some p /\ key = key_of p (project tdef vals idx).
Proof using.
  unfold index_keys. rewrite lookup_zip_with_Some, !lookup_tail. naive_solver.
Qed.

Lemma index_at i idx : td_Indexes tdef !! S i = Some idx -> idx ⊆ td_Cols tdef /\ pk_cols tdef ⊆ idx.
Proof using Hok.
  destruct (td_split tdef Hok) as (pk & rest & E & -> & _ & Hr). rewrite E. cbn. intros Hi.
  rewrite Forall_forall in Hr. destruct (Hr idx) as [(_ & _ & Hc) Hp]; [by eapply list_elem_of_lookup_2|done].
Qed.

Lemma prefix_at i p : td_Prefixes tdef !! i = Some p -> 0 <= p < 2 ^ 32.
Proof using Hok. intros Hi. pose proof (to_range _ Hok) as Hr. rewrite Forall_lookup in Hr. eauto. Qed.

Lemma row_prefix_at : td_Prefixes tdef !! 0%nat = Some row_prefix.
Proof using Hok. destruct prefix_split as (p & rest & -> & -> & _). done. Qed.

Lemma prefix_unique i j p : td_Prefixes tdef !! i = Some p -> td_Prefixes tdef !! j = Some p -> i = j.
Proof using Hok. intros. eapply NoDup_lookup; eauto. apply Hok. Qed.

Lemma row_key_inj vals vals' :
  typed tdef (all_cols tdef) vals -> typed tdef (all_cols tdef) vals' -> row_key vals = row_key vals' ->
  take (npk tdef) vals = take (npk tdef) vals'.
Proof using Hok.
  intros Ht Ht' E. pose proof (prefix_at _ _ row_prefix_at) as Hp.
  apply key_of_inj in E as [_ E]; [|done..]. unfold all_cols in Ht, Ht'. apply typed_app in Ht as [Ht _], Ht' as [Ht' _].
  by eapply typed_enc_inj.
Qed.

Lemma index_key_inj vals vals' i j key :
  typed tdef (all_cols tdef) vals -> typed tdef (all_cols tdef) vals' ->
  index_keys vals !! i = Some key -> index_keys vals' !! j = Some key ->
  i = j /\ take (npk tdef) vals = take (npk tdef) vals'.
Proof using Hok.
  intros Ht Ht' (idx & p & Hi & Hp & ->)%index_key_lookup (idx' & p' & Hi' & Hp' & E)%index_key_lookup.
  apply key_of_inj in E as [-> E]; [|by eapply prefix_at..]. pose proof (prefix_unique _ _ _ Hp Hp') as [= ->].
  split; [done|]. rewrite Hi in Hi'. injection Hi' as <-. destruct (index_at _ _ Hi). by apply (project_inj _ _ idx).
Qed.

Lemma row_key_not_index vals vals' : row_key vals ∉ index_keys vals'.
Proof using Hok.
  intros [i Hi]%list_elem_of_lookup. apply index_key_lookup in Hi as (idx & p & _ & Hp & E).
  apply key_of_inj in E as [<- _]; [|by eapply prefix_at; [apply row_prefix_at]|by eapply prefix_at].
  by pose proof (prefix_unique _ _ _ row_prefix_at Hp).
Qed.

Lemma index_keys_nodup vals : NoDup (index_keys vals).
Proof using Hok.
  apply NoDup_alt. intros i j key (idx & p & _ & Hp & ->)%index_key_lookup (idx' & p' & _ & Hp' & E)%index_key_lookup.
  apply key_of_inj in E as [-> _]; [|by eapply prefix_at..]. by pose proof (prefix_unique _ _ _ Hp Hp') as [= ->].
Qed.

Lemma take_key_of p vals : take 4 (key_of p vals) = be_split 4 p.
Proof using. unfold key_of. rewrite take_app_length' by by rewrite length_be_split. done. Qed.

Lemma row_key_table vals : table_key (row_key vals).
Proof using Hok.
  apply Exists_exists. exists row_prefix. split; [by eapply list_elem_of_lookup_2, row_prefix_at|apply take_key_of].
Qed.

Lemma index_key_table vals key : key ∈ index_keys vals -> table_key key.
Proof using.
  intros [i (idx & p & _ & Hp & ->)%index_key_lookup]%list_elem_of_lookup. apply Exists_exists. exists p.
  split; [by eapply list_elem_of_lookup_2|apply take_key_of].
Qed.

(** ** Entries of a changed table *)

Lemma entry_insert T pk rest key v :
  entry (<[pk := rest]> T) key v <->
  (key = row_key (pk ++ rest) /\ v = row_val (pk ++ rest)) \/ (key ∈ index_keys (pk ++ rest) /\ v = []) \/
  entry (delete pk T) key v.
Proof using.
  split.
  - intros [pk' rest' H|pk' rest' key' H Hk]; apply lookup_insert_Some in H as [[-> ->]|[Hne H]]; auto; right; right.
    + apply entry_row. by rewrite lookup_delete_ne.
    + eapply entry_index; [|exact Hk]. by rewrite lookup_delete_ne.
  - intros [[-> ->]|[[Hk ->]|[pk' rest' H|pk' rest' key' H Hk]]]; [| |apply lookup_delete_Some in H as [Hne H]..].
    + apply entry_row. by rewrite lookup_insert_eq.
    + eapply entry_index; [by rewrite lookup_insert_eq|done].
    + apply entry_row. by rewrite lookup_insert_ne.
    + eapply entry_index; [by rewrite lookup_insert_ne|done].
Qed.

Lemma take_row T pk rest : rows_ok T -> T !! pk = Some rest -> take (npk tdef) (pk ++ rest) = pk /\ typed tdef (all_cols tdef) (pk ++ rest).
Proof using. intros HT H. destruct (HT _ _ H) as [<- [Ht _]]. by rewrite take_app_length. Qed.

(** The entries of other rows than [pk ++ rest]. *)
Lemma entry_delete T pk old key v :
  rows_ok T -> T !! pk = Some old ->
  entry (delete pk T) key v <-> entry T key v /\ key <> row_key (pk ++ old) /\ key ∉ index_keys (pk ++ old).
Proof using Hok.
  intros HT Hold. destruct (take_row _ _ _ HT Hold) as [Hpk Ht]. split.
  - intros [pk' rest' [Hne H]%lookup_delete_Some|pk' rest' key' [Hne H]%lookup_delete_Some Hk];
      destruct (take_row _ _ _ HT H) as [Hpk' Ht'].
    + split; [by apply entry_row|]. split; [|apply row_key_not_index]. intros E%row_key_inj; [congruence|done..].
    + split; [by eapply entry_index|]. split; [intros ->; by eapply row_key_not_index|].
      intros [j Hj]%list_elem_of_lookup. apply list_elem_of_lookup in Hk as [i Hi].
      destruct (index_key_inj _ _ _ _ _ Ht' Ht Hi Hj) as [_ E]. congruence.
  - intros ([pk' rest' H|pk' rest' key' H Hk] & Hr & Hi);
      (destruct (decide (pk = pk')) as [<-|Hne]; [rewrite Hold in H; injection H as <-; done|]).
    + apply entry_row. by rewrite lookup_delete_ne.
    + eapply entry_index; [by rewrite lookup_delete_ne|done].
Qed.

(** The pair of the row with the key [pk]. *)
Lemma stored_row T N pk rest :
  stored T N -> row_ok (pk ++ rest) -> length pk = npk tdef ->
  N !! row_key (pk ++ rest) = row_val <$> ((fun r => pk ++ r) <$> T !! pk).
Proof using Hok.
  intros [HT HN] [Ht _] Hpk. apply option_eq. intros v. rewrite HN by apply row_key_table. split.
  - intros He. remember (row_key (pk ++ rest)) as key eqn:Ek. destruct He as [pk' rest' H|pk' rest' key H Hk].
    + destruct (take_row _ _ _ HT H) as [Hpk' Ht']. symmetry in Ek. apply row_key_inj in Ek; [|done..].
      rewrite Hpk', <- Hpk, take_app_length in Ek. subst pk'. by rewrite H.
    + subst key. by apply row_key_not_index in Hk.
  - destruct (T !! pk) as [old|] eqn:E; [|done]. cbn. intros [= <-].
    replace (row_key (pk ++ rest)) with (row_key (pk ++ old)); [by apply entry_row|].
    unfold row_key. by rewrite <- Hpk, !take_app_length.
Qed.

End spec.
