(* ===== verification/Table.v ===== *)
(** * Rows and secondary indexes (src/db/table.go)

    A row is a key-value pair: the primary key columns are the key and the
    others the value.  Each secondary index adds a pair without a value.
    The operations take the transaction and give it back: [DBTX] is the
    key-value transaction with the schemas that the database has cached, which
    are shared by its transactions.  [file] is the file that the snapshot of
    the transaction maps. *)

From S2P Require Import Prelude.
From S2P Require Import GoBytes.
From S2P Require Import KVSpec.
From S2P Require Import BTree.
From S2P Require Import BIter.
From S2P Require Import Encode.
From S2P Require Import QLNode.
From S2P Require Import Parser.
From S2P Require Import Schema.
From S2P Require Import Pager.
From S2P Require Import KV.
From S2P Require Import MemStore.
From S2P Require Import KVTX.

Record DBTX := mkDBTX { dt_kv : KVTX; dt_tables : gmap bytes TableDef }.

Definition set_kv (tx : DBTX) (kv : KVTX) : DBTX := mkDBTX kv (dt_tables tx).

Definition DBTX_Save (tx : DBTX) : TXSaved := tx_Save (dt_kv tx).
Definition DBTX_Revert (tx : DBTX) (saved : TXSaved) : DBTX := set_kv tx (tx_Revert (dt_kv tx) saved).

(** An error of the key-value layer. *)
Definition kv_err (err : option error) : option gerror := (fun e => (e, [])) <$> err.

(** A range of rows, and the iterator over it. *)
Record ScanReq := mkScanReq { sr_Cmp1 : Z; sr_Cmp2 : Z; sr_Key1 : Row; sr_Key2 : Row }.
Record Scanner := mkScanner { sc_tdef : TableDef; sc_index : Z; sc_iter : CombinedIter }.

Definition Scanner_Valid (sc : Scanner) : res bool := CI_Valid (sc_iter sc).

Definition Scanner_Next (sc : Scanner) : res Scanner :=
  iter ← CI_Next (sc_iter sc);
  Ok (mkScanner (sc_tdef sc) (sc_index sc) iter).

(** The closure [covered], and [slices.IndexFunc]. *)
Definition covered (key idx : list bytes) : bool :=
  (len key <=? len idx) && bool_decide (take (length key) idx = key).

Fixpoint IndexFunc {A} (f : A -> bool) (l : list A) : Z :=
  match l with
  | [] => -1
  | x :: l => if f x then 0 else let i := IndexFunc f l in if i <? 0 then -1 else i + 1
  end.

Section db.
Context (depth : nat) (file : bytes).

(** ** Range queries *)

Definition dbScan (tx : DBTX) (tdef : TableDef) (req : ScanReq) : res (DBTX * (Scanner + gerror)) :=
  if negb (((0 <? sr_Cmp1 req) && (sr_Cmp2 req <? 0)) || ((0 <? sr_Cmp2 req) && (sr_Cmp1 req <? 0)))
  then Ok (tx, inr ("bad range"%string, [])) else
  err ← checkTypes tdef (sr_Key1 req);
  match err with
  | Some e => Ok (tx, inr e)
  | None =>
      err ← checkTypes tdef (sr_Key2 req);
      match err with
      | Some e => Ok (tx, inr e)
      | None =>
          let i := IndexFunc (fun idx => covered (rec_Cols (sr_Key1 req)) idx && covered (rec_Cols (sr_Key2 req)) idx)
                     (td_Indexes tdef) in
          if i <? 0 then Ok (tx, inr ("no index"%string, [])) else
          prefix ← index (td_Prefixes tdef) i;
          keyStart ← encodeKeyPartial [] prefix (rec_Vals (sr_Key1 req)) (sr_Cmp1 req);
          keyEnd ← encodeKeyPartial [] prefix (rec_Vals (sr_Key2 req)) (sr_Cmp2 req);
          '(kv, iter) ← tx_Seek depth file (dt_kv tx) keyStart (sr_Cmp1 req) keyEnd (sr_Cmp2 req);
          Ok (set_kv tx kv, inl (mkScanner tdef i iter))
      end
  end.

(** [dbGet], given [Deref] of the scanner: the row when it is found. *)
Definition dbGet_with (deref : DBTX -> Scanner -> res (DBTX * Row)) (tx : DBTX) (tdef : TableDef) (rec : Row)
    : res (DBTX * (option Row + gerror)) :=
  pk ← index (td_Indexes tdef) 0;
  values ← getValues tdef rec pk;
  match values with
  | inr e => Ok (tx, inr e)
  | inl values =>
      let keyRec := mkRow pk values in
      '(tx, sc) ← dbScan tx tdef (mkScanReq CMP_GE CMP_LE keyRec keyRec);
      match sc with
      | inr e => Ok (tx, inr e)
      | inl sc =>
          valid ← Scanner_Valid sc;
          if (valid : bool) then '(tx, rec) ← deref tx sc; Ok (tx, inl (Some rec))
          else Ok (tx, inl None)
      end
  end.

(** The primary key from the columns of an index. *)
Fixpoint extract_pk (idxRec : Row) (pk : list bytes) : res (list Value) :=
  match pk with
  | [] => Ok []
  | c :: pk =>
      v ← row_Get idxRec c;
      match v with
      | None => Panic
      | Some v => vals ← extract_pk idxRec pk; Ok (v :: vals)
      end
  end.

(** [sc.Deref]: on a secondary index it fetches the row by its primary key,
    which is a scan of the first index, so two levels are enough. *)
Fixpoint sc_Deref (fuel : nat) (tx : DBTX) (sc : Scanner) : res (DBTX * Row) :=
  match fuel with
  | O => NoFuel
  | S fuel =>
      valid ← Scanner_Valid sc;
      _ ← assert valid;
      let tdef := sc_tdef sc in
      cols ← row_cols tdef;
      blanks ← blank_values tdef cols;
      '(key, val) ← CI_Deref (sc_iter sc);
      pk ← index (td_Indexes tdef) 0;
      let npk := length pk in
      if sc_index sc =? 0 then
        keys ← decodeKey key (take npk blanks);
        rest ← decodeValues val (drop npk blanks);
        Ok (tx, mkRow cols (keys ++ rest))
      else
        _ ← assert (len val =? 0);
        idx ← index (td_Indexes tdef) (sc_index sc);
        vals ← blank_values tdef idx;
        vals ← decodeKey key vals;
        pkvals ← extract_pk (mkRow idx vals) pk;
        '(tx, r) ← dbGet_with (sc_Deref fuel) tx tdef (mkRow cols (pkvals ++ drop npk blanks));
        match r with
        | inl (Some rec) => Ok (tx, rec)
        | _ => Panic
        end
  end.

Definition Scanner_Deref : DBTX -> Scanner -> res (DBTX * Row) := sc_Deref 2.
Definition dbGet : DBTX -> TableDef -> Row -> res (DBTX * (option Row + gerror)) := dbGet_with (sc_Deref 2).

(** ** Updating *)

Definition INDEX_ADD : Z := 1.
Definition INDEX_DEL : Z := 2.

(** The loop of [indexOp] over the secondary indexes with their prefixes'
    positions. *)
Fixpoint indexOp_loop (n : nat) (i : Z) (tx : DBTX) (tdef : TableDef) (op : Z) (rec : Row)
    : res (DBTX * option gerror) :=
  match n with
  | O => Ok (tx, None)
  | S n =>
      idx ← index (td_Indexes tdef) i;
      values ← getValues tdef rec idx;
      match values with
      | inr _ => Panic
      | inl values =>
          prefix ← index (td_Prefixes tdef) i;
          key ← encodeKey [] prefix values;
          '(tx, err) ←
            (if op =? INDEX_ADD then
               '(kv, req, (_, err)) ← tx_Update depth file (dt_kv tx) (updateReq key [] MODE_UPSERT);
               _ ← assert (match err with Some _ => true | None => uq_Added req end);
               Ok (set_kv tx kv, err)
             else if op =? INDEX_DEL then
               '(kv, _, (deleted, err)) ← tx_Del depth file (dt_kv tx) (mkDeleteReq key []);
               _ ← assert (match err with Some _ => true | None => deleted end);
               Ok (set_kv tx kv, err)
             else Panic);
          match err with
          | Some _ => Ok (tx, kv_err err)
          | None => indexOp_loop n (i + 1) tx tdef op rec
          end
      end
  end.

Definition indexOp (tx : DBTX) (tdef : TableDef) (op : Z) (rec : Row) : res (DBTX * option gerror) :=
  indexOp_loop (length (td_Indexes tdef) - 1) 1 tx tdef op rec.

Record DBUpdateReq := mkDBUpdateReq { dr_Record : Row; dr_Mode : Z; dr_Updated : bool; dr_Added : bool }.

Definition dbUpdate (tx : DBTX) (tdef : TableDef) (dbReq : DBUpdateReq)
    : res (DBTX * DBUpdateReq * (bool * option gerror)) :=
  cols ← row_cols tdef;
  values ← getValues tdef (dr_Record dbReq) cols;
  match values with
  | inr e => Ok (tx, dbReq, (false, Some e))
  | inl values =>
      pk ← index (td_Indexes tdef) 0;
      let npk := length pk in
      prefix ← index (td_Prefixes tdef) 0;
      key ← encodeKey [] prefix (take npk values);
      val ← encodeValues [] (drop npk values);
      '(kv, req, (_, err)) ← tx_Update depth file (dt_kv tx) (updateReq key val (dr_Mode dbReq));
      let tx := set_kv tx kv in
      match err with
      | Some _ => Ok (tx, dbReq, (false, kv_err err))
      | None =>
          let dbReq := mkDBUpdateReq (dr_Record dbReq) (dr_Mode dbReq) (uq_Updated req) (uq_Added req) in
          '(tx, err) ←
            (if uq_Updated req && negb (uq_Added req) then
               old ← decodeValues (uq_Old req) (drop npk values);
               indexOp tx tdef INDEX_DEL (mkRow cols (take npk values ++ old))
             else Ok (tx, None));
          match err with
          | Some _ => Ok (tx, dbReq, (false, err))
          | None =>
              '(tx, err) ←
                (if uq_Updated req then indexOp tx tdef INDEX_ADD (dr_Record dbReq) else Ok (tx, None));
              match err with
              | Some _ => Ok (tx, dbReq, (false, err))
              | None => Ok (tx, dbReq, (uq_Updated req, None))
              end
          end
      end
  end.

(** An error in the primary key is not reported. *)
Definition dbDelete (tx : DBTX) (tdef : TableDef) (rec : Row) : res (DBTX * (bool * option gerror)) :=
  pk ← index (td_Indexes tdef) 0;
  values ← getValues tdef rec pk;
  match values with
  | inr _ => Ok (tx, (false, None))
  | inl values =>
      prefix ← index (td_Prefixes tdef) 0;
      key ← encodeKey [] prefix values;
      '(kv, req, (deleted, err)) ← tx_Del depth file (dt_kv tx) (mkDeleteReq key []);
      let tx := set_kv tx kv in
      if negb deleted then Ok (tx, (false, kv_err err)) else
      rest ← nonPrimaryKeyCols tdef;
      blanks ← blank_values tdef rest;
      old ← decodeValues (dq_Old req) blanks;
      '(tx, err) ← indexOp tx tdef INDEX_DEL (mkRow (td_Cols tdef) (values ++ old));
      match err with
      | Some _ => Ok (tx, (false, err))
      | None => Ok (tx, (true, None))
      end
  end.

(** ** Schemas *)

Definition getTableDefDB (tx : DBTX) (name : bytes) : res (DBTX * option TableDef) :=
  '(tx, r) ← dbGet tx TDEF_TABLE (AddStr (mkRow [] []) (bytes_of "name") name);
  match r with
  | inr _ => Panic
  | inl None => Ok (tx, None)
  | inl (Some rec) =>
      v ← row_Get rec (bytes_of "def");
      match v with
      | None => Panic
      | Some v =>
          match Unmarshal (v_Str v) with
          | Some tdef => Ok (tx, Some tdef)
          | None => Panic
          end
      end
  end.

Definition getTableDef (tx : DBTX) (name : bytes) : res (DBTX * option TableDef) :=
  match INTERNAL_TABLES !! name with
  | Some tdef => Ok (tx, Some tdef)
  | None =>
      match dt_tables tx !! name with
      | Some tdef => Ok (tx, Some tdef)
      | None =>
          '(tx, tdef) ← getTableDefDB tx name;
          match tdef with
          | Some t => Ok (mkDBTX (dt_kv tx) (<[name := t]> (dt_tables tx)), Some t)
          | None => Ok (tx, None)
          end
      end
  end.

Definition table_not_found (table : bytes) : gerror := ("table not found: %s"%string, [table]).

Definition DBTX_Get (tx : DBTX) (table : bytes) (rec : Row) : res (DBTX * (option Row + gerror)) :=
  '(tx, tdef) ← getTableDef tx table;
  match tdef with
  | None => Ok (tx, inr (table_not_found table))
  | Some tdef => dbGet tx tdef rec
  end.

Definition DBTX_Set (tx : DBTX) (table : bytes) (dbReq : DBUpdateReq)
    : res (DBTX * DBUpdateReq * (bool * option gerror)) :=
  '(tx, tdef) ← getTableDef tx table;
  match tdef with
  | None => Ok (tx, dbReq, (false, Some (table_not_found table)))
  | Some tdef => dbUpdate tx tdef dbReq
  end.

Definition DBTX_Insert (tx : DBTX) (table : bytes) (rec : Row) :=
  DBTX_Set tx table (mkDBUpdateReq rec MODE_INSERT_ONLY false false).
Definition DBTX_Update (tx : DBTX) (table : bytes) (rec : Row) :=
  DBTX_Set tx table (mkDBUpdateReq rec MODE_UPDATE_ONLY false false).
Definition DBTX_Upsert (tx : DBTX) (table : bytes) (rec : Row) :=
  DBTX_Set tx table (mkDBUpdateReq rec MODE_UPSERT false false).

Definition DBTX_Delete (tx : DBTX) (table : bytes) (rec : Row) : res (DBTX * (bool * option gerror)) :=
  '(tx, tdef) ← getTableDef tx table;
  match tdef with
  | None => Ok (tx, (false, Some (table_not_found table)))
  | Some tdef => dbDelete tx tdef rec
  end.

Definition DBTX_Scan (tx : DBTX) (table : bytes) (req : ScanReq) : res (DBTX * (Scanner + gerror)) :=
  '(tx, tdef) ← getTableDef tx table;
  match tdef with
  | None => Ok (tx, inr (table_not_found table))
  | Some tdef => dbScan tx tdef req
  end.

(** [prefix+uint32(i)] for each of [n] indexes. *)
Definition new_prefixes (prefix : Z) (n : nat) : list Z := map (fun i => u32 (prefix + Z.of_nat i)) (seq 0 n).

Definition set_Prefixes (tdef : TableDef) (prefixes : list Z) : TableDef :=
  mkTableDef (td_Name tdef) (td_Types tdef) (td_Cols tdef) (td_Indexes tdef) prefixes.

(** [binary.LittleEndian.PutUint32] on the string of a column.  [unescapeString]
    returns its argument when there is nothing to unescape, so the string of a
    row that was read ([found]), if it has no byte 0 or 1, is not a copy but a
    part of the page the row is in.  A page of the snapshot is mapped with
    PROT_READ, so that writing there is a fault.  A page of the pending tree
    can be written; that the counter then changes there, before [dbUpdate] is
    called, is not modelled: the result is the string of the row only. *)
Definition PutUint32_row (tx : DBTX) (found : bool) (str : bytes) (n : Z) : res bytes :=
  _ ← (if found && (count_byte Byte.x00 str + count_byte Byte.x01 str =? 0) then
         key ← encodeKey [] 1 [mkValue TYPE_BYTES 0 (bytes_of "next_prefix")];
         pending ← Get depth (tx_pending (dt_kv tx)) key;
         match pending with Some _ => Ok tt | None => Panic end
       else Ok tt);
  le_put 4 str 0 n.

Definition TableNew (tx : DBTX) (tdef : TableDef) : res (DBTX * option gerror) :=
  '(tdef, err) ← tableDefChecK tdef;
  match err with
  | Some _ => Ok (tx, err)
  | None =>
      let tableRec := AddStr (mkRow [] []) (bytes_of "name") (td_Name tdef) in
      '(tx, r) ← dbGet tx TDEF_TABLE tableRec;
      match r with
      | inr _ => Panic
      | inl (Some _) => Ok (tx, Some ("table exists: %s"%string, [td_Name tdef]))
      | inl None =>
          let metaRec := AddStr (mkRow [] []) (bytes_of "key") (bytes_of "next_prefix") in
          '(tx, r) ← dbGet tx TDEF_META metaRec;
          '(prefix, metaRec) ←
            match r with
            | inr _ => Panic
            | inl (Some rec) =>
                v ← row_Get rec (bytes_of "val");
                match v with
                | None => Panic
                | Some v =>
                    prefix ← le_get 4 (v_Str v);
                    _ ← assert (TABLE_PREFIX_MIN <? prefix);
                    Ok (prefix, rec)
                end
            | inl None => Ok (TABLE_PREFIX_MIN, AddStr metaRec (bytes_of "val") (make 4))
            end;
          _ ← assert (len (td_Prefixes tdef) =? 0);
          let tdef := set_Prefixes tdef (td_Prefixes tdef ++ new_prefixes prefix (length (td_Indexes tdef))) in
          let nextPrefix := u32 (prefix + u32 (len (td_Indexes tdef))) in
          v ← row_Get metaRec (bytes_of "val");
          match v with
          | None => Panic
          | Some v =>
              let found := match r with inl (Some _) => true | _ => false end in
              str ← PutUint32_row tx found (v_Str v) nextPrefix;
              let metaRec := mkRow (rec_Cols metaRec)
                (<[Z.to_nat (slices_Index (rec_Cols metaRec) (bytes_of "val")) := mkValue (v_Type v) (v_I64 v) str]>
                   (rec_Vals metaRec)) in
              '(tx, _, (_, err)) ← dbUpdate tx TDEF_META (mkDBUpdateReq metaRec MODE_UPSERT false false);
              match err with
              | Some _ => Ok (tx, err)
              | None =>
                  let tableRec := AddStr tableRec (bytes_of "def") (Marshal tdef) in
                  '(tx, _, (_, err)) ← dbUpdate tx TDEF_TABLE (mkDBUpdateReq tableRec MODE_UPSERT false false);
                  Ok (tx, err)
              end
          end
      end
  end.

End db.

(** ** The database *)

Record DB := mkDB { db_kv : KV; db_tables : gmap bytes TableDef }.

Definition db_file (db : DB) : bytes := pg_file (kv_pages (db_kv db)).

Definition db_Begin (db : DB) : DB * DBTX :=
  let '(kv, tx) := kv_Begin (db_kv db) in
  (mkDB kv (db_tables db), mkDBTX tx (db_tables db)).

(** The schemas cached through [tx] stay in the database. *)
Definition db_Abort (db : DB) (tx : DBTX) : res (DB * DBTX) :=
  '(kv, ktx) ← kv_Abort (db_kv db) (dt_kv tx);
  Ok (mkDB kv (dt_tables tx), set_kv tx ktx).
