(* ===== verification/TableFacts.v ===== *)
(** * Updating rows keeps the table and its indexes together

    Proved against the contract of the transaction, [KVPromise]. *)

From S2P Require Import Prelude.
From S2P Require Import GoBytes.
From S2P Require Import KVSpec.
From S2P Require Import BTree.
From S2P Require Import Encode.
From S2P Require Import EncodeFacts.
From S2P Require Import BTreeInsert.
From S2P Require Import QLNode.
From S2P Require Import EvalFacts.
From S2P Require Import Parser.
From S2P Require Import Schema.
From S2P Require Import SchemaFacts.
From S2P Require Import KVTX.
From S2P Require Import KVView.
From S2P Require Import RowFacts.
From S2P Require Import TableSpec.
From S2P Require Import Table.

(** ** Index keys added and removed *)

Definition adds (N : gmap bytes bytes) (keys : list bytes) : gmap bytes bytes := foldl (fun N k => <[k := []]> N) N keys.
Definition dels (N : gmap bytes bytes) (keys : list bytes) : gmap bytes bytes := foldl (fun N k => delete k N) N keys.

Lemma lookup_adds N keys k : adds N keys !! k = if decide (k ∈ keys) then Some [] else N !! k.
Proof.
  revert N. induction keys as [|x keys IH]; intros N; cbn; [by rewrite decide_False by by intros ?%elem_of_nil|].
  fold (adds (<[x := []]> N) keys). rewrite IH. destruct (decide (k ∈ keys)), (decide (k ∈ x :: keys)); try set_solver.
  - assert (k = x) as -> by set_solver. by rewrite lookup_insert_eq.
  - rewrite lookup_insert_ne by set_solver. done.
Qed.

Lemma lookup_dels N keys k : dels N keys !! k = if decide (k ∈ keys) then None else N !! k.
Proof.
  revert N. induction keys as [|x keys IH]; intros N; cbn; [by rewrite decide_False by by intros ?%elem_of_nil|].
  fold (dels (delete x N) keys). rewrite IH. destruct (decide (k ∈ keys)), (decide (k ∈ x :: keys)); try set_solver.
  - assert (k = x) as -> by set_solver. by rewrite lookup_delete_eq.
  - rewrite lookup_delete_ne by set_solver. done.
Qed.

(** The empty table. *)
Lemma empty_stored tdef : stored tdef ∅ ∅.
Proof.
  split; [by apply map_Forall_empty|]. intros key v _. split; [by rewrite lookup_empty|].
  intros [pk rest H|pk rest key' H _]; by rewrite lookup_empty in H.
Qed.

(** A transaction with cached schemas that sees [N]. *)
Definition db_sees `{!KVPromise depth file} (tx : DBTX) (N : gmap bytes bytes) (b : nat) : Prop := kv_sees (dt_kv tx) N b.

(** [tx'] is [tx] after some operations on rows. *)
Definition db_later `{!KVPromise depth file} (tx tx' : DBTX) : Prop :=
  kv_later (dt_kv tx) (dt_kv tx') /\ dt_tables tx' = dt_tables tx.

#[export] Instance db_later_preorder `{!KVPromise depth file} : PreOrder db_later.
Proof.
  split; [by intros tx|]. intros a b c [H1 E1] [H2 E2]. split; [by etransitivity|congruence].
Qed.

Section table.
Context (depth : nat) (file : bytes) `{!KVPromise depth file} (tdef : TableDef) (Hok : table_ok tdef).

Lemma small_nonempty key v : small_kv (key, v) -> small_kv (key, [FLAG_UPDATED]) -> small_kv (key, [FLAG_DELETED]).
Proof using. done. Qed.

(** One step of [indexOp_loop]: the key it computes. *)
Lemma index_step rec vals j key :
  rec_is tdef rec vals -> index_keys tdef vals !! j = Some key ->
  exists idx p vs, index (td_Indexes tdef) (Z.of_nat (S j)) = Ok idx /\ getValues tdef rec idx = Ok (inl vs) /\
    index (td_Prefixes tdef) (Z.of_nat (S j)) = Ok p /\ encodeKey [] p vs = Ok key.
Proof using Hok.
  intros Hrec (idx & p & Hi & Hp & ->)%index_key_lookup.
  destruct (index_at _ Hok _ _ Hi) as [Hs _]. destruct (getValues_rec _ Hok rec vals idx Hrec Hs) as (vs & E & Hn & Hc & _).
  exists idx, p, vs. unfold index. rewrite !(proj2 (Z.leb_le 0 _)) by lia. rewrite Nat2Z.id, Hi, Hp, E.
  split_and!; try done. by rewrite encodeKey_cells, Hn.
Qed.

Lemma drop_index_keys vals j key : index_keys tdef vals !! j = Some key ->
  drop j (index_keys tdef vals) = key :: drop (S j) (index_keys tdef vals).
Proof using. intros. by apply drop_S. Qed.

Lemma length_index_keys vals : length (index_keys tdef vals) = (length (td_Indexes tdef) - 1)%nat.
Proof using Hok.
  destruct (prefix_split _ Hok) as (p & rest & E & _ & _ & _ & _ & Hl). unfold index_keys.
  rewrite length_zip_with, E. cbn [tail]. rewrite Hl. destruct (td_Indexes tdef); cbn; lia.
Qed.

Lemma index_add_loop n j tx rec vals N b :
  rec_is tdef rec vals -> (S j + n = length (td_Indexes tdef))%nat -> db_sees tx N (n + b) ->
  NoDup (drop j (index_keys tdef vals)) ->
  Forall (fun key => small_kv (key, [FLAG_UPDATED]) /\ N !! key = None) (drop j (index_keys tdef vals)) ->
  exists tx', indexOp_loop depth file n (Z.of_nat (S j)) tx tdef INDEX_ADD rec = Ok (tx', None) /\ db_later tx tx' /\
    db_sees tx' (adds N (drop j (index_keys tdef vals))) b.
Proof using Hok.
  intros Hrec. revert j tx N. induction n as [|n IH]; intros j tx N Hn Hsees Hnd Hall; cbn [indexOp_loop].
  { exists tx. rewrite drop_ge by (rewrite length_index_keys; lia). by repeat split. }
  destruct (lookup_lt_is_Some_2 (index_keys tdef vals) j) as [key Hkey]; [rewrite length_index_keys; lia|].
  destruct (index_step rec vals j key Hrec Hkey) as (idx & p & vs & -> & E2 & E3 & E4). step_res. rewrite E2. step_res.
  rewrite E3. step_res. rewrite E4. step_res.
  rewrite (drop_index_keys _ _ _ Hkey) in Hall, Hnd |- *. apply Forall_cons in Hall as [[Hsm Hnone] Hall].
  apply NoDup_cons in Hnd as [Hni Hnd].
  apply index_key_lookup in Hkey as (? & ? & _ & _ & Ek).
  destruct (kv_Update (dt_kv tx) N (n + b) (updateReq key [] MODE_UPSERT) Hsees) as (kv' & req' & E & Hreq & Hl & Hs);
    [subst key; apply key_of_ne|exact Hsm|]. cbn [uq_Key uq_Val uq_Mode updateReq] in *. rewrite Hnone in E, Hreq, Hs.
  change (INDEX_ADD =? INDEX_ADD) with true. cbv iota. rewrite E. step_res. destruct Hreq as (_ & _ & ->). step_res. cbn [kv_err].
  replace (Z.of_nat (S j) + 1) with (Z.of_nat (S (S j))) by lia.
  destruct (IH (S j) (set_kv tx kv') (<[key := []]> N)) as (tx' & -> & Hl' & Hs'); [lia|exact Hs|done| |].
  { rewrite Forall_forall in *. intros k Hk. destruct (Hall k Hk) as [? ?]. split; [done|].
    by rewrite lookup_insert_ne by (by intros ->). }
  exists tx'. split; [done|]. split; [|done]. transitivity (set_kv tx kv'); [by split|done].
Qed.

Lemma index_del_loop n j tx rec vals N b :
  rec_is tdef rec vals -> (S j + n = length (td_Indexes tdef))%nat -> db_sees tx N (n + b) ->
  NoDup (drop j (index_keys tdef vals)) ->
  Forall (fun key => small_kv (key, [FLAG_UPDATED]) /\ is_Some (N !! key)) (drop j (index_keys tdef vals)) ->
  exists tx', indexOp_loop depth file n (Z.of_nat (S j)) tx tdef INDEX_DEL rec = Ok (tx', None) /\ db_later tx tx' /\
    db_sees tx' (dels N (drop j (index_keys tdef vals))) b.
Proof using Hok.
  intros Hrec. revert j tx N. induction n as [|n IH]; intros j tx N Hn Hsees Hnd Hall; cbn [indexOp_loop].
  { exists tx. rewrite drop_ge by (rewrite length_index_keys; lia). by repeat split. }
  destruct (lookup_lt_is_Some_2 (index_keys tdef vals) j) as [key Hkey]; [rewrite length_index_keys; lia|].
  destruct (index_step rec vals j key Hrec Hkey) as (idx & p & vs & -> & E2 & E3 & E4). step_res. rewrite E2. step_res.
  rewrite E3. step_res. rewrite E4. step_res.
  rewrite (drop_index_keys _ _ _ Hkey) in Hall, Hnd |- *. apply Forall_cons in Hall as [[Hsm Hsome] Hall].
  apply NoDup_cons in Hnd as [Hni Hnd].
  apply index_key_lookup in Hkey as (? & ? & _ & _ & Ek).
  destruct (kv_Del (dt_kv tx) N (n + b) (mkDeleteReq key []) Hsees) as (kv' & E & Hl & Hs);
    [subst key; apply key_of_ne|exact Hsm|]. cbn [dq_Key] in *. rewrite bool_decide_true in E by done.
  change (INDEX_DEL =? INDEX_ADD) with false. change (INDEX_DEL =? INDEX_DEL) with true. cbv iota. rewrite E. step_res.
  cbn [kv_err]. replace (Z.of_nat (S j) + 1) with (Z.of_nat (S (S j))) by lia.
  destruct (IH (S j) (set_kv tx kv') (delete key N)) as (tx' & -> & Hl' & Hs'); [lia|exact Hs|done| |].
  { rewrite Forall_forall in *. intros k Hk. destruct (Hall k Hk) as [? ?]. split; [done|].
    by rewrite lookup_delete_ne by (by intros ->). }
  exists tx'. split; [done|]. split; [|done]. transitivity (set_kv tx kv'); [by split|done].
Qed.

Lemma indexOp_add tx rec vals N b :
  rec_is tdef rec vals -> db_sees tx N (length (td_Indexes tdef) - 1 + b) ->
  Forall (fun key => small_kv (key, [FLAG_UPDATED]) /\ N !! key = None) (index_keys tdef vals) ->
  exists tx', indexOp depth file tx tdef INDEX_ADD rec = Ok (tx', None) /\ db_later tx tx' /\
    db_sees tx' (adds N (index_keys tdef vals)) b.
Proof using Hok.
  intros Hrec Hs Hall. apply (index_add_loop _ 0); [done| |done|by apply index_keys_nodup|done].
  destruct (td_split _ Hok) as (pk & rest & -> & _). cbn. lia.
Qed.

Lemma indexOp_del tx rec vals N b :
  rec_is tdef rec vals -> db_sees tx N (length (td_Indexes tdef) - 1 + b) ->
  Forall (fun key => small_kv (key, [FLAG_UPDATED]) /\ is_Some (N !! key)) (index_keys tdef vals) ->
  exists tx', indexOp depth file tx tdef INDEX_DEL rec = Ok (tx', None) /\ db_later tx tx' /\
    db_sees tx' (dels N (index_keys tdef vals)) b.
Proof using Hok.
  intros Hrec Hs Hall. apply (index_del_loop _ 0); [done| |done|by apply index_keys_nodup|done].
  destruct (td_split _ Hok) as (pk & rest & -> & _). cbn. lia.
Qed.

(** ** The map of pairs after an update *)

(** Without the entries of the row with the key [pk], if there is one. *)
Definition without (T : table) (pk : list Value) (N : gmap bytes bytes) : gmap bytes bytes :=
  match T !! pk with Some old => dels N (index_keys tdef (pk ++ old)) | None => N end.

Definition updated (T : table) (pk rest : list Value) (N : gmap bytes bytes) : gmap bytes bytes :=
  adds (without T pk (<[row_key tdef (pk ++ rest) := row_val tdef (pk ++ rest)]> N)) (index_keys tdef (pk ++ rest)).

Definition removed (T : table) (pk : list Value) (N : gmap bytes bytes) : gmap bytes bytes :=
  match T !! pk with
  | Some old => dels (delete (row_key tdef (pk ++ old)) N) (index_keys tdef (pk ++ old))
  | None => N
  end.

Lemma row_key_pk pk rest rest' : length pk = npk tdef -> row_key tdef (pk ++ rest) = row_key tdef (pk ++ rest').
Proof using. intros Hl. unfold row_key. by rewrite <- Hl, !take_app_length. Qed.

(** No other row has an index key of [pk ++ rest]. *)
Lemma new_keys_fresh T N pk rest v :
  stored tdef T N -> row_ok tdef (pk ++ rest) -> length pk = npk tdef ->
  Forall (fun key => without T pk (<[row_key tdef (pk ++ rest) := v]> N) !! key = None) (index_keys tdef (pk ++ rest)).
Proof using Hok.
  intros [HT HN] [Ht _] Hl. apply Forall_forall. intros key Hk. unfold without.
  assert (<[row_key tdef (pk ++ rest) := v]> N !! key = N !! key) as HN1.
  { rewrite lookup_insert_ne; [done|]. intros <-. by eapply row_key_not_index. }
  assert (forall w, N !! key = Some w -> exists old, T !! pk = Some old /\ key ∈ index_keys tdef (pk ++ old)) as Hold.
  { intros w Hw%HN; [|by eapply index_key_table]. destruct Hw as [pk' rest' H|pk' rest' key H Hk'].
    { by eapply row_key_not_index in Hk. }
    destruct (take_row _ _ _ _ HT H) as [Hpk' Ht']. apply list_elem_of_lookup in Hk as [i Hi].
    pose proof Hk' as [j Hj]%list_elem_of_lookup.
    destruct (index_key_inj _ Hok _ _ _ _ _ Ht Ht' Hi Hj) as [_ E]. rewrite Hpk', <- Hl, take_app_length in E.
    subst pk'. by exists rest'. }
  destruct (T !! pk) as [old|] eqn:E.
  - rewrite lookup_dels. case_decide as Hd; [done|]. rewrite HN1. destruct (N !! key) as [w|] eqn:Hw; [|done].
    destruct (Hold w eq_refl) as (old' & [= <-] & Hin). done.
  - rewrite HN1. destruct (N !! key) as [w|] eqn:Hw; [|done]. by destruct (Hold w eq_refl) as (? & ? & _).
Qed.

Lemma old_keys_there T N pk old :
  stored tdef T N -> T !! pk = Some old -> Forall (fun key => N !! key = Some []) (index_keys tdef (pk ++ old)).
Proof using.
  intros [HT HN] Hold. apply Forall_forall. intros key Hk. apply HN; [by eapply index_key_table|].
  by eapply entry_index.
Qed.

(** Before the index keys are added. *)
Lemma lookup_base T N pk rest key v :
  stored tdef T N -> row_ok tdef (pk ++ rest) -> length pk = npk tdef -> table_key tdef key ->
  without T pk (<[row_key tdef (pk ++ rest) := row_val tdef (pk ++ rest)]> N) !! key = Some v <->
  (key = row_key tdef (pk ++ rest) /\ v = row_val tdef (pk ++ rest)) \/ entry tdef (delete pk T) key v.
Proof using Hok.
  intros Hst Hrow Hl Hkey. pose proof Hst as [HT HN]. unfold without. destruct (T !! pk) as [old|] eqn:E.
  - rewrite (entry_delete _ Hok T pk old), <- HN, <- (row_key_pk pk rest old), lookup_dels, lookup_insert by done.
    pose proof (row_key_not_index _ Hok (pk ++ rest) (pk ++ old)) as Hno. case_decide as Hin.
    + split; [done|]. intros [[-> _]|(_ & _ & Hn)]; done.
    + case_decide as He; [subst key|]; naive_solver.
  - rewrite delete_id, <- HN, lookup_insert by done. case_decide as He; [subst key|naive_solver].
    pose proof (stored_row _ Hok T N pk rest Hst Hrow Hl) as Hr. rewrite E in Hr. naive_solver.
Qed.

Lemma stored_updated T N pk rest :
  stored tdef T N -> row_ok tdef (pk ++ rest) -> length pk = npk tdef ->
  stored tdef (<[pk := rest]> T) (updated T pk rest N).
Proof using Hok.
  intros Hst Hrow Hl. pose proof Hst as [HT HN]. split; [by apply map_Forall_insert_2|].
  intros key v Hkey. rewrite entry_insert. unfold updated. rewrite lookup_adds.
  pose proof (lookup_base T N pk rest key v Hst Hrow Hl Hkey) as Hb.
  pose proof (row_key_not_index _ Hok (pk ++ rest) (pk ++ rest)) as Hni.
  pose proof (new_keys_fresh T N pk rest (row_val tdef (pk ++ rest)) Hst Hrow Hl) as Hf. rewrite Forall_forall in Hf.
  case_decide as Hin; [|naive_solver]. rewrite (Hf key Hin) in Hb. split; [naive_solver|].
  intros [[-> _]|[[_ ->]|He]]; [done..|]. exfalso. assert (@None bytes = Some v) by (apply Hb; by right). done.
Qed.

Lemma stored_removed T N pk :
  stored tdef T N -> stored tdef (delete pk T) (removed T pk N).
Proof using Hok.
  intros [HT HN]. unfold removed. destruct (T !! pk) as [old|] eqn:E.
  - split; [by apply map_Forall_delete|]. intros key v Hkey. rewrite (entry_delete _ Hok T pk old) by done.
    rewrite <- HN, lookup_dels, lookup_delete by done. repeat case_decide; naive_solver.
  - rewrite delete_id by done. by split.
Qed.

(** Keys of other tables stay. *)
Lemma updated_other T pk rest N key : ~ table_key tdef key -> updated T pk rest N !! key = N !! key.
Proof using Hok.
  intros Hn. assert (forall vals, key ∉ index_keys tdef vals) as Hi by by (intros vals ?%index_key_table).
  assert (row_key tdef (pk ++ rest) <> key) as Hr by (intros <-; apply Hn; by apply row_key_table).
  unfold updated, without. rewrite lookup_adds, decide_False by done.
  destruct (T !! pk); [rewrite lookup_dels, decide_False by done|]; by rewrite lookup_insert_ne.
Qed.

Lemma removed_other T pk N key : ~ table_key tdef key -> removed T pk N !! key = N !! key.
Proof using Hok.
  intros Hn. unfold removed. destruct (T !! pk) as [old|]; [|done]. rewrite lookup_dels, decide_False.
  - rewrite lookup_delete_ne; [done|]. intros <-. apply Hn. by apply row_key_table.
  - by intros ?%index_key_table.
Qed.

End table.
