(* ===== verification/TableUpdate.v ===== *)
(** * [dbUpdate] and [dbDelete] are insertion and deletion of rows *)

From S2P Require Import Prelude.
From S2P Require Import GoBytes.
From S2P Require Import KVSpec.
From S2P Require Import BTree.
From S2P Require Import Encode.
From S2P Require Import EncodeFacts.
From S2P Require Import BTreeInsert.
From S2P Require Import QLNode.
From S2P Require Import EvalFacts.
From S2P Require Import Parser.
From S2P Require Import Schema.
From S2P Require Import SchemaFacts.
From S2P Require Import KVTX.
From S2P Require Import KVView.
From S2P Require Import RowFacts.
From S2P Require Import TableSpec.
From S2P Require Import Table.
From S2P Require Import TableFacts.

Lemma assoc_norm cols vals c : assoc cols (norm <$> vals) c = norm <$> assoc cols vals c.
Proof.
  revert vals. induction cols as [|x cols IH]; intros [|v vals]; try done. cbn. by destruct (decide (x = c)).
Qed.

Lemma cell_of_norm v : value_ok (norm v) -> cell_ok v.
Proof.
  unfold norm, value_ok, cell_ok. destruct (Z.eqb_spec (v_Type v) TYPE_INT64) as [E|E]; cbn; intros [H|H]; intuition.
Qed.

(** [Update] on rows: what [UpdateReq] says of keys. *)
Definition row_duplicate (mode : Z) (old : option (list Value)) : bool :=
  (mode =? MODE_INSERT_ONLY) && bool_decide (is_Some old).
Definition row_changed (mode : Z) (rest : list Value) (old : option (list Value)) : bool :=
  negb (row_duplicate mode old) && negb ((mode =? MODE_UPDATE_ONLY) && bool_decide (old = None)) &&
  bool_decide (old <> Some rest).

Section update.
Context (depth : nat) (file : bytes) `{!KVPromise depth file} (tdef : TableDef) (Hok : table_ok tdef).

(** A record in the order of [all_cols]. *)
Lemma rec_of_row ws vals :
  norm <$> ws = vals -> typed tdef (all_cols tdef) vals -> rec_is tdef (mkRow (all_cols tdef) ws) vals.
Proof using Hok.
  intros <- Ht. pose proof (Forall2_length _ _ _ Ht) as Hl. rewrite length_fmap in Hl. split; [done|].
  split; [by rewrite length_fmap|]. intros c Hc. apply (all_cols_in tdef Hok) in Hc.
  destruct (typed_assoc _ _ _ c Ht Hc) as (v & Ev & Hv & Hty). rewrite assoc_norm in Ev |- *. cbn [rec_Cols rec_Vals].
  destruct (assoc (all_cols tdef) ws c) as [w|]; [|done]. injection Ev as <-. exists w. rewrite norm_type in Hty.
  split_and!; try done. by apply cell_of_norm.
Qed.

(** The values of a full record, split into the key and the rest. *)
Lemma getValues_all rec vals :
  rec_is tdef rec vals -> exists vs, getValues tdef rec (all_cols tdef) = Ok (inl vs) /\ norm <$> vs = vals /\
    Forall cell_ok vs /\ index (td_Indexes tdef) 0 = Ok (pk_cols tdef) /\ index (td_Prefixes tdef) 0 = Ok (row_prefix tdef) /\
    encodeKey [] (row_prefix tdef) (take (npk tdef) vs) = Ok (row_key tdef vals) /\
    encodeValues [] (drop (npk tdef) vs) = Ok (row_val tdef vals).
Proof using Hok.
  intros Hrec. destruct (getValues_rec tdef Hok rec vals (all_cols tdef) Hrec) as (vs & E & Hn & Hc & _).
  { intros c Hc. by apply (all_cols_in tdef Hok). }
  destruct Hrec as (_ & Hl & _). rewrite project_all in Hn by done. exists vs. split; [done|]. split; [done|]. split; [done|].
  destruct (td_split _ Hok) as (pk & rest & Ei & Epk & _). destruct (prefix_split _ Hok) as (p & ps & Ep & Erp & _).
  rewrite Ei, Epk, Ep, Erp. split; [done|]. split; [done|]. unfold row_key, row_val. rewrite Erp, <- Hn, <- fmap_take, <- fmap_drop.
  split; [apply encodeKey_cells|apply encodeValues_cells]; [by apply Forall_take|by apply Forall_drop].
Qed.

Lemma row_val_eq T N pk rest old :
  stored tdef T N -> row_ok tdef (pk ++ rest) -> length pk = npk tdef -> T !! pk = Some old ->
  row_val tdef (pk ++ old) = row_val tdef (pk ++ rest) <-> old = rest.
Proof using.
  intros [HT _] [Ht _] Hl Hold. split; [|by intros ->]. destruct (HT _ _ Hold) as [_ [Ht' _]].
  unfold row_val. rewrite <- Hl, !drop_app_length. unfold all_cols in Ht, Ht'.
  apply typed_app in Ht as [_ Ht], Ht' as [_ Ht']. unfold npk in Hl. rewrite <- Hl, !drop_app_length in *.
  by apply (typed_enc_inj tdef (filter (fun c => slices_Index (pk_cols tdef) c < 0) (td_Cols tdef))).
Qed.

(** The answer for keys is the answer for rows. *)
Lemma upd_row T N pk rest mode :
  stored tdef T N -> row_ok tdef (pk ++ rest) -> length pk = npk tdef ->
  let old := N !! row_key tdef (pk ++ rest) in
  upd_duplicate mode old = row_duplicate mode (T !! pk) /\
  upd_changed mode (row_val tdef (pk ++ rest)) old = row_changed mode rest (T !! pk) /\
  bool_decide (old = None) = bool_decide (T !! pk = None).
Proof using Hok.
  intros Hst Hrow Hl old. pose proof (stored_row _ Hok T N pk rest Hst Hrow Hl) as E. fold old in E.
  unfold upd_duplicate, upd_changed, row_duplicate, row_changed, upd_duplicate, row_duplicate.
  destruct (T !! pk) as [o|] eqn:Eo; cbn in E; rewrite E; cbn.
  - pose proof (row_val_eq T N pk rest o Hst Hrow Hl Eo) as Hv.
    assert (bool_decide (Some (row_val tdef (pk ++ o)) <> Some (row_val tdef (pk ++ rest))) = bool_decide (Some o <> Some rest))
      as -> by (apply bool_decide_ext; naive_solver).
    done.
  - done.
Qed.

(** The old row is decoded and its index keys are deleted. *)
Lemma delete_old tx N N1 T vs pk rest old b :
  stored tdef T N -> T !! pk = Some old -> norm <$> vs = pk ++ rest -> row_ok tdef (pk ++ rest) -> length pk = npk tdef ->
  (forall key, key ∈ index_keys tdef (pk ++ old) -> N1 !! key = N !! key) ->
  db_sees tx N1 (length (td_Indexes tdef) - 1 + b) ->
  exists tx', (o ← decodeValues (row_val tdef (pk ++ old)) (drop (npk tdef) vs);
      indexOp depth file tx tdef INDEX_DEL (mkRow (all_cols tdef) (take (npk tdef) vs ++ o))) = Ok (tx', None) /\
    db_later tx tx' /\ db_sees tx' (dels N1 (index_keys tdef (pk ++ old))) b.
Proof using Hok.
  intros Hst Hold Hn [Ht _] Hl HN1 Hsees. pose proof Hst as [HT _]. destruct (HT _ _ Hold) as [_ [Hto [_ Hsm]]].
  pose proof Ht as Htr. pose proof Hto as Hor. unfold all_cols in Htr, Hor.
  apply typed_app in Htr as [_ Htr], Hor as [_ Hor]. change (length (pk_cols tdef)) with (npk tdef) in *.
  rewrite <- Hl, !drop_app_length in *.
  destruct (decodeValues_types old (drop (length pk) vs)) as (rs & E & Hrs & _).
  { by eapply typed_values. }
  { assert (drop (length pk) (norm <$> vs) = rest) as Hd by (by rewrite Hn, drop_app_length).
    rewrite <- fmap_drop in Hd. revert Hor Htr. rewrite <- Hd. generalize (drop (length pk) vs) as ws.
    generalize (filter (fun c => slices_Index (pk_cols tdef) c < 0) (td_Cols tdef)) as cols. clear.
    intros cols ws Ho. revert ws. induction Ho as [|c v cols os [_ Hv] _ IH]; intros [|w ws] Hw; inversion Hw as [|? ? ? ? [_ Hw1] Hw2];
      subst; constructor; [rewrite norm_type in Hw1; congruence|by apply IH]. }
  unfold row_val. rewrite <- Hl, drop_app_length, E. step_res.
  apply (indexOp_del depth file tdef Hok tx _ (pk ++ old) N1); [|done|].
  - apply rec_of_row; [|done]. rewrite fmap_app, fmap_take, Hn, take_app_length. by rewrite Hrs.
  - pose proof (old_keys_there tdef T N pk old Hst Hold) as Hthere. rewrite Forall_forall in *. intros key Hk.
    split; [by apply Hsm|]. rewrite HN1 by done. rewrite (Hthere key Hk). done.
Qed.

(** The answer of [dbUpdate]. *)
Definition update_result (mode : Z) (rest : list Value) (old : option (list Value)) : bool * option gerror :=
  (row_changed mode rest old, if row_duplicate mode old then Some ("insert duplicate key"%string, []) else None).

Lemma dbUpdate_ok tx N T req vals b (pk := take (npk tdef) vals) (rest := drop (npk tdef) vals)
    (changed := row_changed (dr_Mode req) rest (T !! pk)) :
  db_sees tx N (2 * length (td_Indexes tdef) + b) -> stored tdef T N -> rec_is tdef (dr_Record req) vals ->
  row_ok tdef vals ->
  exists tx' req' N',
    dbUpdate depth file tx tdef req = Ok (tx', req', update_result (dr_Mode req) rest (T !! pk)) /\
    (row_duplicate (dr_Mode req) (T !! pk) = false ->
       dr_Updated req' = changed /\ dr_Added req' = changed && bool_decide (T !! pk = None)) /\
    db_later tx tx' /\ db_sees tx' N' b /\ stored tdef (if changed then <[pk := rest]> T else T) N' /\
    (forall key, ~ table_key tdef key -> N' !! key = N !! key).
Proof using Hok.
  intros Hsees Hst Hrec Hrow. pose proof Hrow as [Ht [Hsm Hsmi]].
  assert (vals = pk ++ rest) as Evals by (symmetry; apply take_drop).
  assert (length pk = npk tdef) as Hl.
  { unfold pk. rewrite length_take, <- (Forall2_length _ _ _ Ht). unfold all_cols, npk. rewrite length_app. lia. }
  destruct (getValues_all _ _ Hrec) as (vs & Egv & Hn & Hc & E0 & E1 & Ek & Ev).
  unfold dbUpdate. rewrite (row_cols_ok _ Hok). step_res. rewrite Egv. step_res. rewrite E0. step_res. cbv zeta.
  rewrite E1. step_res. fold (npk tdef). rewrite Ek. step_res. rewrite Ev. step_res.
  set (m := (length (td_Indexes tdef) - 1)%nat).
  assert (2 * length (td_Indexes tdef) + b = S (S (m + (m + b))))%nat as Em.
  { destruct (td_split _ Hok) as (? & ? & Ei & _). unfold m. rewrite Ei. cbn. lia. }
  rewrite Em in Hsees. apply (kv_sees_weaken _ _ _ (S (m + (m + b)))) in Hsees; [|lia].
  destruct (kv_Update (dt_kv tx) N _ (updateReq (row_key tdef vals) (row_val tdef vals) (dr_Mode req)) Hsees) as
    (kv' & ureq & E & Hreq & Hlater & Hs); [apply key_of_ne|exact Hsm|].
  cbn [uq_Key uq_Val uq_Mode updateReq] in *. rewrite Evals in E, Hreq, Hs.
  rewrite Evals in Hrow. destruct (upd_row T N pk rest (dr_Mode req) Hst Hrow Hl) as (Hdup & Hch & Hnone).
  rewrite Hdup, Hch in *. rewrite Hnone in Hreq. fold changed in E, Hreq, Hs. rewrite Evals, E. step_res.
  unfold update_result. fold changed.
  destruct (row_duplicate (dr_Mode req) (T !! pk)) eqn:Ed.
  { assert (changed = false) as Ec by (unfold changed, row_changed; by rewrite Ed). rewrite Ec in *.
    exists (set_kv tx kv'), req, N. split; [done|]. split; [done|]. split; [by split|].
    split; [eapply kv_sees_weaken; [exact Hs|lia]|]. by split. }
  destruct changed eqn:Ec.
  2:{ subst ureq. cbn [uq_Updated uq_Added updateReq andb]. step_res.
    eexists (set_kv tx kv'), _, N. split; [reflexivity|]. split; [done|]. split; [by split|].
    split; [eapply kv_sees_weaken; [exact Hs|lia]|]. by split. }
  destruct Hreq as (Hold & -> & ->). cbn [andb].
  pose proof (new_keys_fresh tdef Hok T N pk rest (row_val tdef (pk ++ rest)) Hst Hrow Hl) as Hfresh.
  set (N1 := <[row_key tdef (pk ++ rest) := row_val tdef (pk ++ rest)]> N) in *.
  assert (exists tx1, (if negb (bool_decide (T !! pk = None)) then
      old ← decodeValues (uq_Old ureq) (drop (npk tdef) vs);
      indexOp depth file (set_kv tx kv') tdef INDEX_DEL (mkRow (all_cols tdef) (take (npk tdef) vs ++ old))
    else Ok (set_kv tx kv', None)) = Ok (tx1, None) /\ db_later tx tx1 /\ db_sees tx1 (without tdef T pk N1) (m + b))
    as (tx1 & -> & Hl1 & Hs1).
  { unfold without. destruct (T !! pk) as [old|] eqn:E3.
    - rewrite bool_decide_false by done. cbn [negb]. rewrite Hold.
      rewrite (stored_row _ Hok T N pk rest Hst Hrow Hl), E3. cbn [fmap option_fmap option_map default].
      destruct (delete_old (set_kv tx kv') N N1 T vs pk rest old (m + b) Hst E3) as (tx1 & E4 & Hl1 & Hs1);
        [by rewrite Hn|done|done| |exact Hs|].
      { intros key Hk. unfold N1. rewrite lookup_insert_ne; [done|]. intros <-. by eapply row_key_not_index. }
      exists tx1. split; [exact E4|]. split; [|done]. transitivity (set_kv tx kv'); [by split|done].
    - rewrite bool_decide_true by done. exists (set_kv tx kv'). split; [done|]. split; [by split|].
      eapply kv_sees_weaken; [exact Hs|lia]. }
  step_res. cbn [dr_Record]. rewrite Evals in Hrec.
  destruct (indexOp_add depth file tdef Hok tx1 (dr_Record req) (pk ++ rest) (without tdef T pk N1) b Hrec Hs1)
    as (tx2 & -> & Hl2 & Hs2).
  { rewrite Evals in Hsmi. rewrite Forall_forall in *. auto. }
  step_res. eexists tx2, _, (updated tdef T pk rest N). split; [reflexivity|]. split; [by intros _|].
  split; [by transitivity tx1|]. split; [exact Hs2|]. split; [by apply stored_updated|]. by apply updated_other.
Qed.

(** ** Deleting *)

Lemma getValues_types rec cols vs :
  getValues tdef rec cols = Ok (inl vs) -> Forall2 (fun c v => col_type tdef c = Some (v_Type v)) cols vs.
Proof using.
  revert vs. induction cols as [|c cols IH]; intros vs; cbn [getValues]; [intros [= <-]; constructor|].
  intros E. apply res_bind_Ok in E as (v & _ & E). destruct v as [v|]; [|done].
  apply res_bind_Ok in E as (t & Ht & E). destruct (Z.eqb_spec (v_Type v) t) as [Hv|]; [|done]. cbn [negb] in E.
  apply res_bind_Ok in E as (r & Hr & E). destruct r as [r|]; [|done]. injection E as <-. constructor; [|by apply IH].
  unfold col_type, index in *. destruct (0 <=? _); [|done]. destruct (td_Types tdef !! _); [|done].
  injection Ht as ->. by rewrite Hv.
Qed.

Lemma typed_norm cols vs :
  Forall2 (fun c v => col_type tdef c = Some (v_Type v)) cols vs -> Forall cell_ok vs -> typed tdef cols (norm <$> vs).
Proof using.
  intros Ht Hc. induction Ht as [|c v cols vs Hv _ IH]; [constructor|]. apply Forall_cons in Hc as [Hcv Hc]. constructor.
  - split; [by apply norm_ok|]. by rewrite norm_type.
  - by apply IH.
Qed.

(** The pair of the row with the primary key [pk]. *)
Lemma stored_pk T N pk :
  stored tdef T N -> typed tdef (pk_cols tdef) pk -> N !! key_of (row_prefix tdef) pk = enc <$> T !! pk.
Proof using Hok.
  intros [HT HN] Ht. pose proof (Forall2_length _ _ _ Ht) as Hl. change (length (pk_cols tdef)) with (npk tdef) in Hl.
  assert (forall rest, row_key tdef (pk ++ rest) = key_of (row_prefix tdef) pk) as Hk.
  { intros rest. unfold row_key. by rewrite Hl, take_app_length. }
  apply option_eq. intros v. rewrite HN by (rewrite <- (Hk []); by apply row_key_table). split.
  - intros He. remember (key_of (row_prefix tdef) pk) as key eqn:Ek. destruct He as [pk' rest' H|pk' rest' key H Hin].
    + destruct (take_row _ _ _ _ HT H) as [Hpk' Htr]. destruct (HT _ _ H) as [Hl' _].
      apply key_of_inj in Ek as [_ Ek]; [|eapply prefix_at; [done|by apply row_prefix_at]..].
      rewrite Hpk' in Ek. unfold all_cols in Htr. apply typed_app in Htr as [Htr _].
      change (length (pk_cols tdef)) with (npk tdef) in Htr. rewrite Hpk' in Htr.
      apply (typed_enc_inj tdef (pk_cols tdef)) in Ek; [|done..]. subst pk'. rewrite H. cbn. unfold row_val.
      by rewrite Hl, drop_app_length.
    + rewrite <- (Hk []) in Hin. by apply row_key_not_index in Hin.
  - destruct (T !! pk) as [old|] eqn:E; [|done]. cbn. intros [= <-]. rewrite <- (Hk old).
    replace (enc old) with (row_val tdef (pk ++ old)) by (unfold row_val; by rewrite Hl, drop_app_length).
    by apply entry_row.
Qed.

Lemma blank_values_ok cols : cols ⊆ td_Cols tdef ->
  exists bs, blank_values tdef cols = Ok bs /\ Forall2 (fun c v => col_type tdef c = Some (v_Type v)) cols bs.
Proof using Hok.
  induction cols as [|c cols IH]; intros Hs; cbn [blank_values]; [by exists []|].
  destruct (col_type_some tdef Hok c) as (t & Ht & _ & ->); [apply Hs; set_solver|]. step_res.
  destruct IH as (bs & -> & Hbs); [set_solver|]. step_res. eexists. split; [done|]. by constructor.
Qed.

Definition rest_cols : list bytes := filter (fun c => slices_Index (pk_cols tdef) c < 0) (td_Cols tdef).

Lemma dbDelete_ok tx N T rec vs b (pk := norm <$> vs) :
  db_sees tx N (length (td_Indexes tdef) + b) -> stored tdef T N ->
  getValues tdef rec (pk_cols tdef) = Ok (inl vs) -> Forall cell_ok vs ->
  small_kv (key_of (row_prefix tdef) pk, [FLAG_DELETED]) -> td_Cols tdef = all_cols tdef ->
  exists tx' N', dbDelete depth file tx tdef rec = Ok (tx', (bool_decide (is_Some (T !! pk)), None)) /\
    db_later tx tx' /\ db_sees tx' N' b /\ stored tdef (delete pk T) N' /\
    (forall key, ~ table_key tdef key -> N' !! key = N !! key).
Proof using Hok.
  intros Hsees Hst Egv Hc Hsm Hfirst. assert (typed tdef (pk_cols tdef) pk) as Ht by
    (apply typed_norm; [by eapply getValues_types|done]).
  destruct (td_split _ Hok) as (pkc & idxs & Ei & Epk & _). destruct (prefix_split _ Hok) as (p & ps & Ep & Erp & _).
  unfold dbDelete. rewrite Ei. change (index (pkc :: idxs) 0) with (Ok pkc). step_res. rewrite <- Epk, Egv. step_res.
  rewrite Ep. change (index (p :: ps) 0) with (Ok p). step_res. rewrite encodeKey_cells by done. step_res.
  rewrite <- Erp. fold pk. rewrite Ei in Hsees. cbn [length] in Hsees.
  destruct (kv_Del (dt_kv tx) N (length idxs + b) (mkDeleteReq (key_of (row_prefix tdef) pk) []) Hsees) as (kv' & E & Hl & Hs);
    [apply key_of_ne|exact Hsm|].
  cbn [dq_Key] in *. rewrite (stored_pk T N pk Hst Ht) in E. rewrite E. step_res. cbv zeta.
  pose proof (stored_removed tdef Hok T N pk Hst) as Hst'.
  assert (forall key, ~ table_key tdef key -> removed tdef T pk N !! key = N !! key) as Hother by
    (intros key; by apply removed_other).
  unfold removed in Hst', Hother. destruct (T !! pk) as [old|] eqn:Eold; cbn [fmap option_fmap option_map].
  2:{ rewrite bool_decide_false by by intros []. cbn [negb kv_err]. exists (set_kv tx kv'), N. split; [done|].
    split; [by split|]. split; [|by split]. eapply kv_sees_weaken; [|by apply Nat.le_add_l].
    rewrite delete_id in Hs; [exact Hs|]. by rewrite (stored_pk T N pk Hst Ht), Eold. }
  rewrite bool_decide_true by eauto. cbn [negb dq_Old]. pose proof Hst as [HT _].
  destruct (HT _ _ Eold) as [Hlpk [Hto [_ Hsmi]]]. destruct (take_row _ _ _ _ HT Eold) as [Htk _].
  assert (nonPrimaryKeyCols tdef = Ok rest_cols) as ->.
  { unfold nonPrimaryKeyCols, rest_cols. rewrite Ei, Epk. change (index (pkc :: idxs) 0) with (Ok pkc). step_res.
    by destruct (td_Cols tdef). }
  step_res. destruct (blank_values_ok rest_cols) as (bs & -> & Hbs); [intros c [_ ?]%list_elem_of_filter; done|]. step_res.
  pose proof Hto as Hor. unfold all_cols in Hor. apply typed_app in Hor as [_ Hor]. fold rest_cols in Hor.
  change (length (pk_cols tdef)) with (npk tdef) in Hor. rewrite <- Hlpk, drop_app_length in Hor.
  destruct (decodeValues_types old bs) as (rs & -> & Hrs & _).
  { by eapply typed_values. }
  { revert bs Hbs Hor. generalize rest_cols as cols. clear. intros cols bs Hbs Ho. revert bs Hbs.
    induction Ho as [|c v cols os [_ Hv] _ IH]; intros [|w ws] Hw; inversion Hw; subst; constructor; [congruence|by apply IH]. }
  step_res. rewrite Hfirst.
  assert (row_key tdef (pk ++ old) = key_of (row_prefix tdef) pk) as Hrk by (unfold row_key; by rewrite Htk).
  rewrite Hrk in Hst', Hother.
  destruct (indexOp_del depth file tdef Hok (set_kv tx kv') (mkRow (all_cols tdef) (vs ++ rs)) (pk ++ old)
    (delete (key_of (row_prefix tdef) pk) N) b) as (tx' & -> & Hl' & Hs').
  - apply rec_of_row; [|done]. by rewrite fmap_app, Hrs.
  - rewrite Ei. cbn. rewrite Nat.sub_0_r. exact Hs.
  - pose proof (old_keys_there tdef T N pk old Hst Eold) as Hthere. rewrite Forall_forall in *. intros key Hk.
    split; [by apply Hsmi|]. rewrite lookup_delete_ne; [rewrite (Hthere key Hk); done|].
    rewrite <- Hrk. intros <-. by eapply row_key_not_index.
  - step_res. exists tx', (dels (delete (key_of (row_prefix tdef) pk) N) (index_keys tdef (pk ++ old))).
    split; [done|]. split; [transitivity (set_kv tx kv'); [by split|done]|]. by split_and!.
Qed.

End update.
