(* ===== verification/TableProps.v ===== *)
(** * Properties of [dbUpdate], [dbGet] and [dbDelete]

    Updating and deleting rows refines insertion into and deletion from a map
    of rows, and keeps the secondary indexes in step; bad records. *)

From S2P Require Import Prelude.
From S2P Require Import GoBytes.
From S2P Require Import KVSpec.
From S2P Require Import BSplitFacts.
From S2P Require Import BTree.
From S2P Require Import BTreeRep.
From S2P Require Import Encode.
From S2P Require Import EncodeFacts.
From S2P Require Import BTreeInsert.
From S2P Require Import QLNode.
From S2P Require Import EvalFacts.
From S2P Require Import Parser.
From S2P Require Import Schema.
From S2P Require Import SchemaFacts.
From S2P Require Import KVTX.
From S2P Require Import KVTXProps.
From S2P Require Import KVView.
From S2P Require Import RowFacts.
From S2P Require Import TableSpec.
From S2P Require Import Table.
From S2P Require Import TableFacts.
From S2P Require Import TableUpdate.

(** What is wrong with a column of a record. *)
Definition bad_col (tdef : TableDef) (rec : Row) (c : bytes) : option gerror :=
  match assoc (rec_Cols rec) (rec_Vals rec) c with
  | None => Some ("missing column: %s"%string, [c])
  | Some v => if decide (col_type tdef c = Some (v_Type v)) then None else Some ("bad column type: %s"%string, [c])
  end.

Definition first_bad (tdef : TableDef) (rec : Row) (cols : list bytes) : option gerror := head (omap (bad_col tdef rec) cols).

Lemma getValues_bad tdef rec cols e :
  table_ok tdef -> length (rec_Cols rec) = length (rec_Vals rec) -> cols ⊆ td_Cols tdef ->
  first_bad tdef rec cols = Some e -> getValues tdef rec cols = Ok (inr e).
Proof.
  intros Hok Hl. unfold first_bad. induction cols as [|c cols IH]; intros Hs; [done|]. cbn [omap list_omap getValues].
  rewrite row_Get_assoc by done. step_res. unfold bad_col at 1. destruct (assoc _ _ c) as [v|]; [|by intros [= <-]].
  destruct (col_type_some tdef Hok c) as (t & Ht & _ & ->); [set_solver|]. step_res.
  destruct (Z.eqb_spec (v_Type v) t) as [->|Hne]; cbn [negb].
  - rewrite decide_True by done. intros E. rewrite IH by (done || set_solver). done.
  - rewrite decide_False by congruence. by intros [= <-].
Qed.

Section props.
Context (depth : nat) (file : bytes) `{!KVPromise depth file} (tdef : TableDef) (Hok : table_ok tdef).

(** C9.  [dbUpdate] refines insertion into the map [T] from primary keys to
    rows. Given a record with a value of the right type for every column, whose
    encoded key and value, and each of whose index keys, have at most 277 bytes
    ([row_ok]; a longer row may be refused, or panic in [nodeSplit3]), it
    succeeds or reports a duplicate exactly as the mode asks: an insert-only
    request for an existing row fails, an update-only request for a missing row
    and a request that changes nothing leave the table as it is, and anything
    else makes the row the one in the record. Afterwards the pairs of the table
    are again exactly the rows and the keys of their secondary indexes: the old
    row's index keys are gone, the new row's are there, no assertion of
    [indexOp] fails, and keys of other tables are untouched. *)
Theorem dbUpdate_refines tx N T req vals b (pk := take (npk tdef) vals) (rest := drop (npk tdef) vals)
    (changed := row_changed (dr_Mode req) rest (T !! pk)) :
  db_sees tx N (2 * length (td_Indexes tdef) + b) -> stored tdef T N -> rec_is tdef (dr_Record req) vals ->
  row_ok tdef vals ->
  exists tx' req' N',
    dbUpdate depth file tx tdef req = Ok (tx', req', update_result (dr_Mode req) rest (T !! pk)) /\
    (row_duplicate (dr_Mode req) (T !! pk) = false ->
       dr_Updated req' = changed /\ dr_Added req' = changed && bool_decide (T !! pk = None)) /\
    db_later tx tx' /\ db_sees tx' N' b /\ stored tdef (if changed then <[pk := rest]> T else T) N' /\
    (forall key, ~ table_key tdef key -> N' !! key = N !! key).
Proof using Hok. exact (dbUpdate_ok depth file tdef Hok tx N T req vals b). Qed.

(** C10.  [dbDelete] refines deletion from the map of rows, for a table whose
    primary key columns come first in its schema: it reports whether there was
    a row with the key, the row is gone with the keys of all its secondary
    indexes, and keys of other tables are untouched.  (Columns that come before
    the primary key are decoded under the wrong name.) *)
Theorem dbDelete_refines tx N T rec vs b (pk := norm <$> vs) :
  db_sees tx N (length (td_Indexes tdef) + b) -> stored tdef T N ->
  getValues tdef rec (pk_cols tdef) = Ok (inl vs) -> Forall cell_ok vs ->
  small_kv (key_of (row_prefix tdef) pk, [FLAG_DELETED]) -> td_Cols tdef = all_cols tdef ->
  exists tx' N', dbDelete depth file tx tdef rec = Ok (tx', (bool_decide (is_Some (T !! pk)), None)) /\
    db_later tx tx' /\ db_sees tx' N' b /\ stored tdef (delete pk T) N' /\
    (forall key, ~ table_key tdef key -> N' !! key = N !! key).
Proof using Hok. exact (dbDelete_ok depth file tdef Hok tx N T rec vs b). Qed.

End props.

(** A record that lacks a column or has a value of the wrong type is
    rejected before anything is written, with an error that names the first
    bad column: by [dbUpdate] for any column of the table and by [dbGet] for
    a column of the primary key.  [dbDelete] writes nothing either, but does
    not report the error: it answers as if the row did not exist. *)
Lemma bad_records_rejected depth file tdef tx rec mode :
  table_ok tdef -> length (rec_Cols rec) = length (rec_Vals rec) ->
  (forall e, first_bad tdef rec (all_cols tdef) = Some e ->
     let req := mkDBUpdateReq rec mode false false in
     dbUpdate depth file tx tdef req = Ok (tx, req, (false, Some e))) /\
  (forall e, first_bad tdef rec (pk_cols tdef) = Some e ->
     dbGet depth file tx tdef rec = Ok (tx, inr e) /\ dbDelete depth file tx tdef rec = Ok (tx, (false, None))).
Proof.
  intros Hok Hl. destruct (td_split _ Hok) as (pk & idxs & Ei & Epk & (_ & _ & Hc) & _).
  split; intros e He.
  - intros req. unfold dbUpdate. rewrite row_cols_ok by done. step_res. cbn [dr_Record req].
    rewrite (getValues_bad tdef rec _ e Hok Hl); [done| |done]. intros c. by rewrite all_cols_in.
  - unfold dbGet, dbGet_with, dbDelete. rewrite Ei. change (index (pk :: idxs) 0) with (Ok pk). step_res.
    rewrite Epk in He. by rewrite (getValues_bad tdef rec _ e Hok Hl).
Qed.

(** ** A concrete table *)

Definition col_id : bytes := bytes_of "id".
Definition col_name : bytes := bytes_of "name".

(** Pets, with an index on their names. *)
Definition pets : TableDef :=
  mkTableDef (bytes_of "pets") [TYPE_INT64; TYPE_BYTES] [col_id; col_name] [[col_id]; [col_name; col_id]] [100; 101].

Definition int_val (n : Z) : Value := mkValue TYPE_INT64 n [].
Definition str_val (s : string) : Value := mkValue TYPE_BYTES 0 (bytes_of s).

Lemma pets_ok : table_ok pets.
Proof.
  split; try by (apply (bool_decide_eq_true_1 _); vm_compute; reflexivity).
  split; [by apply (bool_decide_eq_true_1 _); vm_compute|].
  exists [col_id], [[col_name; col_id]]. split; [done|]. by apply (bool_decide_eq_true_1 _); vm_compute.
Qed.

Definition rex : list Value := [int_val 7; str_val "rex"].

Lemma rex_ok : row_ok pets rex.
Proof.
  split.
  - repeat (constructor; [split; [|done]|]); [left|right|constructor]; by repeat split.
  - split; [|apply Forall_cons; split; [|by apply Forall_nil]]; unfold small_kv, SMALL_COST; vm_compute; lia.
Qed.

Lemma rex_rec : rec_is pets (mkRow [col_id; col_name] rex) rex.
Proof.
  apply (rec_of_row pets pets_ok rex rex); [done|apply rex_ok].
Qed.

(** A transaction on an empty database, with room for six updates. *)
Definition db_new : DBTX := mkDBTX tx_new ∅.

Lemma db_new_sees b : (b < 7)%nat -> db_sees (KVPromise0 := tx_promise 9 []) db_new ∅ b.
Proof.
  intros Hb. exists 0%nat, 0%nat. split; [lia|]. split; [lia|]. apply tx_new_sees.
  pose proof (room_mono 0 0 6 b ltac:(lia) ltac:(lia)) as Hm.
  assert (room 0 6 = 90%nat) as E by reflexivity. lia.
Qed.

(** The row is there after it is inserted. *)
Lemma rex_inserted : exists tx N, db_sees (KVPromise0 := tx_promise 9 []) tx N 2 /\ stored pets {[[int_val 7] := [str_val "rex"]]} N.
Proof.
  destruct (dbUpdate_ok 9 [] pets pets_ok db_new ∅ ∅ (mkDBUpdateReq (mkRow [col_id; col_name] rex) MODE_INSERT_ONLY false false)
    rex 2 (db_new_sees 6 ltac:(lia)) (empty_stored pets) rex_rec rex_ok) as (tx & req & N & _ & _ & _ & Hs & Hst & _).
  exists tx, N. split; [exact Hs|]. exact Hst.
Qed.

Example dbUpdate_refines_witness : exists tx req N,
  dbUpdate 9 [] db_new pets (mkDBUpdateReq (mkRow [col_id; col_name] rex) MODE_INSERT_ONLY false false) =
    Ok (tx, req, (true, None)) /\ stored pets {[[int_val 7] := [str_val "rex"]]} N.
Proof.
  destruct (dbUpdate_refines 9 [] pets pets_ok db_new ∅ ∅
    (mkDBUpdateReq (mkRow [col_id; col_name] rex) MODE_INSERT_ONLY false false)
    rex 2 (db_new_sees 6 ltac:(lia)) (empty_stored pets) rex_rec rex_ok) as (tx & req & N & E & _ & _ & _ & Hst & _).
  exists tx, req, N. split; [exact E|exact Hst].
Defined.

Example dbDelete_refines_witness : exists tx tx' N',
  dbDelete 9 [] tx pets (mkRow [col_id] [int_val 7]) = Ok (tx', (true, None)) /\ stored pets ∅ N'.
Proof.
  destruct rex_inserted as (tx & N & Hs & Hst).
  destruct (dbDelete_refines 9 [] pets pets_ok tx N _ (mkRow [col_id] [int_val 7]) [int_val 7] 0 Hs Hst) as
    (tx' & N' & E & _ & _ & Hst' & _).
  - reflexivity.
  - constructor; [left; by repeat split|constructor].
  - unfold small_kv, SMALL_COST. vm_compute. lia.
  - reflexivity.
  - exists tx, tx', N'. split; [exact E|]. exact Hst'.
Defined.

(** A name that is a number, and a missing key. *)
Example bad_records_rejected_witness :
  let rec := mkRow [col_name] [int_val 1] in
  dbUpdate 9 [] db_new pets (mkDBUpdateReq rec MODE_UPSERT false false) =
    Ok (db_new, mkDBUpdateReq rec MODE_UPSERT false false, (false, Some ("missing column: %s"%string, [col_id]))) /\
  dbDelete 9 [] db_new pets rec = Ok (db_new, (false, None)).
Proof.
  intros rec. destruct (bad_records_rejected 9 [] pets db_new rec MODE_UPSERT pets_ok eq_refl) as [Hu Hd].
  split; [by apply Hu|]. by eapply Hd.
Defined.
