(* ===== verification/Display.v ===== *)
(** * Displaying values and expressions (src/db/table.go, src/db/ql_parse.go) *)

From S2P Require Import Prelude.
From S2P Require Import GoBytes.
From S2P Require Import Encode.
From S2P Require Import Json.
From S2P Require Import QLNode.

(** [strings.Join] *)
Fixpoint Join (elems : list bytes) (sep : bytes) : bytes :=
  match elems with
  | [] => []
  | [e] => e
  | e :: elems => e ++ sep ++ Join elems sep
  end.

Definition Value_Display (v : Value) : res bytes :=
  if v_Type v =? TYPE_BYTES then Ok (v_Str v)
  else if v_Type v =? TYPE_INT64 then Ok (FormatInt (v_I64 v))
  else Panic.

(** The operator of [displayBinOp]. *)
Definition op_str (ty : Z) : option string :=
  if ty =? QL_CMP_GE then Some ">="
  else if ty =? QL_CMP_GT then Some ">"
  else if ty =? QL_CMP_LT then Some "<"
  else if ty =? QL_CMP_LE then Some "<="
  else if ty =? QL_CMP_EQ then Some "="
  else if ty =? QL_CMP_NE then Some "!="
  else if ty =? QL_ADD then Some "+"
  else if ty =? QL_SUB then Some "-"
  else if ty =? QL_MUL then Some "*"
  else if ty =? QL_DIV then Some "/"
  else if ty =? QL_MOD then Some "%"
  else if ty =? QL_AND then Some "AND"
  else if ty =? QL_OR then Some "OR"
  else None.

Definition displayBinOp (ty : Z) (kids : list (res bytes)) (opStr : string) : res bytes :=
  if is_cmp_op ty || is_arith_op ty || is_logic_op ty then
    k0 ← index kids 0;
    s0 ← k0;
    k1 ← index kids 1;
    s1 ← k1;
    Ok (s0 ++ bytes_of " " ++ bytes_of opStr ++ bytes_of " " ++ s1)
  else Panic.

(** The results of the kids, left to right. *)
Fixpoint all_Ok {A} (l : list (res A)) : res (list A) :=
  match l with
  | [] => Ok []
  | x :: l => a ← x; rest ← all_Ok l; Ok (a :: rest)
  end.

Fixpoint QLNode_Display (node : QLNode) : res bytes :=
  let 'mkQLNode ty n str kids := node in
  let shown := map QLNode_Display kids in
  if ty =? QL_SYM then Ok str
  else if ty =? QL_TUP then l ← all_Ok shown; Ok (bytes_of "(" ++ Join l (bytes_of ", ") ++ bytes_of ")")
  else if ty =? QL_STR then Ok ([Byte.x22] ++ str ++ [Byte.x22])
  else if ty =? QL_I64 then Ok (FormatInt n)
  else
    match op_str ty with
    | Some opStr => displayBinOp ty shown opStr
    | None =>
        if ty =? QL_NOT then k ← index shown 0; s ← k; Ok (bytes_of "NOT " ++ s)
        else if ty =? QL_NEG then k ← index shown 0; s ← k; Ok (bytes_of "-" ++ s)
        else Panic
    end.
