(* ===== verification/Exec.v ===== *)
(** * Executing statements (src/db/ql_exec.go)

    Scans with a filter and a limit, the statements of the query language, and
    the executor that runs one statement in the current transaction or in one
    of its own.  A record iterator reads through the transaction, which is
    passed along.  [rows] bounds the rows that a scan visits. *)

From S2P Require Import Prelude.
From S2P Require Import GoBytes.
From S2P Require Import KVSpec.
From S2P Require Import BTree.
From S2P Require Import BIter.
From S2P Require Import Encode.
From S2P Require Import Conflict.
From S2P Require Import QLNode.
From S2P Require Import Eval.
From S2P Require Import Parser.
From S2P Require Import Schema.
From S2P Require Import Display.
From S2P Require Import KV.
From S2P Require Import KVTX.
From S2P Require Import Table.

(** ** Scan keys *)

Definition no_row : Row := mkRow [] [].

(** The key of an INDEX BY condition with its comparison; 0 stands for [=]
    and for a condition left out. *)
Definition evalScanKey (node : QLNode) : res (Row * Z + gerror) :=
  let ty := ql_Type node in
  if ty =? 0 then Ok (inl (no_row, 0)) else
  cmp ← (if ty =? QL_CMP_EQ then Ok 0
         else if ty =? QL_CMP_GE then Ok CMP_GE
         else if ty =? QL_CMP_GT then Ok CMP_GT
         else if ty =? QL_CMP_LE then Ok CMP_LE
         else if ty =? QL_CMP_LT then Ok CMP_LT
         else Panic);
  names ← index (ql_Kids node) 0;
  exprs ← index (ql_Kids node) 1;
  _ ← assert ((ql_Type names =? QL_TUP) && (ql_Type exprs =? QL_TUP));
  _ ← assert (len (ql_Kids names) =? len (ql_Kids exprs));
  vals ← evalMulti no_row (ql_Kids exprs);
  match vals with
  | inr e => Ok (inr e)
  | inl vals =>
      _ ← assert (forallb (fun name => ql_Type name =? QL_SYM) (ql_Kids names));
      Ok (inl (mkRow (map ql_Str (ql_Kids names)) vals, cmp))
  end.

Definition initScanner (req : QLScan) : res (ScanReq + gerror) :=
  k1 ← evalScanKey (qs_Key1 req);
  match k1 with
  | inr e => Ok (inr e)
  | inl (key1, cmp1) =>
      k2 ← evalScanKey (qs_Key2 req);
      match k2 with
      | inr e => Ok (inr e)
      | inl (key2, cmp2) =>
          let t1 := ql_Type (qs_Key1 req) in
          let t2 := ql_Type (qs_Key2 req) in
          if (t1 =? 0) && (t2 =? 0) then Ok (inl (mkScanReq CMP_GE CMP_LE key1 key2))
          else if (t1 =? QL_CMP_EQ) && (t2 =? 0) then Ok (inl (mkScanReq CMP_GE CMP_LE key1 key1))
          else if negb (t1 =? 0) && (t2 =? 0) then
            Ok (inl (mkScanReq cmp1 (if 0 <? cmp1 then CMP_LE else CMP_GE) key1 key2))
          else if negb (t1 =? 0) && negb (t2 =? 0) then Ok (inl (mkScanReq cmp1 cmp2 key1 key2))
          else Panic
      end
  end.

(** ** Iterators over records *)

(** [qlScanIter] over any range of rows: [sc] is the state of the scanner. *)
Record QLScanIter (SC : Type) := mkQLScanIter {
  qi_req : QLScan; qi_sc : SC; qi_count : Z; qi_end : bool; qi_rec : Row; qi_err : option gerror
}.
Arguments mkQLScanIter {SC}.
Arguments qi_req {SC}.
Arguments qi_sc {SC}.
Arguments qi_count {SC}.
Arguments qi_end {SC}.
Arguments qi_rec {SC}.
Arguments qi_err {SC}.

(** The methods of [Scanner] that the iterator calls. *)
Class RowSource (TX SC : Type) := {
  rs_Valid : SC -> res bool;
  rs_Next : SC -> res SC;
  rs_Deref : TX -> SC -> res (TX * Row)
}.

Section iter.
Context {TX SC : Type} `{RowSource TX SC}.

Definition set_err (iter : QLScanIter SC) (err : option gerror) : QLScanIter SC :=
  mkQLScanIter (qi_req iter) (qi_sc iter) (qi_count iter) (qi_end iter) (qi_rec iter) err.
Definition set_end (iter : QLScanIter SC) : QLScanIter SC :=
  mkQLScanIter (qi_req iter) (qi_sc iter) (qi_count iter) true (qi_rec iter) (qi_err iter).

(** Whether a record satisfies the filter. *)
Definition filter_ok (filter : QLNode) (rec : Row) : res (bool + gerror) :=
  if ql_Type filter =? 0 then Ok (inl true) else
  ctx ← evalExpr filter (mkCtx rec (mkValue 0 0 []) None);
  match cx_err ctx with
  | Some e => Ok (inr e)
  | None =>
      if negb (v_Type (cx_out ctx) =? TYPE_INT64) then Ok (inr ("filter is not boolean"%string, []))
      else Ok (inl (negb (v_I64 (cx_out ctx) =? 0)))
  end.

Definition pull (tx : TX) (iter : QLScanIter SC) : res (TX * QLScanIter SC * (bool + gerror)) :=
  '(tx, rec) ← rs_Deref tx (qi_sc iter);
  let iter := mkQLScanIter (qi_req iter) (qi_sc iter) (qi_count iter) (qi_end iter) rec (qi_err iter) in
  matched ← filter_ok (qs_Filter (qi_req iter)) rec;
  Ok (tx, iter, matched).

(** The loop of [Next]. *)
Fixpoint scan_next_loop (rows : nat) (tx : TX) (iter : QLScanIter SC) : res (TX * QLScanIter SC) :=
  valid ← rs_Valid (qi_sc iter);
  if negb valid then Ok (tx, set_end iter) else
  match rows with
  | O => NoFuel
  | S rows =>
      '(tx, iter, matched) ← pull tx iter;
      match matched with
      | inr e => Ok (tx, set_err iter (Some e))
      | inl matched =>
          sc ← rs_Next (qi_sc iter);
          let count := if matched : bool then i64 (qi_count iter + 1) else qi_count iter in
          let iter := mkQLScanIter (qi_req iter) sc count (qi_end iter) (qi_rec iter) (qi_err iter) in
          if matched : bool then
            if count <=? qs_Offset (qi_req iter) then scan_next_loop rows tx iter else Ok (tx, iter)
          else scan_next_loop rows tx iter
      end
  end.

Definition scan_Next (rows : nat) (tx : TX) (iter : QLScanIter SC) : res (TX * QLScanIter SC) :=
  if qi_count iter =? qs_Limit (qi_req iter) then Ok (tx, set_end iter)
  else scan_next_loop rows tx iter.

Definition scan_Valid (iter : QLScanIter SC) : bool := negb (qi_end iter).

(** The record, or the error of retrieving it. *)
Definition scan_Deref (iter : QLScanIter SC) : res (Row + gerror) :=
  _ ← assert (scan_Valid iter);
  match qi_err iter with
  | None => Ok (inl (qi_rec iter))
  | Some e => Ok (inr e)
  end.

(** [qlSelectIter] *)
Record QLSelectIter := mkQLSelectIter { si_iter : QLScanIter SC; si_names : list bytes; si_exprs : list QLNode }.

Definition select_Valid (iter : QLSelectIter) : bool := scan_Valid (si_iter iter).

Definition select_Next (rows : nat) (tx : TX) (iter : QLSelectIter) : res (TX * QLSelectIter) :=
  '(tx, it) ← scan_Next rows tx (si_iter iter);
  Ok (tx, mkQLSelectIter it (si_names iter) (si_exprs iter)).

Definition select_Deref (iter : QLSelectIter) : res (Row + gerror) :=
  rec ← scan_Deref (si_iter iter);
  match rec with
  | inr e => Ok (inr e)
  | inl rec =>
      vals ← evalMulti rec (si_exprs iter);
      match vals with
      | inr e => Ok (inr e)
      | inl vals => Ok (inl (mkRow (si_names iter) vals))
      end
  end.

End iter.
Arguments QLSelectIter SC : clear implicits.
Arguments mkQLSelectIter {SC}.

(** ** Statements *)

Section exec.
Context (depth : nat) (file : bytes) (rows : nat).

#[export] Instance table_source : RowSource DBTX Scanner :=
  {| rs_Valid := Scanner_Valid; rs_Next := Scanner_Next; rs_Deref := Scanner_Deref depth file |}.

Definition execScan (tx : DBTX) (req : QLScan) : res (DBTX * (QLScanIter Scanner + gerror)) :=
  r ← initScanner req;
  match r with
  | inr e => Ok (tx, inr e)
  | inl sreq =>
      '(tx, sc) ← DBTX_Scan depth file tx (qs_Table req) sreq;
      match sc with
      | inr e => Ok (tx, inr e)
      | inl sc => '(tx, iter) ← scan_Next rows tx (mkQLScanIter req sc 0 false no_row None); Ok (tx, inl iter)
      end
  end.

(** The columns of a select, with [*] expanded. *)
Fixpoint select_cols (cols : res (list bytes)) (names : list bytes) (output : list QLNode)
    : res (list bytes * list QLNode) :=
  match names with
  | [] => Ok ([], [])
  | name :: names =>
      '(n, e) ← (if negb (bytes_equal name (bytes_of "*")) then o ← index output 0; Ok ([name], [o])
                 else cols ← cols; Ok (cols, map (fun col => mkQLNode QL_SYM 0 col []) cols));
      '(ns, es) ← select_cols cols names (drop 1 output);
      Ok (n ++ ns, e ++ es)
  end.

(** Names for the columns without one. *)
Fixpoint assign_names (names : list bytes) (exprs : list QLNode) : res (list bytes) :=
  match names with
  | [] => Ok []
  | name :: names =>
      name ← (if negb (bytes_equal name []) then Ok name else e ← index exprs 0; QLNode_Display e);
      rest ← assign_names names (drop 1 exprs);
      Ok (name :: rest)
  end.

Definition execSelect (tx : DBTX) (req : QLSelect) : res (DBTX * (QLSelectIter Scanner + gerror)) :=
  '(tx, records) ← execScan tx (sel_scan req);
  match records with
  | inr e => Ok (tx, inr e)
  | inl records =>
      '(tx, tdef) ← getTableDef depth file tx (qs_Table (sel_scan req));
      '(names, exprs) ← select_cols (match tdef with Some t => Ok (td_Cols t) | None => Panic end)
                          (sel_Names req) (sel_Output req);
      _ ← assert (len names =? len exprs);
      names ← assign_names names exprs;
      Ok (tx, inl (mkQLSelectIter records names exprs))
  end.

Fixpoint insert_loop (tx : DBTX) (table : bytes) (mode : Z) (names : list bytes) (values : list (list QLNode))
    (added updated : Z) : res (DBTX * (Z * Z + gerror)) :=
  match values with
  | [] => Ok (tx, inl (added, updated))
  | exprs :: values =>
      vals ← evalMulti no_row exprs;
      match vals with
      | inr e => Ok (tx, inr e)
      | inl vals =>
          '(tx, dbReq, (_, err)) ← DBTX_Set depth file tx table (mkDBUpdateReq (mkRow names vals) mode false false);
          match err with
          | Some e => Ok (tx, inr e)
          | None =>
              insert_loop tx table mode names values
                (if dr_Added dbReq then u64 (added + 1) else added)
                (if dr_Updated dbReq then u64 (updated + 1) else updated)
          end
      end
  end.

(** The rows added, and the rows added or updated. *)
Definition execInsert (tx : DBTX) (req : QLInsert) : res (DBTX * (Z * Z + gerror)) :=
  insert_loop tx (ins_Table req) (ins_Mode req) (ins_Names req) (ins_Values req) 0 0.

(** The columns an update may set. *)
Fixpoint check_update_cols (tdef : option TableDef) (names : list bytes) : res (option gerror) :=
  match names with
  | [] => Ok None
  | col :: names =>
      match tdef with
      | None => Panic
      | Some t =>
          if slices_Index (td_Cols t) col <? 0 then Ok (Some ("unknown column: %s"%string, [col]))
          else
            pk ← index (td_Indexes t) 0;
            if 0 <=? slices_Index pk col then Ok (Some ("cannot update primary key"%string, []))
            else check_update_cols tdef names
      end
  end.

(** [rec.Vals[slices.Index(tdef.Cols, col)] = vals[i]] for each name. *)
Fixpoint set_cols (tdef : option TableDef) (names : list bytes) (vals rec : list Value) : res (list Value) :=
  match names with
  | [] => Ok rec
  | col :: names =>
      v ← index vals 0;
      t ← (match tdef with Some t => Ok t | None => Panic end);
      rec ← set_index rec (slices_Index (td_Cols t) col) v;
      set_cols tdef names (drop 1 vals) rec
  end.

Fixpoint update_loop (n : nat) (tx : DBTX) (tdef : option TableDef) (req : QLUpdate)
    (records : QLScanIter Scanner) (updated : Z) : res (DBTX * (Z + gerror)) :=
  if negb (scan_Valid records) then Ok (tx, inl updated) else
  match n with
  | O => NoFuel
  | S n =>
      rec ← scan_Deref records;
      match rec with
      | inr e => Ok (tx, inr e)
      | inl rec =>
          vals ← evalMulti rec (upd_Values req);
          match vals with
          | inr e => Ok (tx, inr e)
          | inl vals =>
              newVals ← set_cols tdef (upd_Names req) vals (rec_Vals rec);
              '(tx, dbReq, (done, err)) ←
                DBTX_Set depth file tx (qs_Table (upd_scan req))
                  (mkDBUpdateReq (mkRow (rec_Cols rec) newVals) MODE_UPDATE_ONLY false false);
              match err with
              | Some e => Ok (tx, inr e)
              | None =>
                  _ ← assert (Bool.eqb done (dr_Updated dbReq));
                  '(tx, records) ← scan_Next rows tx records;
                  update_loop n tx tdef req records (if done : bool then u64 (updated + 1) else updated)
              end
          end
      end
  end.

Definition execUpdate (tx : DBTX) (req : QLUpdate) : res (DBTX * (Z + gerror)) :=
  _ ← assert (len (upd_Names req) =? len (upd_Values req));
  '(tx, tdef) ← getTableDef depth file tx (qs_Table (upd_scan req));
  err ← check_update_cols tdef (upd_Names req);
  match err with
  | Some e => Ok (tx, inr e)
  | None =>
      '(tx, records) ← execScan tx (upd_scan req);
      match records with
      | inr e => Ok (tx, inr e)
      | inl records => update_loop rows tx tdef req records 0
      end
  end.

Fixpoint delete_loop (n : nat) (tx : DBTX) (tdef : option TableDef) (table : bytes)
    (records : QLScanIter Scanner) (deleted : Z) : res (DBTX * (Z + gerror)) :=
  if negb (scan_Valid records) then Ok (tx, inl deleted) else
  match n with
  | O => NoFuel
  | S n =>
      rec ← scan_Deref records;
      match rec with
      | inr e => Ok (tx, inr e)
      | inl rec =>
          t ← (match tdef with Some t => Ok t | None => Panic end);
          pk ← index (td_Indexes t) 0;
          vals ← getValues t rec pk;
          match vals with
          | inr e => Ok (tx, inr e)
          | inl vals =>
              '(tx, (done, err)) ← DBTX_Delete depth file tx table (mkRow pk vals);
              match err with
              | Some e => Ok (tx, inr e)
              | None =>
                  _ ← assert done;
                  '(tx, records) ← scan_Next rows tx records;
                  delete_loop n tx tdef table records (u64 (deleted + 1))
              end
          end
      end
  end.

Definition execDelete (tx : DBTX) (req : QLScan) : res (DBTX * (Z + gerror)) :=
  '(tx, records) ← execScan tx req;
  match records with
  | inr e => Ok (tx, inr e)
  | inl records =>
      '(tx, tdef) ← getTableDef depth file tx (qs_Table req);
      delete_loop rows tx tdef (qs_Table req) records 0
  end.

Record QLResult := mkQLResult {
  qr_Records : option (QLSelectIter Scanner); qr_Added : Z; qr_Updated : Z; qr_Deleted : Z
}.

Definition no_result : QLResult := mkQLResult None 0 0 0.

(** A statement that cannot be executed here is a panic. *)
Definition run_stmt (tx : DBTX) (stmt : QLStmt) : res (DBTX * QLResult * option gerror) :=
  match stmt with
  | StCreateTable def => '(tx, err) ← TableNew depth file tx def; Ok (tx, no_result, err)
  | StSelect req =>
      '(tx, r) ← execSelect tx req;
      Ok (match r with
          | inl iter => (tx, mkQLResult (Some iter) 0 0 0, None)
          | inr e => (tx, no_result, Some e)
          end)
  | StInsert req =>
      '(tx, r) ← execInsert tx req;
      Ok (match r with
          | inl (added, updated) => (tx, mkQLResult None added updated 0, None)
          | inr e => (tx, no_result, Some e)
          end)
  | StUpdate req =>
      '(tx, r) ← execUpdate tx req;
      Ok (match r with
          | inl updated => (tx, mkQLResult None 0 updated 0, None)
          | inr e => (tx, no_result, Some e)
          end)
  | StDelete req =>
      '(tx, r) ← execDelete tx req;
      Ok (match r with
          | inl deleted => (tx, mkQLResult None 0 0 deleted, None)
          | inr e => (tx, no_result, Some e)
          end)
  | StBegin | StCommit | StRollback => Panic
  end.

Definition execStmt (tx : DBTX) (stmt : QLStmt) : res (DBTX * QLResult * option gerror) :=
  let saved := DBTX_Save tx in
  '(tx, result, err) ← run_stmt tx stmt;
  Ok (match err with Some _ => DBTX_Revert tx saved | None => tx end, result, err).

End exec.

(** ** The executor *)

Record Executor := mkExecutor { ex_db : DB; ex_activeTx : option DBTX }.

Definition NewExecutor (db : DB) : Executor := mkExecutor db None.

Definition inTx (ex : Executor) : bool := match ex_activeTx ex with Some _ => true | None => false end.

Section executor.
Context (depth rows : nat).
(** [slices.SortFunc(_, keyRangeCmp)] and the order of Go's maps. *)
Context (sort : list KeyRange -> list KeyRange) (order : gmap Z bytes -> list (Z * bytes)).

Definition db_Commit (db : DB) (tx : DBTX) : res (DB * DBTX * option gerror) :=
  '(kv, ktx, err) ← kv_Commit depth sort order rows (db_kv db) (dt_kv tx);
  Ok (mkDB kv (dt_tables tx), set_kv tx ktx, kv_err err).

(** The transaction that the records of a result are read through is the
    active one, or the one of the statement, which has ended by then. *)
Definition ExecStr (ex : Executor) (stmtStr : bytes)
    : res (Executor * QLResult * bool * option gerror * option DBTX) :=
  '(_, r) ← Parse stmtStr;
  match r with
  | inr e => Ok (ex, no_result, inTx ex, Some e, None)
  | inl None => Panic
  | inl (Some stmt) =>
      match stmt with
      | StBegin =>
          if inTx ex then Ok (ex, no_result, true, Some ("already in a transaction"%string, []), None)
          else
            let '(db, tx) := db_Begin (ex_db ex) in
            Ok (mkExecutor db (Some tx), no_result, true, None, None)
      | StCommit =>
          match ex_activeTx ex with
          | None => Ok (ex, no_result, false, Some ("no active transaction to commit"%string, []), None)
          | Some tx =>
              '(db, _, err) ← db_Commit (ex_db ex) tx;
              Ok (mkExecutor db None, no_result, false, err, None)
          end
      | StRollback =>
          match ex_activeTx ex with
          | None => Ok (ex, no_result, false, Some ("no active transaction to rollback"%string, []), None)
          | Some tx =>
              '(db, _) ← db_Abort (ex_db ex) tx;
              Ok (mkExecutor db None, no_result, false, None, None)
          end
      | stmt =>
          match ex_activeTx ex with
          | Some tx =>
              '(tx, result, err) ← execStmt depth (db_file (ex_db ex)) rows tx stmt;
              Ok (mkExecutor (ex_db ex) (Some tx), result, true, err, None)
          | None =>
              let '(db, tx) := db_Begin (ex_db ex) in
              '(tx, result, err) ← execStmt depth (db_file db) rows tx stmt;
              match err with
              | Some _ =>
                  '(db, _) ← db_Abort db tx;
                  Ok (mkExecutor db None, no_result, false, err, None)
              | None =>
                  '(db, tx, err) ← db_Commit db tx;
                  match err with
                  | Some _ => Ok (mkExecutor db None, no_result, false, err, None)
                  | None => Ok (mkExecutor db None, result, false, None, Some tx)
                  end
              end
          end
      end
  end.

End executor.
