(* ===== verification/ScanProps.v ===== *)
(** * The rows that a scan yields

    [qlScanIter] over any source that behaves like a list of rows: the rows
    that match the filter, from the offset, up to the limit. *)

From S2P Require Import Prelude.
From S2P Require Import GoBytes.
From S2P Require Import Encode.
From S2P Require Import QLNode.
From S2P Require Import Parser.
From S2P Require Import Exec.

(** A source with the rows [rows] left to visit. *)
Class RowList (TX SC : Type) `{!RowSource TX SC} := {
  rl_rows : TX -> SC -> list Row -> Prop;
  rl_Valid tx sc rows : rl_rows tx sc rows -> rs_Valid sc = Ok (bool_decide (rows <> []));
  rl_Deref tx sc r rows : rl_rows tx sc (r :: rows) -> exists tx', rs_Deref tx sc = Ok (tx', r) /\ rl_rows tx' sc (r :: rows);
  rl_Next tx sc r rows : rl_rows tx sc (r :: rows) -> exists sc', rs_Next sc = Ok sc' /\ rl_rows tx sc' rows
}.

(** The matching rows up to the first one for which the filter fails. *)
Fixpoint matching (filter : QLNode) (rows : list Row) : list Row * option gerror :=
  match rows with
  | [] => ([], None)
  | r :: rows =>
      match filter_ok filter r with
      | Ok (inl true) => let '(ms, e) := matching filter rows in (r :: ms, e)
      | Ok (inl false) => matching filter rows
      | Ok (inr e) => ([], Some e)
      | _ => ([], None)
      end
  end.

(** What the iterator makes of them: a limit that is not above the offset is
    no limit, unless it is 0. *)
Definition limited (offset limit : Z) (ms : list Row * option gerror) : list Row * option gerror :=
  if limit =? 0 then ([], None)
  else if (offset <? limit) && (limit <=? len ms.1)
  then (take (Z.to_nat (limit - offset)) (drop (Z.to_nat offset) ms.1), None)
  else (drop (Z.to_nat offset) ms.1, ms.2).

(** A consumer that reads to the end, or to an error. *)
Fixpoint drain {TX SC} `{!RowSource TX SC} (n fuel : nat) (tx : TX) (iter : QLScanIter SC)
    : res (TX * (list Row * option gerror)) :=
  if negb (scan_Valid iter) then Ok (tx, ([], None)) else
  match n with
  | O => NoFuel
  | S n =>
      r ← scan_Deref iter;
      match r with
      | inr e => Ok (tx, ([], Some e))
      | inl rec =>
          '(tx, iter) ← scan_Next fuel tx iter;
          '(tx, (recs, err)) ← drain n fuel tx iter;
          Ok (tx, (rec :: recs, err))
      end
  end.

Definition start {SC} (req : QLScan) (sc : SC) : QLScanIter SC := mkQLScanIter req sc 0 false no_row None.

Section scan.
Context {TX SC : Type} `{!RowSource TX SC} `{!RowList TX SC} (req : QLScan).
Let f := qs_Filter req.

(** The filter does not panic on any row. *)
Definition evaluable (rows : list Row) : Prop := Forall (fun r => exists x, filter_ok f r = Ok x) rows.

(** The next row: [skip] more matching rows are not shown. *)
Lemma next_loop_ok rows fuel tx sc count end_ rec :
  rl_rows tx sc rows -> evaluable rows -> (length rows <= fuel)%nat ->
  0 <= count -> count + len rows < 2 ^ 63 ->
  let ms := matching f rows in
  let skip := Z.to_nat (qs_Offset req - count) in
  exists tx' iter', scan_next_loop fuel tx (mkQLScanIter req sc count end_ rec None) = Ok (tx', iter') /\ qi_req iter' = req /\
    match drop skip ms.1 with
    | [] => match ms.2 with
            | None => qi_end iter' = true
            | Some e => qi_end iter' = end_ /\ qi_err iter' = Some e
            end
    | r :: ms' => qi_end iter' = end_ /\ qi_err iter' = None /\ qi_rec iter' = r /\
        qi_count iter' = count + Z.of_nat skip + 1 /\
        exists rows', rl_rows tx' (qi_sc iter') rows' /\ evaluable rows' /\ (length rows' + skip < length rows)%nat /\
          matching f rows' = (ms', ms.2)
    end.
Proof using Type*.
  revert fuel tx sc count end_ rec. induction rows as [|r rows IH]; intros fuel tx sc count end_ rec Hr Hev Hf H0 Hmax ms skip.
  { exists tx. eexists. destruct fuel; cbn [scan_next_loop qi_sc]; rewrite (rl_Valid _ _ _ Hr); step_res;
      (split; [reflexivity|]); split; try done; unfold ms; cbn; by rewrite drop_nil. }
  destruct fuel as [|fuel]; [cbn in Hf; lia|]. cbn [scan_next_loop qi_sc]. rewrite (rl_Valid _ _ _ Hr). step_res.
  rewrite bool_decide_true by done. cbn [negb]. rewrite len_cons in Hmax. assert (0 <= len rows) by (unfold len; lia).
  destruct (rl_Deref _ _ _ _ Hr) as (tx1 & E1 & Hr1). unfold pull. cbn [qi_sc qi_req qi_count qi_end qi_err].
  rewrite E1. step_res. fold f. apply Forall_cons in Hev as [(x & Ex) Hev]. rewrite Ex. step_res.
  unfold ms. cbn [matching]. rewrite Ex. destruct x as [[]|e].
  - destruct (rl_Next _ _ _ _ Hr1) as (sc' & E2 & Hr2). cbn [qi_sc]. rewrite E2. step_res.
    cbn [qi_sc qi_req qi_count qi_end qi_rec qi_err]. rewrite i64_small by lia. destruct (matching f rows) as [ms0 e0] eqn:Em. cbn [fst snd].
    destruct (Z.leb_spec (count + 1) (qs_Offset req)).
    + destruct (IH fuel tx1 sc' (count + 1) end_ r Hr2 Hev ltac:(cbn in Hf; lia) ltac:(lia) ltac:(lia)) as (tx' & iter' & E & Hq & Hm).
      exists tx', iter'. split; [exact E|]. split; [done|]. cbn [fst snd] in Hm.
      assert (skip = S (Z.to_nat (qs_Offset req - (count + 1)))) as -> by lia. cbn [drop].
      destruct (drop _ ms0) as [|r' ms']; [done|]. destruct Hm as (? & ? & ? & Hc & rows' & ? & ? & ? & ?).
      split; [done|]. split; [done|]. split; [done|]. split; [lia|]. exists rows'. split_and!; try done. cbn. lia.
    + exists tx1. eexists. split; [reflexivity|]. split; [done|]. assert (skip = 0%nat) as -> by lia. cbn [drop].
      split; [done|]. split; [done|]. split; [done|]. cbn [qi_count qi_sc]. split; [lia|]. exists rows. split_and!; try done. cbn. lia.
  - destruct (rl_Next _ _ _ _ Hr1) as (sc' & E2 & Hr2). cbn [qi_sc]. rewrite E2. step_res.
    cbn [qi_sc qi_req qi_count qi_end qi_rec qi_err].
    destruct (IH fuel tx1 sc' count end_ r Hr2 Hev ltac:(cbn in Hf; lia) ltac:(lia) ltac:(lia)) as (tx' & iter' & E & Hq & Hm).
    exists tx', iter'. split; [exact E|]. split; [done|]. cbv zeta in Hm. fold skip in Hm.
    destruct (drop skip _) as [|r' ms']; [done|]. destruct Hm as (? & ? & ? & Hc & rows' & ? & ? & ? & ?).
    split; [done|]. split; [done|]. split; [done|]. split; [lia|]. exists rows'. split_and!; try done. cbn. lia.
  - exists tx1. eexists. split; [reflexivity|]. split; [done|]. cbn [fst snd]. rewrite drop_nil. done.
Qed.

(** The iterator has shown [count] rows or skipped them, and stands at a row. *)
Lemma drain_ok n rows fuel tx sc count rec :
  rl_rows tx sc rows -> evaluable rows -> (length rows <= fuel)%nat -> (length rows < n)%nat ->
  0 <= qs_Offset req < count -> count + len rows < 2 ^ 63 ->
  let ms := matching f rows in
  let left := qs_Limit req - count in
  exists tx', drain n fuel tx (mkQLScanIter req sc count false rec None) = Ok (tx',
    if (0 <=? left) && (left <=? len ms.1) then (rec :: take (Z.to_nat left) ms.1, None) else (rec :: ms.1, ms.2)).
Proof using Type*.
  revert rows fuel tx sc count rec. induction n as [|n IH]; intros rows fuel tx sc count rec Hr Hev Hf Hn Ho Hmax ms left; [lia|].
  cbn [drain scan_Valid qi_end negb]. unfold scan_Deref. cbn [scan_Valid qi_end negb qi_err qi_rec]. step_res.
  unfold scan_Next. cbn [qi_count qi_req]. pose proof (len_nonneg ms.1) as H0.
  destruct (Z.eqb_spec count (qs_Limit req)) as [Hl|Hl].
  { step_res. exists tx. assert (left = 0) as -> by lia. rewrite (proj2 (Z.leb_le 0 0)), (proj2 (Z.leb_le 0 _)) by lia.
    destruct n; reflexivity. }
  destruct (next_loop_ok rows fuel tx sc count false rec Hr Hev Hf ltac:(lia) ltac:(lia)) as (tx1 & iter1 & E & Hq & Hm).
  rewrite E. step_res. cbv zeta in Hm. replace (Z.to_nat (qs_Offset req - count)) with 0%nat in Hm by lia. cbn [drop] in Hm.
  fold ms in Hm. destruct ms as [[|r ms'] e] eqn:Ems; cbn [fst snd] in *.
  - exists tx1. change (len (@nil Row)) with 0. assert ((0 <=? left) && (left <=? 0) = false) as -> by lia. destruct e as [e|].
    + destruct Hm as [He Herr]. destruct n as [|n]; [cbn in Hn|].
      { destruct rows; [done|cbn in Hn; lia]. }
      destruct iter1 as [q1 s1 c1 e1 r1 er1]. cbn [qi_end qi_err] in *. subst. cbn. reflexivity.
    + destruct n; cbn [drain]; unfold scan_Valid; rewrite Hm; reflexivity.
  - destruct Hm as (He & Herr & Hrec & Hc & rows' & Hr' & Hev' & Hlen & Hms'). destruct iter1 as [q1 s1 c1 e1 r1 er1].
    cbn [qi_end qi_err qi_rec qi_count qi_sc qi_req] in *. subst q1 e1 er1 r1 c1.
    assert (len rows' + 0 + 1 <= len rows) as Hlen' by (unfold len; lia).
    destruct (IH rows' fuel tx1 s1 (count + Z.of_nat 0 + 1) r Hr' Hev' ltac:(lia) ltac:(lia) ltac:(lia) ltac:(lia)) as (tx2 & ->).
    exists tx2. rewrite Hms'. cbn [fst snd]. rewrite len_cons. pose proof (len_nonneg ms'). step_res.
    replace (qs_Limit req - (count + Z.of_nat 0 + 1)) with (left - 1) by lia.
    destruct (Z.leb_spec 0 left), (Z.leb_spec 0 (left - 1)), (Z.leb_spec left (len ms' + 1)), (Z.leb_spec (left - 1) (len ms'));
      try lia; cbn [andb]; try done.
    replace (Z.to_nat left) with (S (Z.to_nat (left - 1))) by lia. done.
Qed.

(** A scan from its start, read to its end. *)
Lemma limited_rows tx sc rows fuel n :
  rl_rows tx sc rows -> evaluable rows -> (length rows <= fuel)%nat -> (length rows < n)%nat ->
  0 <= qs_Offset req -> len rows < 2 ^ 63 ->
  exists tx', ('(tx, iter) ← scan_Next fuel tx (start req sc); drain n fuel tx iter) =
    Ok (tx', limited (qs_Offset req) (qs_Limit req) (matching f rows)).
Proof using Type*.
  intros Hr Hev Hf Hn Ho Hmax. unfold scan_Next, start, limited. cbn [qi_count qi_req]. rewrite Z.eqb_sym.
  destruct (Z.eqb_spec (qs_Limit req) 0) as [Hl|Hl]; [exists tx; by destruct n|].
  destruct (next_loop_ok rows fuel tx sc 0 false no_row Hr Hev Hf ltac:(lia) ltac:(lia)) as (tx1 & iter1 & E & Hq & Hm).
  rewrite E. step_res. rewrite Z.sub_0_r in Hm. cbv zeta in Hm. set (skip := Z.to_nat (qs_Offset req)) in *.
  assert (Z.of_nat skip = qs_Offset req) as Hskip by (unfold skip; lia).
  destruct (matching f rows) as [ms e]. cbn [fst snd] in *. destruct (drop skip ms) as [|r ms'] eqn:Ed.
  - exists tx1. apply (f_equal length) in Ed. rewrite length_drop in Ed. cbn in Ed.
    assert ((qs_Offset req <? qs_Limit req) && (qs_Limit req <=? len ms) = false) as -> by (unfold len; lia).
    destruct e as [e|].
    + destruct Hm as [He Herr]. destruct n as [|n]; [cbn in Hn; lia|]. destruct iter1 as [q1 s1 c1 e1 r1 er1].
      cbn [qi_end qi_err] in *. subst. reflexivity.
    + destruct n; cbn [drain]; unfold scan_Valid; rewrite Hm; reflexivity.
  - destruct Hm as (He & Herr & Hrec & Hc & rows' & Hr' & Hev' & Hlen & Hms'). destruct iter1 as [q1 s1 c1 e1 r1 er1].
    cbn [qi_end qi_err qi_rec qi_count qi_sc qi_req] in *. subst q1 e1 er1 r1 c1.
    assert (len rows' + Z.of_nat skip + 1 <= len rows) as Hlen' by (unfold len; lia).
    assert (len ms = Z.of_nat skip + 1 + len ms') as Hlms.
    { rewrite <- (take_drop skip ms), Ed, len_app, len_cons. apply (f_equal length) in Ed. rewrite length_drop in Ed. cbn in Ed.
      unfold len. rewrite length_take. lia. }
    destruct (drain_ok n rows' fuel tx1 s1 (0 + Z.of_nat skip + 1) r Hr' Hev' ltac:(lia) ltac:(lia) ltac:(lia) ltac:(lia)) as
      (tx2 & ->).
    exists tx2. rewrite Hms'. cbn [fst snd]. set (left := qs_Limit req - (0 + Z.of_nat skip + 1)).
    assert ((0 <=? left) && (left <=? len ms') = (qs_Offset req <? qs_Limit req) && (qs_Limit req <=? len ms)) as -> by lia.
    destruct (Z.ltb_spec (qs_Offset req) (qs_Limit req)); [|done]. cbn [andb].
    replace (Z.to_nat (qs_Limit req - qs_Offset req)) with (S (Z.to_nat left)) by lia. done.
Qed.

(** C36.  A scan yields the rows that satisfy the filter, in the order of the
    source, without the first [offset] and until [limit] rows are counted: the
    skipped rows count, so at most [limit - offset] rows are shown, and no
    limit is left when it does not exceed the offset (unless it is 0).  A row
    on which the filter fails stops the scan with that error, after the rows
    before it, if the limit is not reached earlier.  The loop ends: it visits
    each row of the source at most once. *)
Theorem scan_yields_matching tx sc rows fuel n :
  rl_rows tx sc rows -> evaluable rows -> (length rows <= fuel)%nat -> (length rows < n)%nat ->
  0 <= qs_Offset req -> len rows < 2 ^ 63 ->
  exists tx', ('(tx, iter) ← scan_Next fuel tx (start req sc); drain n fuel tx iter) =
    Ok (tx', limited (qs_Offset req) (qs_Limit req) (matching f rows)).
Proof using Type*. by apply limited_rows. Qed.

End scan.

(** ** A concrete scan *)

#[export] Instance list_source : RowSource unit (list Row) :=
  {| rs_Valid rows := Ok (bool_decide (rows <> [])); rs_Next rows := Ok (tail rows);
     rs_Deref tx rows := match rows with r :: _ => Ok (tx, r) | [] => Panic end |}.

#[export] Program Instance list_rows : RowList unit (list Row) := {| rl_rows tx sc rows := sc = rows |}.
Next Obligation. by intros _ sc rows ->. Qed.
Next Obligation. intros [] sc r rows ->. by exists tt. Qed.
Next Obligation. intros [] sc r rows ->. by exists rows. Qed.

Definition row_n (n : Z) : Row := mkRow [bytes_of "a"] [mkValue TYPE_INT64 n []].

(** [filter a > 1 limit 1, 2]: one row of the two that were asked for. *)
Definition scan_above : QLScan :=
  mkQLScan [] (mkQLNode 0 0 [] []) (mkQLNode 0 0 [] [])
    (mkQLNode QL_CMP_GT 0 [] [mkQLNode QL_SYM 0 (bytes_of "a") []; mkQLNode QL_I64 1 [] []]) 1 2.

Example scan_yields_matching_witness :
  ('(tx, iter) ← scan_Next 5 tt (start scan_above (row_n <$> [1; 2; 3; 4; 5]));
   drain 6 5 tx iter) = Ok (tt, ([row_n 3], None)).
Proof.
  destruct (scan_yields_matching scan_above tt (row_n <$> [1; 2; 3; 4; 5]) (row_n <$> [1; 2; 3; 4; 5]) 5 6) as ([] & ->).
  - reflexivity.
  - repeat (apply Forall_cons; split; [eexists; vm_compute; reflexivity|]). by apply Forall_nil.
  - cbn. lia.
  - cbn. lia.
  - done.
  - done.
  - vm_compute. reflexivity.
Defined.
