(* ===== verification/TableScan.v ===== *)
(** * Range queries on a table

    [range_view]: range queries of the transaction yield the keys of a map in
    order, the contract that RangeProps.v provides.  Over it, [dbScan] on an
    index of a table yields the rows whose columns are in the range, in the
    order of the index, and [dbGet] the row of a primary key. *)

From S2P Require Import Prelude.
From S2P Require Import GoBytes.
From S2P Require Import KVSpec.
From S2P Require Import BTree.
From S2P Require Import BTreeRep.
From S2P Require Import BTreeInsert.
From S2P Require Import MemStore.
From S2P Require Import BTreeMap.
From S2P Require Import BIter.
From S2P Require Import BIterProps.
From S2P Require Import Conflict.
From S2P Require Import Encode.
From S2P Require Import EncodeFacts.
From S2P Require EncodeProps.
From S2P Require Import QLNode.
From S2P Require Import EvalFacts.
From S2P Require Import Parser.
From S2P Require Import Schema.
From S2P Require Import SchemaFacts.
From S2P Require Import KVTX.
From S2P Require Import KVTXFacts.
From S2P Require Import RangeFacts.
From S2P Require Import RangeProps.
From S2P Require Import RowFacts.
From S2P Require Import TableSpec.
From S2P Require Import Table.
From S2P Require Import TableUpdate.
From S2P Require Import Exec.
From S2P Require Import ScanProps.

(** ** The contract *)

Definition range_view (depth : nat) (file : bytes) (tx : KVTX) (N : gmap bytes bytes) : Prop :=
  forall reads key1 cmp1 key2 cmp2, opposite_cmps cmp1 cmp2 -> key1 <> [] ->
  exists it l, tx_Seek depth file (set_reads tx reads) key1 cmp1 key2 cmp2 =
      Ok (set_reads tx (reads ++ [range_read key1 cmp1 key2]), it) /\
    ci_list it l /\ StronglySorted (kv_before cmp1) l /\
    forall k v, (k, v) ∈ l <-> N !! k = Some v /\ in_range key1 cmp1 key2 cmp2 k.

(** A transaction that has deleted nothing, over trees of at most two levels. *)
Lemma tx_range_view depth file tx h hp kvs P r :
  tree_reads h (snapshot file tx) kvs -> (h <= 1)%nat -> (h < depth)%nat ->
  tree_models hp ∅ (tx_pending tx) P r -> (hp <= 1)%nat -> (hp < depth)%nat -> flagged P ->
  (forall k, P !! k <> Some [FLAG_DELETED]) -> range_view depth file tx (overlay (kv_map kvs) P).
Proof.
  intros Hs Hh Hhd Hp Hhp Hhpd Hfl Hdel reads key1 cmp1 key2 cmp2 Hc Hk.
  destruct (tx_Seek_ok depth file (set_reads tx reads) h hp kvs P r Hs Hhd Hp Hhpd Hfl key1 cmp1 key2 cmp2 Hc)
    as (it & l & E & Hl & Hsort & Hel); [by left..|].
  exists it, l. split; [exact E|]. split; [exact Hl|]. split; [exact Hsort|]. intros k v. by rewrite Hel, visible_overlay.
Qed.

(** ** Keys of one prefix *)

(** What lies between two keys with a common prefix has it too. *)
Lemma between_prefix (p x y k : bytes) : ble (p ++ x) k -> ble k (p ++ y) -> take (length p) k = p.
Proof.
  revert k. induction p as [|b p IH]; intros [|c k]; try done; unfold ble; cbn.
  destruct (Z.compare_spec (byte.unsigned b) (byte.unsigned c)) as [E|E|E]; try done.
  - rewrite E, Z.compare_refl. intros H1 H2. rewrite (IH k H1 H2). f_equal. symmetry. by apply byte.unsigned_inj.
  - intros _. rewrite (proj2 (Z.compare_gt_iff _ _)) by lia. done.
Qed.

Lemma cmp_holds_compare k cmp key : is_cmp cmp -> cmp_holds k cmp key <-> EncodeProps.cmp_holds cmp (bytes_compare k key) = true.
Proof.
  intros Hc. pose proof (cmpOK_ok k cmp key Hc) as E. rewrite EncodeProps.cmpOK_holds in E.
  2:{ unfold EncodeProps.is_cmp. destruct Hc as [-> |[-> |[-> | ->]]]; set_solver. }
  injection E as ->. by rewrite bool_decide_eq_true.
Qed.

Lemma cmp_elem cmp : is_cmp cmp -> EncodeProps.is_cmp cmp.
Proof. unfold EncodeProps.is_cmp. intros [-> |[-> |[-> | ->]]]; set_solver. Qed.

(** A bound of a range on the leading columns [ks] of an index. *)
Definition bound_key (p : Z) (ks : list Value) (cmp : Z) : bytes := be_split 4 p ++ enc ks ++ EncodeProps.infinity cmp.

Lemma encodeKeyPartial_cells p ks cmp : Forall cell_ok ks ->
  encodeKeyPartial [] p ks cmp = Ok (bound_key p (norm <$> ks) cmp).
Proof.
  intros Hk. transitivity (encodeKeyPartial [] p (norm <$> ks) cmp).
  - unfold encodeKeyPartial, encodeKey. by rewrite encodeValues_norm.
  - apply EncodeProps.encodeKeyPartial_ok. by apply Forall_norm_ok.
Qed.

Lemma bound_key_ne p ks cmp : bound_key p ks cmp <> [].
Proof. intros E. apply (f_equal length) in E. unfold bound_key in E. rewrite length_app, length_be_split in E. done. Qed.

(** The leading columns of [vals] satisfy the comparison. *)
Definition cols_hold (cmp : Z) (ks vals : list Value) : bool :=
  EncodeProps.cmp_holds cmp (vals_compare (take (length ks) vals) ks).

Lemma bound_key_holds p vals ks cmp : 0 <= p < 2 ^ 32 -> Forall value_ok vals -> Forall value_ok ks -> same_types vals ks ->
  (length ks <= length vals)%nat -> is_cmp cmp ->
  cmp_holds (key_of p vals) cmp (bound_key p ks cmp) <-> cols_hold cmp ks vals = true.
Proof.
  intros Hp Hv Hk Ht Hl Hc. rewrite cmp_holds_compare by done. unfold key_of, bound_key, cols_hold.
  by rewrite EncodeProps.partial_compare by (done || by apply cmp_elem).
Qed.

(** A range between two bounds of one prefix holds keys of that prefix. *)
Lemma bounds_prefix p ks1 cmp1 ks2 cmp2 k : opposite_cmps cmp1 cmp2 ->
  in_range (bound_key p ks1 cmp1) cmp1 (bound_key p ks2 cmp2) cmp2 k -> take 4 k = be_split 4 p.
Proof.
  intros Hc Hr. pose proof (range_read_covers _ _ _ _ _ Hc Hr) as [H1 H2]. unfold range_read, bound_key in *.
  rewrite <- (length_be_split 4 p) at 1. destruct (cmp1 <? 0); cbn in H1, H2; by eapply between_prefix.
Qed.

Lemma key_of_compare p vs ws : 0 <= p < 2 ^ 32 -> Forall value_ok vs -> Forall value_ok ws -> same_types vs ws ->
  length vs = length ws -> bytes_compare (key_of p vs) (key_of p ws) = vals_compare vs ws.
Proof.
  intros Hp Hv Hw Ht Hl. apply (EncodeProps.encodeKey_order p); try done; by rewrite encodeKey_ok.
Qed.

(** ** Lists related element by element *)

Lemma Forall2_from {A B} (E : A -> B -> Prop) l : (forall x, x ∈ l -> exists y, E x y) -> exists k, Forall2 E l k.
Proof.
  induction l as [|x l IH]; intros H; [by exists []|]. destruct (H x) as [y Hy]; [left|].
  destruct IH as [k Hk]; [intros z Hz; apply H; by right|]. exists (y :: k). by constructor.
Qed.

Lemma Forall2_sorted {A B} (E : A -> B -> Prop) (R : relation A) (R' : relation B) l k :
  Forall2 E l k -> (forall x y a b, E x a -> E y b -> R x y -> R' a b) -> StronglySorted R l -> StronglySorted R' k.
Proof.
  intros H HR. induction H as [|x a l k Hx Hl IH]; intros Hs; [constructor|]. apply StronglySorted_inv in Hs as [Hs Hf].
  constructor; [auto|]. clear IH Hs. induction Hl as [|y b l k Hy _ IHl]; constructor; apply Forall_cons in Hf as [? ?]; eauto.
Qed.

Section table.
Context (depth : nat) (file : bytes) (tdef : TableDef) (Hok : table_ok tdef).

(** ** The entries of one index *)

(** The row [vals] of [T] as the pair [p] of the index [i]. *)
Definition entry_at (i : nat) (T : table) (p : kv) (vals : list Value) : Prop :=
  T !! take (npk tdef) vals = Some (drop (npk tdef) vals) /\
  exists idx pre, td_Indexes tdef !! i = Some idx /\ td_Prefixes tdef !! i = Some pre /\
    p = (key_of pre (project tdef vals idx), match i with O => row_val tdef vals | S _ => [] end).

Lemma row_of T pk rest : rows_ok tdef T -> T !! pk = Some rest ->
  T !! take (npk tdef) (pk ++ rest) = Some (drop (npk tdef) (pk ++ rest)).
Proof using. intros HT H. destruct (HT _ _ H) as [<- _]. by rewrite take_app_length, drop_app_length. Qed.

Lemma row_typed T vals : rows_ok tdef T -> T !! take (npk tdef) vals = Some (drop (npk tdef) vals) ->
  typed tdef (all_cols tdef) vals.
Proof using. intros HT H. destruct (HT _ _ H) as [_ [Ht _]]. by rewrite take_drop in Ht. Qed.

Lemma row_key_project pre vals : typed tdef (all_cols tdef) vals -> td_Prefixes tdef !! 0%nat = Some pre ->
  td_Indexes tdef !! 0%nat = Some (pk_cols tdef) /\ row_key tdef vals = key_of pre (project tdef vals (pk_cols tdef)).
Proof using Hok.
  intros Ht Hp. destruct (td_split tdef Hok) as (pk & rest & E & Epk & _). rewrite E, Epk. split; [done|].
  rewrite <- Epk, project_pk by done. unfold row_key. pose proof (row_prefix_at tdef Hok) as H0. congruence.
Qed.

(** The keys with the prefix of an index are the rows. *)
Lemma stored_index T N i pre k v :
  stored tdef T N -> td_Prefixes tdef !! i = Some pre -> take 4 k = be_split 4 pre ->
  N !! k = Some v <-> exists vals, entry_at i T (k, v) vals.
Proof using Hok.
  intros [HT HN] Hp Hk. rewrite HN.
  2:{ apply Exists_exists. exists pre. split; [by eapply list_elem_of_lookup_2|done]. }
  assert (forall j p' vs, td_Prefixes tdef !! j = Some p' -> take 4 (key_of p' vs) = be_split 4 pre -> j = i) as Hsame.
  { intros j p' vs Hj E. rewrite take_key_of in E. assert (p' = pre) as ->; [|by eapply prefix_unique].
    pose proof (prefix_at _ Hok _ _ Hp). pose proof (prefix_at _ Hok _ _ Hj).
    rewrite <- (be_split_value 4 p'), <- (be_split_value 4 pre), E by done. done. }
  split.
  - intros He. revert Hk. destruct He as [pk rest H|pk rest key H Hin]; intros Hk; exists (pk ++ rest); pose proof (row_of _ _ _ HT H) as Hrow;
      pose proof (row_typed _ _ HT Hrow) as Ht; (split; [exact Hrow|]).
    + pose proof (row_prefix_at tdef Hok) as H0. destruct (row_key_project _ _ Ht H0) as [Hi E].
      rewrite E in Hk. rewrite <- (Hsame 0%nat _ _ H0 Hk). exists (pk_cols tdef), (row_prefix tdef). split_and!; try done. by rewrite E.
    + apply list_elem_of_lookup in Hin as [j (idx & p' & Hi & Hj & ->)%index_key_lookup].
      rewrite <- (Hsame _ _ _ Hj Hk). by exists idx, p'.
  - intros (vals & Hrow & idx & p' & Hi & Hj & [= -> ->]). pose proof (row_typed _ _ HT Hrow) as Ht.
    destruct i as [|i].
    + destruct (row_key_project _ _ Ht Hj) as [Hi' E]. rewrite Hi in Hi'. injection Hi' as ->. rewrite <- E.
      pose proof (entry_row tdef T _ _ Hrow) as He. by rewrite take_drop in He.
    + eapply entry_index; [exact Hrow|]. rewrite take_drop. apply list_elem_of_lookup. exists i.
      apply index_key_lookup. by exists idx, p'.
Qed.

Lemma entry_at_unique i T p vals vals' : rows_ok tdef T -> entry_at i T p vals -> entry_at i T p vals' -> vals = vals'.
Proof using Hok.
  intros HT (H & idx & pre & Hi & Hp & ->) (H' & idx' & pre' & Hi' & Hp' & E).
  rewrite Hi in Hi'. injection Hi' as <-. rewrite Hp in Hp'. injection Hp' as <-. apply (f_equal fst) in E. cbn [fst] in E.
  pose proof (row_typed _ _ HT H) as Ht. pose proof (row_typed _ _ HT H') as Ht'.
  apply key_of_inj in E as [_ E]; [|by eapply prefix_at..].
  assert (idx ⊆ td_Cols tdef /\ pk_cols tdef ⊆ idx) as [Hs Hpk].
  { destruct i as [|i]; [|by eapply index_at]. destruct (row_key_project _ _ Ht Hp) as [Hi' _]. rewrite Hi in Hi'. injection Hi' as ->.
    split; [|done]. destruct (td_split tdef Hok) as (pk & rest & _ & -> & (_ & _ & Hc) & _). done. }
  pose proof (project_inj tdef Hok _ _ _ Ht Ht' Hs Hpk E) as Epk. rewrite Epk in H. rewrite H in H'. injection H' as H'.
  by rewrite <- (take_drop (npk tdef) vals), <- (take_drop (npk tdef) vals'), Epk, H'.
Qed.

(** ** Scanning *)

(** A record that bounds a range: columns of the table, with their types. *)
Definition bound_ok (rec : Row) : Prop :=
  Forall2 (fun c v => c ∈ td_Cols tdef /\ cell_ok v /\ col_type tdef c = Some (v_Type v)) (rec_Cols rec) (rec_Vals rec).

Lemma checkTypes_bound rec : bound_ok rec -> checkTypes tdef rec = Ok None.
Proof using Hok.
  intros Hb. unfold checkTypes. pose proof (Forall2_length _ _ _ Hb) as Hl. unfold len. rewrite Hl, Z.eqb_refl. cbn [negb].
  induction Hb as [|c v cols vals (Hc & _ & Ht) _ IH]; [done|]. cbn [checkTypes_loop]. cbv zeta.
  destruct (col_type_some tdef Hok c Hc) as (t & Ht' & _ & Hi). apply slices_Index_in in Hc as Hn.
  rewrite (proj2 (Z.ltb_ge _ _)) by lia. rewrite Hi. step_res. rewrite Ht in Ht'. injection Ht' as <-. rewrite Z.eqb_refl.
  cbn [negb]. apply IH. cbn in Hl. lia.
Qed.

Lemma bound_cells rec : bound_ok rec -> Forall cell_ok (rec_Vals rec).
Proof using. unfold bound_ok. induction 1 as [|c v cols vals (_ & Hv & _) _ IH]; by constructor. Qed.

(** The leading columns of an index and a bound on them. *)
Lemma bound_types rec idx vals : bound_ok rec -> covered (rec_Cols rec) idx = true -> typed tdef idx vals ->
  same_types vals (norm <$> rec_Vals rec) /\ (length (norm <$> rec_Vals rec) <= length vals)%nat.
Proof using.
  intros Hb Hcov Ht. apply andb_true_iff in Hcov as [_ Hcov%bool_decide_eq_true]. unfold bound_ok in Hb. rewrite <- Hcov in Hb.
  revert Hb. generalize (rec_Vals rec). generalize (length (rec_Cols rec)). clear Hcov.
  induction Ht as [|c v idx vals [_ Hv] _ IH]; intros n ks Hb.
  - rewrite take_nil in Hb. inversion Hb; subst. by split.
  - destruct n as [|n]; [inversion Hb; subst; by (split; [|cbn; lia])|]. cbn in Hb.
    inversion Hb as [|c' k ? ks' (_ & _ & Hk) Hb']; subst. destruct (IH n ks' Hb') as [H1 H2]. cbn. rewrite norm_type. split; [|lia].
    split; [congruence|done].
Qed.

Lemma IndexFunc_at {A} (f : A -> bool) l i : IndexFunc f l = Z.of_nat i -> exists x, l !! i = Some x /\ f x = true.
Proof using.
  revert i. induction l as [|x l IH]; intros i; cbn; [lia|]. destruct (f x) eqn:Ef.
  - intros Hi. assert (i = 0%nat) as -> by lia. by exists x.
  - destruct (Z.ltb_spec (IndexFunc f l) 0) as [|Hn]; [lia|]. intros Hi. destruct i as [|i]; [lia|].
    apply (IH i). lia.
Qed.

(** The index of a request. *)
Definition scan_index (req : ScanReq) : Z :=
  IndexFunc (fun idx => covered (rec_Cols (sr_Key1 req)) idx && covered (rec_Cols (sr_Key2 req)) idx) (td_Indexes tdef).

(** The row is in the range, going by the columns [idx]. *)
Definition row_in (req : ScanReq) (idx : list bytes) (vals : list Value) : bool :=
  cols_hold (sr_Cmp1 req) (norm <$> rec_Vals (sr_Key1 req)) (project tdef vals idx) &&
  cols_hold (sr_Cmp2 req) (norm <$> rec_Vals (sr_Key2 req)) (project tdef vals idx).

(** The order of an index, in a direction. *)
Definition row_before (d : Z) (idx : list bytes) (vals vals' : list Value) : Prop :=
  let c := vals_compare (project tdef vals idx) (project tdef vals' idx) in if 0 <? d then c < 0 else 0 < c.

(** [rows] are what the scanner has still to yield. *)
Definition scans (tx : KVTX) (T : table) (sc : Scanner) (rows : list (list Value)) : Prop :=
  exists N i l, sc_tdef sc = tdef /\ sc_index sc = Z.of_nat i /\ stored tdef T N /\ range_view depth file tx N /\
    ci_list (sc_iter sc) l /\ Forall2 (entry_at i T) l rows.

Lemma typed_index i idx vals : td_Indexes tdef !! i = Some idx -> typed tdef (all_cols tdef) vals ->
  typed tdef idx (project tdef vals idx).
Proof using Hok.
  intros Hi Ht. apply typed_project; [done..|]. destruct i as [|i]; [|by eapply index_at].
  destruct (td_split tdef Hok) as (pk & rest & E & _ & (_ & _ & Hc) & _). rewrite E in Hi. by injection Hi as <-.
Qed.

(** Two rows in one index have columns of the same types. *)
Lemma typed_same cols vs ws : typed tdef cols vs -> typed tdef cols ws -> same_types vs ws /\ length vs = length ws.
Proof using.
  intros Hv. revert ws. induction Hv as [|c v cols vs [_ Hc] _ IH]; intros ws Hw; inversion Hw as [|? w ? ws' [_ Hc'] Hw']; subst; [done|].
  destruct (IH ws' Hw') as [H1 H2]. cbn. split; [|by rewrite H2]. split; [congruence|done].
Qed.

Lemma dbScan_ok tx N T req i :
  stored tdef T N -> range_view depth file (dt_kv tx) N -> opposite_cmps (sr_Cmp1 req) (sr_Cmp2 req) ->
  bound_ok (sr_Key1 req) -> bound_ok (sr_Key2 req) -> scan_index req = Z.of_nat i ->
  exists reads sc idx rows, td_Indexes tdef !! i = Some idx /\
    dbScan depth file tx tdef req = Ok (set_kv tx (set_reads (dt_kv tx) reads), inl sc) /\
    sc_index sc = Z.of_nat i /\ scans (dt_kv tx) T sc rows /\ StronglySorted (row_before (sr_Cmp1 req) idx) rows /\
    forall vals, vals ∈ rows <-> T !! take (npk tdef) vals = Some (drop (npk tdef) vals) /\ row_in req idx vals = true.
Proof using Hok.
  intros Hst Hview Hc Hb1 Hb2 Hi. pose proof Hst as [HT _].
  destruct (IndexFunc_at _ _ _ Hi) as (idx & Hidx & [Hcov1 Hcov2]%andb_true_iff).
  assert (exists p, td_Prefixes tdef !! i = Some p) as [p Hp].
  { apply lookup_lt_is_Some_2. rewrite (to_prefixes _ Hok). by eapply lookup_lt_Some. }
  pose proof (prefix_at _ Hok _ _ Hp) as Hpr.
  set (b1 := bound_key p (norm <$> rec_Vals (sr_Key1 req)) (sr_Cmp1 req)).
  set (b2 := bound_key p (norm <$> rec_Vals (sr_Key2 req)) (sr_Cmp2 req)).
  destruct (Hview (tx_reads (dt_kv tx)) b1 (sr_Cmp1 req) b2 (sr_Cmp2 req) Hc (bound_key_ne _ _ _)) as (it & l & E & Hl & Hs & Hel).
  assert (forall k v, (k, v) ∈ l -> exists vals, entry_at i T (k, v) vals) as Hentry.
  { intros k v [Hk Hr]%Hel. apply (stored_index T N i p); [done..| |done]. by eapply bounds_prefix. }
  assert (forall vals, T !! take (npk tdef) vals = Some (drop (npk tdef) vals) ->
    in_range b1 (sr_Cmp1 req) b2 (sr_Cmp2 req) (key_of p (project tdef vals idx)) <-> row_in req idx vals = true) as Hin.
  { intros vals Hrow. pose proof (typed_index _ _ _ Hidx (row_typed _ _ HT Hrow)) as Hti.
    destruct (bound_types _ _ _ Hb1 Hcov1 Hti) as [Ht1 Hl1]. destruct (bound_types _ _ _ Hb2 Hcov2 Hti) as [Ht2 Hl2].
    pose proof (typed_values _ _ _ Hti) as Hv. destruct Hc as (Hc1 & Hc2 & _). unfold in_range, row_in, b1, b2.
    rewrite !bound_key_holds by (done || by apply Forall_norm_ok, bound_cells). by rewrite andb_true_iff. }
  destruct (Forall2_from (entry_at i T) l) as [rows Hrows]; [intros [k v]; apply Hentry|].
  exists (tx_reads (dt_kv tx) ++ [range_read b1 (sr_Cmp1 req) b2]), (mkScanner tdef (Z.of_nat i) it), idx, rows.
  split; [done|]. split; [|split; [done|split; [|split]]].
  - unfold dbScan. destruct Hc as (_ & _ & Hopp).
    assert (((0 <? sr_Cmp1 req) && (sr_Cmp2 req <? 0)) || ((0 <? sr_Cmp2 req) && (sr_Cmp1 req <? 0)) = true) as -> by lia.
    cbn [negb]. rewrite !checkTypes_bound by done. step_res. fold (scan_index req). rewrite Hi.
    rewrite (proj2 (Z.ltb_ge _ _)) by lia. assert (index (td_Prefixes tdef) (Z.of_nat i) = Ok p) as ->.
    { unfold index. rewrite (proj2 (Z.leb_le _ _)) by lia. by rewrite Nat2Z.id, Hp. }
    step_res. rewrite !encodeKeyPartial_cells by by apply bound_cells. step_res. fold b1 b2.
    assert (set_reads (dt_kv tx) (tx_reads (dt_kv tx)) = dt_kv tx) as Eid by by destruct (dt_kv tx).
    rewrite Eid in E. rewrite E. by step_res.
  - by exists N, i, l.
  - eapply Forall2_sorted; [exact Hrows| |exact Hs].
    intros x y a b (Ha & idx1 & p1 & Hi1 & Hp1 & ->) (Hb & idx2 & p2 & Hi2 & Hp2 & ->). unfold kv_before, row_before, blt. cbn [fst].
    rewrite Hidx in Hi1, Hi2. rewrite Hp in Hp1, Hp2. injection Hi1 as <-. injection Hi2 as <-. injection Hp1 as <-. injection Hp2 as <-.
    pose proof (typed_index _ _ _ Hidx (row_typed _ _ HT Ha)) as Hta. pose proof (typed_index _ _ _ Hidx (row_typed _ _ HT Hb)) as Htb.
    destruct (typed_same _ _ _ Hta Htb) as [Hsame Hlen].
    pose proof (key_of_compare p _ _ Hpr (typed_values _ _ _ Hta) (typed_values _ _ _ Htb) Hsame Hlen) as Ecmp.
    rewrite (bytes_compare_antisym (key_of p (project tdef a idx))), Ecmp. destruct (0 <? sr_Cmp1 req); lia.
  - intros vals. split.
    + intros [j Hj]%list_elem_of_lookup. destruct (Forall2_lookup_r _ _ _ _ _ Hrows Hj) as ([k v] & Hlj & He).
      pose proof He as (Hrow & idx1 & p1 & Hi1 & Hp1 & [= -> _]). rewrite Hidx in Hi1. rewrite Hp in Hp1. injection Hi1 as <-. injection Hp1 as <-.
      split; [done|]. apply Hin; [done|]. apply list_elem_of_lookup_2 in Hlj. by apply Hel in Hlj as [_ Hr].
    + intros [Hrow Hr]. apply Hin in Hr; [|done].
      assert (entry_at i T (key_of p (project tdef vals idx), match i with O => row_val tdef vals | S _ => [] end) vals) as He.
      { split; [done|]. by exists idx, p. }
      pose proof (proj2 (stored_index T N i p _ _ Hst Hp (take_key_of _ _)) (ex_intro _ vals He)) as HN.
      pose proof (proj2 (Hel _ _) (conj HN Hr)) as Hinl. apply list_elem_of_lookup in Hinl as [j Hj].
      destruct (Forall2_lookup_l _ _ _ _ _ Hrows Hj) as (vals' & Hj' & He').
      rewrite (entry_at_unique _ _ _ _ _ HT He He'). by eapply list_elem_of_lookup_2.
Qed.

(** ** The scanner *)

Lemma scans_reads tx reads T sc rows : scans tx T sc rows -> scans (set_reads tx reads) T sc rows.
Proof using. done. Qed.

Lemma scans_Valid tx T sc rows : scans tx T sc rows -> Scanner_Valid sc = Ok (bool_decide (rows <> [])).
Proof using.
  intros (N & i & l & _ & _ & _ & _ & Hl & Hrows). unfold Scanner_Valid. rewrite (list_Valid _ _ Hl). f_equal.
  apply bool_decide_ext. by inversion Hrows.
Qed.

Lemma scans_Next tx T sc vals rows : scans tx T sc (vals :: rows) ->
  exists sc', Scanner_Next sc = Ok sc' /\ scans tx T sc' rows.
Proof using.
  intros (N & i & l & Et & Ei & Hst & Hv & Hl & Hrows). inversion Hrows as [|p ? l' ? He Hrows']; subst.
  destruct (list_Next _ _ _ Hl) as (it' & E & Hl'). unfold Scanner_Next. rewrite E. step_res. eexists. split; [reflexivity|].
  by exists N, i, l'.
Qed.

(** The values that [Deref] decodes into. *)
Lemma blank_values_typed cols vals : cols ⊆ td_Cols tdef -> typed tdef cols vals -> blank_values tdef cols = Ok (blank <$> vals).
Proof using Hok.
  intros Hs Ht. induction Ht as [|c v cols vals [_ Hc] _ IH]; [done|]. cbn [blank_values].
  destruct (col_type_some tdef Hok c) as (t & Ht' & _ & ->); [set_solver|]. step_res. rewrite Hc in Ht'. injection Ht' as <-.
  rewrite IH by set_solver. by step_res.
Qed.

Lemma decodeKey_of p vs : Forall value_ok vs -> decodeKey (key_of p vs) (blank <$> vs) = Ok vs.
Proof using.
  intros Hv. unfold decodeKey, key_of. rewrite slice_from_app by (unfold len; by rewrite length_be_split). step_res.
  by apply decodeValues_ok.
Qed.

(** Up to here [Deref] is the same for all indexes. *)
Lemma Deref_start n kvtx tx T sc vals rows : scans kvtx T sc (vals :: rows) ->
  exists N i idx pre, sc_index sc = Z.of_nat i /\ stored tdef T N /\ range_view depth file kvtx N /\
    T !! take (npk tdef) vals = Some (drop (npk tdef) vals) /\ typed tdef (all_cols tdef) vals /\
    td_Indexes tdef !! i = Some idx /\ td_Prefixes tdef !! i = Some pre /\
    sc_Deref depth file (S n) tx sc =
      if sc_index sc =? 0 then
        keys ← decodeKey (key_of pre (project tdef vals idx)) (take (npk tdef) (blank <$> vals));
        rest ← decodeValues (match i with O => row_val tdef vals | S _ => [] end) (drop (npk tdef) (blank <$> vals));
        Ok (tx, mkRow (all_cols tdef) (keys ++ rest))
      else
        vs ← decodeKey (key_of pre (project tdef vals idx)) (blank <$> project tdef vals idx);
        pkvals ← extract_pk (mkRow idx vs) (pk_cols tdef);
        '(tx, r) ← dbGet_with depth file (sc_Deref depth file n) tx tdef
                     (mkRow (all_cols tdef) (pkvals ++ drop (npk tdef) (blank <$> vals)));
        match r with inl (Some rec) => Ok (tx, rec) | _ => Panic end.
Proof using Hok.
  intros Hsc. pose proof (scans_Valid _ _ _ _ Hsc) as HV. rewrite bool_decide_true in HV by done.
  destruct Hsc as (N & i & l & Et & Ei & Hst & Hview & Hl & Hrows). inversion Hrows as [|p ? l' ? He Hrows']; subst l; subst.
  pose proof He as (Hrow & idx & pre & Hi & Hp & ->). pose proof Hst as [HT _].
  pose proof (row_typed _ _ HT Hrow) as Ht. exists N, i, idx, pre. split_and!; try done.
  cbn [sc_Deref]. rewrite HV. step_res. rewrite Et, row_cols_ok by done. step_res.
  rewrite (blank_values_typed _ vals) by (done || (intros c Hc; by apply (all_cols_in tdef Hok))). step_res.
  rewrite (list_Deref _ _ _ Hl). step_res.
  destruct (td_split tdef Hok) as (pk & rest & Eidx & Epk & _).
  assert (index (td_Indexes tdef) 0 = Ok (pk_cols tdef)) as -> by (rewrite Eidx, Epk; done). step_res. fold (npk tdef).
  rewrite Ei. destruct (Z.eqb_spec (Z.of_nat i) 0) as [H0|H0]; [done|].
  destruct i as [|i]; [done|]. change (len (@nil byte) =? 0) with true. step_res.
  assert (index (td_Indexes tdef) (Z.of_nat (S i)) = Ok idx) as ->.
  { unfold index. rewrite (proj2 (Z.leb_le _ _)) by lia. by rewrite Nat2Z.id, Hi. }
  step_res. destruct (index_at _ Hok _ _ Hi) as [Hs _].
  rewrite (blank_values_typed idx _ Hs (typed_index _ _ _ Hi Ht)). by step_res.
Qed.

(** On the first index the transaction is not asked. *)
Lemma Deref_first n kvtx tx T sc vals rows : scans kvtx T sc (vals :: rows) -> sc_index sc = 0 ->
  sc_Deref depth file (S n) tx sc = Ok (tx, mkRow (all_cols tdef) vals).
Proof using Hok.
  intros Hsc Hz. destruct (Deref_start n kvtx tx T sc vals rows Hsc) as (N & i & idx & pre & Hi0 & Hst & _ & Hrow & Ht & Hi & Hp & ->).
  rewrite Hz. cbn [Z.eqb]. assert (i = 0%nat) as -> by lia. destruct (row_key_project _ _ Ht Hp) as [Hi' _].
  rewrite Hi in Hi'. injection Hi' as ->. rewrite project_pk, <- !fmap_take, <- !fmap_drop by done.
  pose proof (typed_values _ _ _ Ht) as Hv. rewrite decodeKey_of by by apply Forall_take. step_res.
  unfold row_val. rewrite decodeValues_ok by by apply Forall_drop. step_res. by rewrite take_drop.
Qed.

(** ** Point lookups *)

(** The request of [dbGet]: one primary key. *)
Definition pk_req (ks : list Value) : ScanReq :=
  mkScanReq CMP_GE CMP_LE (mkRow (pk_cols tdef) ks) (mkRow (pk_cols tdef) ks).

Lemma covered_self cols : covered cols cols = true.
Proof using. unfold covered. rewrite firstn_all. by rewrite bool_decide_true, Z.leb_refl. Qed.

Lemma pk_req_index ks : scan_index (pk_req ks) = 0.
Proof using Hok.
  destruct (td_split tdef Hok) as (pk & rest & E & Epk & _). unfold scan_index, pk_req. cbn [sr_Key1 sr_Key2 rec_Cols].
  rewrite E, Epk. cbn [IndexFunc]. by rewrite covered_self.
Qed.

Lemma row_in_pk ks vals : typed tdef (pk_cols tdef) (norm <$> ks) -> typed tdef (all_cols tdef) vals ->
  row_in (pk_req ks) (pk_cols tdef) vals = true <-> take (npk tdef) vals = norm <$> ks.
Proof using Hok.
  intros Hk Ht. unfold row_in, pk_req, cols_hold. cbn [sr_Cmp1 sr_Cmp2 sr_Key1 sr_Key2 rec_Vals].
  assert (typed tdef (pk_cols tdef) (take (npk tdef) vals)) as Htk.
  { unfold all_cols in Ht. by apply typed_app in Ht as [Ht _]. }
  destruct (typed_same _ _ _ Htk Hk) as [Hs Hl]. rewrite project_pk, firstn_all2 by (done || lia).
  pose proof (prefix_at _ Hok _ _ (row_prefix_at tdef Hok)) as Hp.
  pose proof (key_of_compare _ _ _ Hp (typed_values _ _ _ Htk) (typed_values _ _ _ Hk) Hs Hl) as E.
  unfold EncodeProps.cmp_holds. cbn. rewrite <- E, andb_true_iff, !Z.leb_le. split.
  - intros [H1 H2]. assert (bytes_compare (key_of (row_prefix tdef) (take (npk tdef) vals)) (key_of (row_prefix tdef) (norm <$> ks)) = 0)
      as E0%bytes_compare_eq by lia.
    apply key_of_inj in E0 as [_ E0]; [|done..]. by apply (typed_enc_inj tdef (pk_cols tdef)).
  - intros ->. rewrite bytes_compare_refl. lia.
Qed.

Lemma dbGet_with_ok n tx N T rec vs :
  stored tdef T N -> range_view depth file (dt_kv tx) N ->
  getValues tdef rec (pk_cols tdef) = Ok (inl vs) -> Forall cell_ok vs ->
  exists reads, dbGet_with depth file (sc_Deref depth file (S n)) tx tdef rec =
    Ok (set_kv tx (set_reads (dt_kv tx) reads),
        inl ((fun rest => mkRow (all_cols tdef) ((norm <$> vs) ++ rest)) <$> T !! (norm <$> vs))).
Proof using Hok.
  intros Hst Hview Egv Hc. pose proof Hst as [HT _]. destruct (td_split tdef Hok) as (pk & idxs & Ei & Epk & (_ & _ & Hsub) & _).
  pose proof (getValues_types tdef _ _ _ Egv) as Hty. pose proof (typed_norm tdef _ _ Hty Hc) as Htk.
  assert (bound_ok (mkRow (pk_cols tdef) vs)) as Hb.
  { unfold bound_ok. cbn [rec_Cols rec_Vals]. rewrite <- Epk in Hsub. clear -Hty Hc Hsub. induction Hty as [|c v cols vs Hv _ IH]; constructor.
    - apply Forall_cons in Hc as [Hc _]. split; [set_solver|done].
    - apply Forall_cons in Hc as [_ Hc]. apply IH; [done|set_solver]. }
  destruct (dbScan_ok tx N T (pk_req vs) 0 Hst Hview) as (reads & sc & idx & rows & Hidx & E & Hz & Hsc & _ & Hel).
  { split; [by left|]. split; [by right; right; right|]. left. split; reflexivity. }
  { exact Hb. }
  { exact Hb. }
  { by rewrite pk_req_index. }
  rewrite Ei in Hidx. injection Hidx as <-. rewrite <- Epk in Hel. exists reads. unfold dbGet_with.
  assert (index (td_Indexes tdef) 0 = Ok (pk_cols tdef)) as -> by (rewrite Ei, Epk; done). step_res. rewrite Egv. step_res.
  change (mkScanReq CMP_GE CMP_LE (mkRow (pk_cols tdef) vs) (mkRow (pk_cols tdef) vs)) with (pk_req vs). rewrite E. step_res.
  rewrite (scans_Valid _ _ _ _ Hsc). step_res. destruct rows as [|vals rows].
  - rewrite bool_decide_false by tauto. step_res. destruct (T !! (norm <$> vs)) as [rest|] eqn:Er; [|done]. exfalso.
    destruct (HT _ _ Er) as [Hl [Ht _]].
    assert (((norm <$> vs) ++ rest) ∈ (@nil (list Value))) as Hin%elem_of_nil; [|done].
    apply Hel. rewrite <- Hl, take_app_length, drop_app_length. split; [done|]. apply row_in_pk; [done..|].
    by rewrite <- Hl, take_app_length.
  - rewrite bool_decide_true by done. step_res.
    destruct (proj1 (Hel vals) ltac:(left)) as [Hrow Hin]. pose proof (row_typed _ _ HT Hrow) as Ht.
    apply row_in_pk in Hin; [|done..]. rewrite (Deref_first n (dt_kv tx) _ T sc vals rows).
    + step_res. rewrite Hin in Hrow. rewrite Hrow. cbn. by rewrite <- Hin, take_drop.
    + exact Hsc.
    + exact Hz.
Qed.

(** ** Rows through a secondary index *)

Lemma assoc_project vals idx c : typed tdef (all_cols tdef) vals -> idx ⊆ td_Cols tdef -> c ∈ idx ->
  assoc idx (project tdef vals idx) c = assoc (all_cols tdef) vals c.
Proof using Hok.
  intros Ht. induction idx as [|x idx IH]; intros Hs Hc; [by apply elem_of_nil in Hc|].
  destruct (typed_assoc tdef _ _ x Ht) as (v & Ev & _); [apply (all_cols_in tdef Hok); set_solver|].
  unfold project. cbn [omap list_omap]. rewrite Ev. cbn. destruct (decide (x = c)) as [->|Hne]; [done|].
  apply IH; [set_solver|]. by apply elem_of_cons in Hc as [->|].
Qed.

Lemma extract_pk_ok vals idx cols : typed tdef (all_cols tdef) vals -> idx ⊆ td_Cols tdef -> cols ⊆ idx ->
  extract_pk (mkRow idx (project tdef vals idx)) cols = Ok (project tdef vals cols).
Proof using Hok.
  intros Ht Hs. induction cols as [|c cols IH]; intros Hc; [done|]. cbn [extract_pk].
  destruct (typed_assoc tdef _ _ c Ht) as (v & Ev & _); [apply (all_cols_in tdef Hok); set_solver|].
  rewrite row_Get_assoc.
  2:{ cbn [rec_Cols rec_Vals]. exact (Forall2_length _ _ _ (typed_project tdef Hok _ _ Ht Hs)). }
  cbn [rec_Cols rec_Vals]. rewrite assoc_project, Ev by (done || set_solver). step_res. rewrite IH by set_solver. step_res.
  unfold project. cbn [omap list_omap]. by rewrite Ev.
Qed.

Lemma typed_blank cols vals : typed tdef cols vals -> typed tdef cols (blank <$> vals).
Proof using.
  induction 1 as [|c v cols vals [Hv Hc] _ IH]; constructor; [|exact IH]. split; [|exact Hc].
  destruct Hv as [(Ht & _)|[Ht _]]; [left|right]; cbn [blank v_Type v_I64 v_Str]; [|done]. split; [done|]. split; [lia|done].
Qed.

(** The record with the primary key of a row, and nothing else. *)
Lemma pk_record vals : typed tdef (all_cols tdef) vals ->
  exists vs, getValues tdef (mkRow (all_cols tdef) (take (npk tdef) vals ++ drop (npk tdef) (blank <$> vals))) (pk_cols tdef)
      = Ok (inl vs) /\ Forall cell_ok vs /\ norm <$> vs = take (npk tdef) vals.
Proof using Hok.
  intros Ht. set (ws := take (npk tdef) vals ++ drop (npk tdef) (blank <$> vals)).
  assert (typed tdef (all_cols tdef) ws) as Hw.
  { pose proof (typed_blank _ _ Ht) as Hb. unfold all_cols in *. apply typed_app in Ht as [Ht _], Hb as [_ Hb].
    unfold ws, typed in *. by apply Forall2_app. }
  assert (norm <$> ws = ws) as Hn.
  { pose proof (typed_values _ _ _ Hw) as Hv. clear -Hv. induction Hv as [|v vs Hv _ IH]; [done|]. cbn. by rewrite norm_value_ok, IH. }
  destruct (td_split tdef Hok) as (pk & idxs & _ & Epk & (_ & _ & Hsub) & _).
  destruct (getValues_rec tdef Hok (mkRow (all_cols tdef) ws) ws (pk_cols tdef)) as (vs & E & Hvs & Hc & _).
  { by apply rec_of_row. }
  { by rewrite Epk. }
  exists vs. split; [exact E|]. split; [exact Hc|]. rewrite Hvs, project_pk by done. unfold ws.
  assert (length (take (npk tdef) vals) = npk tdef) as Hl.
  { unfold all_cols in Ht. apply typed_app in Ht as [Ht _]. symmetry. exact (Forall2_length _ _ _ Ht). }
  rewrite <- Hl at 1. apply take_app_length.
Qed.

Lemma scans_Deref n tx T sc vals rows : scans (dt_kv tx) T sc (vals :: rows) ->
  exists reads, sc_Deref depth file (S (S n)) tx sc = Ok (set_kv tx (set_reads (dt_kv tx) reads), mkRow (all_cols tdef) vals).
Proof using Hok.
  intros Hsc. destruct (decide (sc_index sc = 0)) as [H0|H0].
  { exists (tx_reads (dt_kv tx)). rewrite (Deref_first _ _ _ _ _ _ _ Hsc H0). f_equal. f_equal. by destruct tx as [[] ?]. }
  destruct (Deref_start (S n) _ tx T sc vals rows Hsc) as (N & i & idx & pre & Hi0 & Hst & Hview & Hrow & Ht & Hi & Hp & ->).
  rewrite (proj2 (Z.eqb_neq _ _)) by done. destruct i as [|i]; [lia|]. destruct (index_at _ Hok _ _ Hi) as [Hs Hpk].
  rewrite decodeKey_of by (eapply typed_values, typed_project; done). step_res.
  rewrite extract_pk_ok by done. step_res. rewrite project_pk by done.
  destruct (pk_record vals Ht) as (vs & Egv & Hc & Hn).
  destruct (dbGet_with_ok n tx N T _ vs Hst Hview Egv Hc) as (reads & ->). step_res. rewrite Hn, Hrow. cbn [fmap option_fmap option_map].
  exists reads. by rewrite take_drop.
Qed.

End table.

(** ** A table is a source of rows *)

#[export] Program Instance table_rows depth file : RowList DBTX Scanner (RowSource0 := table_source depth file) := {|
  rl_rows tx sc rows := exists tdef T vals, table_ok tdef /\ scans depth file tdef (dt_kv tx) T sc vals /\
    rows = mkRow (all_cols tdef) <$> vals
|}.
Next Obligation.
  intros depth file tx sc rows (tdef & T & vals & Hok & Hsc & ->). change (Scanner_Valid sc = Ok (bool_decide (mkRow (all_cols tdef) <$> vals <> []))).
  rewrite (scans_Valid _ _ _ _ _ _ _ Hsc). f_equal. apply bool_decide_ext. by destruct vals.
Qed.
Next Obligation.
  intros depth file tx sc r rows (tdef & T & [|v vals] & Hok & Hsc & [= -> ->]).
  destruct (scans_Deref depth file tdef Hok 0 tx T sc v vals Hsc) as (reads & E). eexists. split; [exact E|].
  exists tdef, T, (v :: vals). split; [done|]. split; [exact Hsc|done].
Qed.
Next Obligation.
  intros depth file tx sc r rows (tdef & T & [|v vals] & Hok & Hsc & [= -> ->]).
  destruct (scans_Next depth file tdef _ T sc v vals Hsc) as (sc' & E & Hsc'). exists sc'. split; [exact E|].
  by exists tdef, T, vals.
Qed.
