(* ===== verification/ExecGrows.v ===== *)
(** * Statements only add to a transaction

    Whatever a statement does, and however it ends, the snapshot of its
    transaction stays and the pages of pending updates only grow: what
    [tx_Revert] needs to undo it.  [stays tx m] says it of a computation [m];
    the tactic [stays] runs through the computation. *)

From S2P Require Import Prelude.
From S2P Require Import GoBytes.
From S2P Require Import KVSpec.
From S2P Require Import BTree.
From S2P Require Import Encode.
From S2P Require Import QLNode.
From S2P Require Import Eval.
From S2P Require Import Parser.
From S2P Require Import Schema.
From S2P Require Import KVTX.
From S2P Require Import KVView.
From S2P Require Import Table.
From S2P Require Import Exec.

Definition db_grows (tx tx' : DBTX) : Prop := grows (dt_kv tx) (dt_kv tx').

#[export] Instance db_grows_preorder : PreOrder db_grows.
Proof. split; unfold db_grows; [by intros tx|]. intros a b c H1 H2. by etransitivity. Qed.

(** Results that hold the transaction. *)
Class HasTX (A : Type) := tx_of : A -> DBTX.
#[export] Instance tx_self : HasTX DBTX := id.
#[export] Instance tx_pair {A B} `{HasTX A} : HasTX (A * B) := fun p => tx_of p.1.

Definition stays {A} `{HasTX A} (tx : DBTX) (m : res A) : Prop := forall a, m = Ok a -> db_grows tx (tx_of a).

Section rules.
Context {A B : Type} `{HasTX A} `{HasTX B} (tx : DBTX).

Lemma stays_Ok (a : A) : db_grows tx (tx_of a) -> stays tx (Ok a).
Proof using. by intros Ha _ [= <-]. Qed.

Lemma stays_Panic : stays tx (A := A) Panic.
Proof using. by intros a E. Qed.

Lemma stays_NoFuel : stays tx (A := A) NoFuel.
Proof using. by intros a E. Qed.

Lemma stays_bind (m : res A) (k : A -> res B) :
  stays tx m -> (forall a, db_grows tx (tx_of a) -> stays tx (k a)) -> stays tx (a ← m; k a).
Proof using.
  intros Hm Hk b (a & Ha & Hb)%res_bind_Ok. eapply Hk; eauto.
Qed.

Lemma stays_trans tx1 (m : res A) : db_grows tx tx1 -> stays tx1 m -> stays tx m.
Proof using. intros H1 H2 a E. etransitivity; [exact H1|by apply H2]. Qed.
End rules.

(** A step that does not involve the transaction, or only its lower half. *)
Lemma stays_pure {A B} `{HasTX B} tx (m : res A) (k : A -> res B) :
  (forall a, m = Ok a -> stays tx (k a)) -> stays tx (a ← m; k a).
Proof. intros Hk b (a & Ha & Hb)%res_bind_Ok. by eapply Hk. Qed.

Create HintDb stays.
Lemma grows_kv_Update depth file tx tx0 req kv req' r :
  tx_Update depth file (dt_kv tx0) req = Ok (kv, req', r) -> db_grows tx tx0 -> db_grows tx (set_kv tx0 kv).
Proof. intros E%tx_Update_grows H. etransitivity; [exact H|exact E]. Qed.

Lemma grows_kv_Del depth file tx tx0 req kv req' r :
  tx_Del depth file (dt_kv tx0) req = Ok (kv, req', r) -> db_grows tx tx0 -> db_grows tx (set_kv tx0 kv).
Proof. intros E%tx_Del_grows H. etransitivity; [exact H|exact E]. Qed.

Lemma grows_kv_Seek depth file tx tx0 k1 c1 k2 c2 kv it :
  tx_Seek depth file (dt_kv tx0) k1 c1 k2 c2 = Ok (kv, it) -> db_grows tx tx0 -> db_grows tx (set_kv tx0 kv).
Proof. intros E%tx_Seek_grows H. etransitivity; [exact H|exact E]. Qed.

Ltac stays_done := solve [
  match goal with
  | |- db_grows _ (tx_of _) => hnf
  | |- _ => idtac
  end;
  first [ assumption
        | match goal with H : db_grows _ _ |- _ => exact H end
        | reflexivity
        | eapply grows_kv_Update; [eassumption|]; (assumption || match goal with H : db_grows _ _ |- _ => exact H end)
        | eapply grows_kv_Del; [eassumption|]; (assumption || match goal with H : db_grows _ _ |- _ => exact H end)
        | eapply grows_kv_Seek; [eassumption|]; (assumption || match goal with H : db_grows _ _ |- _ => exact H end) ]].

#[export] Hint Extern 1 (db_grows _ _) => stays_done : stays.

Ltac stays_step :=
  match goal with
  | |- stays _ (Ok (match ?x with _ => _ end)) => destruct x eqn:?
  | |- stays _ (Ok _) => apply stays_Ok; stays_done
  | |- stays _ Panic => apply stays_Panic
  | |- stays _ NoFuel => apply stays_NoFuel
  | |- stays _ (mbind _ ?m) =>
      match type of m with
      | res ?A => let i := constr:(ltac:(typeclasses eauto) : HasTX A) in
          apply (stays_bind (H := i)); [|intros ? ?]
      | _ => apply stays_pure; intros ? ?
      end
  | |- stays _ (match ?x with _ => _ end) => destruct x eqn:?
  | |- stays _ _ => solve [eauto 2 with stays]
  end.

Ltac stays := repeat (first [progress cbv beta zeta | progress subst | stays_step]).

Section table.
Context (depth : nat) (file : bytes) (tx0 : DBTX).

(** [op] may be run in a transaction that has grown. *)
Lemma dbScan_stays tx tdef req : db_grows tx0 tx -> stays tx0 (dbScan depth file tx tdef req).
Proof using. intros H. unfold dbScan. stays. Qed.
Hint Resolve dbScan_stays : stays.

Lemma dbGet_with_stays deref tx tdef rec :
  (forall tx sc, db_grows tx0 tx -> stays tx0 (deref tx sc)) -> db_grows tx0 tx ->
  stays tx0 (dbGet_with depth file deref tx tdef rec).
Proof using. intros Hd H. unfold dbGet_with. stays. Qed.

Lemma sc_Deref_stays fuel tx sc : db_grows tx0 tx -> stays tx0 (sc_Deref depth file fuel tx sc).
Proof using.
  revert tx sc. induction fuel as [|fuel IH]; intros tx sc H; cbn [sc_Deref]; stays.
  by apply dbGet_with_stays.
Qed.

Lemma dbGet_stays tx tdef rec : db_grows tx0 tx -> stays tx0 (dbGet depth file tx tdef rec).
Proof using. intros H. apply dbGet_with_stays; [|done]. intros. by apply sc_Deref_stays. Qed.
Hint Resolve dbGet_stays : stays.

Lemma indexOp_stays tx tdef op rec : db_grows tx0 tx -> stays tx0 (indexOp depth file tx tdef op rec).
Proof using.
  unfold indexOp. generalize (length (td_Indexes tdef) - 1)%nat as n, 1 as i. intros n. revert tx.
  induction n as [|n IH]; intros tx i H; cbn [indexOp_loop]; stays.
Qed.
Hint Resolve indexOp_stays : stays.

Lemma dbUpdate_stays tx tdef req : db_grows tx0 tx -> stays tx0 (dbUpdate depth file tx tdef req).
Proof using. intros H. unfold dbUpdate. stays. Qed.
Hint Resolve dbUpdate_stays : stays.

Lemma dbDelete_stays tx tdef rec : db_grows tx0 tx -> stays tx0 (dbDelete depth file tx tdef rec).
Proof using. intros H. unfold dbDelete. stays. Qed.
Hint Resolve dbDelete_stays : stays.

Lemma getTableDef_stays tx name : db_grows tx0 tx -> stays tx0 (getTableDef depth file tx name).
Proof using. intros H. unfold getTableDef, getTableDefDB. stays. Qed.
Hint Resolve getTableDef_stays : stays.

Lemma DBTX_Set_stays tx table req : db_grows tx0 tx -> stays tx0 (DBTX_Set depth file tx table req).
Proof using. intros H. unfold DBTX_Set. stays. Qed.

Lemma DBTX_Delete_stays tx table rec : db_grows tx0 tx -> stays tx0 (DBTX_Delete depth file tx table rec).
Proof using. intros H. unfold DBTX_Delete. stays. Qed.

Lemma DBTX_Scan_stays tx table req : db_grows tx0 tx -> stays tx0 (DBTX_Scan depth file tx table req).
Proof using. intros H. unfold DBTX_Scan. stays. Qed.

Lemma TableNew_stays tx tdef : db_grows tx0 tx -> stays tx0 (TableNew depth file tx tdef).
Proof using. intros H. unfold TableNew. stays. Qed.
End table.
#[export] Hint Resolve getTableDef_stays DBTX_Set_stays DBTX_Delete_stays DBTX_Scan_stays TableNew_stays : stays.

(** ** Statements *)

Section exec.
Context (depth : nat) (file : bytes) (rows : nat) (tx0 : DBTX).

Lemma Deref_stays tx sc : db_grows tx0 tx -> stays tx0 (rs_Deref (RowSource := table_source depth file) tx sc).
Proof using. intros H. by apply sc_Deref_stays. Qed.
Hint Resolve Deref_stays : stays.

Lemma scan_Next_stays fuel tx iter :
  db_grows tx0 tx -> stays tx0 (scan_Next (H := table_source depth file) fuel tx iter).
Proof using.
  intros H. unfold scan_Next. stays. clear Heqb. revert tx iter H. induction fuel as [|fuel IH]; intros tx iter H; cbn [scan_next_loop];
    unfold pull; stays.
Qed.
Hint Resolve scan_Next_stays : stays.

Lemma execScan_stays tx req : db_grows tx0 tx -> stays tx0 (execScan depth file rows tx req).
Proof using. intros H. unfold execScan. stays. Qed.
Hint Resolve execScan_stays : stays.

Lemma insert_loop_stays tx table mode names values added updated :
  db_grows tx0 tx -> stays tx0 (insert_loop depth file tx table mode names values added updated).
Proof using.
  revert tx added updated. induction values as [|exprs values IH]; intros tx added updated H; cbn [insert_loop]; stays.
Qed.
Hint Resolve insert_loop_stays : stays.

Lemma update_loop_stays n tx tdef req records updated :
  db_grows tx0 tx -> stays tx0 (update_loop depth file rows n tx tdef req records updated).
Proof using. revert tx records updated. induction n as [|n IH]; intros tx records updated H; cbn [update_loop]; stays. Qed.
Hint Resolve update_loop_stays : stays.

Lemma delete_loop_stays n tx tdef table records deleted :
  db_grows tx0 tx -> stays tx0 (delete_loop depth file rows n tx tdef table records deleted).
Proof using. revert tx records deleted. induction n as [|n IH]; intros tx records deleted H; cbn [delete_loop]; stays. Qed.
Hint Resolve delete_loop_stays : stays.

Lemma run_stmt_stays tx stmt : db_grows tx0 tx -> stays tx0 (run_stmt depth file rows tx stmt).
Proof using.
  intros H. unfold run_stmt, execSelect, execInsert, execUpdate, execDelete. destruct stmt; stays.
Qed.
End exec.
