(* ===== verification/Cmd.v ===== *)
(** * The prompt (src/cmd/ql.go)

    One step per line of input: the line is cut into statements, which are
    executed when the input ends with a complete one.  What the prompt writes
    is a list of outputs.  [repl_loop] is a session: the lines until the end of
    the input. *)

From S2P Require Import Prelude.
From S2P Require Import GoBytes.
From S2P Require Import Encode.
From S2P Require Import Conflict.
From S2P Require Import StmtScanner.
From S2P Require Import QLNode.
From S2P Require Import Json.
From S2P Require Import Display.
From S2P Require Import Table.
From S2P Require Import Exec.

Inductive output :=
| OutText (text : bytes)
| OutExecError (err : gerror)
| OutShowError (err : gerror).

(** The state of [repl] between two lines. *)
Record Repl := mkRepl {
  rp_scanner : StmtScanner; rp_executor : Executor; rp_stmtIncomplete : bool; rp_inTransaction : bool;
  rp_stmtStrsBuf : list bytes
}.

Definition repl_init (db : DB) : Repl := mkRepl NewStmtScanner (NewExecutor db) false false [].

Definition getPrompt (stmtIncomplete inTransaction : bool) : string :=
  if inTransaction then (if stmtIncomplete then "(tx)...> " else "ql (tx)> ")
  else (if stmtIncomplete then "...> " else "ql> ").

(** [unicode.IsSpace] *)
Definition IsSpace (r : Z) : bool :=
  ((9 <=? r) && (r <=? 13)) || ((8192 <=? r) && (r <=? 8202)) ||
  existsb (Z.eqb r) [32; 133; 160; 5760; 8232; 8233; 8239; 8287; 12288].

(** Without the spaces at its start; [skip] bytes belong to a space. *)
Fixpoint trim_left (s : bytes) (skip : nat) : bytes :=
  match s with
  | [] => []
  | _ :: rest =>
      match skip with
      | S skip => trim_left rest skip
      | O =>
          match decode_rune s with
          | Some (r, n) => if IsSpace r then trim_left rest (n - 1) else s
          | None => s
          end
      end
  end.

(** [strings.TrimSpace(line) == ".quit"] *)
Definition is_quit (line : bytes) : bool :=
  let s := trim_left line 0 in
  bytes_equal (take 5 s) (bytes_of ".quit") && bytes_equal (trim_left (drop 5 s) 0) [].

Definition crlf : bytes := [Byte.x0d; Byte.x0a].

(** [printRecord] *)
Fixpoint printRecord_loop (cols : list bytes) (vals : list Value) : res bytes :=
  match cols with
  | [] => Ok []
  | col :: cols =>
      v ← index vals 0;
      s ← Value_Display v;
      rest ← printRecord_loop cols (drop 1 vals);
      Ok (col ++ bytes_of ": " ++ s ++ crlf ++ rest)
  end.

Definition printRecord (rec : Row) : res bytes :=
  _ ← assert (len (rec_Cols rec) =? len (rec_Vals rec));
  printRecord_loop (rec_Cols rec) (rec_Vals rec).

Definition printStats (r : QLResult) : res (list output) :=
  _ ← assert (u64 (qr_Deleted r * qr_Updated r) =? 0);
  _ ← assert (qr_Added r <=? qr_Updated r);
  let modified := qr_Updated r - qr_Added r in
  let line what n := if 0 <? n then [OutText (bytes_of what ++ FormatInt n ++ bytes_of " rows" ++ crlf)] else [] in
  Ok (line "Deleted "%string (qr_Deleted r) ++ line "Inserted "%string (qr_Added r) ++
      line "Modified "%string modified).

Section repl.
Context (depth rows : nat).
Context (sort : list KeyRange -> list KeyRange) (order : gmap Z bytes -> list (Z * bytes)).

(** [printRecords]: the transaction that is read, the outputs and the error. *)
Fixpoint printRecords (file : bytes) (n : nat) (tx : DBTX) (iter : QLSelectIter Scanner)
    : res (DBTX * list output * option gerror) :=
  if negb (select_Valid iter) then Ok (tx, [], None) else
  match n with
  | O => NoFuel
  | S n =>
      r ← select_Deref iter;
      match r with
      | inr e => Ok (tx, [], Some e)
      | inl rec =>
          text ← printRecord rec;
          '(tx, iter) ← select_Next (H := table_source depth file) rows tx iter;
          '(tx, out, err) ← printRecords file n tx iter;
          Ok (tx, OutText (text ++ crlf) :: out, err)
      end
  end.

Definition set_active (ex : Executor) (tx : DBTX) : Executor :=
  match ex_activeTx ex with
  | Some _ => mkExecutor (ex_db ex) (Some tx)
  | None => ex
  end.

(** [printResult]: [tx] is the ended transaction of the result, if the
    executor has none. *)
Definition printResult (ex : Executor) (tx : option DBTX) (r : QLResult)
    : res (Executor * list output * option gerror) :=
  match qr_Records r with
  | None => out ← printStats r; Ok (ex, out, None)
  | Some iter =>
      match (match ex_activeTx ex with Some tx => Some tx | None => tx end) with
      | None => Panic
      | Some tx =>
          '(tx, out, err) ← printRecords (db_file (ex_db ex)) rows tx iter;
          Ok (set_active ex tx, out, err)
      end
  end.

(** The loop that cuts the input: the scanner, the statements, whether the
    input ends inside a statement.  An empty statement is skipped without
    moving on. *)
Fixpoint scan_stmts (n : nat) (s : StmtScanner) (buf : list bytes) : res (StmtScanner * list bytes * bool) :=
  match n with
  | O => NoFuel
  | S n =>
      '(s, r) ← NextStmtStr s;
      match r with
      | inr ErrStmtIncomplete => Ok (s, buf, true)
      | inr ErrStmtEmpty => scan_stmts n s buf
      | inl None => Ok (s, buf, false)
      | inl (Some stmtStr) => scan_stmts n s (buf ++ [stmtStr])
      end
  end.

(** The loop over the buffered statements; an error skips the others. *)
Fixpoint exec_stmts (ex : Executor) (inTransaction : bool) (buf : list bytes)
    : res (Executor * bool * list output) :=
  match buf with
  | [] => Ok (ex, inTransaction, [])
  | stmtStr :: buf =>
      '(ex, result, inTX, err, tx) ← ExecStr depth rows sort order ex stmtStr;
      match err with
      | Some e => Ok (ex, inTX, [OutExecError e])
      | None =>
          '(ex, out, err) ← printResult ex tx result;
          match err with
          | Some e => Ok (ex, inTX, out ++ [OutShowError e])
          | None => '(ex, inTX, rest) ← exec_stmts ex inTX buf; Ok (ex, inTX, out ++ rest)
          end
      end
  end.

(** One iteration of [repl] with a line: [None] leaves the program. *)
Definition repl_line (n : nat) (st : Repl) (line : bytes) : res (option (Repl * list output)) :=
  if negb (rp_stmtIncomplete st) && is_quit line then Ok None else
  '(s, buf, stmtIncomplete) ← scan_stmts n (Append (rp_scanner st) line) (rp_stmtStrsBuf st);
  if stmtIncomplete : bool then Ok (Some (mkRepl s (rp_executor st) true (rp_inTransaction st) buf, [])) else
  '(ex, inTransaction, out) ← exec_stmts (rp_executor st) (rp_inTransaction st) buf;
  Ok (Some (mkRepl (Reset s) ex false inTransaction [], out)).

(** The loop of [repl] over the lines of the input: each with the prompt that
    it is read at and with what is written after it. *)
Fixpoint repl_loop (n : nat) (st : Repl) (lines : list bytes) : res (Repl * list (string * list output)) :=
  let prompt := getPrompt (rp_stmtIncomplete st) (rp_inTransaction st) in
  match lines with
  | [] => Ok (st, [(prompt, [])])
  | line :: lines =>
      r ← repl_line n st line;
      match r with
      | None => Ok (st, [(prompt, [])])
      | Some (st, out) => '(st, rest) ← repl_loop n st lines; Ok (st, (prompt, out) :: rest)
      end
  end.

End repl.
