(* ===== verification/ExecProps.v ===== *)
(** * Properties of statements and of the executor

    A failed statement is undone; the executor's transaction is a state
    machine; the counts of an INSERT make sense. *)

From S2P Require Import Prelude.
From S2P Require Import GoBytes.
From S2P Require Import KVSpec.
From S2P Require Import BSplitFacts.
From S2P Require Import BTree.
From S2P Require Import BTreeRep.
From S2P Require Import BTreeInsert.
From S2P Require Import Encode.
From S2P Require Import Conflict.
From S2P Require Import QLNode.
From S2P Require Import Eval.
From S2P Require Import Parser.
From S2P Require Import Schema.
From S2P Require Import MemStore.
From S2P Require Import Pager.
From S2P Require Import KV.
From S2P Require Import KVFacts.
From S2P Require Import KVTX.
From S2P Require Import KVTXFacts.
From S2P Require Import KVTXProps.
From S2P Require Import KVView.
From S2P Require Import RowFacts.
From S2P Require Import TableSpec.
From S2P Require Import Table.
From S2P Require Import TableFacts.
From S2P Require Import TableUpdate.
From S2P Require Import TableProps.
From S2P Require Import Exec.
From S2P Require Import ExecGrows.
From S2P Require Import Cmd.

(** ** Savepoints *)

(** C37.  A statement that fails is undone: whatever it had done before the
    error (rows of a multi-row INSERT, index keys of a row, pages of the tree of
    pending updates), afterwards the transaction sees the same map as before the
    statement, has the same dependencies and the same snapshot. The hypothesis
    on the result only says that fewer than 2^63 pages of memory are in use.
    (The write of [PutUint32] into a page of pending updates, which is possible
    from 33686018 prefixes on, is not modelled: see [PutUint32_row].) *)
Theorem execStmt_error_undone depth file rows h hp tx N r stmt tx' result e :
  tx_sees file h hp (dt_kv tx) N r ->
  execStmt depth file rows tx stmt = Ok (tx', result, Some e) ->
  len (bt_store (tx_pending (dt_kv tx'))) < 2 ^ 63 ->
  tx_sees file h hp (dt_kv tx') N 0 /\ tx_reads (dt_kv tx') = tx_reads (dt_kv tx) /\
  tx_root (dt_kv tx') = tx_root (dt_kv tx) /\ tx_chunks (dt_kv tx') = tx_chunks (dt_kv tx).
Proof.
  intros Hs E Hl. unfold execStmt in E. apply res_bind_Ok in E as ([[tx1 res1] err] & Erun & E).
  destruct err as [e'|]; injection E as <- <- Ee; [|done].
  pose proof (run_stmt_stays depth file rows tx tx stmt ltac:(reflexivity) _ Erun) as Hg.
  change (grows (dt_kv tx) (dt_kv tx1)) in Hg. unfold DBTX_Revert, DBTX_Save in *. cbn [dt_kv set_kv] in *.
  split; [eapply revert_sees; [exact Hs|exact Hg|exact Hl]|]. split; [done|]. by destruct Hg as (_ & ? & ?).
Qed.

(** ** The executor as a state machine *)

(** Whether a statement leaves the executor in a transaction. *)
Definition next_inTx (in_ : bool) (stmt : QLStmt) : bool :=
  match stmt with StBegin => true | StCommit | StRollback => false | _ => in_ end.

(** Statements that the state does not allow. *)
Definition rejected (in_ : bool) (stmt : QLStmt) : bool :=
  match stmt with StBegin => in_ | StCommit | StRollback => negb in_ | _ => false end.

Lemma kv_Abort_file kv tx kv' tx' : kv_Abort kv tx = Ok (kv', tx') -> kv_root kv' = kv_root kv /\ pg_file (kv_pages kv') = pg_file (kv_pages kv).
Proof.
  unfold kv_Abort, tx_finalize. intros E. by inv_run.
Qed.

Lemma db_Abort_file db tx db' tx' : db_Abort db tx = Ok (db', tx') ->
  kv_root (db_kv db') = kv_root (db_kv db) /\ db_file db' = db_file db.
Proof. unfold db_Abort. intros E. inv_run. by eapply kv_Abort_file. Qed.

(** C38.  The executor follows the protocol of transactions.  The flag it
    reports is whether it holds a transaction; BEGIN leads into one and COMMIT
    and ROLLBACK lead out of it, also when they fail; BEGIN inside a
    transaction, COMMIT and ROLLBACK outside of one and statements that do not
    parse are errors that change nothing at all; inside a transaction no
    statement except COMMIT changes the file or the root of the database; and
    no other statement enters or leaves a transaction. *)
Theorem ExecStr_protocol depth rows sort order ex str ex' result flag err tx :
  ExecStr depth rows sort order ex str = Ok (ex', result, flag, err, tx) ->
  flag = inTx ex' /\
  exists p r, Parse str = Ok (p, r) /\
    match r with
    | inr e => ex' = ex /\ err = Some e /\ result = no_result
    | inl None => False
    | inl (Some stmt) =>
        inTx ex' = next_inTx (inTx ex) stmt /\
        (rejected (inTx ex) stmt = true -> ex' = ex /\ is_Some err /\ result = no_result) /\
        (inTx ex = true -> stmt <> StCommit ->
           kv_root (db_kv (ex_db ex')) = kv_root (db_kv (ex_db ex)) /\ db_file (ex_db ex') = db_file (ex_db ex))
    end.
Proof.
  unfold ExecStr. intros E. apply res_bind_Ok in E as ([p r] & Ep & E).
  assert (flag = inTx ex' /\ match r with
    | inr e => ex' = ex /\ err = Some e /\ result = no_result
    | inl None => False
    | inl (Some stmt) =>
        inTx ex' = next_inTx (inTx ex) stmt /\
        (rejected (inTx ex) stmt = true -> ex' = ex /\ is_Some err /\ result = no_result) /\
        (inTx ex = true -> stmt <> StCommit ->
           kv_root (db_kv (ex_db ex')) = kv_root (db_kv (ex_db ex)) /\ db_file (ex_db ex') = db_file (ex_db ex))
    end) as [? ?]; [|by eauto].
  destruct r as [[stmt|]|e]; [|done|by injection E as <- <- <- <- _].
  unfold inTx in *. destruct (ex_activeTx ex) as [atx|] eqn:Ea; destruct stmt; cbn [next_inTx rejected negb] in *;
    inv_run; cbn [ex_activeTx ex_db]; rewrite ?Ea; (split; [done|]); (split; [done|]); (split; [intros; try done; eauto|]); intros; try done; by eapply db_Abort_file.
Qed.

(** ** The prompt *)

Lemma ExecStr_flag depth rows sort order ex str ex' result flag err tx :
  ExecStr depth rows sort order ex str = Ok (ex', result, flag, err, tx) -> flag = inTx ex'.
Proof.
  unfold ExecStr. intros E. apply res_bind_Ok in E as ([p [[stmt|]|e]] & _ & E); [|done|by injection E as <- _ <- _ _].
  unfold inTx in *. destruct (ex_activeTx ex) as [atx|] eqn:Ea; destruct stmt; inv_run; cbn [ex_activeTx]; by rewrite ?Ea.
Qed.

Lemma printResult_inTx depth rows ex tx r ex' out err :
  printResult depth rows ex tx r = Ok (ex', out, err) -> inTx ex' = inTx ex.
Proof.
  unfold printResult. destruct (qr_Records r) as [iter|]; intros E; [|by inv_run].
  destruct (match ex_activeTx ex with Some _ => _ | None => _ end) as [tx1|]; [|done].
  apply res_bind_Ok in E as ([[tx2 o] e] & _ & [= <- _ _]). unfold set_active, inTx.
  destruct (ex_activeTx ex) eqn:Ea; cbn [ex_activeTx]; by rewrite ?Ea.
Qed.

Lemma exec_stmts_flag depth rows sort order buf ex flag ex' flag' out : flag = inTx ex ->
  exec_stmts depth rows sort order ex flag buf = Ok (ex', flag', out) -> flag' = inTx ex'.
Proof.
  revert ex flag out. induction buf as [|str buf IH]; intros ex flag out Hf; cbn [exec_stmts].
  { by intros [= <- <- _]. }
  intros ([[[[ex1 r] f1] err] tx] & E1%ExecStr_flag & E)%res_bind_Ok.
  destruct err as [e|]; [by injection E as <- <- _|].
  apply res_bind_Ok in E as ([[ex2 o] err] & E2%printResult_inTx & E).
  destruct err as [e|]; [injection E as <- <- _; by rewrite E1, E2|].
  apply res_bind_Ok in E as ([[ex3 f3] rest] & E3 & [= <- <- _]). refine (IH _ _ _ _ E3). by rewrite E1, E2.
Qed.

(** The prompt tells the truth: after any lines of a session, its state says
    that a transaction is open exactly if the executor has one. *)
Lemma prompt_shows_transaction depth rows sort order n lines st st' out : rp_inTransaction st = inTx (rp_executor st) ->
  repl_loop depth rows sort order n st lines = Ok (st', out) -> rp_inTransaction st' = inTx (rp_executor st').
Proof.
  revert st out. induction lines as [|line lines IH]; intros st out Hf; cbn [repl_loop].
  { by intros [= <- _]. }
  intros ([[st1 o]|] & E1 & E)%res_bind_Ok; [|by injection E as <- _].
  apply res_bind_Ok in E as ([st2 rest] & E2 & [= <- _]). refine (IH _ _ _ E2).
  unfold repl_line in E1. destruct (_ && _); [done|].
  apply res_bind_Ok in E1 as ([[s buf] inc] & _ & E1). destruct inc; [by injection E1 as <- _|].
  apply res_bind_Ok in E1 as ([[ex f] o'] & Ex%exec_stmts_flag & [= <- _]); [exact Ex|exact Hf].
Qed.

(** ** Counts *)

Lemma tx_Update_added depth file tx req tx' req' r :
  (uq_Added req = true -> uq_Updated req = true) ->
  tx_Update depth file tx req = Ok (tx', req', r) -> uq_Added req' = true -> uq_Updated req' = true.
Proof. unfold tx_Update. cbv zeta. intros H E. by inv_run. Qed.

Lemma DBTX_Set_added depth file tx table req tx' req' r :
  (dr_Added req = true -> dr_Updated req = true) ->
  DBTX_Set depth file tx table req = Ok (tx', req', r) -> dr_Added req' = true -> dr_Updated req' = true.
Proof.
  unfold DBTX_Set, dbUpdate. cbv zeta. intros H E. inv_run; try done; cbn [dr_Added dr_Updated];
    match goal with Hu : tx_Update _ _ _ _ = Ok _ |- _ =>
      intros Hadd; eapply tx_Update_added in Hu; [congruence|done|exact Hadd] end.
Qed.

Lemma insert_loop_counts depth file tx table mode names values added updated tx' a u :
  0 <= added <= updated -> updated + len values < 2 ^ 64 ->
  insert_loop depth file tx table mode names values added updated = Ok (tx', inl (a, u)) ->
  added <= a /\ updated <= u <= updated + len values /\ 0 <= a <= u.
Proof.
  revert tx added updated. induction values as [|exprs values IH]; intros tx added updated Ha Hu; cbn [insert_loop].
  - intros [= _ <- <-]. rewrite len_nil in *. lia.
  - rewrite len_cons in *. pose proof (len_nonneg values). intros E.
    apply res_bind_Ok in E as ([vals|e] & _ & E); [|done]. apply res_bind_Ok in E as ([[tx1 req'] [b [e|]]] & Es & E); [done|].
    assert (dr_Added req' = true -> dr_Updated req' = true) as Hr by (eapply DBTX_Set_added; [|exact Es]; done).
    unfold u64 in E. rewrite !(Z.mod_small _ (2 ^ 64)) in E by lia.
    apply IH in E; destruct (dr_Added req'), (dr_Updated req'); naive_solver lia.
Qed.

Lemma update_loop_nonneg depth file rows n tx tdef req records updated tx' u :
  0 <= updated -> update_loop depth file rows n tx tdef req records updated = Ok (tx', inl u) -> 0 <= u.
Proof.
  revert tx records updated. induction n as [|n IH]; intros tx records updated H; cbn [update_loop]; intros E.
  - destruct (negb _); [by injection E as _ <-|done].
  - inv_run; try congruence; (eapply IH; [|eassumption]); unfold u64; auto using Z.mod_pos_bound.
    apply Z.mod_pos_bound. lia.
Qed.

(** The rows of a statement. *)
Definition stmt_rows (stmt : QLStmt) : Z := match stmt with StInsert req => len (ins_Values req) | _ => 0 end.

(** C39.  The counts of a result are consistent: an INSERT adds no more rows
    than it adds or changes, and no more than it lists, so the two assertions
    of [printStats] hold for the result of every statement. *)
Theorem stmt_counts_printable depth file rows tx stmt tx' r err :
  run_stmt depth file rows tx stmt = Ok (tx', r, err) -> stmt_rows stmt < 2 ^ 63 ->
  0 <= qr_Added r <= qr_Updated r /\ (stmt_rows stmt <> 0 -> qr_Updated r <= stmt_rows stmt) /\
  (qr_Deleted r = 0 \/ qr_Updated r = 0) /\ exists out, printStats r = Ok out.
Proof.
  intros E Hrows.
  assert (0 <= qr_Added r <= qr_Updated r /\ (stmt_rows stmt <> 0 -> qr_Updated r <= stmt_rows stmt) /\
    (qr_Deleted r = 0 \/ qr_Updated r = 0)) as (Ha & Hu & Hd).
  { destruct stmt as [| | |def|req|req|req|req]; cbn [run_stmt stmt_rows] in *; try done.
    - inv_run. cbn. lia.
    - apply res_bind_Ok in E as ([tx1 [it|e]] & _ & E); cbn in E; injection E as <- <- <-; cbn; lia.
    - pose proof (len_nonneg (ins_Values req)). apply res_bind_Ok in E as ([tx1 [[a u]|e]] & Ei & E); cbn in E; injection E as <- <- <-; cbn; [|lia].
      unfold execInsert in Ei. apply insert_loop_counts in Ei as (? & ? & ?); lia.
    - apply res_bind_Ok in E as ([tx1 [d|e]] & _ & E); cbn in E; injection E as <- <- <-; cbn; lia.
    - apply res_bind_Ok in E as ([tx1 [u|e]] & Eu & E); cbn in E; injection E as <- <- <-; cbn; [|lia].
      assert (0 <= u); [|lia]. unfold execUpdate in Eu. inv_run; try congruence. by eapply update_loop_nonneg; [|eassumption]. }
  split; [done|]. split; [done|]. split; [done|]. unfold printStats.
  assert ((u64 (qr_Deleted r * qr_Updated r) =? 0) = true) as -> by (destruct Hd as [->| ->]; [done|by rewrite Z.mul_0_r]).
  rewrite (proj2 (Z.leb_le _ _)) by apply Ha. step_res. by eexists.
Qed.

(** ** Concrete statements *)

(** A transaction on an empty database that has cached the schema of pets. *)
Definition db_pets : DBTX := mkDBTX tx_new {[bytes_of "pets" := pets]}.

Definition rex_exprs : list QLNode := [mkQLNode QL_I64 7 [] []; mkQLNode QL_STR 0 (bytes_of "rex") []].
(** [-"x"] *)
Definition bad_exprs : list QLNode := [mkQLNode QL_NEG 0 [] [mkQLNode QL_STR 0 (bytes_of "x") []]; mkQLNode QL_I64 1 [] []].

Definition insert_pets (rows : list (list QLNode)) : QLStmt :=
  StInsert (mkQLInsert (bytes_of "pets") MODE_INSERT_ONLY [col_id; col_name] rows).

(** The first row is inserted before the others are evaluated. *)
Lemma insert_rex rows : exists tx req N,
  db_sees (KVPromise0 := tx_promise 9 []) tx N 2 /\ dr_Added req = true /\ dr_Updated req = true /\
  execInsert 9 [] db_pets (mkQLInsert (bytes_of "pets") MODE_INSERT_ONLY [col_id; col_name] (rex_exprs :: rows)) =
    insert_loop 9 [] tx (bytes_of "pets") MODE_INSERT_ONLY [col_id; col_name] rows 1 1.
Proof.
  destruct (dbUpdate_ok 9 [] pets pets_ok db_pets ∅ ∅ (mkDBUpdateReq (mkRow [col_id; col_name] rex) MODE_INSERT_ONLY false false)
    rex 2 (db_new_sees 6 ltac:(lia)) (empty_stored pets) rex_rec rex_ok) as (tx & req & N & E & Hreq & _ & Hs & _).
  destruct (Hreq eq_refl) as [Hu Ha]. exists tx, req, N. split; [exact Hs|]. split; [exact Ha|]. split; [exact Hu|].
  unfold execInsert. cbn [insert_loop ins_Table ins_Mode ins_Names ins_Values].
  change (evalMulti no_row rex_exprs) with (Ok (A := list Value + gerror) (inl rex)). step_res.
  assert (DBTX_Set 9 [] db_pets (bytes_of "pets") (mkDBUpdateReq (mkRow [col_id; col_name] rex) MODE_INSERT_ONLY false false) =
    dbUpdate 9 [] db_pets pets (mkDBUpdateReq (mkRow [col_id; col_name] rex) MODE_INSERT_ONLY false false)) as ->.
  { unfold DBTX_Set, getTableDef. assert (INTERNAL_TABLES !! bytes_of "pets" = None) as -> by (vm_compute; reflexivity).
    assert (dt_tables db_pets !! bytes_of "pets" = Some pets) as -> by apply lookup_singleton_eq.
    rewrite bind_Ok. cbv beta iota. exact eq_refl. }
  rewrite E. step_res. unfold update_result. change (row_duplicate _ _) with false. cbn iota. rewrite Hu, Ha. reflexivity.
Qed.

(** The second row of the INSERT fails; the first is taken back. *)
Example execStmt_error_undone_witness : exists tx' result e,
  execStmt 9 [] 5 db_pets (insert_pets [rex_exprs; bad_exprs]) = Ok (tx', result, Some e) /\
  tx_sees [] 0 0 (dt_kv tx') ∅ 0 /\ tx_reads (dt_kv tx') = [].
Proof.
  destruct (insert_rex [bad_exprs]) as (tx & req & N & (h & hp & _ & _ & Hs) & _ & _ & E).
  assert (exists result e, execStmt 9 [] 5 db_pets (insert_pets [rex_exprs; bad_exprs]) =
    Ok (DBTX_Revert tx (DBTX_Save db_pets), result, Some e)) as (result & e & Ex).
  { eexists _, _. unfold execStmt, insert_pets, run_stmt. rewrite E. reflexivity. }
  exists (DBTX_Revert tx (DBTX_Save db_pets)), result, e. split; [exact Ex|].
  destruct (execStmt_error_undone 9 [] 5 0 0 db_pets ∅ 5 _ _ _ _ (tx_new_sees 5 ltac:(lia)) Ex) as (Hsees & Hr & _).
  - destruct Hs as (kvs & P & _ & (pk & (m & _ & _ & [_ Hroom] & _) & _) & _). cbn. lia.
  - split; [exact Hsees|exact Hr].
Defined.

Example stmt_counts_printable_witness : exists r out, printStats r = Ok out /\ qr_Added r = 1.
Proof.
  destruct (insert_rex []) as (tx & req & N & _ & _ & _ & E).
  assert (run_stmt 9 [] 5 db_pets (insert_pets [rex_exprs]) = Ok (tx, mkQLResult None 1 1 0, None)) as Er.
  { unfold run_stmt, insert_pets. rewrite E. reflexivity. }
  destruct (stmt_counts_printable 9 [] 5 db_pets (insert_pets [rex_exprs]) tx _ _ Er) as (_ & _ & _ & out & Hout).
  - reflexivity.
  - eexists _, out. split; [exact Hout|reflexivity].
Defined.

(** COMMIT without a transaction. *)
Example ExecStr_protocol_witness : exists err,
  ExecStr 9 5 id map_to_list (NewExecutor (mkDB (kv_zero [] []) ∅)) (bytes_of "commit;") =
    Ok (NewExecutor (mkDB (kv_zero [] []) ∅), no_result, false, Some err, None) /\
  false = inTx (NewExecutor (mkDB (kv_zero [] []) ∅)).
Proof.
  assert (ExecStr 9 5 id map_to_list (NewExecutor (mkDB (kv_zero [] []) ∅)) (bytes_of "commit;") =
    Ok (NewExecutor (mkDB (kv_zero [] []) ∅), no_result, false, Some ("no active transaction to commit"%string, []), None)) as E.
  { vm_compute. reflexivity. }
  destruct (ExecStr_protocol _ _ _ _ _ _ _ _ _ _ _ E) as [Hf _].
  eexists. split; [exact E|exact Hf].
Defined.
