(* ===== verification/ParsedProps.v ===== *)
(** * Statements that parse can be set up for execution

    The parser's promise ([scan_ok], [stmt_ok]) is what the assertions of
    src/db/ql_exec.go need: scan keys, filters and the columns of a select. *)

From S2P Require Import Prelude.
From S2P Require Import GoBytes.
From S2P Require Import BIter.
From S2P Require Import Encode.
From S2P Require Import QLNode.
From S2P Require Import Eval.
From S2P Require Import EvalFacts.
From S2P Require Import EvalProps.
From S2P Require Import Parser.
From S2P Require Import ParserProps.
From S2P Require Import Display.
From S2P Require Import Table.
From S2P Require Import Exec.
From S2P Require Import ScanProps.

(** ** Scan keys *)

(** The comparison a condition stands for. *)
Definition cmp_of (ty : Z) : Z :=
  if ty =? QL_CMP_GE then CMP_GE else if ty =? QL_CMP_GT then CMP_GT
  else if ty =? QL_CMP_LE then CMP_LE else if ty =? QL_CMP_LT then CMP_LT else 0.

(** The two ends of the range for the types of the two conditions. *)
Definition range_cmps (t1 t2 : Z) : Z * Z :=
  if t2 =? 0 then
    if (t1 =? 0) || (t1 =? QL_CMP_EQ) then (CMP_GE, CMP_LE)
    else (cmp_of t1, if 0 <? cmp_of t1 then CMP_LE else CMP_GE)
  else (cmp_of t1, cmp_of t2).

Lemma env_ok_empty : env_ok no_row.
Proof. by split. Qed.

Lemma evalMulti_ok env nodes : env_ok env -> forallb ql_wf nodes = true ->
  exists x, evalMulti env nodes = Ok x /\ match x with inl vals => length vals = length nodes | inr _ => True end.
Proof.
  intros He Hw. pose proof (evalMulti_loop_ok env nodes [] He Hw) as H. unfold evalMulti.
  destruct (denotes env nodes) as [vs|] eqn:E; [|destruct H as [e ->]; by exists (inr e)].
  destruct H as (vals & -> & Hm). exists (inl vals). split; [done|]. apply (f_equal length) in Hm. rewrite !length_map in Hm.
  rewrite Hm. clear -E. revert vs E. induction nodes as [|n nodes IH]; intros vs; cbn [denotes]; [by intros [= <-]|].
  destruct (denote env n); [|done]. destruct (denotes env nodes); [|done]. intros [= <-]. cbn. by rewrite (IH _ eq_refl).
Qed.

Lemma evalScanKey_ok k : absent k || key_ok k = true ->
  exists r, evalScanKey k = Ok r /\
    match r with
    | inl (key, cmp) => length (rec_Cols key) = length (rec_Vals key) /\ cmp = cmp_of (ql_Type k)
    | inr _ => True
    end.
Proof.
  unfold absent, evalScanKey. destruct (Z.eqb_spec (ql_Type k) 0) as [E|E]; cbn [orb].
  { intros _. eexists. split; [reflexivity|]. by rewrite E. }
  destruct k as [ty i s kids]. cbn [ql_Type ql_Kids] in *.
  destruct kids as [|[lt ln ls names] [|[rt rn rs vals] []]]; try done. cbn [key_ok]. rewrite !andb_true_iff, !Z.eqb_eq, Nat.eqb_eq.
  intros [[[[[[Hty Hne] ->] ->] Hl] Hsym] Hwf].
  assert (exists c, (if ty =? QL_CMP_EQ then Ok 0 else if ty =? QL_CMP_GE then Ok CMP_GE
         else if ty =? QL_CMP_GT then Ok CMP_GT else if ty =? QL_CMP_LE then Ok CMP_LE
         else if ty =? QL_CMP_LT then Ok CMP_LT else Panic) = Ok c /\ c = cmp_of ty) as (c & -> & ->).
  { apply existsb_exists in Hty as (x & Hin & ->%Z.eqb_eq). cbn [In] in Hin.
    repeat (destruct Hin as [<-|Hin]; [done || by eexists|]). done. }
  step_res. set (l := mkQLNode QL_TUP ln ls names). set (r := mkQLNode QL_TUP rn rs vals).
  change (index [l; r] 0) with (Ok l). change (index [l; r] 1) with (Ok r). step_res. cbn [ql_Kids ql_Type l r].
  change ((QL_TUP =? QL_TUP) && (QL_TUP =? QL_TUP)) with true.
  assert ((len names =? len vals) = true) as -> by (unfold len; lia). step_res.
  destruct (evalMulti_ok no_row vals env_ok_empty Hwf) as (x & -> & Hx). step_res.
  destruct x as [vs|e]; [|by eexists]. rewrite Hsym. step_res. eexists. split; [reflexivity|]. split; [|done].
  cbn [rec_Cols rec_Vals]. by rewrite length_map, Hl.
Qed.

(** The conditions of a parsed statement can be turned into a range
    without a panic: none of the assertions of [evalScanKey] fails and the
    last case of [initScanner] is indeed unreachable.  It fails only when a
    key cannot be evaluated; otherwise each end has as many values as columns,
    and the comparisons are the documented ones: the whole index without a
    condition, the rows with the key for [=], from the key to the end of the
    index for a single inequality, and between two keys for two. *)
Lemma initScanner_range req : scan_ok req = true ->
  exists r, initScanner req = Ok r /\
    match r with
    | inl q => (sr_Cmp1 q, sr_Cmp2 q) = range_cmps (ql_Type (qs_Key1 req)) (ql_Type (qs_Key2 req)) /\
        length (rec_Cols (sr_Key1 q)) = length (rec_Vals (sr_Key1 q)) /\
        length (rec_Cols (sr_Key2 q)) = length (rec_Vals (sr_Key2 q))
    | inr e => evalScanKey (qs_Key1 req) = Ok (inr e) \/ evalScanKey (qs_Key2 req) = Ok (inr e)
    end.
Proof.
  unfold scan_ok. rewrite !andb_true_iff. intros [[[H1 H2] H12] _]. unfold initScanner.
  destruct (evalScanKey_ok _ H1) as (r1 & E1 & Hr1). rewrite E1. step_res.
  destruct r1 as [[key1 c1]|e]; [|by eexists; split; [reflexivity|left]].
  destruct (evalScanKey_ok _ H2) as (r2 & E2 & Hr2). rewrite E2. step_res.
  destruct r2 as [[key2 c2]|e]; [|by eexists; split; [reflexivity|right]].
  destruct Hr1 as [Hl1 ->], Hr2 as [Hl2 ->]. unfold absent, range_cmps in *. cbv zeta.
  set (t1 := ql_Type (qs_Key1 req)) in *. set (t2 := ql_Type (qs_Key2 req)) in *. clearbody t1 t2.
  destruct (Z.eqb_spec t1 0) as [N1|N1], (Z.eqb_spec t2 0) as [N2|N2]; try done; cbn [andb negb orb];
    [by eexists| |by rewrite andb_false_r; eexists].
  rewrite andb_true_r. destruct (t1 =? QL_CMP_EQ); by eexists.
Qed.

(** ** Filters *)

Lemma filter_ok_total filter r : absent filter || ql_wf filter = true -> env_ok r -> exists x, filter_ok filter r = Ok x.
Proof.
  unfold absent, filter_ok. destruct (ql_Type filter =? 0); [by eexists|]. cbn [orb]. intros Hw He.
  destruct (evalExpr_ok r filter He Hw) as [[_ H] _].
  destruct (H (mkCtx r (mkValue 0 0 []) None) eq_refl eq_refl) as (ctx & -> & _). step_res.
  destruct (cx_err ctx); [by eexists|]. destruct (negb _); by eexists.
Qed.

Lemma filters_evaluable req rows : scan_ok req = true -> Forall env_ok rows -> evaluable req rows.
Proof.
  unfold scan_ok. rewrite !andb_true_iff. intros [_ Hf] Hr. eapply Forall_impl; [exact Hr|].
  intros r. by apply filter_ok_total.
Qed.

(** ** The columns of a select *)

Lemma all_Ok_map {A B} (f : A -> res B) (l : list A) :
  Forall (fun x => exists y, f x = Ok y) l -> exists ys, all_Ok (map f l) = Ok ys.
Proof.
  induction 1 as [|x l (y & Hy) _ (ys & IH)]; [by exists []|]. cbn. rewrite Hy. step_res. rewrite IH. step_res. by eexists.
Qed.

Lemma op_str_binary ty : (is_cmp_op ty || is_arith_op ty || is_logic_op ty) = true -> is_Some (op_str ty).
Proof.
  unfold is_cmp_op, is_arith_op, is_logic_op. rewrite !orb_true_iff, !existsb_exists.
  intros [[(x & Hin & ->%Z.eqb_eq)|(x & Hin & ->%Z.eqb_eq)]|(x & Hin & ->%Z.eqb_eq)]; cbn [In] in Hin;
    repeat (destruct Hin as [<-|Hin]; [by eexists|]); done.
Qed.

(** Every expression of the parser can be shown. *)
Lemma Display_ok node : ql_wf node = true -> exists s, QLNode_Display node = Ok s.
Proof.
  induction node as [ty n str kids IH] using QLNode_kids_ind. intros Hw.
  assert (forallb ql_wf kids = true -> Forall (fun k => exists s, QLNode_Display k = Ok s) kids) as Hk.
  { intros Hkids. rewrite forallb_forall in Hkids. rewrite Forall_forall in IH |- *. intros k Hin.
    apply IH; [done|]. apply Hkids. by apply list_elem_of_In. }
  cbn [QLNode_Display ql_wf] in *. destruct (Z.eqb_spec ty QL_SYM) as [->|E1]; [by eexists|].
  destruct (Z.eqb_spec ty QL_I64) as [->|E2]; [by eexists|]. destruct (Z.eqb_spec ty QL_STR) as [->|E3]; [by eexists|].
  cbn [orb] in Hw. apply andb_true_iff in Hw as [Hkids Hw]. specialize (Hk Hkids).
  destruct (Z.eqb_spec ty QL_TUP) as [->|E4].
  { destruct (all_Ok_map QLNode_Display kids Hk) as (l & E). cbn. rewrite E. step_res. by eexists. }
  destruct ((ty =? QL_NEG) || (ty =? QL_NOT)) eqn:E5.
  - apply Nat.eqb_eq in Hw. destruct kids as [|k []]; try done. apply Forall_cons in Hk as [(s & Hs) _].
    assert (op_str ty = None) as ->.
    { apply orb_true_iff in E5 as [->%Z.eqb_eq| ->%Z.eqb_eq]; done. }
    cbn [map]. change (index [QLNode_Display k] 0) with (Ok (QLNode_Display k)). step_res. rewrite Hs.
    apply orb_true_iff in E5 as [->%Z.eqb_eq| ->%Z.eqb_eq]; by eexists.
  - apply andb_true_iff in Hw as [Hop Hl]. apply Nat.eqb_eq in Hl. destruct kids as [|a [|b []]]; try done.
    apply Forall_cons in Hk as [(sa & Ha) Hk]. apply Forall_cons in Hk as [(sb & Hb) _].
    destruct (op_str_binary ty Hop) as [op ->]. unfold displayBinOp. rewrite Hop. cbn [map].
    change (index [QLNode_Display a; QLNode_Display b] 0) with (Ok (QLNode_Display a)).
    change (index [QLNode_Display a; QLNode_Display b] 1) with (Ok (QLNode_Display b)). step_res.
    rewrite Ha. step_res. rewrite Hb. step_res. by eexists.
Qed.

(** What one item of the select list stands for. *)
Definition expand (cols : list bytes) (item : bytes * QLNode) : list (bytes * QLNode) :=
  if bytes_equal item.1 (bytes_of "*") then map (fun c => (c, mkQLNode QL_SYM 0 c [])) cols else [item].

Lemma unzip_columns cols : let items := map (fun c => (c, mkQLNode QL_SYM 0 c [])) cols in
  items.*1 = cols /\ items.*2 = map (fun col => mkQLNode QL_SYM 0 col []) cols.
Proof. induction cols as [|c cols [IH1 IH2]]; [done|]. cbn in *. by rewrite IH1, IH2. Qed.

Lemma select_cols_ok cols names output : length names = length output ->
  select_cols (Ok cols) names output =
    Ok ((flat_map (expand cols) (zip names output)).*1, (flat_map (expand cols) (zip names output)).*2).
Proof.
  revert output. induction names as [|name names IH]; intros [|o output] Hl; try done. cbn [select_cols zip zip_with flat_map].
  unfold expand at 1 3. cbn [fst snd]. destruct (bytes_equal name (bytes_of "*")); cbn [negb].
  - step_res. cbn [drop]. rewrite IH by by injection Hl. step_res. rewrite !fmap_app. destruct (unzip_columns cols) as [-> ->]. done.
  - change (index (o :: output) 0) with (Ok o). step_res. cbn [drop]. rewrite IH by by injection Hl. by step_res.
Qed.

(** The name of a column: its own, or its expression. *)
Definition shown (item : bytes * QLNode) (name : bytes) : Prop :=
  if bytes_equal item.1 [] then QLNode_Display item.2 = Ok name else name = item.1.

Lemma assign_names_ok items :
  Forall (fun item => item.1 = [] -> ql_wf item.2 = true) items ->
  exists names, assign_names items.*1 items.*2 = Ok names /\ Forall2 shown items names.
Proof.
  induction 1 as [|[name e] items Hi _ (names & E & IH)]; [by exists []|]. rewrite !fmap_cons. cbn [fst snd assign_names].
  assert (exists n, (if negb (bytes_equal name []) then Ok name else e ← index (e :: items.*2) 0; QLNode_Display e) = Ok n /\
    shown (name, e) n) as (n & -> & Hn).
  { unfold shown. cbn [fst snd] in *. destruct name as [|c name]; [|by eexists].
    destruct (Display_ok e (Hi eq_refl)) as (s & Hs). exists s. cbn. by split. }
  step_res. cbn [drop]; rewrite drop_0. rewrite E. step_res. eexists. split; [reflexivity|]. by constructor.
Qed.

(** The columns of a parsed select: [*] stands for all columns of the
    table in their order, any other item for its expression, and a column
    without a name is named by its expression, which can always be shown.
    Names and expressions stay in step, so the assertion of [execSelect]
    holds and no access is out of range. *)
Lemma select_columns cols s : stmt_ok (StSelect s) = true -> Forall (fun c => c <> []) cols ->
  let items := flat_map (expand cols) (zip (sel_Names s) (sel_Output s)) in
  exists names, select_cols (Ok cols) (sel_Names s) (sel_Output s) = Ok (items.*1, items.*2) /\
    assign_names items.*1 items.*2 = Ok names /\ Forall2 shown items names /\ length names = length items.*2.
Proof.
  intros Hs Hcols items. unfold stmt_ok in Hs. rewrite !andb_true_iff in Hs. destruct Hs as [[_ Hl%Nat.eqb_eq] Hall].
  destruct (assign_names_ok items) as (names & E & Hn).
  { apply Forall_forall. intros [name e] Hin. apply list_elem_of_In, in_flat_map in Hin as ([name' e'] & Hz & Hin).
    rewrite forallb_forall in Hall. specialize (Hall _ Hz). unfold expand in Hin. cbn [fst snd] in *.
    destruct (bytes_equal name' (bytes_of "*")) eqn:Es.
    - apply in_map_iff in Hin as (c & [= <- <-] & Hc). intros ->. rewrite Forall_forall in Hcols.
      destruct (Hcols []); [by apply list_elem_of_In|done].
    - destruct Hin as [[= <- <-]|[]]. intros _. apply orb_true_iff in Hall as [H|H]; [|done].
      apply andb_true_iff in H as [_ H]. unfold bytes_equal in *. congruence. }
  exists names. split; [by apply select_cols_ok|]. split; [exact E|]. split; [exact Hn|].
  apply Forall2_length in Hn. by rewrite length_fmap.
Qed.

(** ** Concrete statements *)

(** [index by a >= 3] *)
Definition scan_from : QLScan :=
  mkQLScan [] (mkQLNode QL_CMP_GE 0 [] [mkQLNode QL_TUP 0 [] [mkQLNode QL_SYM 0 (bytes_of "a") []];
      mkQLNode QL_TUP 0 [] [mkQLNode QL_I64 3 [] []]]) (mkQLNode 0 0 [] []) (mkQLNode 0 0 [] []) 0 (2 ^ 63 - 1).

Example initScanner_range_witness : exists q, initScanner scan_from = Ok (inl q) /\ (sr_Cmp1 q, sr_Cmp2 q) = (CMP_GE, CMP_LE).
Proof.
  destruct (initScanner_range scan_from eq_refl) as ([q|e] & E & H).
  - exists q. split; [exact E|]. exact (proj1 H).
  - exfalso. destruct H as [H|H]; vm_compute in H; congruence.
Defined.

(** [select *, -a] *)
Definition sel_star : QLSelect :=
  mkQLSelect scan_from [bytes_of "*"; []]
    [mkQLNode QL_STAR 0 [] []; mkQLNode QL_NEG 0 [] [mkQLNode QL_SYM 0 (bytes_of "a") []]].

Example select_columns_witness : exists names,
  assign_names [bytes_of "a"; bytes_of "b"; []]
    [mkQLNode QL_SYM 0 (bytes_of "a") []; mkQLNode QL_SYM 0 (bytes_of "b") [];
     mkQLNode QL_NEG 0 [] [mkQLNode QL_SYM 0 (bytes_of "a") []]] = Ok names /\ length names = 3%nat.
Proof.
  destruct (select_columns [bytes_of "a"; bytes_of "b"] sel_star eq_refl) as (names & _ & E & _ & Hl).
  - by repeat constructor.
  - exists names. split; [exact E|exact Hl].
Defined.
