(* ===== verification/TableQuery.v ===== *)
(** * Reading tables

    Point lookups, and the rows that a scan of a statement yields, from the
    bytes of the keys up to filter, offset and limit. *)

From S2P Require Import Prelude.
From S2P Require Import GoBytes.
From S2P Require Import KVSpec.
From S2P Require Import BTree.
From S2P Require Import BTreeRep.
From S2P Require Import BSplitFacts.
From S2P Require Import BTreeInsert.
From S2P Require Import BTreeMap.
From S2P Require Import MemStore.
From S2P Require Import BIter.
From S2P Require Import Encode.
From S2P Require Import EncodeFacts.
From S2P Require Import QLNode.
From S2P Require Import EvalFacts.
From S2P Require Import Parser.
From S2P Require Import ParserProps.
From S2P Require Import Schema.
From S2P Require Import SchemaFacts.
From S2P Require Import KVTX.
From S2P Require Import KVTXFacts.
From S2P Require Import KVTXProps.
From S2P Require Import KV.
From S2P Require Import Flush.
From S2P Require Import RangeFacts.
From S2P Require Import RangeProps.
From S2P Require Import RowFacts.
From S2P Require Import TableSpec.
From S2P Require Import Table.
From S2P Require Import TableFacts.
From S2P Require Import TableUpdate.
From S2P Require Import TableProps.
From S2P Require Import Exec.
From S2P Require Import ScanProps.
From S2P Require Import TableScan.
From S2P Require Import ParsedProps.

Section query.
Context (depth : nat) (file : bytes) (tdef : TableDef) (Hok : table_ok tdef).

(** C11.  [dbGet] refines lookup in the map of rows: given the primary key it
    returns the row of that key, all columns decoded, or says that there is
    none; the record that is returned has the columns of the table, primary
    key first.  Only the list of dependencies of the transaction grows.  (The
    transaction's range queries show what it sees, [range_view].) *)
Theorem dbGet_refines tx N T rec vs :
  stored tdef T N -> range_view depth file (dt_kv tx) N ->
  getValues tdef rec (pk_cols tdef) = Ok (inl vs) -> Forall cell_ok vs ->
  exists reads, dbGet depth file tx tdef rec =
    Ok (set_kv tx (set_reads (dt_kv tx) reads),
        inl ((fun rest => mkRow (all_cols tdef) ((norm <$> vs) ++ rest)) <$> T !! (norm <$> vs))).
Proof using Hok. exact (dbGet_with_ok depth file tdef Hok 1 tx N T rec vs). Qed.

(** Rows can be evaluated. *)
Lemma row_env_ok vals : typed tdef (all_cols tdef) vals -> env_ok (mkRow (all_cols tdef) vals).
Proof using.
  intros Ht. split; [exact (Forall2_length _ _ _ Ht)|]. eapply Forall_impl; [exact (typed_values _ _ _ Ht)|].
  intros v [(? & _)|[? _]]; [by left|by right].
Qed.

(** A scan of a statement, read to its end. *)
Definition scan_statement (n fuel : nat) (tx : DBTX) (req : QLScan) : res (DBTX * (list Row * option gerror)) :=
  '(tx, r) ← execScan depth file fuel tx req;
  match r with
  | inr e => Ok (tx, ([], Some e))
  | inl iter => drain (RowSource0 := table_source depth file) n fuel tx iter
  end.

(** C8.  A parsed scan of a table is the query it says, in a transaction whose
    range queries show its map ([range_view]: it has deleted no key and its
    trees have at most two levels; a scan that meets a key deleted before in the
    same transaction panics, [deleted_row_panics]). The schema is in the cache
    or internal, the two conditions point in opposite directions, and they
    compare leading columns of an index with values of the columns' types. Then
    the rows between the conditions are exactly those rows of the table whose
    leading columns satisfy both, and they come in the order of the index,
    ascending or descending as the first condition asks; through a secondary
    index each is fetched by its primary key. Reading the scan to its end yields
    of these the rows that satisfy the filter, cut by offset and limit as
    [limited] says, with all columns, without a panic and after as many rounds
    as there are rows. *)
Theorem scan_statement_rows tx N T req sreq i :
  stored tdef T N -> range_view depth file (dt_kv tx) N ->
  getTableDef depth file tx (qs_Table req) = Ok (tx, Some tdef) ->
  scan_ok req = true -> initScanner req = Ok (inl sreq) -> opposite_cmps (sr_Cmp1 sreq) (sr_Cmp2 sreq) ->
  bound_ok tdef (sr_Key1 sreq) -> bound_ok tdef (sr_Key2 sreq) -> scan_index tdef sreq = Z.of_nat i ->
  0 <= qs_Offset req ->
  exists idx rows, td_Indexes tdef !! i = Some idx /\
    StronglySorted (row_before tdef (sr_Cmp1 sreq) idx) rows /\
    (forall vals, vals ∈ rows <->
       T !! take (npk tdef) vals = Some (drop (npk tdef) vals) /\ row_in tdef sreq idx vals = true) /\
    forall n fuel, (length rows <= fuel)%nat -> (length rows < n)%nat -> len rows < 2 ^ 63 ->
    exists tx', scan_statement n fuel tx req =
      Ok (tx', limited (qs_Offset req) (qs_Limit req) (matching (qs_Filter req) (mkRow (all_cols tdef) <$> rows))).
Proof using Hok.
  intros Hst Hview Hdef Hscan Hinit Hc Hb1 Hb2 Hi Ho. pose proof Hst as [HT _].
  destruct (dbScan_ok depth file tdef Hok tx N T sreq i Hst Hview Hc Hb1 Hb2 Hi) as
    (reads & sc & idx & rows & Hidx & E & _ & Hsc & Hs & Hel).
  exists idx, rows. split; [done|]. split; [done|]. split; [done|]. intros n fuel Hf Hn Hmax.
  set (tx1 := set_kv tx (set_reads (dt_kv tx) reads)) in *.
  assert (rl_rows (RowList := table_rows depth file) tx1 sc (mkRow (all_cols tdef) <$> rows)) as Hrl.
  { by exists tdef, T, rows. }
  destruct (limited_rows req tx1 sc _ fuel n Hrl) as (tx' & E'); try (by rewrite ?length_fmap).
  { apply filters_evaluable; [done|]. apply Forall_fmap, Forall_forall. intros vals Hin. apply row_env_ok.
    apply Hel in Hin as [Hrow _]. by eapply row_typed. }
  { unfold len in *. by rewrite length_fmap. }
  exists tx'. unfold scan_statement, execScan, DBTX_Scan. rewrite Hinit. step_res. rewrite Hdef. step_res. rewrite E. step_res.
  unfold start in E'. apply res_bind_Ok in E' as ([tx2 iter] & -> & E'). step_res. exact E'.
Qed.

End query.

(** ** A table with one row *)

(** Pets without an index on their names. *)
Definition plain_pets : TableDef :=
  mkTableDef (bytes_of "pets") [TYPE_INT64; TYPE_BYTES] [col_id; col_name] [[col_id]] [100].

Lemma plain_pets_ok : table_ok plain_pets.
Proof.
  split; try by (apply (bool_decide_eq_true_1 _); vm_compute; reflexivity).
  split; [by apply (bool_decide_eq_true_1 _); vm_compute|].
  exists [col_id], []. split; [done|]. by apply (bool_decide_eq_true_1 _); vm_compute.
Qed.

Definition rex_key : bytes := row_key plain_pets rex.
Definition rex_val : bytes := row_val plain_pets rex.

Lemma rex_small : small_kv (rex_key, FLAG_UPDATED :: rex_val).
Proof. unfold small_kv, SMALL_COST. vm_compute. lia. Qed.

Lemma plain_stored : stored plain_pets {[[int_val 7] := [str_val "rex"]]} {[rex_key := rex_val]}.
Proof.
  assert (row_ok plain_pets ([int_val 7] ++ [str_val "rex"])) as Hrow.
  { split; [|split; [exact rex_small|by apply Forall_nil]].
    repeat (constructor; [split; [|done]|]); [left|right|constructor]; by repeat split. }
  exact (stored_updated plain_pets plain_pets_ok ∅ ∅ [int_val 7] [str_val "rex"] (empty_stored _) Hrow eq_refl).
Qed.

(** A transaction that has inserted the row, with pages left. *)
Lemma rex_pending r : Z.of_nat r < 2 ^ 61 -> exists tx hp, (hp <= 1)%nat /\
  tx_sees [] 0 hp tx {[rex_key := rex_val]} r /\
  forall depth, (1 < depth)%nat -> range_view depth [] tx {[rex_key := rex_val]}.
Proof.
  intros Hr. destruct (pending_empty (kv_zero [] []) ∅ (5 + r) ltac:(lia)) as (Hp & _ & _). fold tx_new in Hp.
  destruct (pending_Update 1 0 ltac:(lia) tx_new ∅ rex_key (FLAG_UPDATED :: rex_val) r Hp ltac:(done) rex_small
    ltac:(by rewrite lookup_empty)) as (t' & q & hp' & _ & Hh & Ht). rewrite insert_empty in Ht.
  assert (flagged {[rex_key := FLAG_UPDATED :: rex_val]}) as Hfl.
  { intros k v. rewrite lookup_singleton_Some. intros [_ <-]. left. by exists rex_val. }
  assert (overlay (kv_map []) {[rex_key := FLAG_UPDATED :: rex_val]} = {[rex_key := rex_val]}) as Ho.
  { rewrite <- (insert_empty rex_key (FLAG_UPDATED :: rex_val)), overlay_set, overlay_empty. exact (insert_empty rex_key rex_val). }
  exists (set_pending tx_new t'), hp'. split; [lia|]. split.
  - exists [], {[rex_key := FLAG_UPDATED :: rex_val]}. split; [exact tx_new_reads|]. by split.
  - intros depth Hd. rewrite <- Ho.
    eapply (tx_range_view depth [] (set_pending tx_new t') 0 hp' []); [exact tx_new_reads|lia|lia|exact Ht|clear -Hh; lia|clear -Hh Hd; lia|exact Hfl|].
    intros k. rewrite lookup_singleton_Some. by intros [_ ?].
Qed.

Lemma rex_view : exists tx, range_view 2 [] tx {[rex_key := rex_val]}.
Proof. destruct (rex_pending 0 ltac:(lia)) as (tx & _ & _ & _ & Hv). exists tx. apply Hv. lia. Qed.

Example dbGet_refines_witness : exists tx tx',
  dbGet 2 [] tx plain_pets (mkRow [col_id] [int_val 7]) = Ok (tx', inl (Some (mkRow [col_id; col_name] rex))).
Proof.
  destruct rex_view as (kvtx & Hview).
  destruct (dbGet_refines 2 [] plain_pets plain_pets_ok (mkDBTX kvtx ∅) _ _ (mkRow [col_id] [int_val 7]) [int_val 7] plain_stored Hview)
    as (reads & E).
  - reflexivity.
  - constructor; [left; by repeat split|constructor].
  - eexists _, _. exact E.
Defined.

(** [from pets index by id >= 3 limit 10], for the parser's default limit. *)
Definition scan_pets : QLScan :=
  mkQLScan (bytes_of "pets")
    (mkQLNode QL_CMP_GE 0 [] [mkQLNode QL_TUP 0 [] [mkQLNode QL_SYM 0 (bytes_of "id") []];
      mkQLNode QL_TUP 0 [] [mkQLNode QL_I64 3 [] []]]) (mkQLNode 0 0 [] []) (mkQLNode 0 0 [] []) 0 10.

Example scan_statement_rows_witness : exists tx rows,
  rex ∈ rows /\ exists tx',
    scan_statement 2 [] (S (length rows)) (length rows) tx scan_pets =
      Ok (tx', limited 0 10 (matching (mkQLNode 0 0 [] []) (mkRow [col_id; col_name] <$> rows))).
Proof.
  destruct rex_view as (kvtx & Hview).
  set (tx := mkDBTX kvtx {[bytes_of "pets" := plain_pets]}).
  destruct (scan_statement_rows 2 [] plain_pets plain_pets_ok tx _ _ scan_pets
    (mkScanReq CMP_GE CMP_LE (mkRow [col_id] [int_val 3]) no_row) 0 plain_stored Hview) as (idx & rows & Hi & Hs & Hel & Hscan).
  - reflexivity.
  - reflexivity.
  - reflexivity.
  - split; [by left|]. split; [by right; right; right|]. left. split; reflexivity.
  - constructor; [|constructor]. split; [left|]. split; [left; by repeat split|reflexivity].
  - constructor.
  - reflexivity.
  - done.
  - injection Hi as <-.
    assert (forall vals, vals ∈ rows -> vals = rex) as Hone.
    { intros vals [Hrow _]%Hel. apply lookup_singleton_Some in Hrow as [H1 H2].
      rewrite <- (take_drop (npk plain_pets) vals), <- H1, <- H2. reflexivity. }
    exists tx, rows. split; [apply Hel; split; [|vm_compute; reflexivity]; by rewrite lookup_singleton_eq|].
    apply Hscan; [done|lia|]. destruct rows as [|x [|y rows]]; [done|done|]. exfalso.
    apply StronglySorted_inv in Hs as [_ Hs]. apply Forall_cons in Hs as [Hs _].
    rewrite (Hone x), (Hone y) in Hs by (repeat (left || right)). by vm_compute in Hs.
Defined.

(** ** What a deletion leaves behind *)

(** The transaction inserts the row, deletes it, and looks it up: the iterator
    still shows the deleted key, and decoding its empty value panics. *)
Lemma deleted_row_panics :
  let deleted :=
    '(tx, _, _) ← dbUpdate 3 [] db_new plain_pets (mkDBUpdateReq (mkRow [col_id; col_name] rex) MODE_UPSERT false false);
    '(tx, r) ← dbDelete 3 [] tx plain_pets (mkRow [col_id] [int_val 7]);
    Ok (tx, r) in
  ('(tx, r) ← deleted; Ok r) = Ok (true, None) /\
  ('(tx, r) ← deleted; dbGet 3 [] tx plain_pets (mkRow [col_id] [int_val 7])) = Panic.
Proof. split; vm_compute; reflexivity. Qed.
