(* ===== verification/Catalog.v ===== *)
(** * Creating tables

    The schemas are rows of the internal table [TDEF_TABLE]; [TDEF_META] holds
    the next free prefix.  [TableNew] adds a row and takes prefixes that no
    table has. *)

From S2P Require Import Prelude.
From S2P Require Import GoBytes.
From S2P Require Import KVSpec.
From S2P Require Import BTree.
From S2P Require Import BSplitFacts.
From S2P Require Import BTreeInsert.
From S2P Require Import Encode.
From S2P Require Import EncodeFacts.
From S2P Require Import QLNode.
From S2P Require Import EvalFacts.
From S2P Require Import Parser.
From S2P Require Import Schema.
From S2P Require Import SchemaFacts.
From S2P Require Import SchemaProps.
From S2P Require Import KVTX.
From S2P Require Import KVView.
From S2P Require Import RowFacts.
From S2P Require Import TableSpec.
From S2P Require Import Table.
From S2P Require Import TableFacts.
From S2P Require Import TableUpdate.
From S2P Require Import TableProps.
From S2P Require Import BTreeMap.
From S2P Require Import BTreeRep.
From S2P Require Import MemStore.
From S2P Require Import KVTXFacts.
From S2P Require Import KVTXProps.
From S2P Require Import KV.
From S2P Require Import Flush.
From S2P Require Import TableScan.

(** ** The internal tables *)

Abbreviation str_of s := (mkValue TYPE_BYTES 0 s).


Lemma table_table_ok : table_ok TDEF_TABLE.
Proof.
  split; try by (apply (bool_decide_eq_true_1 _); vm_compute; reflexivity).
  split; [by apply (bool_decide_eq_true_1 _); vm_compute|].
  exists [bytes_of "name"], []. split; [done|]. by apply (bool_decide_eq_true_1 _); vm_compute.
Qed.



(** ** Rows of two strings *)








Section catalog.
Context (depth : nat) (file : bytes).

Abbreviation sees := (db_sees (KVPromise0 := tx_promise depth file)).
Abbreviation later := (db_later (KVPromise0 := tx_promise depth file)).

(** Looking up a schema, or the next prefix. *)
Lemma get_schema tx N TS name : stored TDEF_TABLE TS N -> range_view depth file (dt_kv tx) N ->
  exists reads, dbGet depth file tx TDEF_TABLE (AddStr (mkRow [] []) (bytes_of "name") name) =
    Ok (set_kv tx (set_reads (dt_kv tx) reads),
        inl ((fun rest => mkRow [bytes_of "name"; bytes_of "def"] (str_of name :: rest)) <$> TS !! [str_of name])).
Proof.
  intros Hst Hv. apply (dbGet_with_ok depth file TDEF_TABLE table_table_ok 1 tx N TS _ [str_of name] Hst Hv).
  - reflexivity.
  - by repeat constructor; right.
Qed.



(** ** The catalog *)

















(** What has been stored is found, once, and then kept in the cache. *)
Lemma getTableDef_ok tx N TS t :
  stored TDEF_TABLE TS N -> range_view depth file (dt_kv tx) N -> INTERNAL_TABLES !! td_Name t = None ->
  dt_tables tx !! td_Name t = None -> plain_schema t -> TS !! [str_of (td_Name t)] = Some [str_of (Marshal t)] ->
  exists reads, getTableDef depth file tx (td_Name t) =
    Ok (mkDBTX (set_reads (dt_kv tx) reads) (<[td_Name t := t]> (dt_tables tx)), Some t).
Proof using.
  intros Hts Hv Hint Hcache Hplain Ht. unfold getTableDef, getTableDefDB. rewrite Hint, Hcache.
  destruct (get_schema tx N TS (td_Name t) Hts Hv) as (reads & ->). step_res. rewrite Ht. cbn [fmap option_fmap option_map].
  change (row_Get _ (bytes_of "def")) with (Ok (Some (str_of (Marshal t)))). step_res. cbn [v_Str].
  rewrite Unmarshal_Marshal by done. step_res. by exists reads.
Qed.

End catalog.

(** ** A first table *)




(** From 33686018 (four bytes 2) on the stored counter may have nothing to
    escape, and if it comes from the snapshot its update is a fault. *)
Example counter_fault : PutUint32_row 9 db_new true (le_split 4 33686018) 33686019 = Panic.
Proof. vm_compute. reflexivity. Qed.
