(* ===== verification/LoopScan.v ===== *)
(** * Loops over a scan

    The loops of [execDelete] and [execUpdate] change the table while they read
    it.  On the first index the scanner reads the pages of the moment it was
    made and never asks the transaction again ([Next_still]), so the rows that
    the loop visits are those of the table before the statement
    ([scan_visits]). *)

From S2P Require Import Prelude.
From S2P Require Import GoBytes.
From S2P Require Import KVSpec.
From S2P Require Import BTree.
From S2P Require Import BTreeRep.
From S2P Require Import BSplitFacts.
From S2P Require Import BTreeInsert.
From S2P Require Import BIter.
From S2P Require Import Encode.
From S2P Require Import EncodeFacts.
From S2P Require Import QLNode.
From S2P Require Import EvalFacts.
From S2P Require Import Parser.
From S2P Require Import ParserProps.
From S2P Require Import Schema.
From S2P Require Import SchemaFacts.
From S2P Require Import KVTX.
From S2P Require Import KVTXFacts.
From S2P Require Import KVView.
From S2P Require Import RangeFacts.
From S2P Require Import RangeProps.
From S2P Require Import RowFacts.
From S2P Require Import TableSpec.
From S2P Require Import Table.
From S2P Require Import TableFacts.
From S2P Require Import TableUpdate.
From S2P Require Import Exec.
From S2P Require Import ScanProps.
From S2P Require Import TableScan.
From S2P Require Import ParsedProps.
From S2P Require Import TableProps.
From S2P Require Import TableQuery.

(** ** Lists *)

Lemma sublist_fmap_from {A B} (f : A -> B) l k : l `sublist_of` f <$> k -> exists k', l = f <$> k' /\ k' `sublist_of` k.
Proof.
  intros H. remember (f <$> k) as fk eqn:E. revert k E. induction H as [|x l1 l2 _ IH|x l1 l2 _ IH]; intros [|y k] E; try done.
  - by exists [].
  - injection E as -> E. destruct (IH k E) as (k' & -> & Hk). exists (y :: k'). split; [done|by constructor].
  - injection E as -> E. destruct (IH k E) as (k' & -> & Hk). exists k'. split; [done|by constructor].
Qed.

(** What is selected comes from the scan, in its order. *)
Lemma matching_sublist f rows : (matching f rows).1 `sublist_of` rows.
Proof.
  induction rows as [|r rows IH]; [constructor|]. cbn [matching].
  destruct (filter_ok f r) as [[[]|]| |]; try apply sublist_nil_l; [|by constructor].
  destruct (matching f rows) as [ms e]. cbn in *. by constructor.
Qed.

Lemma limited_sublist offset limit f rows : (limited offset limit (matching f rows)).1 `sublist_of` rows.
Proof.
  pose proof (matching_sublist f rows) as Hm. unfold limited. destruct (limit =? 0); [apply sublist_nil_l|].
  destruct (_ && _); cbn [fst].
  - etransitivity; [apply sublist_take|]. etransitivity; [apply sublist_drop|exact Hm].
  - etransitivity; [apply sublist_drop|exact Hm].
Qed.

Lemma vals_compare_refl vs : vals_compare vs vs = 0.
Proof.
  induction vs as [|v vs IH]; [done|]. cbn. assert (val_compare v v = 0) as ->; [|exact IH].
  unfold val_compare. rewrite Z.compare_refl, bytes_compare_refl. by destruct (_ =? _).
Qed.

Section loops.
Context (depth : nat) (file : bytes) (fuel : nat) (tdef : TableDef) (Hok : table_ok tdef).

#[local] Instance source : RowSource DBTX Scanner := table_source depth file.

(** ** Iterators that do not depend on the transaction *)

(** The scanner reads the first index of the table as it was in [kvtx]. *)
Definition first_scan (sc : Scanner) : Prop :=
  exists kvtx T rows, scans depth file tdef kvtx T sc rows /\ sc_index sc = 0.

Lemma first_Next sc sc' : first_scan sc -> Scanner_Valid sc = Ok true -> Scanner_Next sc = Ok sc' -> first_scan sc'.
Proof using.
  intros (kvtx & T & rows & Hsc & H0) HV HE. rewrite (scans_Valid _ _ _ _ _ _ _ Hsc) in HV. destruct rows as [|v rows]; [done|].
  destruct (scans_Next _ _ _ _ _ _ _ _ Hsc) as (sc1 & E & Hsc1). rewrite E in HE. injection HE as ->.
  exists kvtx, T, rows. split; [done|]. unfold Scanner_Next in E. apply res_bind_Ok in E as (it & _ & E). by injection E as <-.
Qed.

Lemma first_Deref sc : first_scan sc -> Scanner_Valid sc = Ok true ->
  exists r, forall tx, Scanner_Deref depth file tx sc = Ok (tx, r).
Proof using Hok.
  intros (kvtx & T & rows & Hsc & H0) HV. rewrite (scans_Valid _ _ _ _ _ _ _ Hsc) in HV. destruct rows as [|v rows]; [done|].
  eexists. intros tx. by apply (Deref_first depth file tdef Hok 1 kvtx tx T sc v rows).
Qed.

(** One round of the loop, given the row. *)
Lemma loop_step n (iter : QLScanIter Scanner) r matched : Scanner_Valid (qi_sc iter) = Ok true ->
  (forall tx, Scanner_Deref depth file tx (qi_sc iter) = Ok (tx, r)) -> filter_ok (qs_Filter (qi_req iter)) r = Ok matched ->
  let iter1 := mkQLScanIter (qi_req iter) (qi_sc iter) (qi_count iter) (qi_end iter) r (qi_err iter) in
  forall tx, scan_next_loop (S n) tx iter =
    match matched with
    | inr e => Ok (tx, set_err iter1 (Some e))
    | inl m =>
        sc ← Scanner_Next (qi_sc iter);
        let count := if m : bool then i64 (qi_count iter + 1) else qi_count iter in
        let iter2 := mkQLScanIter (qi_req iter) sc count (qi_end iter) r (qi_err iter) in
        if m : bool then if count <=? qs_Offset (qi_req iter) then scan_next_loop n tx iter2 else Ok (tx, iter2)
        else scan_next_loop n tx iter2
    end.
Proof using.
  intros HV HD Hm iter1 tx. cbn [scan_next_loop]. change (rs_Valid (qi_sc iter)) with (Scanner_Valid (qi_sc iter)).
  rewrite HV, bind_Ok. cbn [negb]. unfold pull. change (rs_Deref tx (qi_sc iter)) with (Scanner_Deref depth file tx (qi_sc iter)).
  rewrite HD, !bind_Ok. cbv zeta. cbn [qi_req]. rewrite Hm, !bind_Ok. done.
Qed.

Lemma loop_still n tx iter tx' iter' : first_scan (qi_sc iter) -> scan_next_loop n tx iter = Ok (tx', iter') ->
  tx' = tx /\ first_scan (qi_sc iter') /\ forall tx2, scan_next_loop n tx2 iter = Ok (tx2, iter').
Proof using Hok.
  revert tx iter. induction n as [|n IH]; intros tx iter Hf E.
  - cbn [scan_next_loop] in *. change (rs_Valid (qi_sc iter)) with (Scanner_Valid (qi_sc iter)) in *.
    destruct (Scanner_Valid (qi_sc iter)) as [[]| |]; try done. rewrite bind_Ok in *. injection E as <- <-. by split.
  - destruct (Scanner_Valid (qi_sc iter)) as [valid| |] eqn:HV.
    2,3: cbn [scan_next_loop] in E; change (rs_Valid (qi_sc iter)) with (Scanner_Valid (qi_sc iter)) in E; by rewrite HV in E.
    destruct valid.
    2:{ assert (forall tx2, scan_next_loop (S n) tx2 iter = Ok (tx2, set_end iter)) as Hend.
        { intros tx2. cbn [scan_next_loop]. change (rs_Valid (qi_sc iter)) with (Scanner_Valid (qi_sc iter)). by rewrite HV. }
        rewrite Hend in E. injection E as <- <-. by split. }
    destruct (first_Deref _ Hf HV) as (r & HD).
    destruct (filter_ok (qs_Filter (qi_req iter)) r) as [matched| |] eqn:Hm.
    2,3: cbn [scan_next_loop] in E; unfold pull in E; change (rs_Valid (qi_sc iter)) with (Scanner_Valid (qi_sc iter)) in E;
      change (rs_Deref tx (qi_sc iter)) with (Scanner_Deref depth file tx (qi_sc iter)) in E;
      rewrite HV, bind_Ok, HD, bind_Ok in E; cbn [negb qi_req] in E; by rewrite Hm in E.
    pose proof (loop_step n iter r matched HV HD Hm) as Hstep. cbv zeta in Hstep. rewrite Hstep in E.
    destruct matched as [m|e]; [|injection E as <- <-; split; [done|]; split; [done|]; intros tx2; by rewrite Hstep].
    apply res_bind_Ok in E as (sc1 & HN & E). pose proof (first_Next _ _ Hf HV HN) as Hf1.
    assert (forall tx2, scan_next_loop (S n) tx2 iter = _) as Hstep2 by (intros tx2; rewrite Hstep, HN, bind_Ok; reflexivity).
    clear Hstep. destruct m; [destruct (_ <=? _)|].
    1,3: apply IH in E as (-> & Hf2 & Hall); [|exact Hf1]; split; [done|]; split; [exact Hf2|]; intros tx2; by rewrite Hstep2.
    injection E as <- <-. split; [done|]. split; [exact Hf1|]. exact Hstep2.
Qed.

Lemma Next_still n tx iter tx' iter' : first_scan (qi_sc iter) -> scan_Next n tx iter = Ok (tx', iter') ->
  tx' = tx /\ first_scan (qi_sc iter') /\ forall tx2, scan_Next n tx2 iter = Ok (tx2, iter').
Proof using Hok.
  intros Hf. unfold scan_Next. destruct (_ =? _); [|by apply loop_still]. intros [= <- <-]. by split.
Qed.

(** The rows that a loop over the iterator visits, and the error that stops it. *)
Inductive visits : QLScanIter Scanner -> list Row -> option gerror -> Prop :=
| visits_end iter : scan_Valid iter = false -> visits iter [] None
| visits_error iter e : scan_Valid iter = true -> scan_Deref iter = Ok (inr e) -> visits iter [] (Some e)
| visits_row iter rec iter' recs err : scan_Valid iter = true -> scan_Deref iter = Ok (inl rec) ->
    (forall tx : DBTX, scan_Next fuel tx iter = Ok (tx, iter')) -> visits iter' recs err -> visits iter (rec :: recs) err.

Lemma drain_visits n tx iter tx' recs err : first_scan (qi_sc iter) -> drain n fuel tx iter = Ok (tx', (recs, err)) ->
  visits iter recs err.
Proof using Hok.
  revert tx iter tx' recs err. induction n as [|n IH]; intros tx iter tx' recs err Hf; cbn [drain];
    destruct (scan_Valid iter) eqn:HV; cbn [negb]; try done.
  - intros [= <- <- <-]. by constructor.
  - intros (r & Er & E)%res_bind_Ok. destruct r as [rec|e].
    + apply res_bind_Ok in E as ([tx1 iter1] & E1 & E). apply res_bind_Ok in E as ([tx2 [recs2 err2]] & E2 & E).
      injection E as <- <- <-. destruct (Next_still _ _ _ _ _ Hf E1) as (_ & Hf1 & Hall).
      econstructor; [done|exact Er|exact Hall|]. by eapply IH.
    + injection E as <- <- <-. by apply visits_error.
  - intros [= <- <- <-]. by constructor.
Qed.

(** ** The iterator of a statement *)

Abbreviation sees := (db_sees (KVPromise0 := tx_promise depth file)).
Abbreviation later := (db_later (KVPromise0 := tx_promise depth file)).

(** The schema is found without reading it. *)
Definition cached (tx : DBTX) (name : bytes) : Prop :=
  INTERNAL_TABLES !! name = Some tdef \/ INTERNAL_TABLES !! name = None /\ dt_tables tx !! name = Some tdef.

Lemma cached_get tx name : cached tx name -> getTableDef depth file tx name = Ok (tx, Some tdef).
Proof using. unfold getTableDef. by intros [->|[-> ->]]. Qed.

Lemma cached_later tx tx' name : later tx tx' -> cached tx name -> cached tx' name.
Proof using. intros [_ E] [?|[? ?]]; [by left|right]. by rewrite E. Qed.

Lemma rows_distinct (T : table) d idx (rows : list (list Value)) : StronglySorted (row_before tdef d idx) rows ->
  Forall (fun vals => T !! take (npk tdef) vals = Some (drop (npk tdef) vals)) rows -> NoDup (take (npk tdef) <$> rows).
Proof using.
  intros Hs Hr. apply NoDup_fmap_2_strong.
  - intros x y Hx Hy E. rewrite Forall_forall in Hr. pose proof (Hr x Hx) as H1. pose proof (Hr y Hy) as H2.
    rewrite E, H2 in H1. injection H1 as H1. by rewrite <- (take_drop (npk tdef) x), <- (take_drop (npk tdef) y), E, H1.
  - clear Hr. induction Hs as [|x rows _ IH Hx]; constructor; [|exact IH]. intros Hin. rewrite Forall_forall in Hx.
    specialize (Hx x Hin). unfold row_before in Hx. rewrite vals_compare_refl in Hx. destruct (0 <? d); lia.
Qed.

(** The iterator of a parsed statement with a range on the first index visits
    the rows of the range that pass the filter, cut by offset and limit. *)
Lemma scan_visits tx N T req sreq :
  cached tx (qs_Table req) -> stored tdef T N -> range_view depth file (dt_kv tx) N ->
  scan_ok req = true -> initScanner req = Ok (inl sreq) -> opposite_cmps (sr_Cmp1 sreq) (sr_Cmp2 sreq) ->
  bound_ok tdef (sr_Key1 sreq) -> bound_ok tdef (sr_Key2 sreq) -> scan_index tdef sreq = 0 -> 0 <= qs_Offset req ->
  exists rows, StronglySorted (row_before tdef (sr_Cmp1 sreq) (pk_cols tdef)) rows /\
    (forall vals, vals ∈ rows <->
       T !! take (npk tdef) vals = Some (drop (npk tdef) vals) /\ row_in tdef sreq (pk_cols tdef) vals = true) /\
    let sel := limited (qs_Offset req) (qs_Limit req) (matching (qs_Filter req) (mkRow (all_cols tdef) <$> rows)) in
    ((length rows < fuel)%nat -> len rows < 2 ^ 63 ->
     exists reads iter chosen, sel.1 = mkRow (all_cols tdef) <$> chosen /\ chosen `sublist_of` rows /\
       Forall (fun vals => T !! take (npk tdef) vals = Some (drop (npk tdef) vals)) chosen /\
       NoDup (take (npk tdef) <$> chosen) /\
       execScan depth file fuel tx req = Ok (set_kv tx (set_reads (dt_kv tx) reads), inl iter) /\
       visits iter (mkRow (all_cols tdef) <$> chosen) sel.2).
Proof using Hok.
  intros Hca Hst Hview Hscan Hinit Hc Hb1 Hb2 Hi Ho. pose proof Hst as [HT _].
  destruct (dbScan_ok depth file tdef Hok tx N T sreq 0 Hst Hview Hc Hb1 Hb2 Hi) as
    (reads & sc & idx & rows & Hidx & E & Hz & Hsc & Hs & Hel).
  destruct (td_split tdef Hok) as (pk & idxs & Ei & Epk & _). rewrite Ei in Hidx. injection Hidx as <-. rewrite <- Epk in *.
  exists rows. split; [exact Hs|]. split; [exact Hel|]. intros sel Hf Hmax.
  set (tx1 := set_kv tx (set_reads (dt_kv tx) reads)) in *.
  assert (Forall (fun vals => T !! take (npk tdef) vals = Some (drop (npk tdef) vals)) rows) as Hrows.
  { apply Forall_forall. intros vals Hin. by apply Hel in Hin as [? _]. }
  assert (rl_rows (RowList := table_rows depth file) tx1 sc (mkRow (all_cols tdef) <$> rows)) as Hrl.
  { by exists tdef, T, rows. }
  destruct (limited_rows req tx1 sc _ fuel (S (length rows)) Hrl) as (tx2 & E2);
    [|rewrite length_fmap; lia|rewrite length_fmap; lia|done|unfold len in *; by rewrite length_fmap|].
  { apply filters_evaluable; [done|]. apply Forall_fmap. eapply Forall_impl; [exact Hrows|]. intros vals Hr.
    apply row_env_ok. by eapply row_typed. }
  fold sel in E2. apply res_bind_Ok in E2 as ([tx3 iter] & E3 & E4).
  assert (first_scan (qi_sc (start req sc))) as Hfs by by exists (dt_kv tx), T, rows.
  destruct (Next_still _ _ _ _ _ Hfs E3) as (-> & Hfs' & _).
  destruct sel as [recs err] eqn:Esel. pose proof (drain_visits _ _ _ _ _ _ Hfs' E4) as Hvis.
  pose proof (limited_sublist (qs_Offset req) (qs_Limit req) (qs_Filter req) (mkRow (all_cols tdef) <$> rows)) as Hsub.
  fold sel in Hsub. rewrite Esel in Hsub. cbn [fst snd] in Hsub |- *.
  apply sublist_fmap_from in Hsub as (chosen & -> & Hsub). exists reads, iter, chosen.
  split; [done|]. split; [done|]. split; [|split; [|split; [|done]]].
  - rewrite Forall_forall in Hrows |- *. intros vals Hin. apply Hrows. by eapply elem_of_sublist.
  - eapply sublist_NoDup; [by eapply rows_distinct|]. by apply fmap_sublist.
  - unfold execScan, DBTX_Scan. rewrite Hinit. step_res. rewrite (cached_get _ _ Hca). step_res. rewrite E. step_res.
    unfold start in E3. by rewrite E3.
Qed.

End loops.

(** ** The table with one row *)

Lemma rex_room : exists tx, db_sees (KVPromise0 := tx_promise 9 []) tx {[rex_key := rex_val]} 2 /\
  cached plain_pets tx (bytes_of "pets") /\ range_view 9 [] (dt_kv tx) {[rex_key := rex_val]}.
Proof.
  destruct (rex_pending (room 1 2) ltac:(done)) as (kvtx & hp & Hh & Hs & Hv).
  exists (mkDBTX kvtx {[bytes_of "pets" := plain_pets]}). split; [|split; [by right|apply Hv; lia]].
  exists 0%nat, hp. split; [lia|]. split; [lia|]. eapply tx_sees_weaken; [exact Hs|]. by apply room_mono.
Qed.

(** The scan has this one row. *)
Lemma rex_rows d idx rows sreq : StronglySorted (row_before plain_pets d idx) rows ->
  (forall vals, vals ∈ rows <->
     ({[[int_val 7] := [str_val "rex"]]} : table) !! take (npk plain_pets) vals = Some (drop (npk plain_pets) vals) /\
     row_in plain_pets sreq (pk_cols plain_pets) vals = true) ->
  row_in plain_pets sreq (pk_cols plain_pets) rex = true -> rows = [rex].
Proof.
  intros Hs Hel Hin.
  assert (forall vals, vals ∈ rows -> vals = rex) as Hone.
  { intros vals [Hrow _]%Hel. apply lookup_singleton_Some in Hrow as [H1 H2].
    rewrite <- (take_drop (npk plain_pets) vals), <- H1, <- H2. reflexivity. }
  assert (rex ∈ rows) as Hrex by (apply Hel; split; [by rewrite lookup_singleton_eq|done]).
  assert (NoDup rows) as Hnd.
  { apply (NoDup_fmap_1 (take (npk plain_pets))), (rows_distinct plain_pets {[[int_val 7] := [str_val "rex"]]} d idx); [exact Hs|].
    apply Forall_forall. intros vals Hv. by apply Hel in Hv as [? _]. }
  destruct rows as [|x [|y rows]]; [by apply elem_of_nil in Hrex|by rewrite (Hone x) by left|].
  exfalso. apply NoDup_cons in Hnd as [Hx _]. apply Hx. rewrite (Hone x), (Hone y) by (repeat (left || right)). left.
Qed.
