(* ===== verification/DeleteStmt.v ===== *)
(** * DELETE as a map operation

    The loop of [execDelete] over a scan ([LoopScan]) deletes the rows that the
    statement selects, with the keys of all their indexes. *)

From S2P Require Import Prelude.
From S2P Require Import GoBytes.
From S2P Require Import KVSpec.
From S2P Require Import BTree.
From S2P Require Import BTreeRep.
From S2P Require Import BSplitFacts.
From S2P Require Import BTreeInsert.
From S2P Require Import BIter.
From S2P Require Import Encode.
From S2P Require Import EncodeFacts.
From S2P Require Import QLNode.
From S2P Require Import EvalFacts.
From S2P Require Import Parser.
From S2P Require Import ParserProps.
From S2P Require Import Schema.
From S2P Require Import SchemaFacts.
From S2P Require Import KVTX.
From S2P Require Import KVTXFacts.
From S2P Require Import KVView.
From S2P Require Import RangeFacts.
From S2P Require Import RangeProps.
From S2P Require Import RowFacts.
From S2P Require Import TableSpec.
From S2P Require Import Table.
From S2P Require Import TableFacts.
From S2P Require Import TableUpdate.
From S2P Require Import Exec.
From S2P Require Import ScanProps.
From S2P Require Import TableScan.
From S2P Require Import ParsedProps.
From S2P Require Import TableProps.
From S2P Require Import TableQuery.
From S2P Require Import LoopScan.

Section delete.
Context (depth : nat) (file : bytes) (fuel : nat) (tdef : TableDef) (Hok : table_ok tdef).

Abbreviation sees := (db_sees (KVPromise0 := tx_promise depth file)).
Abbreviation later := (db_later (KVPromise0 := tx_promise depth file)).

(** A record of just these columns. *)
Lemma getValues_part cols vs cols' vs' : length cols = length vs -> cols' ⊆ td_Cols tdef ->
  Forall2 (fun c v => assoc cols vs c = Some v /\ col_type tdef c = Some (v_Type v)) cols' vs' ->
  getValues tdef (mkRow cols vs) cols' = Ok (inl vs').
Proof using Hok.
  intros Hl Hs H. induction H as [|c v cols' vs' [Ha Ht] _ IH]; [done|]. cbn [getValues].
  rewrite row_Get_assoc by done. cbn [rec_Cols rec_Vals]. rewrite Ha. step_res.
  destruct (col_type_some tdef Hok c) as (t & Ht' & _ & ->); [set_solver|]. step_res. rewrite Ht in Ht'. injection Ht' as <-.
  rewrite Z.eqb_refl. cbn [negb]. rewrite IH by set_solver. by step_res.
Qed.

Lemma getValues_self cols vs : NoDup cols -> cols ⊆ td_Cols tdef ->
  Forall2 (fun c v => col_type tdef c = Some (v_Type v)) cols vs -> getValues tdef (mkRow cols vs) cols = Ok (inl vs).
Proof using Hok.
  intros Hn Hs Ht. pose proof (Forall2_length _ _ _ Ht) as Hl. apply getValues_part; [done|done|].
  apply Forall2_same_length_lookup_2; [done|]. intros i c v Hc Hv. split; [|by eapply (Forall2_lookup_lr _ _ _ _ _ _ Ht)].
  clear Ht Hs. revert vs i Hl Hc Hv. induction Hn as [|x cols Hx Hn IH]; intros [|w vs] i Hl Hc Hv; try done.
  destruct i as [|i]; cbn in Hc, Hv |- *.
  - injection Hc as ->. injection Hv as ->. by rewrite decide_True.
  - rewrite decide_False; [eapply IH; [by injection Hl|exact Hc|exact Hv]|]. intros ->. apply Hx. by eapply list_elem_of_lookup_2.
Qed.

(** One row. *)
Lemma delete_one tx N T table vals b : cached tdef tx table -> sees tx N (length (td_Indexes tdef) + b) -> stored tdef T N ->
  td_Cols tdef = all_cols tdef -> T !! take (npk tdef) vals = Some (drop (npk tdef) vals) ->
  exists vs tx' N', getValues tdef (mkRow (all_cols tdef) vals) (pk_cols tdef) = Ok (inl vs) /\
    DBTX_Delete depth file tx table (mkRow (pk_cols tdef) vs) = Ok (tx', (true, None)) /\
    later tx tx' /\ sees tx' N' b /\ stored tdef (delete (take (npk tdef) vals) T) N' /\
    (forall key, ~ table_key tdef key -> N' !! key = N !! key).
Proof using Hok.
  intros Hca Hs Hst Hfirst Hrow. pose proof Hst as [HT _]. pose proof (row_typed tdef T vals HT Hrow) as Ht.
  destruct (HT _ _ Hrow) as [_ [_ [Hsm _]]]. rewrite take_drop in Hsm.
  destruct (td_split tdef Hok) as (pk & idxs & Ei & Epk & (_ & Hnd & Hsub) & _). rewrite <- Epk in Hnd, Hsub.
  assert (norm <$> vals = vals) as Hnv.
  { pose proof (typed_values _ _ _ Ht) as Hv. clear -Hv. induction Hv as [|v l Hv _ IH]; [done|]. cbn. by rewrite norm_value_ok, IH. }
  destruct (getValues_rec tdef Hok (mkRow (all_cols tdef) vals) vals (pk_cols tdef)) as (vs & Eg & Hn & Hc & Hty).
  { by apply rec_of_row. }
  { done. }
  rewrite project_pk in Hn by done.
  destruct (dbDelete_ok depth file tdef Hok tx N T (mkRow (pk_cols tdef) vs) vs b Hs Hst (getValues_self _ _ Hnd Hsub Hty) Hc)
    as (tx' & N' & E & L & S' & M & O).
  { rewrite Hn. unfold small_kv, row_key in *. cbn [fst snd length] in *. lia. }
  { done. }
  rewrite Hn in *. exists vs, tx', N'. split; [exact Eg|]. split; [|by split_and!].
  unfold DBTX_Delete. rewrite (cached_get depth file tdef _ _ Hca). step_res. rewrite E, Hrow. done.
Qed.

Definition delete_rows (T : table) (rows : list (list Value)) : table :=
  foldl (fun T vals => delete (take (npk tdef) vals) T) T rows.

Lemma delete_loop_ok iter recs err : visits depth file fuel iter recs err -> forall rows n tx N T table cnt b,
  recs = mkRow (all_cols tdef) <$> rows -> (length rows < n)%nat -> cached tdef tx table ->
  sees tx N (length rows * length (td_Indexes tdef) + b) -> stored tdef T N -> td_Cols tdef = all_cols tdef ->
  Forall (fun vals => T !! take (npk tdef) vals = Some (drop (npk tdef) vals)) rows ->
  NoDup (take (npk tdef) <$> rows) -> 0 <= cnt -> cnt + len rows < 2 ^ 64 ->
  exists tx' N', delete_loop depth file fuel n tx (Some tdef) table iter cnt =
      Ok (tx', match err with None => inl (cnt + len rows) | Some e => inr e end) /\
    later tx tx' /\ sees tx' N' b /\ stored tdef (delete_rows T rows) N' /\
    (forall key, ~ table_key tdef key -> N' !! key = N !! key).
Proof using Hok.
  induction 1 as [iter HV|iter e HV HD|iter rec iter' recs err HV HD HN _ IH]; intros rows n tx N T table cnt b Er Hn Hca Hs Hst Hfirst Hrows Hnd H0 Hmax.
  - destruct rows; [|done]. exists tx, N. rewrite len_nil, Z.add_0_r. split; [destruct n; cbn [delete_loop]; by rewrite HV|].
    split; [reflexivity|]. split; [exact Hs|by split].
  - destruct rows; [|done]. destruct n as [|n]; [cbn in Hn; lia|]. exists tx, N.
    split; [cbn [delete_loop]; rewrite HV; cbn [negb]; rewrite HD; reflexivity|].
    split; [reflexivity|]. split; [exact Hs|by split].
  - destruct rows as [|vals rows]; [done|]. injection Er as -> ->. destruct n as [|n]; [cbn in Hn; lia|].
    apply Forall_cons in Hrows as [Hrow Hrows]. rewrite fmap_cons in Hnd. apply NoDup_cons in Hnd as [Hnew Hnd].
    cbn [length] in Hn, Hs. rewrite len_cons in Hmax |- *. pose proof (len_nonneg rows) as Hlr.
    destruct (delete_one tx N T table vals (length rows * length (td_Indexes tdef) + b) Hca) as
      (vs & tx1 & N1 & Eg & Ed & L1 & S1 & M1 & O1); [rewrite Nat.add_assoc; exact Hs|exact Hst|exact Hfirst|exact Hrow|].
    destruct (IH rows n tx1 N1 (delete (take (npk tdef) vals) T) table (cnt + 1) b eq_refl ltac:(lia)) as
      (tx2 & N2 & E2 & L2 & S2 & M2 & O2); [by eapply (cached_later depth file tdef)|exact S1|exact M1|done| |done|lia|lia|].
    { rewrite Forall_forall in Hrows |- *. intros v Hin. rewrite lookup_delete_ne; [by apply Hrows|].
      intros E. apply Hnew. rewrite E. by apply (list_elem_of_fmap_2 (take (npk tdef))). }
    exists tx2, N2. split; [|split; [by transitivity tx1|split; [exact S2|split; [exact M2|]]]].
    + cbn [delete_loop]. rewrite HV. cbn [negb]. rewrite HD. step_res.
      destruct (td_split tdef Hok) as (pk & idxs & Ei & Epk & _).
      assert (index (td_Indexes tdef) 0 = Ok (pk_cols tdef)) as -> by (rewrite Ei, Epk; done). step_res.
      rewrite Eg. step_res. rewrite Ed. step_res. rewrite HN. step_res.
      assert (u64 (cnt + 1) = cnt + 1) as -> by (apply u64_small; lia). rewrite E2. destruct err; [done|]. do 3 f_equal. lia.
    + intros key Hk. by rewrite O2, O1.
Qed.

(** ** The statement *)

(** C14.  A parsed DELETE, for a table whose primary key columns come first and
    whose schema is in the cache or internal, over a range of its first index,
    in a transaction with [range_view] (it has deleted no key before this
    statement and its trees have at most two levels; a range that meets a key
    deleted before panics, [deleted_row_panics]), deletes what the scan selects
    and nothing else: the rows of the range that satisfy the filter, cut by
    offset and limit. They go with the keys of all their secondary indexes;
    every other row and every key of another table stays. The count that it
    returns is the number of these rows, although the loop deletes while it
    reads. If the filter fails on a row, the rows before it are gone and the
    error is returned (the executor then undoes the statement). *)
Theorem execDelete_refines tx N T req sreq :
  cached tdef tx (qs_Table req) -> stored tdef T N -> range_view depth file (dt_kv tx) N -> td_Cols tdef = all_cols tdef ->
  scan_ok req = true -> initScanner req = Ok (inl sreq) -> opposite_cmps (sr_Cmp1 sreq) (sr_Cmp2 sreq) ->
  bound_ok tdef (sr_Key1 sreq) -> bound_ok tdef (sr_Key2 sreq) -> scan_index tdef sreq = 0 -> 0 <= qs_Offset req ->
  exists rows, StronglySorted (row_before tdef (sr_Cmp1 sreq) (pk_cols tdef)) rows /\
    (forall vals, vals ∈ rows <->
       T !! take (npk tdef) vals = Some (drop (npk tdef) vals) /\ row_in tdef sreq (pk_cols tdef) vals = true) /\
    let sel := limited (qs_Offset req) (qs_Limit req) (matching (qs_Filter req) (mkRow (all_cols tdef) <$> rows)) in
    forall b, sees tx N (length rows * length (td_Indexes tdef) + b) -> (length rows < fuel)%nat -> len rows < 2 ^ 63 ->
    exists tx' N' gone, sel.1 = mkRow (all_cols tdef) <$> gone /\ gone `sublist_of` rows /\
      execDelete depth file fuel tx req = Ok (tx', match sel.2 with None => inl (len gone) | Some e => inr e end) /\
      later tx tx' /\ sees tx' N' b /\ stored tdef (delete_rows T gone) N' /\
      (forall key, ~ table_key tdef key -> N' !! key = N !! key).
Proof using Hok.
  intros Hca Hst Hview Hfirst Hscan Hinit Hc Hb1 Hb2 Hi Ho.
  destruct (scan_visits depth file fuel tdef Hok tx N T req sreq Hca Hst Hview Hscan Hinit Hc Hb1 Hb2 Hi Ho) as (rows & Hs & Hel & Hv).
  exists rows. split; [exact Hs|]. split; [exact Hel|]. intros sel b Hsees Hf Hmax.
  destruct (Hv Hf Hmax) as (reads & iter & gone & Esel & Hsub & Hrows & Hnd & E & Hvis). pose proof (sublist_length _ _ Hsub) as Hlen.
  assert (length gone * length (td_Indexes tdef) <= length rows * length (td_Indexes tdef))%nat as Hroom by by apply Nat.mul_le_mono_r.
  set (tx1 := set_kv tx (set_reads (dt_kv tx) reads)) in *.
  destruct (delete_loop_ok _ _ _ Hvis gone fuel tx1 N T (qs_Table req) 0 b eq_refl ltac:(lia)) as
    (tx' & N' & Ed & L & S' & M & O); [exact Hca| |exact Hst|exact Hfirst|exact Hrows|exact Hnd|lia|unfold len in *; lia|].
  { eapply kv_sees_weaken; [exact Hsees|lia]. }
  exists tx', N', gone. split; [done|]. split; [done|]. split; [|split; [|by split]].
  - unfold execDelete. rewrite E. step_res. rewrite (cached_get depth file tdef tx1) by exact Hca. step_res. by rewrite Ed.
  - transitivity tx1; [|exact L]. by split.
Qed.

End delete.

(** ** DELETE FROM pets INDEX BY id >= 3 *)

Example execDelete_refines_witness : exists tx tx' N',
  execDelete 9 [] 2 tx scan_pets = Ok (tx', inl 1) /\ stored plain_pets ∅ N'.
Proof.
  destruct rex_room as (tx & Hsees & Hca & Hview).
  destruct (execDelete_refines 9 [] 2 plain_pets plain_pets_ok tx _ _ scan_pets
    (mkScanReq CMP_GE CMP_LE (mkRow [col_id] [int_val 3]) no_row) Hca plain_stored Hview) as (rows & Hs & Hel & Hdel).
  - reflexivity.
  - reflexivity.
  - reflexivity.
  - split; [by left|]. split; [by right; right; right|]. left. split; reflexivity.
  - constructor; [|constructor]. split; [left|]. split; [left; by repeat split|reflexivity].
  - constructor.
  - reflexivity.
  - done.
  - apply rex_rows with (sreq := mkScanReq CMP_GE CMP_LE (mkRow [col_id] [int_val 3]) no_row) in Hs; [|exact Hel|by vm_compute]. subst rows.
    destruct (Hdel 0%nat) as (tx' & N' & gone & Eg & _ & E & _ & _ & Hst & _); [by eapply kv_sees_weaken; [exact Hsees|cbn; lia]|cbn; lia|done|].
    destruct gone as [|x [|y gone]]; [by vm_compute in Eg| |by vm_compute in Eg].
    assert (x = rex) as -> by (vm_compute in Eg |- *; by injection Eg). exists tx, tx', N'. split; [exact E|].
    unfold delete_rows in Hst. cbn [foldl] in Hst. by rewrite delete_singleton_eq in Hst.
Defined.
