(* ===== verification/InsertStmt.v ===== *)
(** * INSERT as a map operation

    [execInsert] is a fold over the rows of the statement, each of which gets
    the values that its expressions denote. *)

From S2P Require Import Prelude.
From S2P Require Import GoBytes.
From S2P Require Import KVSpec.
From S2P Require Import BTree.
From S2P Require Import BTreeRep.
From S2P Require Import BSplitFacts.
From S2P Require Import BTreeInsert.
From S2P Require Import BIter.
From S2P Require Import Encode.
From S2P Require Import EncodeFacts.
From S2P Require Import QLNode.
From S2P Require Import Eval.
From S2P Require Import EvalFacts.
From S2P Require Import EvalProps.
From S2P Require Import Parser.
From S2P Require Import ParserProps.
From S2P Require Import Schema.
From S2P Require Import SchemaFacts.
From S2P Require Import KVTX.
From S2P Require Import KVTXFacts.
From S2P Require Import KVTXProps.
From S2P Require Import KVView.
From S2P Require Import RangeFacts.
From S2P Require Import RangeProps.
From S2P Require Import RowFacts.
From S2P Require Import TableSpec.
From S2P Require Import Table.
From S2P Require Import TableFacts.
From S2P Require Import TableUpdate.
From S2P Require Import Exec.
From S2P Require Import ScanProps.
From S2P Require Import TableScan.
From S2P Require Import ParsedProps.
From S2P Require Import TableProps.
From S2P Require Import TableQuery.
From S2P Require Import LoopScan.

(** ** Values and records *)

Definition val_for (v : sval) : Value :=
  match v with SInt n => mkValue TYPE_INT64 n [] | SStr s => mkValue TYPE_BYTES 0 s end.

(** The values of the evaluator are the denoted ones. *)
Lemma norm_val_for w v : val_of w = Some v -> norm w = val_for v.
Proof.
  unfold val_of, norm. destruct w as [t n s]. cbn. destruct (Z.eqb_spec t TYPE_INT64) as [->|]; [by intros [= <-]|].
  destruct (Z.eqb_spec t TYPE_BYTES) as [->|]; [by intros [= <-]|done].
Qed.

Lemma norm_vals_for ws vs : map val_of ws = map Some vs -> norm <$> ws = val_for <$> vs.
Proof.
  revert vs. induction ws as [|w ws IH]; intros [|v vs] E; try done. cbn in E. injection E as Ew E.
  cbn. rewrite (norm_val_for w v) by done. by rewrite (IH vs).
Qed.

(** In [all_cols] order. *)
Definition types_ok (tdef : TableDef) (vals : list Value) : Prop :=
  Forall2 (fun c v => col_type tdef c = Some (v_Type v)) (all_cols tdef) vals.

#[export] Instance types_ok_dec tdef vals : Decision (types_ok tdef vals).
Proof. unfold types_ok. apply _. Defined.

Lemma mapM_omap {A B} (f : A -> option B) l k : mapM f l = Some k -> omap f l = k.
Proof.
  intros H%mapM_Some. induction H as [|x y l k E _ IH]; [done|]. cbn. by rewrite E, IH.
Qed.

(** The row that a list of expressions makes: nothing, if an expression has no
    value, a column is missing or gets a value of the wrong type.  (Of a column
    that is named twice the first value counts, and names that are not columns
    are ignored.) *)
Definition inserted_row (tdef : TableDef) (names : list bytes) (exprs : list QLNode) : option (list Value) :=
  vs ← denotes no_row exprs;
  vals ← mapM (assoc names (val_for <$> vs)) (all_cols tdef);
  if bool_decide (types_ok tdef vals) then Some vals else None.

(** The table after the loop, the rows added, the rows added or changed, and
    whether every row was accepted. *)
Fixpoint insert_rows (tdef : TableDef) (mode : Z) (names : list bytes) (T : table) (values : list (list QLNode))
    : table * Z * Z * bool :=
  match values with
  | [] => (T, 0, 0, true)
  | exprs :: values =>
      match inserted_row tdef names exprs with
      | None => (T, 0, 0, false)
      | Some vals =>
          let pk := take (npk tdef) vals in let rest := drop (npk tdef) vals in
          if row_duplicate mode (T !! pk) then (T, 0, 0, false)
          else if row_changed mode rest (T !! pk) then
            let '(T', added, updated, all) := insert_rows tdef mode names (<[pk := rest]> T) values in
            (T', (if bool_decide (T !! pk = None) then added + 1 else added), updated + 1, all)
          else insert_rows tdef mode names T values
      end
  end.

Section insert.
Context (depth : nat) (file : bytes) (tdef : TableDef) (Hok : table_ok tdef).

Abbreviation sees := (db_sees (KVPromise0 := tx_promise depth file)).
Abbreviation later := (db_later (KVPromise0 := tx_promise depth file)).

(** What [getValues] finds. *)
Lemma getValues_total rec cols : length (rec_Cols rec) = length (rec_Vals rec) -> cols ⊆ td_Cols tdef ->
  exists r, getValues tdef rec cols = Ok r /\
    forall vs, r = inl vs -> mapM (assoc (rec_Cols rec) (rec_Vals rec)) cols = Some vs /\
      Forall2 (fun c v => col_type tdef c = Some (v_Type v)) cols vs.
Proof using Hok.
  intros Hl. induction cols as [|c cols IH]; intros Hs; cbn [getValues].
  { exists (inl []). split; [done|]. by intros vs [= <-]. }
  rewrite row_Get_assoc by done. step_res.
  destruct (assoc (rec_Cols rec) (rec_Vals rec) c) as [v|] eqn:Ea; [|by eexists].
  destruct (col_type_some tdef Hok c) as (t & Ht & _ & ->); [apply Hs; left|]. step_res.
  destruct (Z.eqb_spec (v_Type v) t) as [<-|]; cbn [negb]; [|by eexists].
  destruct IH as (r & -> & Hr); [set_solver|]. step_res. eexists. split; [done|]. destruct r as [vs'|e]; [|done].
  intros vs [= <-]. destruct (Hr vs' eq_refl) as [Hm H2]. split; [cbn; by rewrite Ea, Hm|]. by constructor.
Qed.

Lemma bad_record (tx : DBTX) table rec mode : cached tdef tx table -> length (rec_Cols rec) = length (rec_Vals rec) ->
  ~ (exists vs, mapM (assoc (rec_Cols rec) (rec_Vals rec)) (all_cols tdef) = Some vs /\ types_ok tdef vs) ->
  exists req e, DBTX_Set depth file tx table (mkDBUpdateReq rec mode false false) = Ok (tx, req, (false, Some e)).
Proof using Hok.
  intros Hca Hl Hbad. unfold DBTX_Set. rewrite (cached_get depth file tdef _ _ Hca). step_res. unfold dbUpdate.
  rewrite (row_cols_ok tdef Hok). step_res.
  destruct (getValues_total rec (all_cols tdef) Hl) as (r & E & Hr); [intros c; by apply (all_cols_in tdef Hok)|].
  cbn [dr_Record]. rewrite E. step_res. destruct r as [vs|e]; [|by eexists _, e].
  exfalso. apply Hbad. exists vs. by apply Hr.
Qed.

Lemma types_norm row : types_ok tdef (norm <$> row) <-> types_ok tdef row.
Proof using.
  unfold types_ok. rewrite Forall2_fmap_r.
  split; (intros H; eapply Forall2_impl; [exact H|]); intros c v; unfold compose; by rewrite norm_type.
Qed.

(** ** One row *)

Lemma mapM_assoc_norm names ws cols :
  mapM (assoc names (norm <$> ws)) cols = (fun vs => norm <$> vs) <$> mapM (assoc names ws) cols.
Proof using.
  induction cols as [|c cols IH]; [done|]. cbn. rewrite assoc_norm, IH.
  destruct (assoc names ws c); [|done]. cbn. by destruct (mapM (assoc names ws) cols).
Qed.

Lemma assoc_mapM f cols vals c : mapM f cols = Some vals -> c ∈ cols -> assoc cols vals c = f c.
Proof using.
  intros H%mapM_Some Hc. induction H as [|x v cols vals E _ IH]; [by apply elem_of_nil in Hc|]. cbn.
  destruct (decide (x = c)) as [->|]; [done|]. apply IH. by apply elem_of_cons in Hc as [->|].
Qed.

Lemma inserted_rec names ws vals : length names = length ws -> mapM (assoc names (norm <$> ws)) (all_cols tdef) = Some vals ->
  row_ok tdef vals -> rec_is tdef (mkRow names ws) vals.
Proof using Hok.
  intros Hl Hm [Ht _]. split; [done|]. split; [symmetry; exact (Forall2_length _ _ _ Ht)|]. intros c Hc.
  apply (all_cols_in tdef Hok) in Hc. destruct (typed_assoc _ _ _ c Ht Hc) as (v & Ev & Hv & Hty).
  pose proof (assoc_mapM _ _ _ c Hm Hc) as Ea. rewrite Ev, assoc_norm in Ea. cbn [rec_Cols rec_Vals].
  destruct (assoc names ws c) as [w|]; [|done]. injection Ea as ->. exists w. rewrite norm_type in Hty.
  split_and!; try done. by apply cell_of_norm.
Qed.

Lemma insert_one tx N T table mode names exprs b : cached tdef tx table -> sees tx N (2 * length (td_Indexes tdef) + b) ->
  stored tdef T N -> length exprs = length names -> forallb ql_wf exprs = true ->
  (forall vals, inserted_row tdef names exprs = Some vals -> row_ok tdef vals) ->
  (exists e, evalMulti no_row exprs = Ok (inr e) /\ inserted_row tdef names exprs = None) \/
  exists ws (req := mkDBUpdateReq (mkRow names ws) mode false false), evalMulti no_row exprs = Ok (inl ws) /\
    match inserted_row tdef names exprs with
    | None => exists req' e, DBTX_Set depth file tx table req = Ok (tx, req', (false, Some e))
    | Some vals => exists tx' req' N' (pk := take (npk tdef) vals) (rest := drop (npk tdef) vals)
          (changed := row_changed mode rest (T !! pk)),
        DBTX_Set depth file tx table req = Ok (tx', req', update_result mode rest (T !! pk)) /\
        (row_duplicate mode (T !! pk) = false ->
           dr_Updated req' = changed /\ dr_Added req' = changed && bool_decide (T !! pk = None)) /\
        later tx tx' /\ sees tx' N' b /\ stored tdef (if changed then <[pk := rest]> T else T) N' /\
        (forall key, ~ table_key tdef key -> N' !! key = N !! key)
    end.
Proof using Hok.
  intros Hca Hs Hst Hl Hwf Hfit.
  assert (env_ok no_row) as Henv by (split; [done|constructor]).
  pose proof (evalMulti_denoted no_row exprs Henv Hwf) as He. unfold inserted_row in *.
  destruct (denotes no_row exprs) as [vs|] eqn:Ed; cbn [mbind option_bind] in *; [|left; destruct He as (e & ->); by exists e].
  right. destruct He as (ws & -> & Hws). exists ws. cbv zeta. split; [done|]. apply norm_vals_for in Hws. rewrite <- Hws in *.
  assert (length names = length ws) as Hlw.
  { rewrite <- Hl, (denotes_length _ _ _ Ed). apply (f_equal length) in Hws. by rewrite !length_fmap in Hws. }
  rewrite mapM_assoc_norm in *. destruct (mapM (assoc names ws) (all_cols tdef)) as [vals|] eqn:Em; cbn [fmap option_fmap option_map mbind option_bind] in *.
  2:{ apply (bad_record tx table (mkRow names ws)); [done..|]. cbn [rec_Cols rec_Vals]. rewrite Em. by intros (? & ? & _). }
  destruct (decide (types_ok tdef (norm <$> vals))) as [Hty|Hty].
  - rewrite bool_decide_eq_true_2 in * by done. specialize (Hfit _ eq_refl).
    assert (rec_is tdef (mkRow names ws) (norm <$> vals)) as Hrec.
    { apply inserted_rec; [done| |done]. by rewrite mapM_assoc_norm, Em. }
    destruct (dbUpdate_ok depth file tdef Hok tx N T (mkDBUpdateReq (mkRow names ws) mode false false) (norm <$> vals) b Hs Hst Hrec Hfit)
      as (tx' & req' & N' & E & H).
    exists tx', req', N'. split; [|exact H]. unfold DBTX_Set. rewrite (cached_get depth file tdef _ _ Hca). step_res. exact E.
  - rewrite bool_decide_eq_false_2 in * by done. apply (bad_record tx table (mkRow names ws)); [done..|]. cbn [rec_Cols rec_Vals].
    rewrite Em. intros (vs' & [= <-] & H). apply Hty. by apply types_norm.
Qed.

(** ** The statement *)

Lemma insert_loop_ok values : forall tx N T table mode names a u b,
  cached tdef tx table -> sees tx N (length values * (2 * length (td_Indexes tdef)) + b) -> stored tdef T N ->
  Forall (fun exprs => length exprs = length names /\ forallb ql_wf exprs = true /\
    forall vals, inserted_row tdef names exprs = Some vals -> row_ok tdef vals) values ->
  0 <= a -> 0 <= u -> a + len values < 2 ^ 64 -> u + len values < 2 ^ 64 ->
  let '(T', added, updated, all) := insert_rows tdef mode names T values in
  exists tx' N' r, insert_loop depth file tx table mode names values a u = Ok (tx', r) /\
    (if (all : bool) then r = inl (a + added, u + updated) else exists e, r = inr e) /\
    later tx tx' /\ sees tx' N' b /\ stored tdef T' N' /\
    (forall key, ~ table_key tdef key -> N' !! key = N !! key).
Proof using Hok.
  induction values as [|exprs values IH]; intros tx N T table mode names a u b Hca Hs Hst Hv Ha Hu Hma Hmu.
  { cbn. exists tx, N, (inl (a, u)). rewrite !Z.add_0_r. split; [done|]. split; [done|]. split; [reflexivity|]. by split. }
  apply Forall_cons in Hv as [(Hl & Hwf & Hfit) Hv]. cbn [length] in Hs. rewrite len_cons in Hma, Hmu. pose proof (len_nonneg values) as Hlv.
  assert (sees tx N (2 * length (td_Indexes tdef) + (length values * (2 * length (td_Indexes tdef)) + b))) as Hs1.
  { rewrite Nat.add_assoc. exact Hs. }
  cbn [insert_rows insert_loop].
  destruct (insert_one tx N T table mode names exprs _ Hca Hs1 Hst Hl Hwf Hfit) as [(e & -> & ->)|(ws & -> & Hres)].
  { step_res. exists tx, N, (inr e). split; [done|]. split; [by exists e|]. split; [reflexivity|].
    split; [eapply kv_sees_weaken; [exact Hs|lia]|by split]. }
  step_res. destruct (inserted_row tdef names exprs) as [vals|].
  2:{ destruct Hres as (req' & e & ->). step_res. exists tx, N, (inr e). split; [done|]. split; [by exists e|]. split; [reflexivity|].
    split; [eapply kv_sees_weaken; [exact Hs|lia]|by split]. }
  destruct Hres as (tx1 & req' & N1 & -> & Hreq & L1 & S1 & M1 & O1). unfold update_result. step_res. cbv zeta in *.
  set (old := T !! take (npk tdef) vals) in *. destruct (row_duplicate mode old) eqn:Ed.
  { assert (row_changed mode (drop (npk tdef) vals) old = false) as Hch by (unfold row_changed; by rewrite Ed). rewrite Hch in M1.
    eexists tx1, N1, (inr _). split; [reflexivity|]. split; [by eexists|]. split; [done|].
    split; [eapply kv_sees_weaken; [exact S1|lia]|by split]. }
  destruct (Hreq eq_refl) as [-> ->]. clear Hreq. pose proof (cached_later depth file tdef _ _ _ L1 Hca) as Hca1.
  destruct (row_changed mode (drop (npk tdef) vals) old); cbn [andb].
  - rewrite (u64_small (u + 1)) by lia.
    set (a1 := if bool_decide (old = None) then u64 (a + 1) else a).
    assert (a1 = a + if bool_decide (old = None) then 1 else 0) as Ha1.
    { unfold a1. case_bool_decide; [apply u64_small; lia|lia]. }
    assert (a <= a1 <= a + 1) as Hb1 by (rewrite Ha1; case_bool_decide; lia).
    specialize (IH tx1 N1 (<[take (npk tdef) vals := drop (npk tdef) vals]> T) table mode names a1 (u + 1) b Hca1 S1 M1 Hv
      ltac:(lia) ltac:(lia) ltac:(lia) ltac:(lia)).
    destruct (insert_rows _ _ _ _ values) as [[[T' added] updated] all]. destruct IH as (tx2 & N2 & r & E & Hr & L2 & S2 & M2 & O2).
    exists tx2, N2, r. split; [exact E|]. split.
    { destruct all; [|exact Hr]. rewrite Hr, Ha1. f_equal. case_bool_decide; f_equal; lia. }
    split; [by transitivity tx1|]. split; [exact S2|]. split; [exact M2|]. intros key Hk. by rewrite O2, O1.
  - specialize (IH tx1 N1 T table mode names a u b Hca1 S1 M1 Hv ltac:(lia) ltac:(lia) ltac:(lia) ltac:(lia)).
    destruct (insert_rows _ _ _ _ values) as [[[T' added] updated] all]. destruct IH as (tx2 & N2 & r & E & Hr & L2 & S2 & M2 & O2).
    exists tx2, N2, r. split; [exact E|]. split; [exact Hr|].
    split; [by transitivity tx1|]. split; [exact S2|]. split; [exact M2|]. intros key Hk. by rewrite O2, O1.
Qed.

End insert.

(** C12.  A parsed INSERT, UPSERT or REPLACE, into a table whose schema is in
    the cache or internal, refines a fold of row insertions over its lists of
    expressions, provided the rows it is to insert are small: an encoded row,
    and each of its index keys, at most 277 bytes ([row_ok]; longer rows are not
    covered: they may be refused or panic). Each list is the row with the
    denoted values under the given column names, in the schema's order; it is
    added, replaces the row with its key, or is skipped as the mode asks, and
    the keys of the secondary indexes follow. The two counts are the rows added
    and the rows added or changed. An expression without a value, a missing
    column, a value of the wrong type or a duplicate key in insert mode ends the
    statement with an error, with the rows before it in the table (the executor
    then undoes the statement). Other tables stay as they are. *)
Theorem execInsert_refines depth file tdef tx N T req b : table_ok tdef -> cached tdef tx (ins_Table req) -> stored tdef T N ->
  db_sees (KVPromise0 := tx_promise depth file) tx N (length (ins_Values req) * (2 * length (td_Indexes tdef)) + b) ->
  stmt_ok (StInsert req) = true -> len (ins_Values req) < 2 ^ 64 ->
  Forall (fun exprs => forall vals, inserted_row tdef (ins_Names req) exprs = Some vals -> row_ok tdef vals) (ins_Values req) ->
  let '(T', added, updated, all) := insert_rows tdef (ins_Mode req) (ins_Names req) T (ins_Values req) in
  exists tx' N' r, execInsert depth file tx req = Ok (tx', r) /\
    (if (all : bool) then r = inl (added, updated) else exists e, r = inr e) /\
    db_later (KVPromise0 := tx_promise depth file) tx tx' /\ db_sees (KVPromise0 := tx_promise depth file) tx' N' b /\
    stored tdef T' N' /\ (forall key, ~ table_key tdef key -> N' !! key = N !! key).
Proof.
  intros Hok Hca Hst Hs Hstmt Hmax Hfit. cbn [stmt_ok] in Hstmt. rewrite forallb_forall in Hstmt.
  apply (insert_loop_ok depth file tdef Hok (ins_Values req) tx N T (ins_Table req) (ins_Mode req) (ins_Names req) 0 0 b Hca Hs Hst); [|lia..].
  rewrite Forall_forall in Hfit |- *. intros exprs Hin. pose proof (Hstmt exprs (proj1 (list_elem_of_In _ _) Hin)) as H.
  rewrite andb_true_iff in H. destruct H as [Hl%Nat.eqb_eq Hw]. split; [done|]. split; [done|]. by apply Hfit.
Qed.

(** ** INSERT INTO pets (name, id) VALUES ("rex", 3 + 4) *)

Definition insert_rex : QLInsert :=
  mkQLInsert (bytes_of "pets") MODE_INSERT_ONLY [col_name; col_id]
    [[mkQLNode QL_STR 0 (bytes_of "rex") []; mkQLNode QL_ADD 0 [] [mkQLNode QL_I64 3 [] []; mkQLNode QL_I64 4 [] []]]].

Example execInsert_refines_witness : exists tx tx' N', execInsert 9 [] tx insert_rex = Ok (tx', inl (1, 1)) /\
  stored pets {[[int_val 7] := [str_val "rex"]]} N'.
Proof.
  set (tx := mkDBTX tx_new {[bytes_of "pets" := pets]}).
  assert (inserted_row pets (ins_Names insert_rex) [mkQLNode QL_STR 0 (bytes_of "rex") [];
    mkQLNode QL_ADD 0 [] [mkQLNode QL_I64 3 [] []; mkQLNode QL_I64 4 [] []]] = Some rex) as Hnew by by vm_compute.
  pose proof (execInsert_refines 9 [] pets tx ∅ ∅ insert_rex 0 pets_ok) as H.
  cbn [insert_rows insert_rex ins_Values] in H. rewrite Hnew, lookup_empty in H.
  destruct H as (tx' & N' & r & E & Hr & _ & _ & Hst & _).
  - by right.
  - apply empty_stored.
  - apply (db_new_sees 4). lia.
  - reflexivity.
  - done.
  - apply Forall_singleton. intros vals. rewrite Hnew. intros [= <-]. exact rex_ok.
  - exists tx, tx', N'. split; [by rewrite E, Hr|]. rewrite insert_empty in Hst. exact Hst.
Defined.
