(* ===== verification/UpdateStmt.v ===== *)
(** * UPDATE as a map operation

    The loop of [execUpdate] over a scan ([LoopScan]) gives each row that the
    statement selects the values that its expressions denote on this row. *)

From S2P Require Import Prelude.
From S2P Require Import GoBytes.
From S2P Require Import KVSpec.
From S2P Require Import BTree.
From S2P Require Import BTreeRep.
From S2P Require Import BSplitFacts.
From S2P Require Import BTreeInsert.
From S2P Require Import BIter.
From S2P Require Import Encode.
From S2P Require Import EncodeFacts.
From S2P Require Import QLNode.
From S2P Require Import Eval.
From S2P Require Import EvalFacts.
From S2P Require Import EvalProps.
From S2P Require Import Parser.
From S2P Require Import ParserProps.
From S2P Require Import Schema.
From S2P Require Import SchemaFacts.
From S2P Require Import KVTX.
From S2P Require Import KVTXFacts.
From S2P Require Import KVView.
From S2P Require Import RangeFacts.
From S2P Require Import RangeProps.
From S2P Require Import RowFacts.
From S2P Require Import TableSpec.
From S2P Require Import Table.
From S2P Require Import TableFacts.
From S2P Require Import TableUpdate.
From S2P Require Import Exec.
From S2P Require Import ScanProps.
From S2P Require Import TableScan.
From S2P Require Import ParsedProps.
From S2P Require Import TableProps.
From S2P Require Import TableQuery.
From S2P Require Import LoopScan.
From S2P Require Import InsertStmt.

(** ** The row that an UPDATE makes *)

(** The row with [v] in the column [c]. *)
Definition set_column (cols : list bytes) (c : bytes) (v : Value) (row : list Value) : list Value :=
  zip_with (fun x old => if decide (x = c) then v else old) cols row.

Fixpoint set_columns (cols names : list bytes) (vs row : list Value) : list Value :=
  match names, vs with
  | c :: names, v :: vs => set_columns cols names vs (set_column cols c v row)
  | _, _ => row
  end.

(** Nothing, if an expression has no value or a column would get a value of
    the wrong type. *)
Definition updated_row (tdef : TableDef) (names : list bytes) (values : list QLNode) (vals : list Value) : option (list Value) :=
  vs ← denotes (mkRow (all_cols tdef) vals) values;
  let vals' := set_columns (all_cols tdef) names (val_for <$> vs) vals in
  if bool_decide (types_ok tdef vals') then Some vals' else None.

(** The table after the loop, the number of rows that changed, and whether all
    rows could be updated. *)
Fixpoint update_rows (tdef : TableDef) (names : list bytes) (values : list QLNode) (T : table) (rows : list (list Value))
    : table * Z * bool :=
  match rows with
  | [] => (T, 0, true)
  | vals :: rows =>
      match updated_row tdef names values vals with
      | None => (T, 0, false)
      | Some vals' =>
          let '(T', n, all) := update_rows tdef names values (<[take (npk tdef) vals := drop (npk tdef) vals']> T) rows in
          (T', (if bool_decide (vals' = vals) then n else n + 1), all)
      end
  end.

Lemma set_column_length cols c v row : length row = length cols -> length (set_column cols c v row) = length cols.
Proof. intros Hl. unfold set_column. rewrite length_zip_with. lia. Qed.

Lemma set_column_insert cols c v row i : NoDup cols -> length row = length cols -> cols !! i = Some c ->
  <[i := v]> row = set_column cols c v row.
Proof.
  intros Hn Hl Hi. apply list_eq. intros j. unfold set_column. rewrite lookup_zip_with.
  destruct (cols !! j) as [x|] eqn:Hx; cbn.
  - destruct (lookup_lt_is_Some_2 row j) as [w Hw]; [rewrite Hl; by eapply lookup_lt_Some|]. rewrite Hw. cbn.
    destruct (decide (j = i)) as [->|Hj].
    + rewrite Hi in Hx. injection Hx as <-. rewrite decide_True by done. apply list_lookup_insert_eq. by eapply lookup_lt_Some.
    + rewrite list_lookup_insert_ne by done. rewrite decide_False; [done|]. intros ->. apply Hj. by eapply NoDup_lookup.
  - apply lookup_ge_None in Hx. apply lookup_ge_None. rewrite length_insert. lia.
Qed.

Lemma set_column_norm cols c v row : norm <$> set_column cols c v row = set_column cols c (norm v) (norm <$> row).
Proof.
  revert row. induction cols as [|x cols IH]; intros [|w row]; try done. unfold set_column in *. cbn. rewrite IH. by case_decide.
Qed.

Lemma set_column_take cols c v row n : length row = length cols -> c ∉ take n cols ->
  take n (set_column cols c v row) = take n row.
Proof.
  revert cols row. induction n as [|n IH]; intros [|x cols] [|w row] Hl Hc; try done.
  unfold set_column in *. cbn in *. rewrite decide_False by set_solver. f_equal. apply IH; [lia|set_solver].
Qed.

Lemma set_columns_take cols names vs row n : length row = length cols -> (forall c, c ∈ names -> c ∉ take n cols) ->
  take n (set_columns cols names vs row) = take n row.
Proof.
  revert vs row. induction names as [|c names IH]; intros [|v vs] row Hl Hc; try done. cbn [set_columns].
  rewrite IH; [|by rewrite set_column_length|set_solver]. apply set_column_take; [done|]. apply Hc. left.
Qed.

Lemma set_columns_length cols names vs row : length row = length cols -> length (set_columns cols names vs row) = length cols.
Proof.
  revert vs row. induction names as [|c names IH]; intros [|v vs] row Hl; try done. cbn [set_columns]. apply IH. by apply set_column_length.
Qed.

Section update.
Context (depth : nat) (file : bytes) (fuel : nat) (tdef : TableDef) (Hok : table_ok tdef).

Abbreviation sees := (db_sees (KVPromise0 := tx_promise depth file)).
Abbreviation later := (db_later (KVPromise0 := tx_promise depth file)).

(** ** One row *)

Lemma bad_row (tx : DBTX) table row mode : cached tdef tx table -> length row = length (all_cols tdef) -> ~ types_ok tdef row ->
  exists req e, DBTX_Set depth file tx table (mkDBUpdateReq (mkRow (all_cols tdef) row) mode false false) =
    Ok (tx, req, (false, Some e)).
Proof using Hok.
  intros Hca Hl Hbad. apply (bad_record depth file tdef Hok tx table (mkRow (all_cols tdef) row) mode Hca); [done|].
  cbn [rec_Cols rec_Vals]. intros (vs & Ha & Ht). apply Hbad. apply mapM_omap in Ha. by rewrite <- Ha, assoc_self in Ht by (done || apply (all_cols_nodup tdef Hok)).
Qed.

Lemma check_update_cols_ok ns : ns ⊆ td_Cols tdef -> (forall c, c ∈ ns -> c ∉ pk_cols tdef) ->
  check_update_cols (Some tdef) ns = Ok None.
Proof using Hok.
  induction ns as [|c ns IH]; intros Hs Hp; [done|]. cbn [check_update_cols].
  destruct (Z.ltb_spec (slices_Index (td_Cols tdef) c) 0) as [Hneg%slices_Index_neg|]; [exfalso; apply Hneg, Hs; left|].
  destruct (td_split tdef Hok) as (pk & idxs & Ei & Epk & _).
  assert (index (td_Indexes tdef) 0 = Ok (pk_cols tdef)) as -> by (rewrite Ei, Epk; done). step_res.
  destruct (Z.leb_spec 0 (slices_Index (pk_cols tdef) c)) as [Hin%slices_Index_in|]; [exfalso; eapply Hp; [left|done]|].
  apply IH; [set_solver|]. intros x Hx. apply Hp. by right.
Qed.

Context (Hfirst : td_Cols tdef = all_cols tdef).

Lemma set_cols_ok ns ws row : ns ⊆ td_Cols tdef -> length ns = length ws -> length row = length (all_cols tdef) ->
  exists row', set_cols (Some tdef) ns ws row = Ok row' /\ length row' = length (all_cols tdef) /\
    norm <$> row' = set_columns (all_cols tdef) ns (norm <$> ws) (norm <$> row).
Proof using Hok Hfirst.
  revert ws row. induction ns as [|c ns IH]; intros [|w ws] row Hs Hl Hr; try done.
  { by exists row. }
  assert (c ∈ td_Cols tdef) as Hc by (apply Hs; left). cbn [set_cols].
  change (index (w :: ws) 0) with (Ok w). step_res.
  pose proof (slices_Index_range (td_Cols tdef) c) as Hrg. pose proof (proj2 (slices_Index_in _ _) Hc) as H0.
  pose proof (slices_Index_lookup _ _ Hc) as Hi. unfold set_index. rewrite bool_decide_eq_true_2 by (rewrite Hfirst in *; unfold len in *; lia).
  step_res. rewrite Hfirst in Hi |- *. rewrite (set_column_insert _ _ w row _ (all_cols_nodup tdef Hok) Hr Hi).
  destruct (IH ws (set_column (all_cols tdef) c w row)) as (row' & E & Hl' & Hn).
  { intros x Hx. apply Hs. by right. }
  { by injection Hl. }
  { by apply set_column_length. }
  exists row'. split; [exact E|]. split; [done|]. rewrite Hn, set_column_norm. done.
Qed.

Context (names : list bytes) (values : list QLNode).
Context (Hnames : names ⊆ td_Cols tdef) (Hpk : forall c, c ∈ names -> c ∉ pk_cols tdef).
Context (Hlen : length names = length values) (Hwf : forallb ql_wf values = true).

Lemma updated_row_key vals vals' : length vals = length (all_cols tdef) -> updated_row tdef names values vals = Some vals' ->
  take (npk tdef) vals' = take (npk tdef) vals.
Proof using Hpk.
  intros Hl E. unfold updated_row in E. destruct (denotes _ _) as [vs|]; [|done]. cbn in E.
  destruct (bool_decide _); [|done]. injection E as <-. apply set_columns_take; [done|].
  intros c Hc. rewrite all_cols_take. by apply Hpk.
Qed.

(** The request that the loop makes for a row. *)
Definition update_req (new : list Value) : DBUpdateReq :=
  mkDBUpdateReq (mkRow (all_cols tdef) new) MODE_UPDATE_ONLY false false.

Lemma update_one tx N T table vals b : cached tdef tx table -> sees tx N (2 * length (td_Indexes tdef) + b) -> stored tdef T N ->
  T !! take (npk tdef) vals = Some (drop (npk tdef) vals) ->
  (forall vals', updated_row tdef names values vals = Some vals' -> row_ok tdef vals') ->
  (exists e, evalMulti (mkRow (all_cols tdef) vals) values = Ok (inr e) /\ updated_row tdef names values vals = None) \/
  exists ws new, evalMulti (mkRow (all_cols tdef) vals) values = Ok (inl ws) /\ set_cols (Some tdef) names ws vals = Ok new /\
    match updated_row tdef names values vals with
    | None => exists req e, DBTX_Set depth file tx table (update_req new) = Ok (tx, req, (false, Some e))
    | Some vals' => exists tx' req N' (changed := negb (bool_decide (vals' = vals))),
        DBTX_Set depth file tx table (update_req new) = Ok (tx', req, (changed, None)) /\ dr_Updated req = changed /\
        later tx tx' /\ sees tx' N' b /\ stored tdef (<[take (npk tdef) vals := drop (npk tdef) vals']> T) N' /\
        (forall key, ~ table_key tdef key -> N' !! key = N !! key)
    end.
Proof using Type*.
  intros Hca Hs Hst Hrow Hnew. pose proof Hst as [HT _]. pose proof (row_typed tdef T vals HT Hrow) as Ht.
  pose proof (Forall2_length _ _ _ Ht) as Hl.
  assert (norm <$> vals = vals) as Hnv.
  { pose proof (typed_values _ _ _ Ht) as Hv. clear -Hv. induction Hv as [|v l Hv _ IH]; [done|]. cbn. by rewrite norm_value_ok, IH. }
  pose proof (fun vals' => updated_row_key vals vals' (eq_sym Hl)) as Hkey.
  pose proof (evalMulti_denoted (mkRow (all_cols tdef) vals) values (row_env_ok tdef vals Ht) Hwf) as He.
  unfold updated_row in *. destruct (denotes (mkRow (all_cols tdef) vals) values) as [vs|] eqn:Ed; cbn [mbind option_bind] in *.
  2:{ left. destruct He as (e & He). by exists e. }
  right. destruct He as (ws & Ew & Hws). exists ws. apply norm_vals_for in Hws.
  assert (length names = length ws) as Hlw.
  { rewrite Hlen, (denotes_length _ _ _ Ed). apply (f_equal length) in Hws. by rewrite !length_fmap in Hws. }
  destruct (set_cols_ok names ws vals Hnames Hlw (eq_sym Hl)) as (new & En & Hln & Hn). exists new.
  split; [done|]. split; [done|]. rewrite Hnv, Hws in Hn. rewrite <- Hn in *. clear Hn.
  case_bool_decide as Hty.
  2:{ destruct (bad_row tx table new MODE_UPDATE_ONLY Hca Hln) as (req & e & E); [by rewrite <- types_norm|]. by eexists req, e. }
  specialize (Hkey _ eq_refl). specialize (Hnew _ eq_refl). pose proof (proj1 Hnew) as Htn.
  destruct (dbUpdate_ok depth file tdef Hok tx N T (update_req new) (norm <$> new) b Hs Hst (rec_of_row tdef Hok new _ eq_refl Htn) Hnew)
    as (tx' & req & N' & E & Hreq & L & S' & M & O).
  cbn [dr_Mode update_req] in *. rewrite Hkey, Hrow in *.
  assert (row_changed MODE_UPDATE_ONLY (drop (npk tdef) (norm <$> new)) (Some (drop (npk tdef) vals)) =
    negb (bool_decide (norm <$> new = vals))) as Hch.
  { unfold row_changed, row_duplicate. cbn. rewrite <- bool_decide_not. apply bool_decide_ext. split; intros H1 H2; apply H1.
    - by rewrite H2.
    - injection H2 as H2. by rewrite <- (take_drop (npk tdef) (norm <$> new)), Hkey, <- H2, take_drop. }
  unfold update_result in E. rewrite Hch in *. exists tx', req, N'.
  split; [unfold DBTX_Set; rewrite (cached_get depth file tdef _ _ Hca); step_res; exact E|].
  split; [by apply Hreq|]. split; [done|]. split; [done|]. split; [|done].
  case_bool_decide as Heq; cbn [negb] in M; [|exact M]. rewrite Heq, insert_id by done. done.
Qed.

(** ** The loop *)

Definition fits (vals : list Value) : Prop :=
  forall vals', updated_row tdef names values vals = Some vals' -> row_ok tdef vals'.

Lemma update_loop_ok iter recs err : visits depth file fuel iter recs err -> forall rows n tx N T req cnt b,
  upd_Names req = names -> upd_Values req = values ->
  recs = mkRow (all_cols tdef) <$> rows -> (length rows < n)%nat -> cached tdef tx (qs_Table (upd_scan req)) ->
  sees tx N (length rows * (2 * length (td_Indexes tdef)) + b) -> stored tdef T N ->
  Forall (fun vals => T !! take (npk tdef) vals = Some (drop (npk tdef) vals)) rows -> Forall fits rows ->
  NoDup (take (npk tdef) <$> rows) -> 0 <= cnt -> cnt + len rows < 2 ^ 64 ->
  let '(T', changes, all) := update_rows tdef names values T rows in
  exists tx' N' r, update_loop depth file fuel n tx (Some tdef) req iter cnt = Ok (tx', r) /\
    (if (all : bool) then r = match err with None => inl (cnt + changes) | Some e => inr e end else exists e, r = inr e) /\
    later tx tx' /\ sees tx' N' b /\ stored tdef T' N' /\
    (forall key, ~ table_key tdef key -> N' !! key = N !! key).
Proof using Type*.
  induction 1 as [iter HV|iter e HV HD|iter rec iter' recs err HV HD HN _ IH];
    intros rows n tx N T req cnt b En Ev Er Hn Hca Hs Hst Hrows Hfits Hnd H0 Hmax.
  - destruct rows; [|done]. cbn [update_rows]. exists tx, N, (inl cnt). rewrite Z.add_0_r.
    split; [destruct n; cbn [update_loop]; by rewrite HV|]. split; [done|]. split; [reflexivity|]. split; [exact Hs|by split].
  - destruct rows; [|done]. destruct n as [|n]; [cbn in Hn; lia|]. cbn [update_rows]. exists tx, N, (inr e).
    split; [cbn [update_loop]; rewrite HV; cbn [negb]; rewrite HD; reflexivity|]. split; [done|].
    split; [reflexivity|]. split; [exact Hs|by split].
  - destruct rows as [|vals rows]; [done|]. injection Er as -> ->. destruct n as [|n]; [cbn in Hn; lia|].
    apply Forall_cons in Hrows as [Hrow Hrows]. apply Forall_cons in Hfits as [Hfit Hfits].
    rewrite fmap_cons in Hnd. apply NoDup_cons in Hnd as [Hnew Hnd].
    cbn [length] in Hn, Hs. rewrite len_cons in Hmax. pose proof (len_nonneg rows) as Hlr.
    assert (sees tx N (2 * length (td_Indexes tdef) + (length rows * (2 * length (td_Indexes tdef)) + b))) as Hs1.
    { rewrite Nat.add_assoc. exact Hs. }
    cbn [update_rows update_loop]. rewrite HV. cbn [negb]. rewrite HD. step_res. rewrite En, Ev. cbn [rec_Vals rec_Cols].
    destruct (update_one tx N T (qs_Table (upd_scan req)) vals _ Hca Hs1 Hst Hrow Hfit) as [(e & E & ->)|(ws & new & E & Es & Hres)].
    { rewrite E. step_res. exists tx, N, (inr e). split; [done|]. split; [by exists e|]. split; [reflexivity|].
      split; [eapply kv_sees_weaken; [exact Hs|lia]|by split]. }
    rewrite E. step_res. rewrite Es. step_res. fold (update_req new).
    destruct (updated_row tdef names values vals) as [vals'|] eqn:Eu.
    2:{ destruct Hres as (dr & e & ->). step_res. exists tx, N, (inr e). split; [done|]. split; [by exists e|]. split; [reflexivity|].
      split; [eapply kv_sees_weaken; [exact Hs|lia]|by split]. }
    destruct Hres as (tx1 & dr & N1 & Ed & Hdr & L1 & S1 & M1 & O1). rewrite Ed. step_res. rewrite Hdr, Bool.eqb_reflx. step_res.
    rewrite HN. step_res.
    set (T1 := <[take (npk tdef) vals := drop (npk tdef) vals']> T) in *.
    set (cnt1 := if negb (bool_decide (vals' = vals)) then u64 (cnt + 1) else cnt).
    assert (cnt1 = cnt + if bool_decide (vals' = vals) then 0 else 1) as Hc1.
    { unfold cnt1. destruct (bool_decide _); cbn [negb]; [lia|apply u64_small; lia]. }
    assert (0 <= cnt1 <= cnt + 1) as Hb1 by (rewrite Hc1; destruct (bool_decide _); lia).
    specialize (IH rows n tx1 N1 T1 req cnt1 b En Ev eq_refl ltac:(lia) (cached_later depth file tdef _ _ _ L1 Hca) S1 M1).
    destruct (update_rows tdef names values T1 rows) as [[T2 changes] all].
    destruct IH as (tx2 & N2 & r & E2 & Hr & L2 & S2 & M2 & O2); [|done|done|lia|lia|].
    { rewrite Forall_forall in Hrows |- *. intros v Hin. unfold T1. rewrite lookup_insert_ne; [by apply Hrows|].
      intros Ek. apply Hnew. rewrite Ek. by apply (list_elem_of_fmap_2 (take (npk tdef))). }
    exists tx2, N2, r. split; [exact E2|]. split.
    { destruct all; [|exact Hr]. rewrite Hr, Hc1. destruct err; [done|]. destruct (bool_decide _); f_equal; lia. }
    split; [by transitivity tx1|]. split; [exact S2|]. split; [exact M2|]. intros key Hk. by rewrite O2, O1.
Qed.

End update.

(** ** The statement *)

(** C13.  A parsed UPDATE that sets existing columns outside the primary key,
    for a table whose primary key columns come first and whose schema is cached
    or internal, over a range of its first index, in a transaction with
    [range_view] (no key deleted before, trees of at most two levels; else the
    scan can panic), refines a fold over the rows the scan selects (those of the
    range that satisfy the filter, cut by offset and limit), if the new rows and
    each of their index keys have at most 277 bytes encoded ([fits]; longer ones
    are not covered). Each row becomes the row with the denoted values of the
    expressions, computed from the row before the statement, with the keys of
    its secondary indexes. Other rows and other tables' keys stay. The count is
    the number of rows that differ afterwards. If an expression has no value or
    one of the wrong type, or the filter fails, the error is returned after the
    updates before it (the executor then undoes them). *)
Theorem execUpdate_refines depth file fuel tdef tx N T req sreq (scan := upd_scan req) : table_ok tdef ->
  cached tdef tx (qs_Table scan) -> stored tdef T N -> range_view depth file (dt_kv tx) N -> td_Cols tdef = all_cols tdef ->
  stmt_ok (StUpdate req) = true -> upd_Names req ⊆ td_Cols tdef -> (forall c, c ∈ upd_Names req -> c ∉ pk_cols tdef) ->
  initScanner scan = Ok (inl sreq) -> opposite_cmps (sr_Cmp1 sreq) (sr_Cmp2 sreq) ->
  bound_ok tdef (sr_Key1 sreq) -> bound_ok tdef (sr_Key2 sreq) -> scan_index tdef sreq = 0 -> 0 <= qs_Offset scan ->
  exists rows, StronglySorted (row_before tdef (sr_Cmp1 sreq) (pk_cols tdef)) rows /\
    (forall vals, vals ∈ rows <->
       T !! take (npk tdef) vals = Some (drop (npk tdef) vals) /\ row_in tdef sreq (pk_cols tdef) vals = true) /\
    let sel := limited (qs_Offset scan) (qs_Limit scan) (matching (qs_Filter scan) (mkRow (all_cols tdef) <$> rows)) in
    forall b, db_sees (KVPromise0 := tx_promise depth file) tx N (length rows * (2 * length (td_Indexes tdef)) + b) ->
    (length rows < fuel)%nat -> len rows < 2 ^ 63 -> Forall (fits tdef (upd_Names req) (upd_Values req)) rows ->
    exists chosen, sel.1 = mkRow (all_cols tdef) <$> chosen /\ chosen `sublist_of` rows /\
      let '(T', changes, all) := update_rows tdef (upd_Names req) (upd_Values req) T chosen in
      exists tx' N' r, execUpdate depth file fuel tx req = Ok (tx', r) /\
        (if all then r = match sel.2 with None => inl changes | Some e => inr e end else exists e, r = inr e) /\
        db_later (KVPromise0 := tx_promise depth file) tx tx' /\ db_sees (KVPromise0 := tx_promise depth file) tx' N' b /\
        stored tdef T' N' /\ (forall key, ~ table_key tdef key -> N' !! key = N !! key).
Proof.
  intros Hok Hca Hst Hview Hfirst Hstmt Hnames Hpk Hinit Hc Hb1 Hb2 Hi Ho.
  cbn [stmt_ok] in Hstmt. rewrite !andb_true_iff in Hstmt. destruct Hstmt as [[Hscan Hlen%Nat.eqb_eq] Hwf].
  destruct (scan_visits depth file fuel tdef Hok tx N T scan sreq Hca Hst Hview Hscan Hinit Hc Hb1 Hb2 Hi Ho) as (rows & Hs & Hel & Hv).
  exists rows. split; [exact Hs|]. split; [exact Hel|]. intros sel b Hsees Hf Hmax Hfits.
  destruct (Hv Hf Hmax) as (reads & iter & chosen & Esel & Hsub & Hrows & Hnd & E & Hvis). pose proof (sublist_length _ _ Hsub) as Hl.
  exists chosen. split; [done|]. split; [done|].
  assert (length chosen * (2 * length (td_Indexes tdef)) <= length rows * (2 * length (td_Indexes tdef)))%nat as Hroom by by apply Nat.mul_le_mono_r.
  set (tx1 := set_kv tx (set_reads (dt_kv tx) reads)) in *.
  pose proof (update_loop_ok depth file fuel tdef Hok Hfirst (upd_Names req) (upd_Values req) Hnames Hpk Hlen Hwf _ _ _ Hvis
    chosen fuel tx1 N T req 0 b eq_refl eq_refl eq_refl ltac:(lia) Hca) as Hloop.
  destruct (update_rows _ _ _ T chosen) as [[T' changes] all].
  destruct Hloop as (tx' & N' & r & Eu & Hr & L & S' & M & O); [|exact Hst|exact Hrows| |exact Hnd|lia|unfold len in *; lia|].
  { eapply kv_sees_weaken; [exact Hsees|lia]. }
  { rewrite Forall_forall in Hfits |- *. intros vals Hin. apply Hfits. by eapply elem_of_sublist. }
  exists tx', N', r. split; [|split; [done|split; [by transitivity tx1|by split]]].
  unfold execUpdate. rewrite assert_true by (unfold len; lia). step_res. rewrite (cached_get depth file tdef) by exact Hca. step_res.
  rewrite check_update_cols_ok by done. step_res. fold scan. rewrite E. step_res. exact Eu.
Qed.

(** ** UPDATE pets SET name = name + "!" INDEX BY id >= 3 *)

Definition louder : QLUpdate :=
  mkQLUpdate scan_pets [col_name] [mkQLNode QL_ADD 0 [] [mkQLNode QL_SYM 0 col_name []; mkQLNode QL_STR 0 (bytes_of "!") []]].

Example execUpdate_refines_witness : exists tx tx' N', execUpdate 9 [] 2 tx louder = Ok (tx', inl 1) /\
  stored plain_pets {[[int_val 7] := [str_val "rex!"]]} N'.
Proof.
  destruct rex_room as (tx & Hsees & Hca & Hview).
  destruct (execUpdate_refines 9 [] 2 plain_pets tx _ _ louder
    (mkScanReq CMP_GE CMP_LE (mkRow [col_id] [int_val 3]) no_row) plain_pets_ok Hca plain_stored Hview) as (rows & Hs & Hel & Hupd).
  - reflexivity.
  - reflexivity.
  - apply (bool_decide_eq_true_1 _); vm_compute; reflexivity.
  - intros c Hc%list_elem_of_singleton Hp%list_elem_of_singleton. subst c. discriminate Hp.
  - reflexivity.
  - split; [by left|]. split; [by right; right; right|]. left. split; reflexivity.
  - constructor; [|constructor]. split; [left|]. split; [left; by repeat split|reflexivity].
  - constructor.
  - reflexivity.
  - done.
  - apply rex_rows with (sreq := mkScanReq CMP_GE CMP_LE (mkRow [col_id] [int_val 3]) no_row) in Hs; [|exact Hel|by vm_compute]. subst rows.
    assert (updated_row plain_pets (upd_Names louder) (upd_Values louder) rex = Some [int_val 7; str_val "rex!"]) as Hnew by by vm_compute.
    destruct (Hupd 0%nat) as (chosen & Ec & _ & H); [exact Hsees|cbn; lia|done| |].
    { apply Forall_singleton. intros vals'. rewrite Hnew. intros [= <-]. split; [|split; [|by apply Forall_nil]].
      - repeat (constructor; [split; [|done]|]); [left|right|constructor]; by repeat split.
      - unfold small_kv, SMALL_COST. vm_compute. lia. }
    destruct chosen as [|x [|y chosen]]; [by vm_compute in Ec| |by vm_compute in Ec].
    assert (x = rex) as -> by (vm_compute in Ec |- *; by injection Ec).
    cbn [update_rows] in H. rewrite Hnew in H. destruct H as (tx' & N' & r & E & Hr & _ & _ & Hst & _).
    exists tx, tx', N'. split; [by rewrite E, Hr|].
    rewrite insert_singleton_eq in Hst. exact Hst.
Defined.
